(** * Background DS1820 sensing: the cooperative 1-Wire interpreter and
      the device search, embedded from AsyncTemperatures.h and
      SensorDiscovery.h.

    Bytes are [Z] in [0, 256) with the wrap-around written out.  The bus, the
    pins and the serial line are recorded in the state; what the line reads
    back is an oracle over the history of bus events. *)

From Stdlib Require Import ZArith QArith Lia Bool Ascii String DecimalString.
From stdpp Require Import base list.

Open Scope Z_scope.

(** ** The bus and the pins *)

(** What the master does on the line, in order.  [TimerWait] is the holdoff
    the TIMER2 interrupt programs after a timeslice. *)
Inductive BusEvent : Type :=
| PullLow
| ReleaseBus
| SampleBus (level : bool)
| DelayUs (us : Z)
| TimerWait (tics : Z).

(** The fields of [AsyncTemperatureReader] outside the instruction stack,
    with the pins, the serial line and the bus history they act on. *)
Record Regs : Type := mkRegs {
  status : Z;
  receiveRegister : Z;
  deviceAddr : list Z;
  idByteIndex : Z;
  sPad : list Z;
  ledAlert : bool;
  debugLine : bool;
  debugOutput : bool;
  serial : list string;
  busLog : list BusEvent
}.

Definition set_status (v : Z) (r : Regs) : Regs :=
  mkRegs v (receiveRegister r) (deviceAddr r) (idByteIndex r) (sPad r)
         (ledAlert r) (debugLine r) (debugOutput r) (serial r) (busLog r).
Definition set_receiveRegister (v : Z) (r : Regs) : Regs :=
  mkRegs (status r) v (deviceAddr r) (idByteIndex r) (sPad r)
         (ledAlert r) (debugLine r) (debugOutput r) (serial r) (busLog r).
Definition set_deviceAddr (v : list Z) (r : Regs) : Regs :=
  mkRegs (status r) (receiveRegister r) v (idByteIndex r) (sPad r)
         (ledAlert r) (debugLine r) (debugOutput r) (serial r) (busLog r).
Definition set_idByteIndex (v : Z) (r : Regs) : Regs :=
  mkRegs (status r) (receiveRegister r) (deviceAddr r) v (sPad r)
         (ledAlert r) (debugLine r) (debugOutput r) (serial r) (busLog r).
Definition set_sPad (v : list Z) (r : Regs) : Regs :=
  mkRegs (status r) (receiveRegister r) (deviceAddr r) (idByteIndex r) v
         (ledAlert r) (debugLine r) (debugOutput r) (serial r) (busLog r).
Definition set_ledAlert (v : bool) (r : Regs) : Regs :=
  mkRegs (status r) (receiveRegister r) (deviceAddr r) (idByteIndex r) (sPad r)
         v (debugLine r) (debugOutput r) (serial r) (busLog r).
Definition set_debugLine (v : bool) (r : Regs) : Regs :=
  mkRegs (status r) (receiveRegister r) (deviceAddr r) (idByteIndex r) (sPad r)
         (ledAlert r) v (debugOutput r) (serial r) (busLog r).
Definition set_debugOutput (v : bool) (r : Regs) : Regs :=
  mkRegs (status r) (receiveRegister r) (deviceAddr r) (idByteIndex r) (sPad r)
         (ledAlert r) (debugLine r) v (serial r) (busLog r).
Definition set_serial (v : list string) (r : Regs) : Regs :=
  mkRegs (status r) (receiveRegister r) (deviceAddr r) (idByteIndex r) (sPad r)
         (ledAlert r) (debugLine r) (debugOutput r) v (busLog r).
Definition set_busLog (v : list BusEvent) (r : Regs) : Regs :=
  mkRegs (status r) (receiveRegister r) (deviceAddr r) (idByteIndex r) (sPad r)
         (ledAlert r) (debugLine r) (debugOutput r) (serial r) v.

Definition logEvent (e : BusEvent) (r : Regs) : Regs :=
  set_busLog (busLog r ++ [e]) r.

(** [byte] and [unsigned int] conversions of the AVR target. *)
Definition byte (x : Z) : Z := x mod 256.
Definition uint16 (x : Z) : Z := x mod 65536.

(** ** Constants of AsyncTemperatures.h *)

Definition stackSize : Z := 20.

Definition STARTCONVO : Z := 0x44.
Definition READSCRATCH : Z := 0xBE.
Definition SELECTDEVICE : Z := 0x55.
Definition SKIPROMWILDCARD : Z := 0xCC.

Definition Success : Z := 0x00.
Definition StillBusy : Z := 0x01.
Definition NoDeviceOnBus : Z := 0x02.
Definition DevicesAreBusy : Z := 0x04.

Definition BusLow : Z := 1.
Definition ReadRemainingBits : Z := 2.
Definition SendRemainingBits : Z := 3.
Definition SendRemainingIDBytes : Z := 4.
Definition WaitForBusRelease : Z := 5.
Definition BusRelease : Z := 6.
Definition ClearBusyStatus : Z := 7.
Definition BusSample : Z := 8.
Definition TestTimings : Z := 9.
Definition ReadScratchPad : Z := 10.
Definition StartIDSend : Z := 11.
Definition Reset : Z := 12.
Definition Yield : Z := 13.

Definition Micros55 : Z := 8.
Definition Micros60 : Z := 10.
Definition Micros64 : Z := 10.
Definition Micros70 : Z := 11.
Definition Micros410 : Z := 96.
Definition Micros480 : Z := 110.

(** ** Statements: state, early return, out-of-bounds access *)

(** A statement run from a state either falls through with a value, ends the
    timeslice with a holdoff ([return tics]), or accesses an array outside
    its bounds, where C++ leaves the behaviour undefined; [Fault] keeps the
    state in which that access happened. *)
Inductive res (S A : Type) : Type :=
| Next (a : A) (s : S)
| Exit (tics : Z) (s : S)
| Fault (s : S).
Arguments Next {S A} a s.
Arguments Exit {S A} tics s.
Arguments Fault {S A} s.

Definition M (S A : Type) : Type := S -> res S A.

Definition ret {S A} (a : A) : M S A := fun s => Next a s.

Definition bind {S A B} (m : M S A) (k : A -> M S B) : M S B :=
  fun s =>
    match m s with
    | Next a s' => k a s'
    | Exit t s' => Exit t s'
    | Fault s' => Fault s'
    end.

#[global] Instance M_ret {S} : MRet (M S) := fun _ a => ret a.
#[global] Instance M_bind {S} : MBind (M S) := fun _ _ k m => bind m k.

Definition exit {S A} (tics : Z) : M S A := fun s => Exit tics s.
Definition skip {S} : M S unit := ret tt.
Definition when {S} (c : bool) (m : M S unit) : M S unit :=
  if c then m else skip.

(** The state a statement leaves behind, whichever way it ends. *)
Definition stateOf {S A} (r : res S A) : S :=
  match r with
  | Next _ s => s
  | Exit _ s => s
  | Fault s => s
  end.

(** ** The instruction stack as the class has it *)

Record machine : Type := mkMachine {
  theCode : list Z;
  topOfStack : Z;
  stackHighTide : Z;
  stackSnapshot : list Z;
  regs : Regs
}.

Definition set_theCode (v : list Z) (s : machine) : machine :=
  mkMachine v (topOfStack s) (stackHighTide s) (stackSnapshot s) (regs s).
Definition set_topOfStack (v : Z) (s : machine) : machine :=
  mkMachine (theCode s) v (stackHighTide s) (stackSnapshot s) (regs s).
Definition set_stackHighTide (v : Z) (s : machine) : machine :=
  mkMachine (theCode s) (topOfStack s) v (stackSnapshot s) (regs s).
Definition set_stackSnapshot (v : list Z) (s : machine) : machine :=
  mkMachine (theCode s) (topOfStack s) (stackHighTide s) v (regs s).
Definition set_regs (v : Regs) (s : machine) : machine :=
  mkMachine (theCode s) (topOfStack s) (stackHighTide s) (stackSnapshot s) v.

(** [a[i]] and [a[i] = v] on an array held as a list. *)
Definition inBounds {A} (i : Z) (a : list A) : bool :=
  (0 <=? i) && (i <? Z.of_nat (length a)).

Definition readAt {A} (i : Z) (a : list A) : option A :=
  if inBounds i a then a !! Z.to_nat i else None.

Definition writeAt {A} (i : Z) (v : A) (a : list A) : option (list A) :=
  if inBounds i a then Some (<[Z.to_nat i := v]> a) else None.

Module ArrayStack.

Definition flushStack (s : machine) : machine := set_topOfStack 0 s.

(** The two snapshot loops of [push]: fill with 0xFF, then copy
    [theCode[0 .. topOfStack)]. *)
Definition snapshot : M machine unit := fun s =>
  let n := Z.to_nat (topOfStack s) in
  if (topOfStack s <=? stackSize) && (topOfStack s <=? Z.of_nat (length (theCode s)))
  then Next tt (set_stackSnapshot
                  (take n (theCode s) ++ replicate (Z.to_nat stackSize - n) 0xFF) s)
  else Fault s.

Definition push (opCode : Z) : M machine unit := fun s =>
  if stackSize <=? topOfStack s then
    let r := set_serial (serial (regs s) ++ ["Stack overflow"%string])
                        (set_ledAlert true (regs s)) in
    snapshot (set_regs r s)
  else
    match writeAt (topOfStack s) opCode (theCode s) with
    | None => Fault s
    | Some code =>
        let s := set_theCode code s in
        let s := set_topOfStack (byte (topOfStack s + 1)) s in
        if stackHighTide s <=? topOfStack s
        then snapshot (set_stackHighTide (topOfStack s) s)
        else Next tt s
    end.

(** [theCode[--topOfStack]]. *)
Definition pop : M machine Z := fun s =>
  let s := set_topOfStack (byte (topOfStack s - 1)) s in
  match readAt (topOfStack s) (theCode s) with
  | Some v => Next v s
  | None => Fault s
  end.

Definition stackEmpty (s : machine) : bool := topOfStack s =? 0.

End ArrayStack.

(** ** The interpreter, written once over the stack operations *)

Class Stack (S : Type) : Type := {
  getRegs : S -> Regs;
  withRegs : Regs -> S -> S;
  stackEmpty : S -> bool;
  flushStack : S -> S;
  push : Z -> M S unit;
  pop : M S Z
}.

#[global] Instance arrayStack : Stack machine := {|
  getRegs := regs;
  withRegs := set_regs;
  stackEmpty := ArrayStack.stackEmpty;
  flushStack := ArrayStack.flushStack;
  push := ArrayStack.push;
  pop := ArrayStack.pop
|}.

Section Interpreter.

Context {S : Type} `{Stack S}.

(** The level the line shows when sampled, given everything that happened
    on it so far. *)
Variable bus : list BusEvent -> bool.

Definition onRegs (f : Regs -> Regs) : M S unit :=
  fun s => Next tt (withRegs (f (getRegs s)) s).

Definition readRegs {A} (f : Regs -> A) : M S A :=
  fun s => Next (f (getRegs s)) s.

Definition pullBusLow : M S unit := onRegs (logEvent PullLow).
Definition releaseBus : M S unit := onRegs (logEvent ReleaseBus).
Definition sampleBus : M S Z := fun s =>
  let b := bus (busLog (getRegs s)) in
  Next (Z.b2z b) (withRegs (logEvent (SampleBus b) (getRegs s)) s).
Definition delay_us (us : Z) : M S unit := onRegs (logEvent (DelayUs us)).

Definition alertOn : M S unit := onRegs (set_ledAlert true).
Definition writeDebugPin (v : bool) : M S unit := onRegs (set_debugLine v).
Definition toggleDebugLine : M S unit :=
  onRegs (fun r => set_debugOutput (negb (debugOutput r))
                     (set_debugLine (debugOutput r) r)).

(** [sPad[i] = v] and [deviceAddr[i]] on the caller's buffers. *)
Definition storeSPad (i v : Z) : M S unit := fun s =>
  match writeAt i v (sPad (getRegs s)) with
  | Some p => Next tt (withRegs (set_sPad p (getRegs s)) s)
  | None => Fault s
  end.

Definition loadDeviceAddr (i : Z) : M S Z := fun s =>
  match readAt i (deviceAddr (getRegs s)) with
  | Some v => Next v s
  | None => Fault s
  end.

Definition pushSendOneByte (b : Z) : M S unit :=
  push b ;; push 8 ;; push SendRemainingBits.

Definition YieldFor (numberOfTics : Z) : M S unit :=
  push numberOfTics ;; push Yield.

(** One pass through the body of the [do ... while (true)] of
    [doTimeslice]. *)
Definition doTimesliceBody : M S unit := fun s =>
  if stackEmpty s then Exit 255 s else
  (opCode ← pop;
   if opCode =? BusLow then
     pullBusLow
   else if opCode =? BusRelease then
     releaseBus ;; delay_us 10
   else if opCode =? SendRemainingBits then
     bitsToGo ← pop;
     toSend ← pop;
     let theBitToSend := Z.land toSend 0x01 in
     let bitsToGo := byte (bitsToGo - 1) in
     when (0 <? bitsToGo)
          (push (Z.shiftr toSend 1) ;; push bitsToGo ;; push SendRemainingBits) ;;
     if theBitToSend =? 1 then
       pullBusLow ;; delay_us 6 ;; releaseBus ;; YieldFor Micros64
     else
       pullBusLow ;; push BusRelease ;; YieldFor Micros60
   else if opCode =? ClearBusyStatus then
     onRegs (fun r => set_status (byte (Z.land (status r) (Z.lnot StillBusy))) r)
   else if opCode =? ReadScratchPad then
     push Reset ;;
     onRegs (set_receiveRegister 0) ;;
     push 0 ;;
     push ReadRemainingBits ;;
     pushSendOneByte READSCRATCH ;;
     push StartIDSend ;;
     push Reset
   else if opCode =? ReadRemainingBits then
     writeDebugPin false ;;
     pullBusLow ;; delay_us 6 ;; releaseBus ;; delay_us 9 ;;
     thisBit ← sampleBus;
     writeDebugPin true ;;
     bitPos ← pop;
     when (negb (thisBit =? 0))
          (onRegs (fun r => set_receiveRegister
                              (Z.lor (receiveRegister r)
                                     (byte (Z.shiftl 0x01 (bitPos mod 8)))) r)) ;;
     let bitPos := byte (bitPos + 1) in
     (if bitPos mod 8 =? 0 then
        let sPadIndx := byte (bitPos / 8 - 1) in
        rr ← readRegs receiveRegister;
        storeSPad sPadIndx rr ;;
        onRegs (set_receiveRegister 0) ;;
        when (bitPos <? 72) (push bitPos ;; push ReadRemainingBits)
      else
        push bitPos ;; push ReadRemainingBits) ;;
     YieldFor Micros55
   else if opCode =? StartIDSend then
     onRegs (set_idByteIndex 0) ;;
     push SendRemainingIDBytes ;;
     pushSendOneByte SELECTDEVICE
   else if opCode =? SendRemainingIDBytes then
     idx ← readRegs idByteIndex;
     when (idx <? 8)
          (push SendRemainingIDBytes ;;
           b ← loadDeviceAddr idx;
           onRegs (set_idByteIndex (byte (idx + 1))) ;;
           push b ;;
           push 8 ;;
           push SendRemainingBits)
   else if opCode =? Reset then
     YieldFor Micros410 ;;
     push BusSample ;;
     YieldFor Micros70 ;;
     push BusRelease ;;
     YieldFor Micros480 ;;
     push BusLow
   else if opCode =? Yield then
     tics ← pop;
     exit tics
   else if opCode =? BusSample then
     releaseBus ;;
     thisBit ← sampleBus;
     when (thisBit =? 1)
          (onRegs (fun r => set_status (Z.lor (status r) NoDeviceOnBus) r) ;;
           alertOn)
   else if opCode =? WaitForBusRelease then
     releaseBus ;;
     thisBit ← sampleBus;
     if thisBit =? 0 then
       push WaitForBusRelease ;; YieldFor 255
     else
       onRegs (fun r => set_status (byte (Z.land (status r) (Z.lnot DevicesAreBusy))) r)
   else if opCode =? TestTimings then
     releaseBus ;; delay_us 10 ;;
     loByte ← pop;
     hiByte ← pop;
     let toGo := Z.lor (uint16 (Z.shiftl hiByte 8)) loByte in
     let again := 1 <? toGo in
     let toGo := if again then toGo - 1 else toGo in
     when again
          (push (byte (Z.shiftr toGo 8)) ;;
           push (Z.land toGo 0xFF) ;;
           push TestTimings) ;;
     pullBusLow ;;
     let sel := toGo mod 5 in
     if sel =? 0 then YieldFor Micros480
     else if sel =? 1 then YieldFor Micros70
     else if sel =? 2 then YieldFor Micros64
     else if sel =? 3 then toggleDebugLine ;; YieldFor Micros55
     else YieldFor Micros55
   else
     skip) s.

(** [doTimeslice]: the body repeated until it returns.  [None] when no
    holdoff is returned within [fuel] passes, or when a pass accessed an
    array out of bounds. *)
Fixpoint doTimeslice (fuel : nat) (s : S) : option (Z * S) :=
  match fuel with
  | O => None
  | Datatypes.S fuel' =>
      match doTimesliceBody s with
      | Next _ s' => doTimeslice fuel' s'
      | Exit tics s' => Some (tics, s')
      | Fault _ => None
      end
  end.

(** *** The session calls (between [cli()] and [sei()]) *)

Definition readScratchpadAsync (deviceAddress scratchPad : list Z) : M S unit :=
  onRegs (set_deviceAddr deviceAddress) ;;
  onRegs (set_sPad scratchPad) ;;
  (fun s => Next tt (flushStack s)) ;;
  onRegs (set_status StillBusy) ;;
  push ClearBusyStatus ;;
  push ReadScratchPad.

Definition resetAsync : M S unit :=
  (fun s => Next tt (flushStack s)) ;;
  onRegs (set_status StillBusy) ;;
  push ClearBusyStatus ;;
  push Reset.

Definition convertAllTemperaturesAsync : M S unit :=
  (fun s => Next tt (flushStack s)) ;;
  onRegs (set_status DevicesAreBusy) ;;
  push WaitForBusRelease ;;
  pushSendOneByte STARTCONVO ;;
  pushSendOneByte SKIPROMWILDCARD ;;
  push Reset.

Definition doTestTimings (repeats : Z) : M S unit :=
  (fun s => Next tt (flushStack s)) ;;
  onRegs (set_status StillBusy) ;;
  push ClearBusyStatus ;;
  push BusRelease ;;
  push (byte (Z.shiftr (uint16 repeats) 8)) ;;
  push (Z.land (uint16 repeats) 0xFF) ;;
  push TestTimings.

Definition getStatus (s : S) : Z := status (getRegs s).

(** [begin]: the stack is flushed; the timer registers are outside the
    model. *)
Definition begin (s : S) : S := flushStack s.

(** The TIMER2 compare interrupt: one timeslice, then the timer is
    programmed with the holdoff it returned. *)
Definition ISR (fuel : nat) (s : S) : option S :=
  match doTimeslice fuel s with
  | Some (tics, s') => Some (withRegs (logEvent (TimerWait tics) (getRegs s')) s')
  | None => None
  end.

End Interpreter.

(** ** The same stack seen as a list, top first

    A second set of stack operations: the live part of [theCode], top of
    stack first, with the capacity check of [push] and nothing of the
    diagnostics.  The interpreter above runs on it unchanged, and the
    simulation lemmas below carry results back to [machine]. *)

Record lmachine : Type := mkL {
  lstack : list Z;
  lregs : Regs
}.

Module ListStack.

Definition flushStack (a : lmachine) : lmachine := mkL [] (lregs a).

Definition push (opCode : Z) : M lmachine unit := fun a =>
  if stackSize <=? Z.of_nat (length (lstack a)) then
    Next tt (mkL (lstack a)
                 (set_serial (serial (lregs a) ++ ["Stack overflow"%string])
                             (set_ledAlert true (lregs a))))
  else Next tt (mkL (opCode :: lstack a) (lregs a)).

Definition pop : M lmachine Z := fun a =>
  match lstack a with
  | [] => Fault a
  | v :: rest => Next v (mkL rest (lregs a))
  end.

Definition stackEmpty (a : lmachine) : bool :=
  match lstack a with
  | [] => true
  | _ :: _ => false
  end.

End ListStack.

#[global] Instance listStack : Stack lmachine := {|
  getRegs := lregs;
  withRegs := fun r a => mkL (lstack a) r;
  stackEmpty := ListStack.stackEmpty;
  flushStack := ListStack.flushStack;
  push := ListStack.push;
  pop := ListStack.pop
|}.

(** The live part of the array, top of stack first. *)
Definition stackOf (s : machine) : list Z :=
  reverse (take (Z.to_nat (topOfStack s)) (theCode s)).

(** A well-formed [machine]: the array has its declared size and the top
    index is within it. *)
Definition wf (s : machine) : Prop :=
  length (theCode s) = Z.to_nat stackSize /\ 0 <= topOfStack s <= stackSize.

Definition view (s : machine) (a : lmachine) : Prop :=
  wf s /\ stackOf s = lstack a /\ regs s = lregs a.

Definition toList (s : machine) : lmachine := mkL (stackOf s) (regs s).

Definition simRes {A} (r1 : res machine A) (r2 : res lmachine A) : Prop :=
  match r1, r2 with
  | Next x s, Next y a => x = y /\ view s a
  | Exit t s, Exit u a => t = u /\ view s a
  | Fault _, Fault _ => True
  | _, _ => False
  end.

Definition simM {A} (m1 : M machine A) (m2 : M lmachine A) : Prop :=
  forall s a, view s a -> simRes (m1 s) (m2 a).

(** The object as a zero-initialised global, before [begin]. *)
Definition zeroRegs : Regs :=
  mkRegs 0 0 [] 0 [] false false false [] [].

Definition powerOn : machine :=
  mkMachine (replicate (Z.to_nat stackSize) 0) 0 0 (replicate (Z.to_nat stackSize) 0) zeroRegs.

(** ** The stack as a sequence of instructions

    An opcode with its operand bytes, as [doTimeslice] pops them: opcode
    first, then the operands in the order of the [pop()] calls. *)

Inductive instr : Type :=
| IBusLow
| IReadRemainingBits (bitPos : Z)
| ISendRemainingBits (bitsToGo toSend : Z)
| ISendRemainingIDBytes
| IWaitForBusRelease
| IBusRelease
| IClearBusyStatus
| IBusSample
| ITestTimings (loByte hiByte : Z)
| IReadScratchPad
| IStartIDSend
| IReset
| IYield (tics : Z).

Definition encode1 (i : instr) : list Z :=
  match i with
  | IBusLow => [BusLow]
  | IReadRemainingBits bitPos => [ReadRemainingBits; bitPos]
  | ISendRemainingBits bitsToGo toSend => [SendRemainingBits; bitsToGo; toSend]
  | ISendRemainingIDBytes => [SendRemainingIDBytes]
  | IWaitForBusRelease => [WaitForBusRelease]
  | IBusRelease => [BusRelease]
  | IClearBusyStatus => [ClearBusyStatus]
  | IBusSample => [BusSample]
  | ITestTimings loByte hiByte => [TestTimings; loByte; hiByte]
  | IReadScratchPad => [ReadScratchPad]
  | IStartIDSend => [StartIDSend]
  | IReset => [Reset]
  | IYield tics => [Yield; tics]
  end.

(** A program, next instruction first, as the bytes of the stack, top
    first. *)
Fixpoint encode (p : list instr) : list Z :=
  match p with
  | [] => []
  | i :: rest => encode1 i ++ encode rest
  end.

Definition size (p : list instr) : Z := Z.of_nat (length (encode p)).

(** The expansion of [Reset], in execution order. *)
Definition resetProgram : list instr :=
  [IBusLow; IYield Micros480; IBusRelease; IYield Micros70; IBusSample; IYield Micros410].

(** The effect of one instruction other than [Yield], read off the cases of
    [doTimeslice]: the instructions it leaves on the stack in its place
    (next first) and the registers afterwards; [None] where the case
    indexes a caller's buffer out of bounds. *)
Definition istep (bus : list BusEvent -> bool) (i : instr) (r : Regs)
  : option (list instr * Regs) :=
  match i with
  | IBusLow => Some ([], logEvent PullLow r)
  | IBusRelease => Some ([], logEvent (DelayUs 10) (logEvent ReleaseBus r))
  | ISendRemainingBits bitsToGo toSend =>
      let bitsToGo := byte (bitsToGo - 1) in
      let more := if 0 <? bitsToGo
                  then [ISendRemainingBits bitsToGo (Z.shiftr toSend 1)] else [] in
      if Z.land toSend 0x01 =? 1
      then Some (IYield Micros64 :: more,
                 logEvent ReleaseBus (logEvent (DelayUs 6) (logEvent PullLow r)))
      else Some (IYield Micros60 :: IBusRelease :: more, logEvent PullLow r)
  | IClearBusyStatus =>
      Some ([], set_status (byte (Z.land (status r) (Z.lnot StillBusy))) r)
  | IReadScratchPad =>
      Some ([IReset; IStartIDSend; ISendRemainingBits 8 READSCRATCH;
             IReadRemainingBits 0; IReset],
            set_receiveRegister 0 r)
  | IReadRemainingBits bitPos =>
      let r := logEvent (DelayUs 9) (logEvent ReleaseBus (logEvent (DelayUs 6)
                 (logEvent PullLow (set_debugLine false r)))) in
      let thisBit := bus (busLog r) in
      let r := set_debugLine true (logEvent (SampleBus thisBit) r) in
      let r := if thisBit
               then set_receiveRegister
                      (Z.lor (receiveRegister r) (byte (Z.shiftl 0x01 (bitPos mod 8)))) r
               else r in
      let bitPos := byte (bitPos + 1) in
      if bitPos mod 8 =? 0 then
        match writeAt (byte (bitPos / 8 - 1)) (receiveRegister r) (sPad r) with
        | None => None
        | Some pad =>
            Some (IYield Micros55 ::
                    (if bitPos <? 72 then [IReadRemainingBits bitPos] else []),
                  set_receiveRegister 0 (set_sPad pad r))
        end
      else Some ([IYield Micros55; IReadRemainingBits bitPos], r)
  | IStartIDSend =>
      Some ([ISendRemainingBits 8 SELECTDEVICE; ISendRemainingIDBytes],
            set_idByteIndex 0 r)
  | ISendRemainingIDBytes =>
      if idByteIndex r <? 8 then
        match readAt (idByteIndex r) (deviceAddr r) with
        | None => None
        | Some b =>
            Some ([ISendRemainingBits 8 b; ISendRemainingIDBytes],
                  set_idByteIndex (byte (idByteIndex r + 1)) r)
        end
      else Some ([], r)
  | IReset => Some (resetProgram, r)
  | IYield _ => Some ([], r)
  | IBusSample =>
      let r := logEvent ReleaseBus r in
      let thisBit := bus (busLog r) in
      let r := logEvent (SampleBus thisBit) r in
      if thisBit
      then Some ([], set_ledAlert true (set_status (Z.lor (status r) NoDeviceOnBus) r))
      else Some ([], r)
  | IWaitForBusRelease =>
      let r := logEvent ReleaseBus r in
      let thisBit := bus (busLog r) in
      let r := logEvent (SampleBus thisBit) r in
      if thisBit
      then Some ([], set_status (byte (Z.land (status r) (Z.lnot DevicesAreBusy))) r)
      else Some ([IYield 255; IWaitForBusRelease], r)
  | ITestTimings loByte hiByte =>
      let r := logEvent (DelayUs 10) (logEvent ReleaseBus r) in
      let toGo := Z.lor (uint16 (Z.shiftl hiByte 8)) loByte in
      let again := 1 <? toGo in
      let toGo := if again then toGo - 1 else toGo in
      let more := if again
                  then [ITestTimings (Z.land toGo 0xFF) (byte (Z.shiftr toGo 8))]
                  else [] in
      let r := logEvent PullLow r in
      let sel := toGo mod 5 in
      if sel =? 0 then Some (IYield Micros480 :: more, r)
      else if sel =? 1 then Some (IYield Micros70 :: more, r)
      else if sel =? 2 then Some (IYield Micros64 :: more, r)
      else if sel =? 3
           then Some (IYield Micros55 :: more,
                      set_debugOutput (negb (debugOutput r)) (set_debugLine (debugOutput r) r))
      else Some (IYield Micros55 :: more, r)
  end.

(** The most bytes an instruction and what it expands to ever occupy, above
    whatever lies beneath it. *)
Definition peak (i : instr) : Z :=
  match i with
  | IBusLow | IBusRelease | IClearBusyStatus | IBusSample => 1
  | IYield _ => 2
  | IWaitForBusRelease => 3
  | IReadRemainingBits _ => 4
  | ITestTimings _ _ => 5
  | ISendRemainingBits _ _ => 6
  | ISendRemainingIDBytes | IStartIDSend => 7
  | IReset => 9
  | IReadScratchPad => 16
  end.

Fixpoint peakP (p : list instr) : Z :=
  match p with
  | [] => 0
  | i :: rest => Z.max (peak i + size rest) (peakP rest)
  end.

(** What an instruction needs of the caller's buffers not to index them out
    of bounds. *)
Definition okI (r : Regs) (i : instr) : Prop :=
  match i with
  | IReadRemainingBits bitPos => 0 <= bitPos < 72 /\ length (sPad r) = 9%nat
  | IReadScratchPad => length (sPad r) = 9%nat /\ length (deviceAddr r) = 8%nat
  | IStartIDSend | ISendRemainingIDBytes => length (deviceAddr r) = 8%nat
  | _ => True
  end.

(** Passes of the loop of [doTimeslice] before it returns, at most. *)
Fixpoint passes (p : list instr) : nat :=
  match p with
  | [] => 1
  | i :: rest =>
      match i with
      | IYield _ => 1
      | ISendRemainingBits _ _ | IReadRemainingBits _ | ITestTimings _ _ => 2
      | IReset | IStartIDSend => 3
      | IReadScratchPad => 4
      | IWaitForBusRelease | ISendRemainingIDBytes => Datatypes.S (Nat.max 2 (passes rest))
      | _ => Datatypes.S (passes rest)
      end
  end.

(** The invariant of the states the program reaches: the stack holds a
    program that fits, and the buffers are there for the instructions that
    use them. *)
Definition inv (a : lmachine) : Prop :=
  exists p, lstack a = encode p /\ peakP p <= stackSize /\
            Forall (okI (lregs a)) p /\ 0 <= idByteIndex (lregs a).

(** ** The states the program reaches

    From the zero-initialised object: [begin], the session calls (with an
    8-byte address and a 9-byte scratchpad, as the callers supply), and
    the timeslices the interrupt runs, on a line that may read back
    anything. *)

Section Reachable.

Variable bus : list BusEvent -> bool.

Inductive reachable : machine -> Prop :=
| reach_powerOn : reachable powerOn
| reach_begin s : reachable s -> reachable (begin s)
| reach_reset s : reachable s -> reachable (stateOf (resetAsync s))
| reach_read s deviceAddress scratchPad :
    reachable s ->
    length deviceAddress = 8%nat -> length scratchPad = 9%nat ->
    reachable (stateOf (readScratchpadAsync deviceAddress scratchPad s))
| reach_convert s : reachable s -> reachable (stateOf (convertAllTemperaturesAsync s))
| reach_test s repeats : reachable s -> reachable (stateOf (doTestTimings repeats s))
| reach_slice s fuel tics s' :
    reachable s -> doTimeslice bus fuel s = Some (tics, s') -> reachable s'
| reach_ISR s fuel s' :
    reachable s -> ISR bus fuel s = Some s' -> reachable s'.

End Reachable.

(** The opcodes whose case pushes the opcode itself again with a [Yield]
    above it. *)
Definition repushesItself (i : instr) : bool :=
  match i with
  | ISendRemainingBits _ _ | IReadRemainingBits _
  | IWaitForBusRelease | ITestTimings _ _ => true
  | _ => false
  end.

(** Sequences of stack operations, for the bounds of the top index. *)
Inductive stackOp : Type :=
| OpPush (opCode : Z)
| OpPop.

Fixpoint runOps (ops : list stackOp) : M machine unit :=
  match ops with
  | [] => skip
  | OpPush opCode :: rest => ArrayStack.push opCode ;; runOps rest
  | OpPop :: rest => ArrayStack.pop ;; runOps rest
  end.

(** No [pop] of the sequence meets an empty stack of [depth] bytes. *)
Fixpoint popsWithinDepth (ops : list stackOp) (depth : Z) : bool :=
  match ops with
  | [] => true
  | OpPush _ :: rest => popsWithinDepth rest (Z.min (depth + 1) stackSize)
  | OpPop :: rest => (0 <? depth) && popsWithinDepth rest (depth - 1)
  end.

(** A machine whose stack is full: twenty [BusLow]. *)
Definition fullStack : machine :=
  mkMachine (replicate (Z.to_nat stackSize) BusLow) stackSize stackSize
            (replicate (Z.to_nat stackSize) BusLow) zeroRegs.

(** A line on which nothing pulls low, and one on which a device always
    does. *)
Definition idleBus : list BusEvent -> bool := fun _ => true.
Definition presentBus : list BusEvent -> bool := fun _ => false.

(** A machine in the middle of a [Reset]: the presence sample is next, the
    last wait of the reset and the end of the session lie beneath it. *)
Definition midReset : machine :=
  mkMachine ([ClearBusyStatus; Micros410; Yield; BusSample]
               ++ replicate 16 0) 4 10 (replicate (Z.to_nat stackSize) 0)
            (set_status StillBusy zeroRegs).

(** ** Draining a session *)

Section Draining.

Context {S : Type} `{Stack S}.
Variable bus : list BusEvent -> bool.

(** [n] timer interrupts in a row, each given [fuel] passes. *)
Fixpoint runISR (fuel n : nat) (s : S) : option S :=
  match n with
  | O => Some s
  | Datatypes.S n' =>
      match ISR bus fuel s with
      | Some s' => runISR fuel n' s'
      | None => None
      end
  end.

End Draining.

Definition isYield (i : instr) : bool :=
  match i with
  | IYield _ => true
  | _ => false
  end.

Definition appendLog (l : list BusEvent) (r : Regs) : Regs :=
  set_busLog (busLog r ++ l) r.

(** A program run to its end across timeslices: [Run bus p r n r'] when
    executing [p] from registers [r] takes [n] yields, each followed by the
    interrupt programming the timer, and ends in [r'] with nothing left of
    [p]. *)
Inductive Run (bus : list BusEvent -> bool)
  : list instr -> Regs -> nat -> Regs -> Prop :=
| Run_nil r : Run bus [] r 0 r
| Run_yield tics p r n r' :
    Run bus p (logEvent (TimerWait tics) r) n r' ->
    Run bus (IYield tics :: p) r (Datatypes.S n) r'
| Run_instr i p r q r1 n r' :
    isYield i = false ->
    istep bus i r = Some (q, r1) ->
    Run bus (q ++ p) r1 n r' ->
    Run bus (i :: p) r n r'.

(** *** What the sessions put on the line *)

Definition resetTrace (presence : bool) : list BusEvent :=
  [PullLow; TimerWait Micros480;
   ReleaseBus; DelayUs 10; TimerWait Micros70;
   ReleaseBus; SampleBus presence; TimerWait Micros410].

Definition sendBitTrace (b : bool) : list BusEvent :=
  if b then [PullLow; DelayUs 6; ReleaseBus; TimerWait Micros64]
  else [PullLow; TimerWait Micros60; ReleaseBus; DelayUs 10].

(** The low [n] bits of [v], least significant first. *)
Fixpoint sendBitsTrace (n : nat) (v : Z) : list BusEvent :=
  match n with
  | O => []
  | Datatypes.S n' => sendBitTrace (Z.odd v) ++ sendBitsTrace n' (Z.shiftr v 1)
  end.

Definition sendByteTrace (v : Z) : list BusEvent := sendBitsTrace 8 v.

Definition readBitTrace (b : bool) : list BusEvent :=
  [PullLow; DelayUs 6; ReleaseBus; DelayUs 9; SampleBus b; TimerWait Micros55].

(** Bit [k] of a buffer of bytes, least significant bit of byte 0 first. *)
Definition bitOf (bytes : list Z) (k : nat) : bool :=
  Z.testbit (nth (k / 8) bytes 0) (Z.of_nat (k mod 8)).

Definition bitsOf (bytes : list Z) : list bool :=
  map (bitOf bytes) (seq 0 (8 * length bytes)).

Fixpoint countSamples (l : list BusEvent) : nat :=
  match l with
  | [] => O
  | SampleBus _ :: rest => Datatypes.S (countSamples rest)
  | _ :: rest => countSamples rest
  end.

(** A single device holding [scratch], seen from the line: it answers each
    reset with a presence pulse (low) and, once addressed, the read slots
    with the bits of its scratchpad.  [base] is the number of samples taken
    before the session, [first] the number of the sample that reads bit 0. *)
Definition scratchDevice (base first : nat) (scratch : list Z)
  : list BusEvent -> bool :=
  fun l =>
    let k := (countSamples l - base)%nat in
    if (first <=? k)%nat && (k <? first + 8 * length scratch)%nat
    then bitOf scratch (k - first)
    else false.

(** The history of a whole [readScratchpadAsync] session. *)
Definition readSessionTrace (deviceAddress scratch : list Z) : list BusEvent :=
  resetTrace false
  ++ sendByteTrace SELECTDEVICE
  ++ concat (map sendByteTrace deviceAddress)
  ++ sendByteTrace READSCRATCH
  ++ concat (map readBitTrace (bitsOf scratch))
  ++ resetTrace false
  ++ [TimerWait 255].

(** What one read slot does to the registers, in the words of the
    description of [ReadRemainingBits]: the sampled bit [b] is folded into
    the receive register at position [bitPos mod 8]; after every 8th bit
    the assembled byte is stored into the scratchpad and the register
    cleared. *)
Definition readBitEffect (bitPos : Z) (b : bool) (r : Regs) : Regs :=
  let r := set_debugLine true
             (appendLog [PullLow; DelayUs 6; ReleaseBus; DelayUs 9; SampleBus b] r) in
  let rr := if b then Z.lor (receiveRegister r) (2 ^ (bitPos mod 8))
            else receiveRegister r in
  if (bitPos + 1) mod 8 =? 0
  then set_receiveRegister 0 (set_sPad (<[Z.to_nat (bitPos / 8) := rr]> (sPad r)) r)
  else set_receiveRegister rr r.

(** A program run for [n] timeslices that each end in a [Yield]:
    [Slices bus p r n p' r'] when, [n] interrupts later, [p'] is what is
    left of [p] and [r'] are the registers. *)
Inductive Slices (bus : list BusEvent -> bool)
  : list instr -> Regs -> nat -> list instr -> Regs -> Prop :=
| Slices_done p r : Slices bus p r 0 p r
| Slices_yield tics p r n p' r' :
    Slices bus p (logEvent (TimerWait tics) r) n p' r' ->
    Slices bus (IYield tics :: p) r (Datatypes.S n) p' r'
| Slices_instr i p r q r1 n p' r' :
    isYield i = false ->
    istep bus i r = Some (q, r1) ->
    Slices bus (q ++ p) r1 (Datatypes.S n) p' r' ->
    Slices bus (i :: p) r (Datatypes.S n) p' r'.

Definition yieldCount (p : list instr) : nat :=
  length (List.filter isYield p).

(** A device address, an empty buffer and a scratchpad to read, for
    running the read session on. *)
Definition sampleAddress : list Z := [0x28; 0xFF; 0x64; 0x1E; 0x0F; 0x3C; 0x11; 0x7A].
Definition emptyPad : list Z := replicate 9 0.
Definition sampleScratch : list Z := [0x50; 0x05; 0x4B; 0x46; 0x7F; 0xFF; 0x0C; 0x10; 0x1C].

(** * The device search of SensorDiscovery.h *)

Module SensorDiscovery.

Definition SEARCHROM : Z := 0xF0.

(** The caller's 8-byte ID buffer, the fork-point bitmap, the first-call
    flag, and the history of the line. *)
Record state : Type := mkState {
  inputBuf : list Z;
  fork : list Z;
  firstTime : bool;
  line : list BusEvent
}.

Definition set_inputBuf (v : list Z) (s : state) : state :=
  mkState v (fork s) (firstTime s) (line s).
Definition set_fork (v : list Z) (s : state) : state :=
  mkState (inputBuf s) v (firstTime s) (line s).
Definition set_firstTime (v : bool) (s : state) : state :=
  mkState (inputBuf s) (fork s) v (line s).
Definition set_line (v : list BusEvent) (s : state) : state :=
  mkState (inputBuf s) (fork s) (firstTime s) v.

(** The bit macros, on either 8-byte array.  Every use below has
    [0 <= i < 64], so [i/8] indexes within the 8 bytes. *)
Definition setBit (a : list Z) (i : Z) : list Z :=
  <[Z.to_nat (i / 8) := byte (Z.lor (nth (Z.to_nat (i / 8)) a 0) (Z.shiftl 1 (i mod 8)))]> a.

Definition unsetBit (a : list Z) (i : Z) : list Z :=
  <[Z.to_nat (i / 8) :=
      byte (Z.land (nth (Z.to_nat (i / 8)) a 0) (Z.lnot (Z.shiftl 1 (i mod 8))))]> a.

Definition isBit (a : list Z) (i : Z) : bool :=
  negb (Z.land (nth (Z.to_nat (i / 8)) a 0) (Z.shiftl 1 (i mod 8)) =? 0).

Definition setBitInID (i : Z) (s : state) : state := set_inputBuf (setBit (inputBuf s) i) s.
Definition unsetBitInID (i : Z) (s : state) : state := set_inputBuf (unsetBit (inputBuf s) i) s.
Definition isBitInID (i : Z) (s : state) : bool := isBit (inputBuf s) i.

Definition setForkPoint (i : Z) (s : state) : state := set_fork (setBit (fork s) i) s.
Definition unsetForkPoint (i : Z) (s : state) : state := set_fork (unsetBit (fork s) i) s.
Definition isForkPoint (i : Z) (s : state) : bool := isBit (fork s) i.

(** [for (int i = n - 1; i >= 0; i--) if (isForkPoint(i)) return i;
    return -1;] *)
Fixpoint lastForkBelow (n : nat) (s : state) : Z :=
  match n with
  | O => -1
  | Datatypes.S k =>
      if isForkPoint (Z.of_nat k) s then Z.of_nat k else lastForkBelow k s
  end.

Definition findLastForkPoint (s : state) : Z := lastForkBelow 64 s.

Section Bus.

Variable bus : list BusEvent -> bool.

Definition emit (e : BusEvent) (s : state) : state := set_line (line s ++ [e]) s.

Definition pullBusLow : state -> state := emit PullLow.
Definition releaseBus : state -> state := emit ReleaseBus.
Definition delay_us (us : Z) : state -> state := emit (DelayUs us).
Definition sampleBus (s : state) : Z * state :=
  let b := bus (line s) in (Z.b2z b, emit (SampleBus b) s).

Definition readBit (s : state) : Z * state :=
  let s := pullBusLow s in
  let s := delay_us 6 s in
  let s := releaseBus s in
  let s := delay_us 9 s in
  let (b, s) := sampleBus s in
  let s := delay_us 60 s in
  (b, s).

(** 0 means success, 1 means no devices on the bus. *)
Definition Reset (s : state) : Z * state :=
  let s := pullBusLow s in
  let s := delay_us 480 s in
  let s := releaseBus s in
  let s := delay_us 70 s in
  let (b, s) := sampleBus s in
  let s := delay_us 410 s in
  (b, s).

Definition sendBit (b : Z) (s : state) : state :=
  if b =? 1 then
    delay_us 64 (releaseBus (delay_us 6 (pullBusLow s)))
  else
    delay_us 10 (releaseBus (delay_us 60 (pullBusLow s))).

Fixpoint sendBits (n : nat) (b : Z) (s : state) : state :=
  match n with
  | O => s
  | Datatypes.S n' => sendBits n' (Z.shiftr b 1) (sendBit (Z.land b 0x01) s)
  end.

Definition sendByte (b : Z) (s : state) : state := sendBits 8 b s.

(** [begin]: the first 8 bytes of the caller's buffer and the fork map are
    zeroed. *)
Definition begin (deviceID : list Z) (s : state) : state :=
  mkState (replicate 8 0 ++ drop 8 deviceID) (replicate 8 0) true (line s).

(** [for (int i = from; i < from + n; i++) unsetBitInID(i);] *)
Fixpoint unsetBitsFrom (n : nat) (from : Z) (s : state) : state :=
  match n with
  | O => s
  | Datatypes.S n' => unsetBitsFrom n' (from + 1) (unsetBitInID from s)
  end.

(** Picking up the old tree search at the fork point [frozenTreeDepth]:
    the ID bits to its right are cleared, the fork point is unset, and the
    ID bit there is set. *)
Definition backtrack (frozenTreeDepth : Z) (s : state) : state :=
  let s := unsetBitsFrom (Z.to_nat (64 - (frozenTreeDepth + 1))) (frozenTreeDepth + 1) s in
  let s := unsetForkPoint frozenTreeDepth s in
  setBitInID frozenTreeDepth s.

(** One round of the [for] loop at [searchDepth]: the code returned, if the
    round returns from the call, the value of [chooseRight], and the
    state. *)
Definition searchRound (frozenTreeDepth searchDepth chooseRight : Z) (s : state)
  : option Z * Z * state :=
  let (b1, s) := readBit s in
  let (b0, s) := readBit s in
  let response := Z.lor (Z.shiftl b1 1) b0 in
  let '(ret, chooseRight, s) :=
    if response =? 2 then (None, 1, s)
    else if response =? 1 then (None, 0, s)
    else if response =? 0 then
      if searchDepth <=? frozenTreeDepth
      then (None, Z.b2z (isBitInID searchDepth s), s)
      else (None, 0, setForkPoint searchDepth s)
    else if response =? 3 then (Some 2, chooseRight, s)
    else (None, chooseRight, s) in
  match ret with
  | Some code => (Some code, chooseRight, s)
  | None =>
      if chooseRight =? 1
      then (None, chooseRight, sendBit 1 (setBitInID searchDepth s))
      else (None, chooseRight, sendBit 0 (unsetBitInID searchDepth s))
  end.

(** [n] rounds from [searchDepth] on, then [return 0]. *)
Fixpoint searchLoop (n : nat) (frozenTreeDepth searchDepth chooseRight : Z) (s : state)
  : Z * state :=
  match n with
  | O => (0, s)
  | Datatypes.S n' =>
      match searchRound frozenTreeDepth searchDepth chooseRight s with
      | (Some code, _, s') => (code, s')
      | (None, chooseRight', s') =>
          searchLoop n' frozenTreeDepth (searchDepth + 1) chooseRight' s'
      end
  end.

(** After the depth is settled: [Reset], the search command, the 64
    rounds. *)
Definition searchFrom (frozenTreeDepth : Z) (s : state) : Z * state :=
  let chooseRight := 42 in
  let (resp, s) := Reset s in
  if negb (resp =? 0) then (resp, s)
  else searchLoop 64 frozenTreeDepth 0 chooseRight (sendByte SEARCHROM s).

(** Returns 0 for success, 1 when there are no more devices to find, 2 on
    the reading 11. *)
Definition findNextDevice (s : state) : Z * state :=
  if firstTime s then
    searchFrom (-1) (set_firstTime false s)
  else
    let frozenTreeDepth := findLastForkPoint s in
    if frozenTreeDepth <? 0 then (1, s)
    else searchFrom (frozenTreeDepth + 1) (backtrack frozenTreeDepth s).

End Bus.

(** What a read slot, a write slot and a reset put on the line. *)
Definition readBitLine (b : bool) : list BusEvent :=
  [PullLow; DelayUs 6; ReleaseBus; DelayUs 9; SampleBus b; DelayUs 60].

Definition sendBitLine (b : bool) : list BusEvent :=
  if b then [PullLow; DelayUs 6; ReleaseBus; DelayUs 64]
  else [PullLow; DelayUs 60; ReleaseBus; DelayUs 10].

Definition resetLine (b : bool) : list BusEvent :=
  [PullLow; DelayUs 480; ReleaseBus; DelayUs 70; SampleBus b; DelayUs 410].

(** The result codes, as the callers read them. *)
Definition Found : Z := 0.
Definition Exhausted : Z := 1.
Definition ProtocolConflict : Z := 2.

(** A round at [searchDepth] that goes on with the bit [chosen]: it is
    recorded in the ID buffer at [searchDepth] and then sent; a fork point
    is set there exactly when [forks]; [readLine] is the line after the two
    read slots. *)
Definition roundChooses (bus : list BusEvent -> bool)
           (frozenTreeDepth searchDepth chooseRight : Z) (s : state)
           (readLine : list BusEvent) (chosen forks : bool) : Prop :=
  exists s',
    searchRound bus frozenTreeDepth searchDepth chooseRight s
    = (None, Z.b2z chosen, s') /\
    inputBuf s' = (if chosen then setBit (inputBuf s) searchDepth
                   else unsetBit (inputBuf s) searchDepth) /\
    (forall j, 0 <= j < 64 ->
       isBitInID j s' = if j =? searchDepth then chosen else isBitInID j s) /\
    fork s' = (if forks then setBit (fork s) searchDepth else fork s) /\
    (forall j, 0 <= j < 64 ->
       isForkPoint j s' = if forks && (j =? searchDepth) then true else isForkPoint j s) /\
    line s' = readLine ++ sendBitLine chosen /\
    firstTime s' = firstTime s /\
    forall n, searchLoop bus (Datatypes.S n) frozenTreeDepth searchDepth chooseRight s
              = searchLoop bus n frozenTreeDepth (searchDepth + 1) (Z.b2z chosen) s'.

(** A state after the first call, with nothing left to backtrack to. *)
Definition exhaustedState : state :=
  mkState [0x28; 0xFF; 0x64; 0x1E; 0x0F; 0x3C; 0x11; 0x7A] (replicate 8 0) false [].

(** A state after a first call that left fork points at depths 5 and 9. *)
Definition forkedState : state :=
  mkState [0x28; 0xFF; 0x64; 0x1E; 0x0F; 0x3C; 0x11; 0x7A] [0x20; 0x02; 0; 0; 0; 0; 0; 0]
          false [].

End SensorDiscovery.

(** * A session from its start to its end *)

(** [status & StillBusy]. *)
Definition stillBusy (r : Regs) : bool :=
  negb (Z.land (status r) StillBusy =? 0).

(** The states a session started in [s0] passes through, one timeslice
    after the other, whatever the line reads back. *)
Inductive inSession (bus : list BusEvent -> bool) (s0 : machine) : machine -> Prop :=
| session_start : inSession bus s0 s0
| session_slice s fuel tics s' :
    inSession bus s0 s ->
    doTimeslice bus fuel s = Some (tics, s') ->
    inSession bus s0 s'.

(** A session under way: the stack holds a program that fits, with
    [ClearBusyStatus] as its last instruction and nowhere else, and
    [StillBusy] is set. *)
Definition sessionOpen (a : lmachine) : Prop :=
  exists p, lstack a = encode (p ++ [IClearBusyStatus]) /\
            peakP (p ++ [IClearBusyStatus]) <= stackSize /\
            Forall (okI (lregs a)) p /\
            Forall (fun i => i <> IClearBusyStatus) p /\
            0 <= idByteIndex (lregs a) /\
            stillBusy (lregs a) = true.

(** A session over: the stack is empty and [StillBusy] is clear. *)
Definition sessionDone (a : lmachine) : Prop :=
  lstack a = [] /\ stillBusy (lregs a) = false.

(** * Invariants of the states the program reaches *)

(** The invariant [inv] with a bound on the depth of the stack, a
    condition on the instructions waiting there and a condition on the
    registers. *)
Definition invWith (bound : Z) (Q : instr -> Prop) (P : Regs -> Prop)
           (a : lmachine) : Prop :=
  exists p, lstack a = encode p /\ peakP p <= bound /\
            Forall (okI (lregs a)) p /\ 0 <= idByteIndex (lregs a) /\
            Forall Q p /\ P (lregs a).

(** What the four session calls leave on the stack. *)
Definition sessionPrograms (repeats : Z) : list (list instr) :=
  [ [IReset; IClearBusyStatus];
    [IReadScratchPad; IClearBusyStatus];
    [IReset; ISendRemainingBits 8 SKIPROMWILDCARD; ISendRemainingBits 8 STARTCONVO;
     IWaitForBusRelease];
    [ITestTimings (Z.land (uint16 repeats) 0xFF) (byte (Z.shiftr (uint16 repeats) 8));
     IBusRelease; IClearBusyStatus] ].

(** The holdoffs the interpreter asks of the timer. *)
Definition holdoffs : list Z :=
  [Micros55; Micros60; Micros64; Micros70; Micros410; Micros480; 255].

Definition holdoffOK (i : instr) : Prop :=
  match i with
  | IYield tics => In tics holdoffs
  | _ => True
  end.

(** No sample of the line is taken while the master itself drives it low:
    [driving] tells whether the master's last move was [PullLow]. *)
Fixpoint sampledReleased (driving : bool) (l : list BusEvent) : bool :=
  match l with
  | [] => true
  | PullLow :: rest => sampledReleased true rest
  | ReleaseBus :: rest => sampledReleased false rest
  | SampleBus _ :: rest => negb driving && sampledReleased driving rest
  | _ :: rest => sampledReleased driving rest
  end.

Fixpoint drivingAfter (driving : bool) (l : list BusEvent) : bool :=
  match l with
  | [] => driving
  | PullLow :: rest => drivingAfter true rest
  | ReleaseBus :: rest => drivingAfter false rest
  | _ :: rest => drivingAfter driving rest
  end.

(** * More sessions on the line *)

(** Devices that answer the reset and then hold the line low through [k]
    polls, as they do while converting: of the samples taken after the
    first [base], the first [k + 1] read low, the later ones high. *)
Definition busyLine (base k : nat) : list BusEvent -> bool :=
  fun l => (base + k <? countSamples l)%nat.

(** One poll of [WaitForBusRelease] that finds the line still low. *)
Definition busyPoll : list BusEvent :=
  [ReleaseBus; SampleBus false; TimerWait 255].

(** The history of a whole [convertAllTemperaturesAsync] session in which
    the line is found low [k] times. *)
Definition convertTrace (k : nat) : list BusEvent :=
  resetTrace false
  ++ sendByteTrace SKIPROMWILDCARD
  ++ sendByteTrace STARTCONVO
  ++ concat (replicate k busyPoll)
  ++ [ReleaseBus; SampleBus true; TimerWait 255].

(** The holdoff of a [TestTimings] pulse, by the count still to go. *)
Definition timingTics (toGo : Z) : Z :=
  let sel := toGo mod 5 in
  if sel =? 0 then Micros480
  else if sel =? 1 then Micros70
  else if sel =? 2 then Micros64
  else Micros55.

(** One pass of [TestTimings] that popped the count [v]. *)
Definition timingPass (v : Z) : list BusEvent :=
  [ReleaseBus; DelayUs 10; PullLow;
   TimerWait (timingTics (if 1 <? v then v - 1 else v))].

(** The passes for the counts [n], [n - 1], ..., 1. *)
Fixpoint timingTrace (n : nat) : list BusEvent :=
  match n with
  | O => []
  | Datatypes.S n' => timingPass (Z.of_nat n) ++ timingTrace n'
  end.

(** The history of a whole [doTestTimings] session. *)
Definition testTimingsTrace (repeats : Z) : list BusEvent :=
  (if repeats =? 0 then timingPass 0 else timingTrace (Z.to_nat repeats))
  ++ [ReleaseBus; DelayUs 10; TimerWait 255].

(** * Busy until the stack is empty *)

(** The instructions the session calls push first: they run last, and
    clear the busy bit the call has set. *)
Definition isLast (i : instr) : bool :=
  match i with
  | IClearBusyStatus | IWaitForBusRelease => true
  | _ => false
  end.

(** The position in [status] of the bit that instruction clears. *)
Definition busyBit (i : instr) : Z :=
  match i with
  | IWaitForBusRelease => 2
  | _ => 0
  end.

(** A session still has work on the stack: a program that fits, ending in
    the one instruction that clears the busy bit, which is still set. *)
Definition pending (a : lmachine) : Prop :=
  exists p last,
    lstack a = encode (p ++ [last]) /\
    isLast last = true /\
    peakP (p ++ [last]) <= stackSize /\
    Forall (okI (lregs a)) p /\
    Forall (fun i => isLast i = false) p /\
    0 <= idByteIndex (lregs a) /\
    Z.testbit (status (lregs a)) (busyBit last) = true.

(** * The high-tide diagnostic *)

(** What [stackHighTide] is kept for: it bounds the depth of the stack, and
    stays within the array. *)
Definition tideOK (s : machine) : Prop :=
  wf s /\ topOfStack s <= stackHighTide s <= stackSize.

(** A computation that keeps [tideOK] and never lowers the high tide,
    unless it indexes an array out of bounds. *)
Definition keepsTide {A} (m : M machine A) : Prop :=
  forall s, tideOK s ->
    match m s with
    | Next _ s' | Exit _ s' => tideOK s' /\ stackHighTide s <= stackHighTide s'
    | Fault _ => True
    end.

(** * Interpreting the scratchpad *)

(** [int] and [int16_t] of the AVR target: 16 bits, two's complement. *)
Definition int16 (x : Z) : Z := (x + 32768) mod 65536 - 32768.

Section Temperature.

(** The linear remapping of the 0x10 family, [(int16_t) (8900 + 1.29 * x)]
    computed in floating point, is a parameter here. *)
Variable linearRemap : Z -> Z.

(** [getRaw]: 128ths of a degree.  [None] stands for a read outside the
    caller's buffers. *)
Definition getRaw (deviceAddress scratchPad : list Z) : option Z :=
  lsb ← readAt 0 scratchPad;
  msb ← readAt 1 scratchPad;
  b6 ← readAt 6 scratchPad;
  b7 ← readAt 7 scratchPad;
  family ← readAt 0 deviceAddress;
  if family =? 0x28 then
    Some (int16 (Z.lor (int16 (Z.shiftl msb 11)) (int16 (Z.shiftl lsb 3))))
  else if family =? 0x10 then
    let raw := int16 (Z.lor (int16 (Z.shiftl msb 8)) (Z.land lsb 0xFE)) in
    let raw := int16 (int16 (Z.shiftl raw 3) + (b7 - b6)) in
    let x := int16 (Z.shiftl raw 3) in
    Some (linearRemap x)
  else Some (int16 0xFFFF).

(** [getTempC]: the raw count as a [float], divided by 128.0.  Both steps
    are exact for a 16-bit count, so the result is that rational number. *)
Definition getTempC (deviceAddress scratchPad : list Z) : option Q :=
  raw ← getRaw deviceAddress scratchPad;
  Some (inject_Z raw / 128)%Q.

End Temperature.

(** The 16-bit reading a DS18B20 keeps in the first two bytes of its
    scratchpad, in sixteenths of a degree. *)
Definition reading (lsb msb : Z) : Z := int16 (256 * msb + lsb).

(** * Waiting for the status to clear *)

(** [Serial.print(n, BIN)]: the binary digits of [n], without leading
    zeros; [Serial.println(n)] of an [int]: its decimal digits. *)
Fixpoint binDigits (p : positive) (acc : string) : string :=
  match p with
  | xH => String "1"%char acc
  | xO p' => binDigits p' (String "0"%char acc)
  | xI p' => binDigits p' (String "1"%char acc)
  end.

Definition printBIN (n : Z) : string :=
  match n with
  | Zpos p => binDigits p EmptyString
  | _ => "0"%string
  end.

Definition printDEC (n : Z) : string := NilZero.string_of_int (Z.to_int n).

Section BusyWait.

(** What the timer interrupts do to the object while the caller sits in
    [delay(1)]. *)
Variable elapse : machine -> machine.

Definition reportTimeout (msg : string) (response millisTimeout : Z) (s : machine)
  : machine :=
  set_regs (set_serial (serial (regs s)
                          ++ [msg;
                              " tired of waiting for response. BIN resp = "%string;
                              printBIN response;
                              "  after millis ="%string;
                              printDEC millisTimeout])
                       (regs s)) s.

(** The loop of [busyWaitForZeroStatus], [count] being the polls that
    found the status set so far. *)
Fixpoint busyWaitLoop (fuel : nat) (msg : string) (millisTimeout count : Z)
         (s : machine) : option (Z * machine) :=
  match fuel with
  | O => None
  | Datatypes.S fuel' =>
      let response := getStatus s in
      if response =? 0 then Some (response, s)
      else
        let count := int16 (count + 1) in
        if millisTimeout <=? count
        then Some (response, reportTimeout msg response millisTimeout s)
        else busyWaitLoop fuel' msg millisTimeout count (elapse s)
  end.

Definition busyWaitForZeroStatus (fuel : nat) (msg : string) (millisTimeout : Z)
           (s : machine) : option (Z * machine) :=
  busyWaitLoop fuel msg millisTimeout 0 s.

End BusyWait.

(** One timer interrupt per millisecond of waiting, for running the wait
    on. *)
Definition oneInterrupt (bus : list BusEvent -> bool) (s : machine) : machine :=
  match ISR bus 23 s with
  | Some s' => s'
  | None => s
  end.

(** * Devices on the line, for the search *)

(** Bit [d] of an 8-byte ROM ID, as [isBitInID] numbers the bits. *)
Definition idBit (id : list Z) (d : nat) : bool :=
  SensorDiscovery.isBit id (Z.of_nat d).

(** What 1-Wire devices do during a search: after a reset they take eight
    bits of command; after the command 0xF0 every device still in
    contention puts its next ID bit on the line, then the complement of
    it, then reads the bit the master writes and drops out when it is not
    its own.  The line is a wired AND: it reads high only when no
    contender pulls it low. *)
Inductive devPhase : Type := ReadBit | ReadComplement | WriteBit.

Inductive devMode : Type :=
| DevIdle
| DevCmd (n : nat) (acc : Z)
| DevSearch (C : list (list Z)) (d : nat) (phase : devPhase).

Record devState : Type := mkDev {
  devMode_of : devMode;
  pulled : bool;
  level : bool
}.

Definition isNil {A} (l : list A) : bool :=
  match l with
  | [] => true
  | _ :: _ => false
  end.

(** A time slot in which the master holds the line low for the short time
    ([b] true: it writes 1, or reads) or the long time (it writes 0). *)
Definition devSlot (D : list (list Z)) (b : bool) (m : devMode) : devMode * bool :=
  match m with
  | DevIdle => (DevIdle, true)
  | DevCmd n acc =>
      let acc' := if b then acc + 2 ^ Z.of_nat n else acc in
      if (n =? 7)%nat
      then (if acc' =? SensorDiscovery.SEARCHROM then DevSearch D 0 ReadBit else DevIdle,
            true)
      else (DevCmd (Datatypes.S n) acc', true)
  | DevSearch C d ReadBit =>
      (DevSearch C d ReadComplement, forallb (fun id => idBit id d) C)
  | DevSearch C d ReadComplement =>
      (DevSearch C d WriteBit, forallb (fun id => negb (idBit id d)) C)
  | DevSearch C d WriteBit =>
      (if (d =? 63)%nat then DevIdle
       else DevSearch (List.filter (fun id => Bool.eqb (idBit id d) b) C)
                      (Datatypes.S d) ReadBit,
       true)
  end.

(** The devices [D] seeing one more event of the master: a low of 480
    microseconds or more is a reset, answered by a presence pulse; a
    shorter one is a time slot. *)
Definition devStep (D : list (list Z)) (st : devState) (e : BusEvent) : devState :=
  match e with
  | PullLow => mkDev (devMode_of st) true (level st)
  | ReleaseBus => mkDev (devMode_of st) false (level st)
  | DelayUs us =>
      if pulled st then
        if 480 <=? us then mkDev (DevCmd 0 0) false (isNil D)
        else mkDev (fst (devSlot D (us <? 15) (devMode_of st))) false
                   (snd (devSlot D (us <? 15) (devMode_of st)))
      else st
  | _ => st
  end.

Definition devInit : devState := mkDev DevIdle false true.

Definition feed (D : list (list Z)) (st : devState) (l : list BusEvent) : devState :=
  fold_left (devStep D) l st.

(** The line with the devices [D] on it. *)
Definition devices (D : list (list Z)) : list BusEvent -> bool :=
  fun l => level (feed D devInit l).

(** [id] has the bits of [buf] at the [n] positions from [lo] on. *)
Definition agrees (buf id : list Z) (lo n : nat) : bool :=
  forallb (fun i => Bool.eqb (idBit id i) (idBit buf i)) (seq lo n).

(** What a round of the search does at depth [d] with the contenders [C]
    on the line: the bit it takes, and whether it marks a fork point. *)
Definition choice (frozen : Z) (C : list (list Z)) (d : nat) (buf : list Z) : bool :=
  if forallb (fun id => idBit id d) C then true
  else if forallb (fun id => negb (idBit id d)) C then false
  else if Z.of_nat d <=? frozen then idBit buf d
  else false.

Definition forksAt (frozen : Z) (C : list (list Z)) (d : nat) : bool :=
  negb (forallb (fun id => idBit id d) C)
  && negb (forallb (fun id => negb (idBit id d)) C)
  && negb (Z.of_nat d <=? frozen).

(** The write slots of the low [n] bits of [v], least significant first. *)
Fixpoint sendBitsLine (n : nat) (v : Z) : list BusEvent :=
  match n with
  | O => []
  | Datatypes.S n' => SensorDiscovery.sendBitLine (Z.odd v) ++ sendBitsLine n' (Z.shiftr v 1)
  end.

(** A well-formed ROM ID: eight bytes. *)
Definition isID (id : list Z) : Prop :=
  length id = 8%nat /\ Forall (fun v => 0 <= v < 256) id.

(** The microseconds the master spends in [_delay_us] over a history. *)
Fixpoint totalDelay (l : list BusEvent) : Z :=
  match l with
  | [] => 0
  | DelayUs us :: rest => us + totalDelay rest
  | _ :: rest => totalDelay rest
  end.

(** One round of the search as it shows on the line: the two read slots
    with what they sampled, then the write slot of the bit sent. *)
Definition roundLine (r : bool * bool * bool) : list BusEvent :=
  let '(b1, b0, sent) := r in
  SensorDiscovery.readBitLine b1 ++ SensorDiscovery.readBitLine b0
    ++ SensorDiscovery.sendBitLine sent.

(** A round that went on: it did not read 11, and where the two readings
    differ the bit sent is the first of them. *)
Definition roundOK (r : bool * bool * bool) : bool :=
  let '(b1, b0, sent) := r in
  negb (b1 && b0) && (if xorb b1 b0 then Bool.eqb sent b1 else true).

(** The line of a search that went through all its rounds. *)
Definition searchLine (rounds : list (bool * bool * bool)) : list BusEvent :=
  SensorDiscovery.resetLine false
    ++ sendBitsLine 8 SensorDiscovery.SEARCHROM
    ++ concat (map roundLine rounds).

(** * Part II: proofs *)

(** ** The array stack and its list view *)

Lemma wf_length s : wf s -> length (theCode s) = 20%nat.
Proof. intros [Hl _]. exact Hl. Qed.

Lemma stackOf_length s : wf s -> Z.of_nat (length (stackOf s)) = topOfStack s.
Proof.
  intros [Hl Ht]. unfold stackOf, stackSize in *.
  rewrite length_reverse, length_take. lia.
Qed.

Lemma view_toList s : wf s -> view s (toList s).
Proof. intros Hwf. repeat split; auto; apply Hwf. Qed.

Lemma view_empty s a : view s a -> ArrayStack.stackEmpty s = ListStack.stackEmpty a.
Proof.
  intros (Hwf & Hst & _). unfold ArrayStack.stackEmpty, ListStack.stackEmpty.
  pose proof (stackOf_length s Hwf) as Hlen. rewrite Hst in Hlen.
  destruct (lstack a); simpl in Hlen.
  - apply Z.eqb_eq. lia.
  - apply Z.eqb_neq. lia.
Qed.

Lemma view_flush s a : view s a -> view (ArrayStack.flushStack s) (ListStack.flushStack a).
Proof.
  intros ((Hl & Ht) & Hst & Hr). unfold view, wf, stackOf; simpl.
  repeat split; auto; unfold stackSize; lia.
Qed.

Lemma view_withRegs r s a : view s a -> view (set_regs r s) (mkL (lstack a) r).
Proof. intros ((Hl & Ht) & Hst & Hr). repeat split; simpl; auto; lia. Qed.

Lemma snapshot_ok s : wf s -> ArrayStack.snapshot s =
  Next tt (set_stackSnapshot
             (take (Z.to_nat (topOfStack s)) (theCode s)
                ++ replicate (Z.to_nat stackSize - Z.to_nat (topOfStack s)) 0xFF) s).
Proof.
  intros [Hl Ht]. unfold ArrayStack.snapshot.
  replace (topOfStack s <=? stackSize) with true by (symmetry; apply Z.leb_le; lia).
  replace (topOfStack s <=? Z.of_nat (length (theCode s))) with true
    by (symmetry; apply Z.leb_le; rewrite Hl; lia).
  reflexivity.
Qed.

Lemma view_snapshot l s a : view s a -> view (set_stackSnapshot l s) a.
Proof. intros ((Hl & Ht) & Hst & Hr). repeat split; simpl; auto; lia. Qed.

Lemma view_highTide n s a : view s a -> view (set_stackHighTide n s) a.
Proof. intros ((Hl & Ht) & Hst & Hr). repeat split; simpl; auto; lia. Qed.

Lemma sim_push b : simM (ArrayStack.push b) (ListStack.push b).
Proof.
  intros s a Hv. pose proof Hv as (Hwf & Hst & Hr).
  pose proof (stackOf_length s Hwf) as Hlen. rewrite Hst in Hlen.
  unfold ArrayStack.push, ListStack.push. rewrite Hlen.
  destruct (stackSize <=? topOfStack s) eqn:Hfull.
  - rewrite snapshot_ok by (destruct Hwf; split; auto).
    split; [reflexivity|]. apply view_snapshot. rewrite <- Hr.
    apply (view_withRegs _ s a Hv).
  - apply Z.leb_gt in Hfull. destruct Hwf as [Hl Ht].
    unfold writeAt, inBounds.
    replace (0 <=? topOfStack s) with true by (symmetry; apply Z.leb_le; lia).
    replace (topOfStack s <? Z.of_nat (length (theCode s))) with true
      by (symmetry; apply Z.ltb_lt; rewrite Hl; unfold stackSize in *; lia).
    simpl.
    assert (Hb : byte (topOfStack s + 1) = topOfStack s + 1).
    { unfold byte. apply Z.mod_small. unfold stackSize in *. lia. }
    rewrite Hb.
    set (s1 := mkMachine (<[Z.to_nat (topOfStack s):=b]> (theCode s)) (topOfStack s + 1)
                          (stackHighTide s) (stackSnapshot s) (regs s)).
    assert (Hv1 : view s1 (mkL (b :: lstack a) (lregs a))).
    { unfold view, wf, stackOf, s1; simpl. rewrite length_insert.
      repeat split; auto; try (unfold stackSize in *; lia).
      replace (Z.to_nat (topOfStack s + 1)) with (Datatypes.S (Z.to_nat (topOfStack s))) by lia.
      rewrite (take_S_r _ _ b).
      - rewrite reverse_snoc. f_equal. rewrite take_insert_ge by lia. exact Hst.
      - apply list_lookup_insert_eq. rewrite Hl. unfold stackSize in *. lia. }
    change (set_topOfStack (topOfStack s + 1)
              (set_theCode (<[Z.to_nat (topOfStack s):=b]> (theCode s)) s)) with s1.
    change (stackHighTide s1 <=? topOfStack s1) with (stackHighTide s <=? topOfStack s + 1).
    destruct (stackHighTide s <=? topOfStack s + 1).
    + rewrite snapshot_ok.
      * split; [reflexivity|]. apply view_snapshot, view_highTide, Hv1.
      * destruct Hv1 as (Hw1 & _). exact Hw1.
    + split; [reflexivity | exact Hv1].
Qed.

Lemma sim_pop : simM ArrayStack.pop ListStack.pop.
Proof.
  intros s a Hv. pose proof Hv as ((Hl & Ht) & Hst & Hr).
  pose proof (stackOf_length s (conj Hl Ht)) as Hlen. rewrite Hst in Hlen.
  unfold ArrayStack.pop, ListStack.pop, readAt, inBounds. simpl.
  destruct (lstack a) as [|v rest] eqn:Hs; simpl in Hlen.
  - replace (topOfStack s) with 0 by lia. simpl.
    rewrite Hl. reflexivity.
  - assert (Hb : byte (topOfStack s - 1) = topOfStack s - 1).
    { unfold byte. apply Z.mod_small. unfold stackSize in *. lia. }
    rewrite Hb.
    replace (0 <=? topOfStack s - 1) with true by (symmetry; apply Z.leb_le; lia).
    replace (topOfStack s - 1 <? Z.of_nat (length (theCode s))) with true
      by (symmetry; apply Z.ltb_lt; rewrite Hl; unfold stackSize in *; lia).
    simpl.
    unfold stackOf in Hst.
    replace (Z.to_nat (topOfStack s)) with (Datatypes.S (Z.to_nat (topOfStack s - 1))) in Hst by lia.
    destruct (theCode s !! Z.to_nat (topOfStack s - 1)) as [x|] eqn:Hx.
    + rewrite (take_S_r _ _ x Hx), reverse_snoc in Hst.
      injection Hst as -> Hrest.
      simpl. split; auto. repeat split; simpl; auto; unfold stackSize in *; lia.
    + apply lookup_ge_None in Hx. rewrite Hl in Hx. unfold stackSize in *. lia.
Qed.

(** ** The interpreter on the array simulates the interpreter on the list *)

Lemma sim_ret {A} (x : A) : simM (ret x) (ret x).
Proof. intros s a Hv. split; [reflexivity | exact Hv]. Qed.

Lemma sim_bind {A B} (m1 : M machine A) (m2 : M lmachine A)
      (k1 : A -> M machine B) (k2 : A -> M lmachine B) :
  simM m1 m2 -> (forall x, simM (k1 x) (k2 x)) -> simM (bind m1 k1) (bind m2 k2).
Proof.
  intros Hm Hk s a Hv. unfold bind. specialize (Hm s a Hv).
  destruct (m1 s), (m2 a); simpl in Hm; try contradiction; auto.
  destruct Hm as [-> Hv']. apply Hk, Hv'.
Qed.

Lemma sim_exit {A} t : simM (@exit machine A t) (@exit lmachine A t).
Proof. intros s a Hv. split; [reflexivity | exact Hv]. Qed.

Lemma sim_when c (m1 : M machine unit) (m2 : M lmachine unit) :
  simM m1 m2 -> simM (when c m1) (when c m2).
Proof. intros Hm. destruct c; simpl; [exact Hm | apply sim_ret]. Qed.

Lemma sim_onRegs f : simM (onRegs f) (onRegs f).
Proof.
  intros s a Hv. split; [reflexivity|]. simpl.
  destruct Hv as (Hwf & Hst & Hr). rewrite Hr.
  apply (view_withRegs _ s a). repeat split; auto; apply Hwf.
Qed.

Lemma sim_readRegs {A} (f : Regs -> A) : simM (readRegs f) (readRegs f).
Proof.
  intros s a Hv. split; [|exact Hv]. simpl.
  destruct Hv as (_ & _ & Hr). now rewrite Hr.
Qed.

Lemma sim_sampleBus bus : simM (sampleBus bus) (sampleBus bus).
Proof.
  intros s a Hv. unfold sampleBus. simpl.
  pose proof Hv as (_ & _ & Hr). rewrite Hr.
  split; [reflexivity|]. apply (view_withRegs _ s a Hv).
Qed.

Lemma sim_storeSPad i v : simM (storeSPad i v) (storeSPad i v).
Proof.
  intros s a Hv. unfold storeSPad. simpl.
  pose proof Hv as (_ & _ & Hr). rewrite Hr.
  destruct (writeAt i v (sPad (lregs a))); simpl; auto.
  split; [reflexivity|]. apply (view_withRegs _ s a Hv).
Qed.

Lemma sim_loadDeviceAddr i : simM (loadDeviceAddr i) (loadDeviceAddr i).
Proof.
  intros s a Hv. unfold loadDeviceAddr. simpl.
  pose proof Hv as (_ & _ & Hr). rewrite Hr.
  destruct (readAt i (deviceAddr (lregs a))); simpl; auto.
Qed.

Lemma sim_flushStack :
  simM (fun s => Next tt (flushStack s)) (fun a => Next tt (flushStack a)).
Proof. intros s a Hv. split; [reflexivity|]. apply view_flush, Hv. Qed.

Lemma sim_if {A} (c : bool) (m1 n1 : M machine A) (m2 n2 : M lmachine A) :
  simM m1 m2 -> simM n1 n2 -> simM (if c then m1 else n1) (if c then m2 else n2).
Proof. destruct c; auto. Qed.

Ltac sim_step :=
  first
    [ apply sim_bind; [| intros ?]
    | apply sim_if
    | apply sim_when
    | apply sim_ret
    | apply sim_exit
    | apply sim_push
    | apply sim_pop
    | apply sim_onRegs
    | apply sim_readRegs
    | apply sim_sampleBus
    | apply sim_storeSPad
    | apply sim_loadDeviceAddr
    | apply sim_flushStack ].

Ltac sim :=
  unfold YieldFor, pushSendOneByte, pullBusLow, releaseBus, delay_us, alertOn,
    writeDebugPin, toggleDebugLine, skip;
  unfold mbind, M_bind;
  repeat sim_step.

Lemma sim_doTimesliceBody bus : simM (doTimesliceBody bus) (doTimesliceBody bus).
Proof.
  intros s a Hv. unfold doTimesliceBody.
  change (@stackEmpty machine _ s) with (ArrayStack.stackEmpty s).
  change (@stackEmpty lmachine _ a) with (ListStack.stackEmpty a).
  rewrite (view_empty s a Hv).
  destruct (ListStack.stackEmpty a).
  - split; [reflexivity | exact Hv].
  - match goal with
    | |- simRes (?m s) (?n a) =>
        cut (simM m n); [intros Hsim; exact (Hsim s a Hv) | clear]
    end.
    sim.
Qed.

Lemma sim_doTimeslice bus fuel s a :
  view s a ->
  match doTimeslice bus fuel s, doTimeslice bus fuel a with
  | Some (t, s'), Some (u, a') => t = u /\ view s' a'
  | None, None => True
  | _, _ => False
  end.
Proof.
  revert s a. induction fuel as [|fuel IH]; intros s a Hv; simpl; [exact I|].
  pose proof (sim_doTimesliceBody bus s a Hv) as Hb.
  destruct (doTimesliceBody bus s), (doTimesliceBody bus a);
    simpl in Hb; try contradiction; auto.
  destruct Hb as [_ Hv']. apply IH, Hv'.
Qed.

(** A result on the list view is a result on the array. *)
Lemma doTimeslice_from_list bus fuel s t a' :
  wf s ->
  doTimeslice bus fuel (toList s) = Some (t, a') ->
  exists s', doTimeslice bus fuel s = Some (t, s') /\ view s' a'.
Proof.
  intros Hwf Ha. pose proof (sim_doTimeslice bus fuel s _ (view_toList s Hwf)) as H.
  rewrite Ha in H. destruct (doTimeslice bus fuel s) as [[u s']|]; [|contradiction].
  destruct H as [-> Hv]. eauto.
Qed.

(** ** The list stack runs instruction by instruction *)

Lemma L_push b l r :
  Z.of_nat (length l) < stackSize ->
  push b (mkL l r) = Next tt (mkL (b :: l) r).
Proof.
  intros Hlt. simpl. unfold ListStack.push. simpl.
  replace (stackSize <=? Z.of_nat (length l)) with false; [reflexivity|].
  symmetry. apply Z.leb_gt. exact Hlt.
Qed.

Lemma bindL_push {B} b (k : unit -> M lmachine B) l r :
  Z.of_nat (length l) < stackSize ->
  bind (push b) k (mkL l r) = k tt (mkL (b :: l) r).
Proof. intros Hlt. unfold bind. now rewrite L_push. Qed.

Lemma bindL_pop {B} (k : Z -> M lmachine B) v l r :
  bind pop k (mkL (v :: l) r) = k v (mkL l r).
Proof. reflexivity. Qed.

Lemma bindL_onRegs {B} f (k : unit -> M lmachine B) l r :
  bind (onRegs f) k (mkL l r) = k tt (mkL l (f r)).
Proof. reflexivity. Qed.

Lemma bindL_readRegs {A B} (f : Regs -> A) (k : A -> M lmachine B) l r :
  bind (readRegs f) k (mkL l r) = k (f r) (mkL l r).
Proof. reflexivity. Qed.

Lemma bindL_sampleBus {B} bus (k : Z -> M lmachine B) l r :
  bind (sampleBus bus) k (mkL l r) =
  k (Z.b2z (bus (busLog r))) (mkL l (logEvent (SampleBus (bus (busLog r))) r)).
Proof. reflexivity. Qed.

Lemma bindL_skip {B} (k : unit -> M lmachine B) a : bind skip k a = k tt a.
Proof. reflexivity. Qed.

Lemma bindL_bind {A B C} (m : M lmachine A) (k : A -> M lmachine B)
      (h : B -> M lmachine C) a :
  bind (bind m k) h a = bind m (fun x => bind (k x) h) a.
Proof. unfold bind. destruct (m a); reflexivity. Qed.

Lemma size_cons i p : size (i :: p) = Z.of_nat (length (encode1 i)) + size p.
Proof. unfold size. simpl. rewrite length_app. lia. Qed.

Lemma size_app p q : size (p ++ q) = size p + size q.
Proof.
  induction p as [|i p IH]; simpl; [unfold size; simpl; lia|].
  rewrite !size_cons, IH. lia.
Qed.

Lemma encode_app p q : encode (p ++ q) = encode p ++ encode q.
Proof.
  induction p as [|i p IH]; simpl; [reflexivity|].
  now rewrite IH, app_assoc.
Qed.

Ltac lpush_side :=
  cbn [length encode encode1 app]; unfold size, stackSize in *;
  repeat rewrite ?length_app, ?length_cons in *; cbn [length] in *; lia.

Ltac lstep :=
  repeat first
    [ rewrite bindL_bind
    | rewrite bindL_pop
    | rewrite bindL_push by lpush_side
    | rewrite bindL_onRegs
    | rewrite bindL_readRegs
    | rewrite bindL_sampleBus
    | rewrite bindL_skip
    | rewrite L_push by lpush_side
    | progress cbv beta iota ].

Lemma bindL_storeSPad {B} i v (k : unit -> M lmachine B) l r :
  bind (storeSPad i v) k (mkL l r) =
  match writeAt i v (sPad r) with
  | Some p => k tt (mkL l (set_sPad p r))
  | None => Fault (mkL l r)
  end.
Proof. unfold bind, storeSPad. simpl. destruct (writeAt i v (sPad r)); reflexivity. Qed.

Lemma bindL_loadDeviceAddr {B} i (k : Z -> M lmachine B) l r :
  bind (loadDeviceAddr i) k (mkL l r) =
  match readAt i (deviceAddr r) with
  | Some v => k v (mkL l r)
  | None => Fault (mkL l r)
  end.
Proof. unfold bind, loadDeviceAddr. simpl. destruct (readAt i (deviceAddr r)); reflexivity. Qed.

Ltac pick_opcode :=
  cbn [Z.eqb Pos.eqb BusLow ReadRemainingBits SendRemainingBits SendRemainingIDBytes
         WaitForBusRelease BusRelease ClearBusyStatus BusSample TestTimings
         ReadScratchPad StartIDSend Reset Yield].

(* Case analysis on the line level sampled and on the conditions of
   [istep], in the hypothesis and in the goal at once. *)
Ltac split_bus bus H :=
  revert H;
  try match goal with |- context [bus ?l] => destruct (bus l) end;
  intros H.

Ltac split_ifs H :=
  repeat match type of H with
         | context [if ?c then _ else _] => revert H; destruct c eqn:?; intros H
         end.

Ltac split_opts H :=
  repeat match type of H with
         | context [match ?c with Some _ => _ | None => _ end] =>
             revert H; destruct c eqn:?; intros H
         end.

Ltac lstep' :=
  repeat first
    [ rewrite bindL_bind
    | rewrite bindL_pop
    | rewrite bindL_push by lpush_side
    | rewrite bindL_onRegs
    | rewrite bindL_readRegs
    | rewrite bindL_sampleBus
    | rewrite bindL_storeSPad
    | rewrite bindL_loadDeviceAddr
    | rewrite bindL_skip
    | rewrite L_push by lpush_side
    | progress cbv beta iota
    | progress cbn [when negb Z.b2z Z.eqb] ].

Lemma body_instr_bytes bus i (l : list Z) r q r' :
  peak i + Z.of_nat (length l) <= stackSize ->
  istep bus i r = Some (q, r') ->
  doTimesliceBody bus (mkL (encode1 i ++ l) r) =
  match i with
  | IYield t => Exit t (mkL l r)
  | _ => Next tt (mkL (encode q ++ l) r')
  end.
Proof.
  intros Hfit Hstep. unfold doTimesliceBody.
  destruct i; cbn [peak] in Hfit; cbn [istep] in Hstep;
    cbn [encode encode1 app stackEmpty listStack ListStack.stackEmpty lstack];
    unfold mbind, M_bind, YieldFor, pushSendOneByte, pullBusLow, releaseBus, delay_us,
      alertOn, writeDebugPin, toggleDebugLine; unfold mbind, M_bind; rewrite bindL_pop;
    cbv beta; pick_opcode; cbv zeta in Hstep; lstep';
    split_bus bus Hstep; split_ifs Hstep; lstep'; split_opts Hstep;
    try discriminate Hstep; injection Hstep as <- <-; lstep'.
  all: try reflexivity.
Qed.

Lemma body_instr bus i rest r q r' :
  peak i + size rest <= stackSize ->
  istep bus i r = Some (q, r') ->
  doTimesliceBody bus (mkL (encode (i :: rest)) r) =
  match i with
  | IYield t => Exit t (mkL (encode rest) r)
  | _ => Next tt (mkL (encode (q ++ rest)) r')
  end.
Proof.
  intros Hfit Hstep. rewrite encode_app.
  apply (body_instr_bytes bus i (encode rest) r q r' Hfit Hstep).
Qed.

(** ** Programs that fit stay fitting *)

Lemma peak_ge_size i : Z.of_nat (length (encode1 i)) <= peak i.
Proof. destruct i; simpl; lia. Qed.

Lemma peakP_ge_size p : size p <= peakP p.
Proof.
  induction p as [|i p IH]; simpl; [unfold size; simpl; lia|].
  rewrite size_cons. pose proof (peak_ge_size i). lia.
Qed.

Lemma peakP_app q p : peakP (q ++ p) = Z.max (peakP q + size p) (peakP p).
Proof.
  induction q as [|i q IH]; simpl.
  - pose proof (peakP_ge_size p). lia.
  - rewrite IH, size_app. lia.
Qed.

Lemma istep_peak bus i r q r' : istep bus i r = Some (q, r') -> peakP q <= peak i.
Proof.
  intros Hstep. destruct i; cbn [istep] in Hstep; cbv zeta in Hstep;
    split_bus bus Hstep; split_ifs Hstep; split_opts Hstep;
    try discriminate Hstep; injection Hstep as <- <-;
    cbn; unfold size; cbn; lia.
Qed.

Lemma istep_fits bus i p r q r' :
  istep bus i r = Some (q, r') ->
  peakP (i :: p) <= stackSize -> peakP (q ++ p) <= stackSize.
Proof.
  intros Hstep Hfit. simpl in Hfit. rewrite peakP_app.
  pose proof (istep_peak _ _ _ _ _ Hstep). lia.
Qed.

(** ** The buffers stay as the instructions need them *)

Lemma okI_ext r r' i :
  length (sPad r') = length (sPad r) ->
  length (deviceAddr r') = length (deviceAddr r) ->
  okI r i -> okI r' i.
Proof. intros Hp Ha. destruct i; simpl; rewrite ?Hp, ?Ha; auto. Qed.

Lemma writeAt_length {A} i (v : A) l l' : writeAt i v l = Some l' -> length l' = length l.
Proof.
  unfold writeAt. destruct (inBounds i l); [|discriminate].
  intros [= <-]. apply length_insert.
Qed.

Lemma byte_range x : 0 <= byte x < 256.
Proof. unfold byte. apply Z.mod_pos_bound. lia. Qed.

Lemma istep_frame bus i r q r' :
  istep bus i r = Some (q, r') ->
  length (sPad r') = length (sPad r) /\
  deviceAddr r' = deviceAddr r /\
  (0 <= idByteIndex r -> 0 <= idByteIndex r').
Proof.
  intros Hstep. destruct i; cbn [istep] in Hstep; cbv zeta in Hstep;
    split_bus bus Hstep; split_ifs Hstep; split_opts Hstep;
    try discriminate Hstep; injection Hstep as <- <-; simpl;
    repeat split; auto; try lia;
    try (intros _; apply byte_range).
  all: eapply writeAt_length; eassumption.
Qed.

Lemma istep_ok bus i r q r' :
  okI r i -> istep bus i r = Some (q, r') -> Forall (okI r') q.
Proof.
  intros Hok Hstep.
  destruct i; cbn [istep] in Hstep; cbv zeta in Hstep; cbn [okI] in Hok;
    split_bus bus Hstep; split_ifs Hstep; split_opts Hstep;
    try discriminate Hstep; injection Hstep as <- <-;
    repeat constructor; simpl; try tauto; try lia.
  all: destruct Hok as [Hpos Hlen];
    assert (Hb : byte (bitPos + 1) = bitPos + 1)
      by (unfold byte; apply Z.mod_small; lia);
    rewrite Hb in *;
    try (match goal with H : writeAt _ _ _ = Some _ |- _ =>
                           apply writeAt_length in H; simpl in H; congruence end);
    try lia.
  all: match goal with H : (_ =? 0) = false |- _ => apply Z.eqb_neq in H end;
    Z.div_mod_to_equations; lia.
Qed.

(** Under the invariant an instruction never indexes out of bounds. *)
Lemma istep_total bus i r :
  okI r i -> 0 <= idByteIndex r -> exists q r', istep bus i r = Some (q, r').
Proof.
  intros Hok Hidx.
  destruct i; cbn [istep]; cbv zeta; cbn [okI] in Hok;
    try match goal with |- context [bus ?l] => destruct (bus l) end;
    repeat match goal with
           | |- context [if ?c then _ else _] => destruct c eqn:?
           end;
    try (eexists; eexists; reflexivity).
  all: match goal with
       | |- context [match ?c with Some _ => _ | None => _ end] => destruct c eqn:Hacc
       end; try (eexists; eexists; reflexivity); exfalso.
  all: unfold writeAt, readAt, inBounds in Hacc; simpl in Hacc.

  all: match type of Hacc with
       | (if ?c then _ else _) = None =>
           assert (Hc : c = true);
           [| rewrite Hc in Hacc;
              first [ discriminate Hacc
                    | apply lookup_ge_None in Hacc; rewrite Hok in Hacc;
                      apply Z.ltb_lt in Heqb; lia ] ]
       end.
  all: apply andb_true_iff; rewrite Z.leb_le, Z.ltb_lt.
  all: try (match type of Hok with _ /\ _ => destruct Hok as [Hpos Hlen] end;
            rewrite Hlen;
            assert (Hb : byte (bitPos + 1) = bitPos + 1)
              by (unfold byte; apply Z.mod_small; lia);
            rewrite Hb in *; apply Z.eqb_eq in Heqb;
            assert (Hq : 0 <= (bitPos + 1) / 8 - 1 <= 8)
              by (Z.div_mod_to_equations; lia);
            unfold byte; rewrite (Z.mod_small ((bitPos + 1) / 8 - 1)) by lia; lia).
  all: rewrite Hok; apply Z.ltb_lt in Heqb; lia.
Qed.

(** ** Every timeslice returns *)

Lemma passes_step bus i p r q r' :
  istep bus i r = Some (q, r') ->
  match i with
  | IYield _ => True
  | _ => (passes (q ++ p) < passes (i :: p))%nat
  end.
Proof.
  intros Hstep. destruct i; cbn [istep] in Hstep; cbv zeta in Hstep; auto;
    split_bus bus Hstep; split_ifs Hstep; split_opts Hstep;
    try discriminate Hstep; injection Hstep as <- <-; cbn; lia.
Qed.

Lemma okI_all_ext r r' p :
  length (sPad r') = length (sPad r) ->
  length (deviceAddr r') = length (deviceAddr r) ->
  Forall (okI r) p -> Forall (okI r') p.
Proof.
  intros Hp Ha Hall. eapply Forall_impl; [exact Hall|].
  intros i. apply okI_ext; assumption.
Qed.

Lemma inv_doTimeslice bus n : forall p r,
  peakP p <= stackSize -> Forall (okI r) p -> 0 <= idByteIndex r ->
  (passes p <= n)%nat ->
  exists t p' r',
    doTimeslice bus n (mkL (encode p) r) = Some (t, mkL (encode p') r') /\
    peakP p' <= stackSize /\ Forall (okI r') p' /\ 0 <= idByteIndex r'.
Proof.
  induction n as [|n IH]; intros p r Hfit Hok Hidx Hn.
  - destruct p as [|[] p]; simpl in Hn; lia.
  - destruct p as [|i p].
    + exists 255, [], r. simpl. repeat split; auto; unfold stackSize; lia.
    + assert (Hfit1 : peak i + size p <= stackSize) by (simpl in Hfit; lia).
      assert (Hfitp : peakP p <= stackSize) by (simpl in Hfit; lia).
      inversion Hok as [|? ? Hi Hp]; subst.
      destruct (istep_total bus i r Hi Hidx) as (q & r' & Hstep).
      pose proof (body_instr bus i p r q r' Hfit1 Hstep) as Hbody.
      pose proof (istep_frame _ _ _ _ _ Hstep) as (Hlp & Hda & Hix).
      pose proof (passes_step bus i p r q r' Hstep) as Hdec.
      cbn [doTimeslice]. rewrite Hbody.
      destruct i;
        try (apply IH;
             [ eapply istep_fits; eassumption
             | apply Forall_app; split;
               [ eapply istep_ok; eassumption
               | eapply okI_all_ext; [exact Hlp | now rewrite Hda | exact Hp] ]
             | auto
             | lia ]).
      exists tics, p, r. repeat split; auto.
Qed.

Lemma doTimeslice_fuel_mono {S} `{Stack S} bus n m (s : S) x :
  doTimeslice bus n s = Some x -> (n <= m)%nat -> doTimeslice bus m s = Some x.
Proof.
  revert m s. induction n as [|n IH]; intros m s Hrun Hle; [discriminate|].
  destruct m as [|m]; [lia|]. simpl in *.
  destruct (doTimesliceBody bus s); auto. apply IH; [exact Hrun | lia].
Qed.

Lemma encode1_nonempty i : (1 <= length (encode1 i))%nat.
Proof. destruct i; simpl; lia. Qed.

Lemma passes_bound p : (passes p <= length (encode p) + 3)%nat.
Proof.
  induction p as [|i p IH]; simpl; [lia|].
  rewrite length_app. pose proof (encode1_nonempty i).
  destruct i; simpl in *; lia.
Qed.

(** From a state satisfying the invariant, [doTimeslice] returns within 23
    passes of its loop, in a state satisfying the invariant again. *)
Lemma inv_terminates bus a :
  inv a ->
  exists t a', doTimeslice bus 23 a = Some (t, a') /\ inv a'.
Proof.
  intros (p & Hst & Hfit & Hok & Hidx). destruct a as [l r]. simpl in *. subst l.
  assert (Hn : (passes p <= 23)%nat).
  { pose proof (passes_bound p). pose proof (peakP_ge_size p).
    unfold size, stackSize in *. lia. }
  destruct (inv_doTimeslice bus 23 p r Hfit Hok Hidx Hn) as (t & p' & r' & Hrun & H1 & H2 & H3).
  exists t, (mkL (encode p') r'). split; [exact Hrun|].
  exists p'. simpl. auto.
Qed.

(** ** Reachable states satisfy the invariant *)

Lemma sim_resetAsync : simM resetAsync resetAsync.
Proof. unfold resetAsync. sim. Qed.

Lemma sim_readScratchpadAsync addr pad :
  simM (readScratchpadAsync addr pad) (readScratchpadAsync addr pad).
Proof. unfold readScratchpadAsync. sim. Qed.

Lemma sim_convertAllTemperaturesAsync :
  simM convertAllTemperaturesAsync convertAllTemperaturesAsync.
Proof. unfold convertAllTemperaturesAsync. sim. Qed.

Lemma sim_doTestTimings repeats : simM (doTestTimings repeats) (doTestTimings repeats).
Proof. unfold doTestTimings. sim. Qed.

(** The session calls on the list stack, computed. *)
Lemma L_resetAsync l r :
  resetAsync (mkL l r) =
  Next tt (mkL (encode [IReset; IClearBusyStatus]) (set_status StillBusy r)).
Proof. reflexivity. Qed.

Lemma L_readScratchpadAsync addr pad l r :
  readScratchpadAsync addr pad (mkL l r) =
  Next tt (mkL (encode [IReadScratchPad; IClearBusyStatus])
               (set_status StillBusy (set_sPad pad (set_deviceAddr addr r)))).
Proof. reflexivity. Qed.

Lemma L_convertAllTemperaturesAsync l r :
  convertAllTemperaturesAsync (mkL l r) =
  Next tt (mkL (encode [IReset; ISendRemainingBits 8 SKIPROMWILDCARD;
                        ISendRemainingBits 8 STARTCONVO; IWaitForBusRelease])
               (set_status DevicesAreBusy r)).
Proof. reflexivity. Qed.

Lemma L_doTestTimings repeats l r :
  doTestTimings repeats (mkL l r) =
  Next tt (mkL (encode [ITestTimings (Z.land (uint16 repeats) 0xFF)
                                     (byte (Z.shiftr (uint16 repeats) 8));
                        IBusRelease; IClearBusyStatus])
               (set_status StillBusy r)).
Proof. reflexivity. Qed.

(** A session call never faults on a well-formed machine, and its result is
    the one computed on the list. *)
Lemma session_from_list (m1 : M machine unit) (m2 : M lmachine unit) s a' :
  simM m1 m2 -> wf s -> m2 (toList s) = Next tt a' ->
  exists s', m1 s = Next tt s' /\ view s' a'.
Proof.
  intros Hsim Hwf Ha. specialize (Hsim s _ (view_toList s Hwf)).
  rewrite Ha in Hsim. destruct (m1 s) as [[] s'| |]; try contradiction.
  destruct Hsim as [_ Hv]. eauto.
Qed.

Lemma view_inv_eq s a : view s a -> a = toList s.
Proof. intros (_ & Hst & Hr). destruct a. unfold toList. simpl in *. congruence. Qed.

Ltac fits :=
  cbn [peakP peak]; unfold size, stackSize;
  cbn [encode encode1 app length]; lia.

Lemma inv_view s a : view s a -> inv a -> inv (toList s).
Proof. intros Hv Hinv. now rewrite <- (view_inv_eq _ _ Hv). Qed.

Lemma reachable_inv bus s : reachable bus s -> wf s /\ inv (toList s).
Proof.
  induction 1 as [ | s _ [Hwf Hinv] | s _ [Hwf Hinv] | s addr pad _ [Hwf Hinv] Ha Hp
                 | s _ [Hwf Hinv] | s repeats _ [Hwf Hinv]
                 | s fuel tics s' _ [Hwf Hinv] Hrun | s fuel s' _ [Hwf Hinv] Hrun ].
  - split; [split; simpl; unfold stackSize; lia|].
    exists []. simpl. repeat split; auto; unfold stackSize; lia.
  - pose proof (view_flush s _ (view_toList s Hwf)) as Hv.
    split; [apply Hv|]. apply (inv_view _ _ Hv).
    destruct Hinv as (p & _ & _ & _ & Hidx).
    exists []. simpl. repeat split; auto; unfold stackSize; lia.
  - destruct (session_from_list _ _ s _ sim_resetAsync Hwf (L_resetAsync _ _))
      as (s' & Hs & Hv).
    rewrite Hs. simpl. split; [apply Hv|]. apply (inv_view _ _ Hv).
    destruct Hinv as (p & _ & _ & _ & Hidx).
    eexists. split; [reflexivity|]. simpl.
    repeat split; auto; try fits. repeat constructor.
  - destruct (session_from_list _ _ s _ (sim_readScratchpadAsync addr pad) Hwf
                (L_readScratchpadAsync _ _ _ _)) as (s' & Hs & Hv).
    rewrite Hs. simpl. split; [apply Hv|]. apply (inv_view _ _ Hv).
    destruct Hinv as (p & _ & _ & _ & Hidx).
    eexists. split; [reflexivity|]. simpl.
    repeat split; auto; try fits. repeat constructor; simpl; auto.
  - destruct (session_from_list _ _ s _ sim_convertAllTemperaturesAsync Hwf
                (L_convertAllTemperaturesAsync _ _)) as (s' & Hs & Hv).
    rewrite Hs. simpl. split; [apply Hv|]. apply (inv_view _ _ Hv).
    destruct Hinv as (p & _ & _ & _ & Hidx).
    eexists. split; [reflexivity|]. simpl.
    repeat split; auto; try fits. repeat constructor.
  - destruct (session_from_list _ _ s _ (sim_doTestTimings repeats) Hwf
                (L_doTestTimings _ _ _)) as (s' & Hs & Hv).
    rewrite Hs. simpl. split; [apply Hv|]. apply (inv_view _ _ Hv).
    destruct Hinv as (p & _ & _ & _ & Hidx).
    eexists. split; [reflexivity|]. simpl.
    repeat split; auto; try fits. repeat constructor.
  - destruct (inv_terminates bus _ Hinv) as (t & a' & Ha & Hinv').
    pose proof (sim_doTimeslice bus fuel s _ (view_toList s Hwf)) as Hsim.
    rewrite Hrun in Hsim.
    destruct (doTimeslice bus fuel (toList s)) as [[u a1]|] eqn:Ha1; [|contradiction].
    destruct Hsim as [-> Hv].
    assert (Heq : Some (u, a1) = Some (t, a')).
    { rewrite <- (doTimeslice_fuel_mono bus fuel (Nat.max fuel 23) _ _ Ha1) by lia.
      rewrite <- (doTimeslice_fuel_mono bus 23 (Nat.max fuel 23) _ _ Ha) by lia.
      reflexivity. }
    injection Heq as -> ->.
    split; [apply Hv|]. now apply (inv_view _ _ Hv).
  - unfold ISR in Hrun.
    destruct (doTimeslice bus fuel s) as [[u s1]|] eqn:Hs1; [|discriminate].
    injection Hrun as <-.
    destruct (inv_terminates bus _ Hinv) as (t & a' & Ha & Hinv').
    pose proof (sim_doTimeslice bus fuel s _ (view_toList s Hwf)) as Hsim.
    rewrite Hs1 in Hsim.
    destruct (doTimeslice bus fuel (toList s)) as [[u' a1]|] eqn:Ha1; [|contradiction].
    destruct Hsim as [-> Hv].
    assert (Heq : Some (u', a1) = Some (t, a')).
    { rewrite <- (doTimeslice_fuel_mono bus fuel (Nat.max fuel 23) _ _ Ha1) by lia.
      rewrite <- (doTimeslice_fuel_mono bus 23 (Nat.max fuel 23) _ _ Ha) by lia.
      reflexivity. }
    injection Heq as -> ->.
    pose proof (view_withRegs (logEvent (TimerWait t) (regs s1)) _ _ Hv) as Hv2.
    split; [apply Hv2|]. apply (inv_view _ _ Hv2).
    destruct Hinv' as (p & Hst & Hfit & Hok & Hidx).
    exists p. simpl. destruct Hv as (_ & _ & Hr). rewrite Hr.
    repeat split; auto;
      try (eapply okI_all_ext; [| |exact Hok]; reflexivity).
Qed.

(** ** The array stack: [push] and [pop] *)

Lemma pop_spec s v rest :
  wf s -> stackOf s = v :: rest ->
  ArrayStack.pop s = Next v (set_topOfStack (topOfStack s - 1) s) /\
  wf (set_topOfStack (topOfStack s - 1) s) /\
  stackOf (set_topOfStack (topOfStack s - 1) s) = rest.
Proof.
  intros Hwf Hst.
  pose proof (sim_pop s (mkL (v :: rest) (regs s))) as Hsim.
  assert (Hv : view s (mkL (v :: rest) (regs s))) by (repeat split; auto; apply Hwf).
  specialize (Hsim Hv). simpl in Hsim.
  pose proof (stackOf_length s Hwf) as Hlen. rewrite Hst in Hlen. simpl in Hlen.
  destruct Hwf as [Hl Ht].
  unfold ArrayStack.pop in *.
  assert (Hb : byte (topOfStack s - 1) = topOfStack s - 1).
  { unfold byte. apply Z.mod_small. unfold stackSize in *. lia. }
  rewrite Hb in *.
  destruct (readAt _ _); simpl in Hsim; [|contradiction].
  destruct Hsim as [-> (Hwf' & Hst' & _)]. auto.
Qed.

Lemma pop_empty s :
  wf s -> topOfStack s = 0 ->
  ArrayStack.pop s = Fault (set_topOfStack 255 s).
Proof.
  intros [Hl _] Ht. unfold ArrayStack.pop, readAt, inBounds. rewrite Ht. simpl.
  rewrite Hl. reflexivity.
Qed.

Lemma push_spec b s :
  wf s ->
  exists s', ArrayStack.push b s = Next tt s' /\ wf s' /\
    stackOf s' = (if stackSize <=? topOfStack s then stackOf s else b :: stackOf s) /\
    regs s' = (if stackSize <=? topOfStack s
               then set_serial (serial (regs s) ++ ["Stack overflow"%string])
                               (set_ledAlert true (regs s))
               else regs s).
Proof.
  intros Hwf.
  pose proof (sim_push b s _ (view_toList s Hwf)) as Hsim.
  pose proof (stackOf_length s Hwf) as Hlen.
  unfold ListStack.push in Hsim. simpl in Hsim. rewrite Hlen in Hsim.
  destruct (ArrayStack.push b s) as [[] s'| |];
    destruct (stackSize <=? topOfStack s); simpl in Hsim; try contradiction;
    destruct Hsim as (_ & Hwf' & Hst & Hr); exists s'; auto.
Qed.

Lemma push_full b s :
  wf s -> topOfStack s = stackSize ->
  exists s', ArrayStack.push b s = Next tt s' /\
    theCode s' = theCode s /\ topOfStack s' = topOfStack s /\
    stackHighTide s' = stackHighTide s /\
    regs s' = set_serial (serial (regs s) ++ ["Stack overflow"%string])
                         (set_ledAlert true (regs s)).
Proof.
  intros Hwf Hfull. unfold ArrayStack.push. rewrite Hfull. simpl.
  rewrite snapshot_ok.
  - eexists. split; [reflexivity|]. simpl. auto.
  - destruct Hwf. split; simpl; auto.
Qed.

Lemma push_top b s s1 :
  wf s -> ArrayStack.push b s = Next tt s1 ->
  topOfStack s1 = Z.min (topOfStack s + 1) stackSize.
Proof.
  intros Hwf Hp1.
  destruct (push_spec b s Hwf) as (s' & Hp & Hwf1 & Hst1 & _).
  rewrite Hp in Hp1. injection Hp1 as <-.
  pose proof (stackOf_length s Hwf) as Hlen.
  pose proof (stackOf_length s' Hwf1) as Hlen1. rewrite Hst1 in Hlen1.
  destruct Hwf as [_ Ht].
  destruct (Z.leb_spec stackSize (topOfStack s)).
  - rewrite <- Hlen1, Hlen. lia.
  - rewrite <- Hlen1. simpl length. lia.
Qed.

(** A run of pushes and pops from a well-formed state goes through, or
    stops at its first [pop] of the empty stack. *)
Lemma runOps_bounds ops : forall s,
  wf s ->
  (exists s', runOps ops s = Next tt s' /\ wf s') \/
  (exists pre rest s0,
      ops = pre ++ OpPop :: rest /\
      popsWithinDepth pre (topOfStack s) = true /\
      runOps pre s = Next tt s0 /\ wf s0 /\ topOfStack s0 = 0 /\
      ArrayStack.pop s0 = Fault (set_topOfStack 255 s0) /\
      runOps ops s = Fault (set_topOfStack 255 s0)).
Proof.
  induction ops as [|[b|] ops IH]; intros s Hwf.
  - left. exists s. auto.
  - destruct (push_spec b s Hwf) as (s1 & Hp & Hwf1 & _).
    cbn [runOps]. unfold mbind, M_bind, bind. rewrite Hp.
    destruct (IH s1 Hwf1)
      as [Hok | (pre & rest & s0 & -> & Hin & Hpre & Hwf0 & Ht0 & Hpop & Hrun)];
      [left; exact Hok|].
    right. exists (OpPush b :: pre), rest, s0.
    split; [reflexivity|].
    split; [cbn [popsWithinDepth]; now rewrite <- (push_top b s s1 Hwf Hp)|].
    split; [cbn [runOps]; unfold mbind, M_bind, bind; now rewrite Hp|].
    split; [exact Hwf0|]. split; [exact Ht0|]. split; [exact Hpop | exact Hrun].
  - cbn [runOps]. unfold mbind, M_bind, bind.
    destruct (stackOf s) as [|v rest] eqn:Hst.
    + pose proof (stackOf_length s Hwf) as Hlen. rewrite Hst in Hlen. simpl in Hlen.
      assert (Ht : topOfStack s = 0) by lia.
      rewrite (pop_empty s Hwf Ht).
      right. exists [], ops, s.
      split; [reflexivity|]. split; [reflexivity|]. split; [reflexivity|].
      split; [exact Hwf|].
      split; [exact Ht|]. split; [now apply pop_empty | reflexivity].
    + destruct (pop_spec s v rest Hwf Hst) as (Hp & Hwf1 & _).
      pose proof (stackOf_length s Hwf) as Hlen. rewrite Hst in Hlen. simpl in Hlen.
      rewrite Hp.
      destruct (IH _ Hwf1)
        as [Hok | (pre & rest' & s0 & -> & Hin & Hpre & Hwf0 & Ht0 & Hpop & Hrun)];
        [left; exact Hok|].
      right. exists (OpPop :: pre), rest', s0.
      split; [reflexivity|].
      split. { cbn [popsWithinDepth]. cbn [topOfStack set_topOfStack] in Hin.
               rewrite Hin. replace (0 <? topOfStack s) with true; [reflexivity|].
               symmetry. apply Z.ltb_lt. lia. }
      split; [cbn [runOps]; unfold mbind, M_bind, bind; now rewrite Hp|].
      split; [exact Hwf0|]. split; [exact Ht0|]. split; [exact Hpop | exact Hrun].
Qed.

(** With the top index above the capacity, [push] takes its overflow
    branch, and the second snapshot loop, which copies [topOfStack] bytes,
    leaves the arrays. *)
Lemma push_beyond b s :
  stackSize < topOfStack s ->
  ArrayStack.push b s
  = Fault (set_regs (set_serial (serial (regs s) ++ ["Stack overflow"%string])
                                (set_ledAlert true (regs s))) s).
Proof.
  intros Hbig. unfold ArrayStack.push, ArrayStack.snapshot.
  replace (stackSize <=? topOfStack s) with true by (symmetry; apply Z.leb_le; lia).
  cbn [topOfStack set_regs].
  replace (topOfStack s <=? stackSize) with false by (symmetry; apply Z.leb_gt; lia).
  reflexivity.
Qed.

Lemma runOps_within ops : forall s,
  wf s -> popsWithinDepth ops (topOfStack s) = true ->
  exists s', runOps ops s = Next tt s' /\ wf s'.
Proof.
  induction ops as [|[b|] ops IH]; intros s Hwf Hok.
  - exists s. auto.
  - destruct (push_spec b s Hwf) as (s1 & Hp & Hwf1 & Hst1 & _).
    cbn [runOps]. unfold mbind, M_bind, bind. rewrite Hp. apply IH; [exact Hwf1|].
    cbn [popsWithinDepth] in Hok.
    pose proof (stackOf_length s Hwf) as Hlen.
    pose proof (stackOf_length s1 Hwf1) as Hlen1. rewrite Hst1 in Hlen1.
    destruct Hwf as [_ Ht].
    destruct (Z.leb_spec stackSize (topOfStack s)).
    + replace (topOfStack s1) with (Z.min (topOfStack s + 1) stackSize); [exact Hok|].
      rewrite <- Hlen1, Hlen. lia.
    + replace (topOfStack s1) with (Z.min (topOfStack s + 1) stackSize); [exact Hok|].
      rewrite <- Hlen1. simpl length. lia.
  - cbn [popsWithinDepth] in Hok. apply andb_true_iff in Hok as [Hpos Hok].
    apply Z.ltb_lt in Hpos.
    cbn [runOps]. unfold mbind, M_bind, bind.
    destruct (stackOf s) as [|v rest] eqn:Hst.
    + pose proof (stackOf_length s Hwf) as Hlen. rewrite Hst in Hlen. simpl in Hlen. lia.
    + destruct (pop_spec s v rest Hwf Hst) as (Hp & Hwf1 & _).
      rewrite Hp. apply IH; [exact Hwf1 | exact Hok].
Qed.

Lemma idle_pass bus fuel (s : machine) :
  topOfStack s = 0 -> doTimeslice bus (S fuel) s = Some (255, s).
Proof.
  intros Htop. cbn [doTimeslice]. unfold doTimesliceBody.
  change (stackEmpty s) with (topOfStack s =? 0). now rewrite Htop.
Qed.

(** ** Claims about the instruction stack and single passes *)




(** C9: with the instruction stack empty, [doTimeslice] returns the maximum
    holdoff 255 on its first pass and leaves the whole state, the bus history
    included, as it was. *)
Theorem doTimeslice_idle (bus : list BusEvent -> bool) (fuel : nat) (s : machine) :
  topOfStack s = 0 ->
  doTimeslice bus (S fuel) s = Some (255, s).
Proof.
  intros Htop. simpl. unfold doTimesliceBody. simpl.
  unfold ArrayStack.stackEmpty. rewrite Htop. reflexivity.
Qed.

Lemma doTimeslice_idle_witness :
  topOfStack powerOn = 0 /\
  doTimeslice idleBus 1 powerOn = Some (255, powerOn).
Proof.
  split; [reflexivity|]. apply (doTimeslice_idle idleBus 0 powerOn). reflexivity.
Defined.

(** C4: when the presence sample of a [Reset] reads the line high, the pass
    of [doTimeslice] that executes [BusSample] sets [NoDeviceOnBus] in the
    status (and the alert), pops nothing but the [BusSample] opcode and
    writes nothing to [theCode]: the instructions beneath stay as they were,
    and the loop goes on to execute them. *)
Theorem busSample_does_not_abort (bus : list BusEvent -> bool) (s : machine)
        (rest : list Z) :
  wf s ->
  stackOf s = BusSample :: rest ->
  bus (busLog (regs s) ++ [ReleaseBus]) = true ->
  exists s',
    doTimesliceBody bus s = Next tt s' /\
    status (regs s') = Z.lor (status (regs s)) NoDeviceOnBus /\
    theCode s' = theCode s /\
    topOfStack s' = topOfStack s - 1 /\
    stackOf s' = rest /\
    forall fuel, doTimeslice bus (S fuel) s = doTimeslice bus fuel s'.
Proof.
  intros Hwf Hst Hhigh.
  destruct (pop_spec s BusSample rest Hwf Hst) as (Hpop & Hwf1 & Hst1).
  pose proof (stackOf_length s Hwf) as Hlen. rewrite Hst in Hlen. simpl in Hlen.
  assert (Hbody : doTimesliceBody bus s =
    Next tt (set_regs
               (set_ledAlert true
                  (set_status (Z.lor (status (regs s)) NoDeviceOnBus)
                     (logEvent (SampleBus true) (logEvent ReleaseBus (regs s)))))
               (set_topOfStack (topOfStack s - 1) s))).
  { unfold doTimesliceBody. simpl stackEmpty. unfold ArrayStack.stackEmpty.
    replace (topOfStack s =? 0) with false by (symmetry; apply Z.eqb_neq; lia).
    unfold mbind, M_bind, bind. simpl pop. rewrite Hpop.
    pick_opcode. unfold releaseBus, sampleBus, onRegs. simpl.
    rewrite Hhigh. reflexivity. }
  eexists. split; [exact Hbody|]. simpl.
  repeat split; auto.
  intros fuel. simpl. rewrite Hbody. reflexivity.
Qed.

Lemma busSample_does_not_abort_witness :
  wf midReset /\
  stackOf midReset = BusSample :: [Yield; Micros410; ClearBusyStatus] /\
  idleBus (busLog (regs midReset) ++ [ReleaseBus]) = true /\
  exists s',
    doTimesliceBody idleBus midReset = Next tt s' /\
    status (regs s') = Z.lor (status (regs midReset)) NoDeviceOnBus /\
    theCode s' = theCode midReset /\
    topOfStack s' = topOfStack midReset - 1 /\
    stackOf s' = [Yield; Micros410; ClearBusyStatus] /\
    forall fuel, doTimeslice idleBus (S fuel) midReset = doTimeslice idleBus fuel s'.
Proof.
  assert (Hwf : wf midReset) by (split; [reflexivity | simpl; unfold stackSize; lia]).
  split; [exact Hwf|]. split; [reflexivity|]. split; [reflexivity|].
  apply (busSample_does_not_abort idleBus midReset [Yield; Micros410; ClearBusyStatus] Hwf);
    reflexivity.
Defined.

(** ** One pass on the array, instruction by instruction *)

Lemma step_instr bus s i rest q r' :
  wf s -> stackOf s = encode (i :: rest) ->
  peak i + size rest <= stackSize ->
  istep bus i (regs s) = Some (q, r') ->
  exists s',
    doTimesliceBody bus s =
      match i with
      | IYield t => Exit t s'
      | _ => Next tt s'
      end /\
    wf s' /\
    stackOf s' = match i with IYield _ => encode rest | _ => encode (q ++ rest) end /\
    regs s' = match i with IYield _ => regs s | _ => r' end.
Proof.
  intros Hwf Hst Hfit Hstep.
  assert (Hv : view s (mkL (encode (i :: rest)) (regs s))) by (repeat split; auto; apply Hwf).
  pose proof (sim_doTimesliceBody bus s _ Hv) as Hsim.
  rewrite (body_instr bus i rest (regs s) q r' Hfit Hstep) in Hsim.
  destruct (doTimesliceBody bus s) as [[] s'|t s'|s'];
    destruct i; simpl in Hsim; try contradiction;
    destruct Hsim as (He & Hwf' & Hst' & Hr'); subst; exists s'; auto.
Qed.



(** ** Runs of programs are runs of the interrupt *)

Lemma passes_le_23 p : peakP p <= stackSize -> (passes p <= 23)%nat.
Proof.
  intros Hfit. pose proof (passes_bound p). pose proof (peakP_ge_size p).
  unfold size, stackSize in *. lia.
Qed.

Lemma Run_slices bus p r n r' :
  Run bus p r n r' ->
  peakP p <= stackSize ->
  forall F f, (23 <= F)%nat -> (passes p <= f)%nat ->
    match doTimeslice bus f (mkL (encode p) r) with
    | Some (t, a') => runISR bus F n (mkL (lstack a') (logEvent (TimerWait t) (lregs a')))
    | None => None
    end = Some (mkL [] (logEvent (TimerWait 255) r')).
Proof.
  induction 1 as [r | t p r n r' Hrun IH | i p r q r1 n r' Hny Hstep Hrun IH];
    intros Hfit F f HF Hf.
  - destruct f as [|f]; [simpl in Hf; lia|]. reflexivity.
  - destruct f as [|f]; [simpl in Hf; lia|].
    assert (Hfit1 : peak (IYield t) + size p <= stackSize)
      by (cbn [peakP peak] in *; lia).
    assert (Hfitp : peakP p <= stackSize) by (cbn [peakP peak] in *; lia).
    cbn [doTimeslice].
    rewrite (body_instr bus (IYield t) p r [] r Hfit1 eq_refl).
    cbn [runISR]. unfold ISR. simpl lstack. simpl lregs.
    specialize (IH Hfitp F F HF (Nat.le_trans _ _ _ (passes_le_23 p Hfitp) HF)).
    destruct (doTimeslice bus F _) as [[u a1]|]; [|discriminate IH].
    exact IH.
  - assert (Hfit1 : peak i + size p <= stackSize) by (cbn [peakP] in *; lia).
    pose proof (passes_step bus i p r q r1 Hstep) as Hdec.
    pose proof (body_instr bus i p r q r1 Hfit1 Hstep) as Hbody.
    destruct f as [|f]; [destruct i; simpl in Hf; lia|].
    cbn [doTimeslice]. rewrite Hbody.
    destruct i; try discriminate Hny; cbv beta iota in Hdec;
      (apply IH; [eapply istep_fits; eassumption | exact HF | lia]).
Qed.

Lemma Run_sound bus p r n r' :
  Run bus p r n r' ->
  peakP p <= stackSize ->
  forall F, (23 <= F)%nat ->
    runISR bus F (S n) (mkL (encode p) r) = Some (mkL [] (logEvent (TimerWait 255) r')).
Proof.
  intros Hrun Hfit F HF.
  pose proof (Run_slices bus p r n r' Hrun Hfit F F HF
                (Nat.le_trans _ _ _ (passes_le_23 p Hfit) HF)) as H.
  cbn [runISR]. unfold ISR.
  destruct (doTimeslice bus F _) as [[u a1]|]; [|discriminate H].
  exact H.
Qed.

Lemma sim_ISR bus F s a :
  view s a ->
  match ISR bus F s, ISR bus F a with
  | Some s', Some a' => view s' a'
  | None, None => True
  | _, _ => False
  end.
Proof.
  intros Hv. unfold ISR. pose proof (sim_doTimeslice bus F s a Hv) as Hsim.
  destruct (doTimeslice bus F s) as [[t s']|], (doTimeslice bus F a) as [[u a']|];
    try contradiction; auto.
  destruct Hsim as [-> Hv']. pose proof Hv' as (_ & _ & Hr). simpl. rewrite Hr.
  apply (view_withRegs _ s' a' Hv').
Qed.

Lemma runISR_from_list bus F n : forall s a a',
  view s a -> runISR bus F n a = Some a' ->
  exists s', runISR bus F n s = Some s' /\ view s' a'.
Proof.
  induction n as [|n IH]; intros s a a' Hv Hrun; simpl in *.
  - injection Hrun as <-. eauto.
  - pose proof (sim_ISR bus F s a Hv) as Hsim.
    destruct (ISR bus F a) as [a1|]; [|discriminate].
    destruct (ISR bus F s) as [s1|]; [|contradiction].
    eapply IH; eassumption.
Qed.

(** Runs compose: the rest of the program is untouched while its head
    runs. *)
Lemma Run_app bus p1 r n1 r1 :
  Run bus p1 r n1 r1 ->
  forall p2 n2 r2, Run bus p2 r1 n2 r2 -> Run bus (p1 ++ p2) r (n1 + n2) r2.
Proof.
  induction 1 as [r | t p r n r' Hrun IH | i p r q r1' n r' Hny Hstep Hrun IH];
    intros p2 n2 r2 H2; simpl.
  - exact H2.
  - apply Run_yield. apply IH, H2.
  - eapply Run_instr; [exact Hny | exact Hstep |].
    rewrite app_assoc. apply IH, H2.
Qed.

(** ** Runs of the macros *)

Ltac regs_eq :=
  match goal with
  | |- @eq Regs _ _ =>
      repeat match goal with r : Regs |- _ => destruct r end;
      cbv [appendLog logEvent set_busLog set_status set_receiveRegister
             set_idByteIndex set_sPad set_ledAlert set_debugLine set_debugOutput
             status receiveRegister deviceAddr idByteIndex sPad ledAlert debugLine
             debugOutput serial busLog];
      f_equal; rewrite <- ?app_assoc; try reflexivity
  end.

Lemma land_1_odd v : (Z.land v 1 =? 1) = Z.odd v.
Proof.
  change 1 with (Z.ones 1) at 1. rewrite Z.land_ones by lia.
  change (2 ^ 1) with 2. rewrite <- Z.bit0_mod, Z.bit0_odd.
  destruct (Z.odd v); reflexivity.
Qed.

Lemma Run_sendBits bus k : forall v r,
  (1 <= k <= 255)%nat ->
  Run bus [ISendRemainingBits (Z.of_nat k) v] r k (appendLog (sendBitsTrace k v) r).
Proof.
  induction k as [|k IH]; intros v r Hk; [lia|].
  assert (Hb : byte (Z.of_nat (S k) - 1) = Z.of_nat k).
  { unfold byte. rewrite Z.mod_small; lia. }
  assert (Hrest : forall r1, Run bus
            (if 0 <? Z.of_nat k then [ISendRemainingBits (Z.of_nat k) (Z.shiftr v 1)] else [])
            r1 k (appendLog (sendBitsTrace k (Z.shiftr v 1)) r1)).
  { intros r1. destruct k as [|k'].
    - simpl. replace (appendLog [] r1) with r1 by (destruct r1; unfold appendLog, set_busLog; simpl; now rewrite app_nil_r).
      apply Run_nil.
    - replace (0 <? Z.of_nat (S k')) with true by (symmetry; apply Z.ltb_lt; lia).
      apply IH. lia. }
  assert (Hstep : istep bus (ISendRemainingBits (Z.of_nat (S k)) v) r =
    let more := if 0 <? Z.of_nat k
                then [ISendRemainingBits (Z.of_nat k) (Z.shiftr v 1)] else [] in
    if Z.odd v
    then Some (IYield Micros64 :: more,
               logEvent ReleaseBus (logEvent (DelayUs 6) (logEvent PullLow r)))
    else Some (IYield Micros60 :: IBusRelease :: more, logEvent PullLow r)).
  { cbn [istep]; cbv zeta; rewrite Hb, land_1_odd; reflexivity. }
  cbv zeta in Hstep.
  cbn [sendBitsTrace]. destruct (Z.odd v); cbn [app sendBitTrace];
    (eapply Run_instr; [reflexivity | exact Hstep |]); cbn [app].
  - apply Run_yield.
    match goal with |- Run _ _ ?r1 _ ?r2 =>
      replace r2 with (appendLog (sendBitsTrace k (Z.shiftr v 1)) r1) by regs_eq end.
    rewrite app_nil_r. apply Hrest.
  - apply Run_yield.
    eapply Run_instr; [reflexivity | reflexivity |]. cbn [app].
    match goal with |- Run _ _ ?r1 _ ?r2 =>
      replace r2 with (appendLog (sendBitsTrace k (Z.shiftr v 1)) r1) by regs_eq end.
    rewrite app_nil_r. apply Hrest.
Qed.

Lemma appendLog_nil r : appendLog [] r = r.
Proof. destruct r. unfold appendLog, set_busLog. simpl. now rewrite app_nil_r. Qed.

Lemma istep_BusSample bus r b :
  bus (busLog r ++ [ReleaseBus]) = b ->
  istep bus IBusSample r =
  Some ([], if b
            then set_ledAlert true
                   (set_status (Z.lor (status r) NoDeviceOnBus)
                      (appendLog [ReleaseBus; SampleBus b] r))
            else appendLog [ReleaseBus; SampleBus b] r).
Proof.
  intros Hb. cbn [istep]. cbv zeta.
  change (busLog (logEvent ReleaseBus r)) with (busLog r ++ [ReleaseBus]).
  rewrite Hb. destruct b; f_equal; f_equal; regs_eq.
Qed.

Lemma Run_reset bus r b :
  bus (busLog r ++ [PullLow; TimerWait Micros480; ReleaseBus; DelayUs 10;
                    TimerWait Micros70; ReleaseBus]) = b ->
  Run bus [IReset] r 3
      (if b
       then set_ledAlert true
              (set_status (Z.lor (status r) NoDeviceOnBus) (appendLog (resetTrace b) r))
       else appendLog (resetTrace b) r).
Proof.
  intros Hb.
  eapply Run_instr; [reflexivity | reflexivity |]. cbn [app resetProgram].
  eapply Run_instr; [reflexivity | reflexivity |]. cbn [app].
  apply Run_yield.
  eapply Run_instr; [reflexivity | reflexivity |]. cbn [app].
  apply Run_yield.
  eapply Run_instr; [reflexivity | apply (istep_BusSample bus _ b) |].
  - rewrite <- Hb. f_equal. unfold logEvent, set_busLog. simpl.
    rewrite <- !app_assoc. reflexivity.
  - cbn [app]. apply Run_yield.
    match goal with |- Run _ _ ?r1 _ ?r2 => replace r2 with r1; [apply Run_nil|] end.
    destruct b; cbv iota; unfold resetTrace; regs_eq.
Qed.

Lemma Run_clearBusy bus r :
  Run bus [IClearBusyStatus] r 0
      (set_status (byte (Z.land (status r) (Z.lnot StillBusy))) r).
Proof. eapply Run_instr; [reflexivity | reflexivity | apply Run_nil]. Qed.

Lemma Run_sendID bus addr m : forall j r,
  (j + m = 8)%nat ->
  idByteIndex r = Z.of_nat j -> deviceAddr r = addr -> length addr = 8%nat ->
  Run bus [ISendRemainingIDBytes] r (8 * m)
      (set_idByteIndex 8 (appendLog (concat (map sendByteTrace (drop j addr))) r)).
Proof.
  induction m as [|m IH]; intros j r Hj Hidx Haddr Hlen.
  - assert (j = 8%nat) by lia. subst j.
    eapply Run_instr; [reflexivity | cbn [istep]; rewrite Hidx; reflexivity |].
    rewrite drop_ge by lia. simpl concat. rewrite appendLog_nil.
    replace (set_idByteIndex 8 r) with r; [apply Run_nil|].
    destruct r; simpl in *; subst; reflexivity.
  - assert (Hlt : (j < length addr)%nat) by lia.
    destruct (lookup_lt_is_Some_2 addr j Hlt) as [b Hb].
    assert (Hstep : istep bus ISendRemainingIDBytes r =
                    Some ([ISendRemainingBits 8 b; ISendRemainingIDBytes],
                          set_idByteIndex (Z.of_nat (S j)) r)).
    { cbn [istep]. rewrite Hidx, Haddr.
      replace (Z.of_nat j <? 8) with true by (symmetry; apply Z.ltb_lt; lia).
      unfold readAt, inBounds.
      replace (0 <=? Z.of_nat j) with true by (symmetry; apply Z.leb_le; lia).
      replace (Z.of_nat j <? Z.of_nat (length addr)) with true
        by (symmetry; apply Z.ltb_lt; lia).
      simpl. rewrite Nat2Z.id, Hb. do 3 f_equal.
      unfold byte. rewrite Z.mod_small; lia. }
    eapply Run_instr; [reflexivity | exact Hstep |].
    change ([ISendRemainingBits 8 b; ISendRemainingIDBytes] ++ [])
      with ([ISendRemainingBits (Z.of_nat 8) b] ++ [ISendRemainingIDBytes]).
    replace (8 * S m)%nat with (8 + 8 * m)%nat by lia.
    eapply Run_app; [apply Run_sendBits; lia|].
    match goal with |- Run _ _ ?r1 _ ?r2 =>
      replace r2 with (set_idByteIndex 8
                         (appendLog (concat (map sendByteTrace (drop (S j) addr))) r1)) end.
    + apply IH; auto; try lia.
    + rewrite (drop_S addr b j Hb). simpl concat. unfold sendByteTrace. regs_eq.
Qed.

Lemma Run_startID bus addr r :
  deviceAddr r = addr -> length addr = 8%nat ->
  Run bus [IStartIDSend] r 72
      (set_idByteIndex 8
         (appendLog (sendByteTrace SELECTDEVICE ++ concat (map sendByteTrace addr)) r)).
Proof.
  intros Haddr Hlen.
  eapply Run_instr; [reflexivity | reflexivity |].
  change ([ISendRemainingBits 8 SELECTDEVICE; ISendRemainingIDBytes] ++ [])
    with ([ISendRemainingBits (Z.of_nat 8) SELECTDEVICE] ++ [ISendRemainingIDBytes]).
  change 72%nat with (8 + 8 * 8)%nat.
  eapply Run_app; [apply Run_sendBits; lia|].
  match goal with |- Run _ _ ?r1 _ ?r2 =>
    replace r2 with (set_idByteIndex 8
                       (appendLog (concat (map sendByteTrace (drop 0 addr))) r1)) end.
  - apply (Run_sendID bus addr 8 0); auto.
  - rewrite drop_0. unfold sendByteTrace. regs_eq.
Qed.

(** ** The read slots *)

Ltac regs_simpl :=
  cbv [appendLog logEvent set_busLog set_status set_receiveRegister
         set_idByteIndex set_sPad set_ledAlert set_debugLine set_debugOutput
         status receiveRegister deviceAddr idByteIndex sPad ledAlert debugLine
         debugOutput serial busLog].

Lemma istep_ReadRemainingBits bus r bitPos b :
  0 <= bitPos < 72 ->
  length (sPad r) = 9%nat ->
  bus (busLog r ++ [PullLow; DelayUs 6; ReleaseBus; DelayUs 9]) = b ->
  istep bus (IReadRemainingBits bitPos) r =
  Some (IYield Micros55 ::
          (if bitPos + 1 <? 72 then [IReadRemainingBits (bitPos + 1)] else []),
        readBitEffect bitPos b r).
Proof.
  intros Hpos Hlen Hb. cbn [istep]. cbv zeta.
  assert (Hlog : busLog (logEvent (DelayUs 9) (logEvent ReleaseBus (logEvent (DelayUs 6)
                   (logEvent PullLow (set_debugLine false r))))) =
                 busLog r ++ [PullLow; DelayUs 6; ReleaseBus; DelayUs 9]).
  { unfold logEvent, set_busLog. simpl. rewrite <- !app_assoc. reflexivity. }
  rewrite Hlog, Hb.
  assert (Hbyte : byte (bitPos + 1) = bitPos + 1) by (unfold byte; apply Z.mod_small; lia).
  rewrite Hbyte.
  assert (Hmask : byte (Z.shiftl 1 (bitPos mod 8)) = 2 ^ (bitPos mod 8)).
  { rewrite Z.shiftl_1_l. unfold byte. apply Z.mod_small.
    assert (0 <= bitPos mod 8 < 8) by (apply Z.mod_pos_bound; lia).
    split; [apply Z.pow_nonneg; lia|].
    apply (Z.lt_le_trans _ (2 ^ 8)); [apply Z.pow_lt_mono_r; lia | simpl; lia]. }
  rewrite Hmask. unfold readBitEffect. cbv zeta.
  destruct ((bitPos + 1) mod 8 =? 0) eqn:Hend.
  - apply Z.eqb_eq in Hend.
    assert (Hq : (bitPos + 1) / 8 - 1 = bitPos / 8) by (Z.div_mod_to_equations; lia).
    assert (Hq0 : 0 <= bitPos / 8 < 9) by (Z.div_mod_to_equations; lia).
    rewrite Hq. unfold byte. rewrite (Z.mod_small (bitPos / 8)) by lia.
    unfold writeAt, inBounds.
    replace (0 <=? bitPos / 8) with true by (symmetry; apply Z.leb_le; lia).
    match goal with |- context [?x <? Z.of_nat (length ?l)] =>
      replace (x <? Z.of_nat (length l)) with true
        by (symmetry; apply Z.ltb_lt; destruct b; simpl; rewrite Hlen; lia) end.
    simpl andb. cbv iota.
    destruct b; f_equal; f_equal; regs_eq.
  - apply Z.eqb_neq in Hend.
    replace (bitPos + 1 <? 72) with true
      by (symmetry; apply Z.ltb_lt; Z.div_mod_to_equations; lia).
    destruct b; f_equal; f_equal; regs_eq.
Qed.

Lemma byte_cases (P : Z -> bool) :
  forallb P (map Z.of_nat (seq 0 256)) = true ->
  forall v, 0 <= v < 256 -> P v = true.
Proof.
  intros Hall v Hv. rewrite List.forallb_forall in Hall. apply Hall.
  apply List.in_map_iff. exists (Z.to_nat v). split; [lia|].
  apply List.in_seq. lia.
Qed.

Lemma fold_bit v k (rr : Z) :
  0 <= v < 256 -> (k < 8)%nat ->
  rr = v mod 2 ^ Z.of_nat k ->
  (if Z.testbit v (Z.of_nat k) then Z.lor rr (2 ^ Z.of_nat k) else rr)
  = v mod 2 ^ Z.of_nat (S k).
Proof.
  intros Hv Hk ->.
  apply Z.eqb_eq.
  revert v Hv.
  do 8 (destruct k as [|k]; [apply byte_cases; vm_compute; reflexivity|]).
  lia.
Qed.

Lemma Z_of_nat_div8 n : Z.of_nat n / 8 = Z.of_nat (n / 8).
Proof. now rewrite (Nat2Z.inj_div n 8). Qed.

Lemma Z_of_nat_mod8 n : Z.of_nat n mod 8 = Z.of_nat (n mod 8).
Proof. now rewrite (Nat2Z.inj_mod n 8). Qed.

Lemma store_next_byte (scratch pad0 : list Z) j v :
  scratch !! j = Some v -> (j < length pad0)%nat ->
  <[j := v]> (take j scratch ++ drop j pad0) = take (S j) scratch ++ drop (S j) pad0.
Proof.
  intros Hs Hp.
  assert (Hlen : length (take j scratch) = j).
  { apply length_take_le. apply lookup_lt_Some in Hs. lia. }
  destruct (lookup_lt_is_Some_2 pad0 j Hp) as [x Hx].
  rewrite (drop_S pad0 x j Hx), (take_S_r scratch j v Hs).
  rewrite insert_app_r_alt by lia. rewrite Hlen, Nat.sub_diag. simpl.
  now rewrite <- app_assoc.
Qed.

Section ReadLoop.

Variable bus : list BusEvent -> bool.
Variables scratch pad0 : list Z.
Variable c0 : nat.

Hypothesis scratch_length : length scratch = 9%nat.
Hypothesis scratch_bytes : Forall (fun v => 0 <= v < 256) scratch.
Hypothesis pad0_length : length pad0 = 9%nat.
Hypothesis bus_bits :
  forall l, (c0 <= countSamples l < c0 + 72)%nat ->
            bus l = bitOf scratch (countSamples l - c0).

Lemma scratch_nth_byte j : 0 <= nth j scratch 0 < 256.
Proof.
  destruct (nth_lookup_or_length scratch j 0) as [Hj | Hj].
  - rewrite Forall_lookup in scratch_bytes. apply (scratch_bytes j _ Hj).
  - rewrite nth_overflow by lia. lia.
Qed.

Lemma readBit_invariant n r :
  (n < 72)%nat ->
  receiveRegister r = nth (n / 8) scratch 0 mod 2 ^ Z.of_nat (n mod 8) ->
  sPad r = take (n / 8) scratch ++ drop (n / 8) pad0 ->
  let r1 := readBitEffect (Z.of_nat n) (bitOf scratch n) r in
  receiveRegister r1 = nth (S n / 8) scratch 0 mod 2 ^ Z.of_nat (S n mod 8) /\
  sPad r1 = take (S n / 8) scratch ++ drop (S n / 8) pad0 /\
  status r1 = status r /\
  busLog r1 = busLog r ++ [PullLow; DelayUs 6; ReleaseBus; DelayUs 9;
                           SampleBus (bitOf scratch n)].
Proof.
  intros Hn Hrr Hpad r1. subst r1. unfold readBitEffect. cbv zeta.
  destruct r as [st rr da idx pad led dl dout ser log].
  cbn [receiveRegister sPad] in Hrr, Hpad.
  pose proof (scratch_nth_byte (n / 8)) as Hv.
  assert (Hk : (n mod 8 < 8)%nat) by (apply Nat.mod_upper_bound; lia).
  pose proof (fold_bit _ (n mod 8) _ Hv Hk Hrr) as Hfold.
  assert (Hdm : n = (8 * (n / 8) + n mod 8)%nat) by (apply Nat.div_mod_eq).
  replace (Z.of_nat n + 1) with (Z.of_nat (S n)) by lia.
  rewrite !Z_of_nat_mod8, !Z_of_nat_div8.
  regs_simpl.
  assert (Hrr1 : (if bitOf scratch n
                  then Z.lor rr (2 ^ Z.of_nat (n mod 8))
                  else rr)
                 = nth (n / 8) scratch 0 mod 2 ^ Z.of_nat (S (n mod 8)))
    by exact Hfold.
  rewrite Hrr1.
  destruct (Z.of_nat (S n mod 8) =? 0) eqn:Hend.
  - apply Z.eqb_eq in Hend.
    assert (Hm7 : (n mod 8 = 7)%nat).
    { assert (S n mod 8 = 0)%nat by lia.
      pose proof (Nat.div_mod_eq (S n) 8). lia. }
    assert (Hq : (S n / 8 = S (n / 8))%nat).
    { pose proof (Nat.div_mod_eq (S n) 8).
      assert (S n mod 8 = 0)%nat by lia. lia. }
    rewrite Hq. replace (S n mod 8)%nat with 0%nat by lia.
    regs_simpl.
    repeat split.
    + change (2 ^ Z.of_nat 0) with 1. now rewrite Z.mod_1_r.
    + rewrite Hpad, Nat2Z.id, Hm7.
      change (2 ^ Z.of_nat 8) with 256. rewrite Z.mod_small by exact Hv.
      apply store_next_byte; [|rewrite pad0_length; lia].
      destruct (nth_lookup_or_length scratch (n / 8) 0) as [Hj | Hj]; [exact Hj|].
      rewrite scratch_length in Hj. lia.
  - apply Z.eqb_neq in Hend.
    assert (Hq : (S n / 8 = n / 8)%nat /\ (S n mod 8 = S (n mod 8))%nat).
    { pose proof (Nat.div_mod_eq (S n) 8).
      assert (S n mod 8 < 8)%nat by (apply Nat.mod_upper_bound; lia).
      assert (S n mod 8 <> 0)%nat by lia.
      assert (n mod 8 < 7 \/ n mod 8 = 7)%nat as [Hlt | Heq7] by lia.
      - assert (S n = 8 * (n / 8) + S (n mod 8))%nat by lia.
        split.
        + symmetry. apply (Nat.div_unique (S n) 8 (n / 8) (S (n mod 8))); lia.
        + symmetry. apply (Nat.mod_unique (S n) 8 (n / 8) (S (n mod 8))); lia.
      - exfalso. assert (S n = 8 * S (n / 8) + 0)%nat by lia.
        assert (S n mod 8 = 0)%nat
          by (symmetry; apply (Nat.mod_unique (S n) 8 (S (n / 8)) 0); lia).
        lia. }
    destruct Hq as [Hq1 Hq2]. rewrite Hq1, Hq2.
    regs_simpl.
    repeat split; auto.
Qed.

Lemma countSamples_app l1 l2 :
  countSamples (l1 ++ l2) = (countSamples l1 + countSamples l2)%nat.
Proof.
  induction l1 as [|e l1 IH]; simpl; [reflexivity|].
  destruct e; simpl; rewrite IH; reflexivity.
Qed.

Lemma Run_readBits m : forall n r,
  (n + m = 72)%nat -> (1 <= m)%nat ->
  countSamples (busLog r) = (c0 + n)%nat ->
  receiveRegister r = nth (n / 8) scratch 0 mod 2 ^ Z.of_nat (n mod 8) ->
  sPad r = take (n / 8) scratch ++ drop (n / 8) pad0 ->
  exists r',
    Run bus [IReadRemainingBits (Z.of_nat n)] r m r' /\
    sPad r' = scratch /\ receiveRegister r' = 0 /\ status r' = status r /\
    busLog r' = busLog r ++ concat (map readBitTrace (map (bitOf scratch) (seq n m))).
Proof.
  induction m as [|m IH]; intros n r Hnm Hm Hcount Hrr Hpad; [lia|].
  assert (Hn : (n < 72)%nat) by lia.
  assert (Hj : (n / 8 <= 8)%nat).
  { pose proof (Nat.div_mod_eq n 8). lia. }
  assert (Hlen : length (sPad r) = 9%nat).
  { rewrite Hpad, length_app, length_take, length_drop, scratch_length, pad0_length. lia. }
  assert (Hbit : bus (busLog r ++ [PullLow; DelayUs 6; ReleaseBus; DelayUs 9])
                 = bitOf scratch n).
  { rewrite bus_bits; rewrite countSamples_app, Hcount; simpl; [f_equal|]; lia. }
  pose proof (istep_ReadRemainingBits bus r (Z.of_nat n) _ ltac:(lia) Hlen Hbit) as Hstep.
  destruct (readBit_invariant n r Hn Hrr Hpad) as (Hrr1 & Hpad1 & Hst1 & Hlog1).
  set (r1 := readBitEffect (Z.of_nat n) (bitOf scratch n) r) in *.
  clearbody r1.
  set (r2 := logEvent (TimerWait Micros55) r1).
  assert (Hp2 : sPad r2 = sPad r1) by reflexivity.
  assert (Hr2 : receiveRegister r2 = receiveRegister r1) by reflexivity.
  assert (Hs2 : status r2 = status r1) by reflexivity.
  assert (Hl2 : busLog r2 = busLog r1 ++ [TimerWait Micros55]) by reflexivity.
  destruct m as [|m].
  - assert (n = 71%nat) by lia. subst n.
    exists r2. repeat split.
    + eapply Run_instr; [reflexivity | exact Hstep |].
      change (Z.of_nat 71 + 1 <? 72) with false. cbn [app].
      apply Run_yield. apply Run_nil.
    + rewrite Hp2, Hpad1. change (72 / 8)%nat with 9%nat.
      rewrite take_ge, drop_ge by lia. apply app_nil_r.
    + rewrite Hr2, Hrr1. change (72 mod 8)%nat with 0%nat.
      change (2 ^ Z.of_nat 0) with 1. apply Z.mod_1_r.
    + rewrite Hs2. exact Hst1.
    + rewrite Hl2, Hlog1. cbn [seq map concat readBitTrace app].
      rewrite <- app_assoc. reflexivity.
  - destruct (IH (S n) r2) as (r' & Hrun & Hp & Hr & Hs & Hl); try lia.
    + rewrite Hl2, Hlog1, !countSamples_app, Hcount. simpl. lia.
    + rewrite Hp2. exact Hpad1.
    + exists r'. repeat split; auto.
      * eapply Run_instr; [reflexivity | exact Hstep |].
        replace (Z.of_nat n + 1 <? 72) with true by (symmetry; apply Z.ltb_lt; lia).
        replace (Z.of_nat n + 1) with (Z.of_nat (S n)) by lia.
        cbn [app]. apply Run_yield. exact Hrun.
      * rewrite Hs, Hs2. exact Hst1.
      * rewrite Hl, Hl2, Hlog1.
        change (seq n (S (S m))) with (n :: seq (S n) (S m)).
        cbn [map concat readBitTrace]. rewrite <- !app_assoc. reflexivity.
Qed.

End ReadLoop.

(** ** Timeslices that end in a [Yield] *)

Lemma Slices_fits bus p r n p' r' :
  Slices bus p r n p' r' -> peakP p <= stackSize -> peakP p' <= stackSize.
Proof.
  induction 1 as [p r | t p r n p' r' _ IH | i p r q r1 n p' r' _ Hstep _ IH];
    intros Hfit; auto.
  - apply IH. cbn [peakP] in Hfit. lia.
  - apply IH. eapply istep_fits; eassumption.
Qed.

Lemma Slices_slices bus p r n p' r' :
  Slices bus p r n p' r' ->
  peakP p <= stackSize ->
  forall F, (23 <= F)%nat ->
    match n with
    | O => True
    | S n' =>
        forall f, (passes p <= f)%nat ->
          match doTimeslice bus f (mkL (encode p) r) with
          | Some (t, a') =>
              runISR bus F n' (mkL (lstack a') (logEvent (TimerWait t) (lregs a')))
          | None => None
          end = Some (mkL (encode p') r')
    end.
Proof.
  induction 1 as [p r | t p r n p' r' Hrun IH | i p r q r1 n p' r' Hny Hstep Hrun IH];
    intros Hfit F HF; [exact I| |]; intros f Hf.
  - destruct f as [|f]; [simpl in Hf; lia|].
    assert (Hfit1 : peak (IYield t) + size p <= stackSize)
      by (cbn [peakP peak] in *; lia).
    assert (Hfitp : peakP p <= stackSize) by (cbn [peakP peak] in *; lia).
    cbn [doTimeslice].
    rewrite (body_instr bus (IYield t) p r [] r Hfit1 eq_refl).
    simpl lstack. simpl lregs.
    specialize (IH Hfitp F HF).
    destruct n as [|n].
    + inversion Hrun; subst. reflexivity.
    + cbn [runISR]. unfold ISR.
      specialize (IH F (Nat.le_trans _ _ _ (passes_le_23 p Hfitp) HF)).
      destruct (doTimeslice bus F _) as [[u a1]|]; [|discriminate IH].
      exact IH.
  - assert (Hfit1 : peak i + size p <= stackSize) by (cbn [peakP] in *; lia).
    pose proof (passes_step bus i p r q r1 Hstep) as Hdec.
    pose proof (body_instr bus i p r q r1 Hfit1 Hstep) as Hbody.
    destruct f as [|f]; [destruct i; simpl in Hf; lia|].
    cbn [doTimeslice]. rewrite Hbody.
    specialize (IH (istep_fits _ _ _ _ _ _ Hstep Hfit) F HF).
    destruct i; try discriminate Hny; cbv beta iota in Hdec; apply IH; lia.
Qed.

Lemma Slices_sound bus p r n p' r' :
  Slices bus p r n p' r' ->
  peakP p <= stackSize ->
  forall F, (23 <= F)%nat ->
    runISR bus F n (mkL (encode p) r) = Some (mkL (encode p') r').
Proof.
  intros Hrun Hfit F HF.
  pose proof (Slices_slices bus p r n p' r' Hrun Hfit F HF) as H.
  destruct n as [|n].
  - inversion Hrun; subst. reflexivity.
  - specialize (H F (Nat.le_trans _ _ _ (passes_le_23 p Hfit) HF)).
    cbn [runISR]. unfold ISR.
    destruct (doTimeslice bus F _) as [[u a1]|]; [|discriminate H].
    exact H.
Qed.

(** ** The reset session *)

Lemma Slices_reset bus rest r :
  bus (busLog r ++ [PullLow; TimerWait Micros480; ReleaseBus; DelayUs 10;
                    TimerWait Micros70; ReleaseBus]) = false ->
  Slices bus (IReset :: rest) r 3 rest (appendLog (resetTrace false) r).
Proof.
  intros Hb.
  eapply Slices_instr; [reflexivity | reflexivity |]. cbn [app resetProgram].
  eapply Slices_instr; [reflexivity | reflexivity |]. cbn [app].
  apply Slices_yield.
  eapply Slices_instr; [reflexivity | reflexivity |]. cbn [app].
  apply Slices_yield.
  eapply Slices_instr; [reflexivity | apply (istep_BusSample bus _ false) |].
  - rewrite <- Hb. f_equal. unfold logEvent, set_busLog. simpl.
    rewrite <- !app_assoc. reflexivity.
  - cbn [app]. apply Slices_yield.
    match goal with |- Slices _ _ ?r1 _ _ ?r2 => replace r2 with r1; [apply Slices_done|] end.
    unfold resetTrace. regs_eq.
Qed.

Lemma view_fields s l r : view s (mkL l r) -> stackOf s = l /\ regs s = r.
Proof. intros (_ & Hst & Hr). auto. Qed.

Lemma view_empty_top s r : view s (mkL [] r) -> topOfStack s = 0.
Proof.
  intros (Hwf & Hst & _). pose proof (stackOf_length s Hwf) as Hlen.
  simpl in Hst. rewrite Hst in Hlen. simpl in Hlen. lia.
Qed.

(** C6 (as amended): after [resetAsync], on a line that always shows a
    device present, the [Reset] opcode expands on the stack into
    drive-low, [Yield] 480 us, release, [Yield] 70 us, sample, [Yield]
    410 us -- three [Yield]s, above the [ClearBusyStatus] of the session;
    three interrupts drive exactly that sequence on the line (the release
    with its 10 us in-line delay, the sample after releasing once more) and
    leave [StillBusy] set; the fourth executes [ClearBusyStatus], finds the
    stack empty and returns the idle holdoff 255 with status 0. *)
Theorem reset_session (bus : list BusEvent -> bool) (s : machine) :
  wf s ->
  (forall l, bus l = false) ->
  exists s0,
    resetAsync s = Next tt s0 /\
    (exists s1, doTimesliceBody bus s0 = Next tt s1 /\
                stackOf s1 = [BusLow; Yield; Micros480; BusRelease; Yield; Micros70;
                              BusSample; Yield; Micros410; ClearBusyStatus]) /\
    forall fuel, (23 <= fuel)%nat ->
      exists s3 s4,
        runISR bus fuel 3 s0 = Some s3 /\
        busLog (regs s3) = busLog (regs s) ++ resetTrace false /\
        status (regs s3) = StillBusy /\
        stackOf s3 = [ClearBusyStatus] /\
        runISR bus fuel 1 s3 = Some s4 /\
        busLog (regs s4) = busLog (regs s3) ++ [TimerWait 255] /\
        status (regs s4) = 0 /\
        topOfStack s4 = 0.
Proof.
  intros Hwf Hbus.
  destruct (session_from_list _ _ s _ sim_resetAsync Hwf (L_resetAsync _ _))
    as (s0 & Hs0 & Hv0).
  exists s0. split; [exact Hs0|].
  pose proof Hv0 as (Hwf0 & Hst0 & Hr0). simpl in Hst0, Hr0.
  split.
  - destruct (step_instr bus s0 IReset [IClearBusyStatus] resetProgram (regs s0)
                Hwf0 Hst0 ltac:(fits) eq_refl) as (s1 & Hb & _ & Hst1 & _).
    exists s1. split; [exact Hb | exact Hst1].
  - intros fuel Hfuel.
    set (r0 := set_status StillBusy (regs s)) in *.
    pose proof (Slices_reset bus [IClearBusyStatus] r0 (Hbus _)) as Hsl.
    pose proof (Slices_sound bus _ _ _ _ _ Hsl ltac:(fits) fuel Hfuel) as Hrun3.
    destruct (runISR_from_list bus fuel 3 s0 _ _ Hv0 Hrun3) as (s3 & Hs3 & Hv3).
    pose proof (Run_sound bus _ _ _ _ (Run_clearBusy bus (appendLog (resetTrace false) r0))
                  ltac:(fits) fuel Hfuel) as Hrun1.
    destruct (runISR_from_list bus fuel 1 s3 _ _ Hv3 Hrun1) as (s4 & Hs4 & Hv4).
    destruct (view_fields _ _ _ Hv3) as [Hst3 Hr3].
    destruct (view_fields _ _ _ Hv4) as [Hst4 Hr4].
    exists s3, s4. rewrite Hr3, Hr4.
    repeat split; auto.
    eapply view_empty_top; exact Hv4.
Qed.

Lemma reset_session_witness :
  wf powerOn /\ (forall l, presentBus l = false) /\
  exists s0,
    resetAsync powerOn = Next tt s0 /\
    (exists s1, doTimesliceBody presentBus s0 = Next tt s1 /\
                stackOf s1 = [BusLow; Yield; Micros480; BusRelease; Yield; Micros70;
                              BusSample; Yield; Micros410; ClearBusyStatus]) /\
    forall fuel, (23 <= fuel)%nat ->
      exists s3 s4,
        runISR presentBus fuel 3 s0 = Some s3 /\
        busLog (regs s3) = busLog (regs powerOn) ++ resetTrace false /\
        status (regs s3) = StillBusy /\
        stackOf s3 = [ClearBusyStatus] /\
        runISR presentBus fuel 1 s3 = Some s4 /\
        busLog (regs s4) = busLog (regs s3) ++ [TimerWait 255] /\
        status (regs s4) = 0 /\
        topOfStack s4 = 0.
Proof.
  assert (Hwf : wf powerOn) by (split; [reflexivity | simpl; unfold stackSize; lia]).
  split; [exact Hwf|]. split; [reflexivity|].
  apply (reset_session presentBus powerOn Hwf). reflexivity.
Defined.

Lemma yieldCount_le p :
  (yieldCount p <= List.count_occ Z.eq_dec (encode p) Yield)%nat.
Proof.
  unfold yieldCount. induction p as [|i p IH]; simpl; [lia|].
  rewrite List.count_occ_app.
  destruct i; simpl List.filter; simpl length; try lia.
  simpl. destruct (Z.eq_dec Yield Yield); [|congruence].
  destruct (Z.eq_dec tics Yield); lia.
Qed.

(** C6, as stated, fails on its last clause: however the stack that the
    [Reset] opcode leaves above the session's [ClearBusyStatus] is read as
    instructions, it does not hold four [Yield]s (it holds three). *)
Lemma reset_is_not_four_yields :
  ~ (exists p,
        stackOf (stateOf (doTimesliceBody presentBus (stateOf (resetAsync powerOn))))
        = encode (p ++ [IClearBusyStatus]) /\
        yieldCount p = 4%nat).
Proof.
  intros (p & Hp & Hc).
  assert (Hst : stackOf (stateOf (doTimesliceBody presentBus (stateOf (resetAsync powerOn))))
                = [BusLow; Yield; Micros480; BusRelease; Yield; Micros70;
                   BusSample; Yield; Micros410] ++ [ClearBusyStatus])
    by (vm_compute; reflexivity).
  rewrite Hst, encode_app in Hp. change (encode [IClearBusyStatus]) with [ClearBusyStatus] in Hp.
  apply app_inj_tail in Hp as [Hp _].
  pose proof (yieldCount_le p) as Hle. rewrite <- Hp in Hle.
  assert (Hthree : List.count_occ Z.eq_dec
                     [BusLow; Yield; Micros480; BusRelease; Yield; Micros70;
                      BusSample; Yield; Micros410] Yield = 3%nat)
    by (vm_compute; reflexivity).
  rewrite Hthree in Hle. lia.
Qed.

(** ** The read-scratchpad session *)

Lemma step_instr_bytes bus s i (l : list Z) q r' :
  wf s -> stackOf s = encode1 i ++ l ->
  peak i + Z.of_nat (length l) <= stackSize ->
  istep bus i (regs s) = Some (q, r') ->
  exists s',
    doTimesliceBody bus s =
      match i with
      | IYield t => Exit t s'
      | _ => Next tt s'
      end /\
    wf s' /\
    stackOf s' = match i with IYield _ => l | _ => encode q ++ l end /\
    regs s' = match i with IYield _ => regs s | _ => r' end.
Proof.
  intros Hwf Hst Hfit Hstep.
  assert (Hv : view s (mkL (encode1 i ++ l) (regs s))) by (repeat split; auto; apply Hwf).
  pose proof (sim_doTimesliceBody bus s _ Hv) as Hsim.
  rewrite (body_instr_bytes bus i l (regs s) q r' Hfit Hstep) in Hsim.
  destruct (doTimesliceBody bus s) as [[] s'|t s'|s'];
    destruct i; simpl in Hsim; try contradiction;
    destruct Hsim as (He & Hwf' & Hst' & Hr'); subst; exists s'; auto.
Qed.

Lemma countSamples_sendBits k : forall v, countSamples (sendBitsTrace k v) = 0%nat.
Proof.
  induction k as [|k IH]; intros v; simpl; [reflexivity|].
  rewrite countSamples_app, IH. destruct (Z.odd v); reflexivity.
Qed.

Lemma countSamples_sendBytes l : countSamples (concat (map sendByteTrace l)) = 0%nat.
Proof.
  induction l as [|v l IH]; simpl; [reflexivity|].
  rewrite countSamples_app, IH. unfold sendByteTrace. now rewrite countSamples_sendBits.
Qed.

Lemma countSamples_readBits bits :
  countSamples (concat (map readBitTrace bits)) = length bits.
Proof. induction bits as [|b bits IH]; simpl; [reflexivity | now rewrite IH]. Qed.

Lemma bitsOf_length bytes : length (bitsOf bytes) = (8 * length bytes)%nat.
Proof. unfold bitsOf. now rewrite length_map, length_seq. Qed.

Lemma scratchDevice_presence base scratch l :
  countSamples l = base -> scratchDevice base 1 scratch l = false.
Proof.
  intros Hc. unfold scratchDevice. rewrite Hc, Nat.sub_diag. reflexivity.
Qed.

Lemma scratchDevice_bit base scratch l :
  (base + 1 <= countSamples l < base + 1 + 8 * length scratch)%nat ->
  scratchDevice base 1 scratch l = bitOf scratch (countSamples l - (base + 1)).
Proof.
  intros Hc. unfold scratchDevice.
  replace (1 <=? countSamples l - base)%nat with true
    by (symmetry; apply Nat.leb_le; lia).
  replace (countSamples l - base <? 1 + 8 * length scratch)%nat with true
    by (symmetry; apply Nat.ltb_lt; lia).
  simpl. f_equal. lia.
Qed.

Lemma scratchDevice_after base scratch l :
  (base + 1 + 8 * length scratch <= countSamples l)%nat ->
  scratchDevice base 1 scratch l = false.
Proof.
  intros Hc. unfold scratchDevice.
  replace (countSamples l - base <? 1 + 8 * length scratch)%nat with false
    by (symmetry; apply Nat.ltb_ge; lia).
  now rewrite andb_false_r.
Qed.

Lemma Run_readSession bus addr pad scratch r :
  length addr = 8%nat -> length pad = 9%nat -> length scratch = 9%nat ->
  Forall (fun v => 0 <= v < 256) scratch ->
  (forall l, bus l = scratchDevice (countSamples (busLog r)) 1 scratch l) ->
  exists r',
    Run bus [IReadScratchPad; IClearBusyStatus]
        (set_status StillBusy (set_sPad pad (set_deviceAddr addr r))) 158 r' /\
    sPad r' = scratch /\ status r' = 0 /\
    busLog r' ++ [TimerWait 255] = busLog r ++ readSessionTrace addr scratch.
Proof.
  intros Haddr Hpad Hscr Hbytes Hbus.
  set (base := countSamples (busLog r)) in *.
  set (r0 := set_status StillBusy (set_sPad pad (set_deviceAddr addr r))).
  set (ra := set_receiveRegister 0 r0).
  set (rb := appendLog (resetTrace false) ra).
  set (rc := set_idByteIndex 8
               (appendLog (sendByteTrace SELECTDEVICE ++ concat (map sendByteTrace addr)) rb)).
  set (rd := appendLog (sendBitsTrace 8 READSCRATCH) rc).
  (* the first reset *)
  assert (Hreset1 : Run bus [IReset] ra 3 rb).
  { apply (Run_reset bus ra false). rewrite Hbus.
    apply scratchDevice_presence. rewrite countSamples_app. subst base. simpl. lia. }
  (* the address *)
  assert (Hid : Run bus [IStartIDSend] rb 72 rc).
  { apply Run_startID; [reflexivity | exact Haddr]. }
  (* the read command *)
  assert (Hcmd : Run bus [ISendRemainingBits 8 READSCRATCH] rc 8 rd).
  { apply (Run_sendBits bus 8 READSCRATCH rc). lia. }
  (* the 72 read slots *)
  assert (Hlogd : busLog rd = busLog r ++ resetTrace false
                    ++ sendByteTrace SELECTDEVICE ++ concat (map sendByteTrace addr)
                    ++ sendByteTrace READSCRATCH).
  { subst rd rc rb ra r0. unfold appendLog, set_busLog, sendByteTrace. simpl busLog.
    rewrite <- !app_assoc. reflexivity. }
  assert (Hcountd : countSamples (busLog rd) = (base + 1 + 0)%nat).
  { rewrite Hlogd, !countSamples_app, countSamples_sendBytes.
    unfold sendByteTrace. rewrite !countSamples_sendBits. subst base. simpl. lia. }
  assert (Hbits : forall l, (base + 1 <= countSamples l < base + 1 + 72)%nat ->
                            bus l = bitOf scratch (countSamples l - (base + 1))).
  { intros l Hl. rewrite Hbus.
    rewrite scratchDevice_bit by (rewrite Hscr; lia). reflexivity. }
  assert (Hrrd : receiveRegister rd
                 = nth (0 / 8) scratch 0 mod 2 ^ Z.of_nat (0 mod 8)).
  { change (receiveRegister rd) with 0. change (2 ^ Z.of_nat (0 mod 8)) with 1.
    now rewrite Z.mod_1_r. }
  assert (Hpadd : sPad rd = take (0 / 8) scratch ++ drop (0 / 8) pad) by reflexivity.
  destruct (Run_readBits bus scratch pad (base + 1) Hscr Hbytes Hpad Hbits
              72 0 rd eq_refl ltac:(lia) Hcountd Hrrd Hpadd)
    as (re & Hread & Hpade & Hrre & Hste & Hloge).
  (* the second reset *)
  assert (Hcounte : countSamples (busLog re) = (base + 1 + 72)%nat).
  { rewrite Hloge, countSamples_app, countSamples_readBits, length_map, length_seq. lia. }
  assert (Hreset2 : Run bus [IReset] re 3 (appendLog (resetTrace false) re)).
  { apply (Run_reset bus re false). rewrite Hbus. fold base.
    apply scratchDevice_after. rewrite Hscr, countSamples_app, Hcounte. simpl. lia. }
  set (rf := appendLog (resetTrace false) re) in *.
  pose proof (Run_clearBusy bus rf) as Hclear.
  set (rg := set_status (byte (Z.land (status rf) (Z.lnot StillBusy))) rf) in *.
  exists rg. repeat split.
  - eapply Run_instr; [reflexivity | reflexivity |].
    change 158%nat with (3 + (72 + (8 + (72 + (3 + 0)))))%nat.
    change ([IReset; IStartIDSend; ISendRemainingBits 8 READSCRATCH;
             IReadRemainingBits 0; IReset] ++ [IClearBusyStatus])
      with ([IReset] ++ [IStartIDSend] ++ [ISendRemainingBits 8 READSCRATCH]
              ++ [IReadRemainingBits (Z.of_nat 0)] ++ [IReset] ++ [IClearBusyStatus]).
    eapply Run_app; [exact Hreset1|].
    eapply Run_app; [exact Hid|].
    eapply Run_app; [exact Hcmd|].
    eapply Run_app; [exact Hread|].
    eapply Run_app; [exact Hreset2|].
    exact Hclear.
  - exact Hpade.
  - change (status rg) with (byte (Z.land (status re) (Z.lnot StillBusy))).
    rewrite Hste. reflexivity.
  - change (busLog rg) with (busLog re ++ resetTrace false).
    rewrite Hloge, Hlogd. unfold readSessionTrace, bitsOf. rewrite Hscr.
    change (8 * 9)%nat with 72%nat.
    rewrite <- !app_assoc. reflexivity.
Qed.

(** C7: draining a [readScratchpadAsync] session against a device that
    answers the resets and supplies the 9 bytes [scratch] takes 159
    interrupts; the line sees the reset, the select command and the 8
    address bytes, the read command, exactly 72 read slots carrying the bits
    of [scratch], and the closing reset; afterwards the caller's buffer
    equals [scratch], the status is 0 and the stack is empty.  In each read
    slot the sampled bit is folded into the receive register at position
    [bitPos mod 8]; after every 8th bit the byte is stored into the
    scratchpad and the register cleared ([readBitEffect]). *)
Theorem readScratchpad_session (addr pad scratch : list Z) (s : machine) :
  wf s ->
  length addr = 8%nat -> length pad = 9%nat -> length scratch = 9%nat ->
  Forall (fun v => 0 <= v < 256) scratch ->
  (exists s0,
      readScratchpadAsync addr pad s = Next tt s0 /\
      forall fuel, (23 <= fuel)%nat ->
        exists s',
          runISR (scratchDevice (countSamples (busLog (regs s))) 1 scratch) fuel 159 s0
            = Some s' /\
          topOfStack s' = 0 /\
          sPad (regs s') = scratch /\
          status (regs s') = 0 /\
          busLog (regs s') = busLog (regs s) ++ readSessionTrace addr scratch) /\
  length (bitsOf scratch) = 72%nat /\
  countSamples (readSessionTrace addr scratch) = (1 + 72 + 1)%nat /\
  (forall bus s1 bitPos rest,
      wf s1 ->
      stackOf s1 = ReadRemainingBits :: bitPos :: rest ->
      0 <= bitPos < 72 ->
      length (sPad (regs s1)) = 9%nat ->
      4 + Z.of_nat (length rest) <= stackSize ->
      exists s2,
        doTimesliceBody bus s1 = Next tt s2 /\
        regs s2 = readBitEffect bitPos
                    (bus (busLog (regs s1) ++ [PullLow; DelayUs 6; ReleaseBus; DelayUs 9]))
                    (regs s1) /\
        stackOf s2 = Yield :: Micros55 ::
                       (if bitPos + 1 <? 72
                        then ReadRemainingBits :: (bitPos + 1) :: rest
                        else rest)).
Proof.
  intros Hwf Haddr Hpad Hscr Hbytes. repeat split.
  - destruct (session_from_list _ _ s _ (sim_readScratchpadAsync addr pad) Hwf
                (L_readScratchpadAsync _ _ _ _)) as (s0 & Hs0 & Hv0).
    exists s0. split; [exact Hs0|]. intros fuel Hfuel.
    set (bus := scratchDevice (countSamples (busLog (regs s))) 1 scratch).
    destruct (Run_readSession bus addr pad scratch (regs s) Haddr Hpad Hscr Hbytes
                (fun l => eq_refl)) as (r' & Hrun & Hp & Hst & Hlog).
    pose proof (Run_sound bus _ _ _ _ Hrun ltac:(fits) fuel Hfuel) as Hdrain.
    destruct (runISR_from_list bus fuel 159 s0 _ _ Hv0 Hdrain) as (s' & Hs' & Hv').
    destruct (view_fields _ _ _ Hv') as [_ Hr'].
    exists s'. rewrite Hr'. repeat split; auto.
    eapply view_empty_top; exact Hv'.
  - rewrite bitsOf_length, Hscr. reflexivity.
  - unfold readSessionTrace, sendByteTrace.
    rewrite !countSamples_app, countSamples_sendBytes, !countSamples_sendBits,
      countSamples_readBits, bitsOf_length, Hscr. reflexivity.
  - intros bus s1 bitPos rest Hwf1 Hst1 Hpos Hlen1 Hfit.
    pose proof (istep_ReadRemainingBits bus (regs s1) bitPos _ Hpos Hlen1 eq_refl) as Hstep.
    destruct (step_instr_bytes bus s1 (IReadRemainingBits bitPos) rest _ _ Hwf1 Hst1
                ltac:(cbn [peak]; lia) Hstep) as (s2 & Hb & _ & Hst2 & Hr2).
    exists s2. repeat split; auto.
    rewrite Hst2. destruct (bitPos + 1 <? 72); reflexivity.
Qed.

Lemma readScratchpad_session_witness :
  wf powerOn /\
  length sampleAddress = 8%nat /\ length emptyPad = 9%nat /\
  length sampleScratch = 9%nat /\
  Forall (fun v => 0 <= v < 256) sampleScratch /\
  exists s0,
    readScratchpadAsync sampleAddress emptyPad powerOn = Next tt s0 /\
    forall fuel, (23 <= fuel)%nat ->
      exists s',
        runISR (scratchDevice (countSamples (busLog (regs powerOn))) 1 sampleScratch)
               fuel 159 s0 = Some s' /\
        topOfStack s' = 0 /\
        sPad (regs s') = sampleScratch /\
        status (regs s') = 0 /\
        busLog (regs s') = busLog (regs powerOn)
                             ++ readSessionTrace sampleAddress sampleScratch.
Proof.
  assert (Hwf : wf powerOn) by (split; [reflexivity | simpl; unfold stackSize; lia]).
  assert (Hbytes : Forall (fun v => 0 <= v < 256) sampleScratch)
    by (repeat constructor; lia).
  split; [exact Hwf|]. repeat (split; [first [reflexivity | exact Hbytes]|]).
  apply (readScratchpad_session sampleAddress emptyPad sampleScratch powerOn Hwf
           eq_refl eq_refl eq_refl Hbytes).
Defined.

(** ** The session calls *)

Lemma clear_bit0 st : Z.testbit (byte (Z.land st (Z.lnot StillBusy))) 0 = false.
Proof.
  unfold byte. change 256 with (2 ^ 8).
  rewrite Z.mod_pow2_bits_low by lia.
  rewrite Z.land_spec. change (Z.testbit (Z.lnot StillBusy) 0) with false.
  apply andb_false_r.
Qed.


(** * The device search *)

(** ** The bit macros *)

Lemma land_pow2_testbit b k :
  0 <= k -> (Z.land b (Z.shiftl 1 k) =? 0) = negb (Z.testbit b k).
Proof.
  intros Hk. rewrite Z.shiftl_1_l.
  destruct (Z.testbit b k) eqn:Hb; simpl.
  - apply Z.eqb_neq. intros H0.
    assert (Ht : Z.testbit (Z.land b (2 ^ k)) k = true)
      by (rewrite Z.land_spec, Hb, Z.pow2_bits_true; auto).
    rewrite H0, Z.bits_0 in Ht. discriminate.
  - apply Z.eqb_eq. apply Z.bits_inj'. intros n Hn.
    rewrite Z.land_spec, Z.bits_0.
    destruct (Z.eq_dec n k) as [-> | Hne].
    + now rewrite Hb.
    + rewrite (Z.pow2_bits_false k n) by lia. apply andb_false_r.
Qed.

Lemma isBit_testbit a i :
  0 <= i -> SensorDiscovery.isBit a i = Z.testbit (nth (Z.to_nat (i / 8)) a 0) (i mod 8).
Proof.
  intros Hi. unfold SensorDiscovery.isBit.
  rewrite land_pow2_testbit by (apply Z.mod_pos_bound; lia).
  apply negb_involutive.
Qed.

Lemma byte_testbit x k : 0 <= k < 8 -> Z.testbit (byte x) k = Z.testbit x k.
Proof.
  intros Hk. unfold byte. change 256 with (2 ^ 8).
  apply Z.mod_pow2_bits_low. lia.
Qed.

Lemma nth_insert_eq (a : list Z) j v : (j < length a)%nat -> nth j (<[j := v]> a) 0 = v.
Proof. intros Hj. apply nth_lookup_Some. now apply list_lookup_insert_eq. Qed.

Lemma nth_insert_ne (a : list Z) i j v : i <> j -> nth j (<[i := v]> a) 0 = nth j a 0.
Proof. intros Hij. rewrite !nth_lookup. now rewrite list_lookup_insert_ne. Qed.

Lemma bit_index_eq i j :
  0 <= i -> 0 <= j -> i / 8 = j / 8 -> i mod 8 = j mod 8 -> i = j.
Proof. intros. Z.div_mod_to_equations. lia. Qed.

Lemma isBit_setBit a i j :
  length a = 8%nat -> 0 <= i < 64 -> 0 <= j < 64 ->
  SensorDiscovery.isBit (SensorDiscovery.setBit a i) j =
  if j =? i then true else SensorDiscovery.isBit a j.
Proof.
  intros Hlen Hi Hj. rewrite !isBit_testbit by lia. unfold SensorDiscovery.setBit.
  assert (Hi8 : 0 <= i / 8 < 8) by (Z.div_mod_to_equations; lia).
  assert (Hj8 : 0 <= j / 8 < 8) by (Z.div_mod_to_equations; lia).
  assert (Him : 0 <= i mod 8 < 8) by (apply Z.mod_pos_bound; lia).
  assert (Hjm : 0 <= j mod 8 < 8) by (apply Z.mod_pos_bound; lia).
  destruct (Z.eq_dec (j / 8) (i / 8)) as [Hq | Hq].
  - rewrite Hq, nth_insert_eq by lia.
    rewrite byte_testbit, Z.lor_spec, Z.shiftl_1_l by lia.
    destruct (Z.eq_dec (j mod 8) (i mod 8)) as [Hm | Hm].
    + rewrite (bit_index_eq j i) by lia. rewrite Z.eqb_refl.
      rewrite Z.pow2_bits_true by lia. apply orb_true_r.
    + rewrite (Z.pow2_bits_false (i mod 8) (j mod 8)) by lia.
      rewrite orb_false_r.
      destruct (Z.eqb_spec j i) as [-> | _]; [congruence | reflexivity].
  - rewrite nth_insert_ne by lia.
    destruct (Z.eqb_spec j i) as [-> | _]; [congruence | reflexivity].
Qed.

Lemma isBit_unsetBit a i j :
  length a = 8%nat -> 0 <= i < 64 -> 0 <= j < 64 ->
  SensorDiscovery.isBit (SensorDiscovery.unsetBit a i) j =
  if j =? i then false else SensorDiscovery.isBit a j.
Proof.
  intros Hlen Hi Hj. rewrite !isBit_testbit by lia. unfold SensorDiscovery.unsetBit.
  assert (Hi8 : 0 <= i / 8 < 8) by (Z.div_mod_to_equations; lia).
  assert (Hj8 : 0 <= j / 8 < 8) by (Z.div_mod_to_equations; lia).
  assert (Him : 0 <= i mod 8 < 8) by (apply Z.mod_pos_bound; lia).
  assert (Hjm : 0 <= j mod 8 < 8) by (apply Z.mod_pos_bound; lia).
  destruct (Z.eq_dec (j / 8) (i / 8)) as [Hq | Hq].
  - rewrite Hq, nth_insert_eq by lia.
    rewrite byte_testbit, Z.land_spec, Z.lnot_spec, Z.shiftl_1_l by lia.
    destruct (Z.eq_dec (j mod 8) (i mod 8)) as [Hm | Hm].
    + rewrite (bit_index_eq j i) by lia. rewrite Z.eqb_refl.
      rewrite Z.pow2_bits_true by lia. apply andb_false_r.
    + rewrite (Z.pow2_bits_false (i mod 8) (j mod 8)) by lia.
      simpl negb. rewrite andb_true_r.
      destruct (Z.eqb_spec j i) as [-> | _]; [congruence | reflexivity].
  - rewrite nth_insert_ne by lia.
    destruct (Z.eqb_spec j i) as [-> | _]; [congruence | reflexivity].
Qed.

Lemma setBit_length a i : length (SensorDiscovery.setBit a i) = length a.
Proof. apply length_insert. Qed.

Lemma unsetBit_length a i : length (SensorDiscovery.unsetBit a i) = length a.
Proof. apply length_insert. Qed.

(** ** The bus primitives of the search *)

Lemma readBit_eq bus s :
  SensorDiscovery.readBit bus s =
  let b := bus (SensorDiscovery.line s ++ [PullLow; DelayUs 6; ReleaseBus; DelayUs 9]) in
  (Z.b2z b,
   SensorDiscovery.set_line (SensorDiscovery.line s ++ SensorDiscovery.readBitLine b) s).
Proof.
  destruct s as [ib fk ft ln].
  unfold SensorDiscovery.readBit, SensorDiscovery.sampleBus, SensorDiscovery.pullBusLow,
    SensorDiscovery.releaseBus, SensorDiscovery.delay_us, SensorDiscovery.emit,
    SensorDiscovery.set_line, SensorDiscovery.readBitLine.
  cbn [SensorDiscovery.line SensorDiscovery.inputBuf SensorDiscovery.fork
         SensorDiscovery.firstTime].
  cbv zeta. rewrite <- !app_assoc. reflexivity.
Qed.

Lemma Reset_eq bus s :
  SensorDiscovery.Reset bus s =
  let b := bus (SensorDiscovery.line s ++ [PullLow; DelayUs 480; ReleaseBus; DelayUs 70]) in
  (Z.b2z b,
   SensorDiscovery.set_line (SensorDiscovery.line s ++ SensorDiscovery.resetLine b) s).
Proof.
  destruct s as [ib fk ft ln].
  unfold SensorDiscovery.Reset, SensorDiscovery.sampleBus, SensorDiscovery.pullBusLow,
    SensorDiscovery.releaseBus, SensorDiscovery.delay_us, SensorDiscovery.emit,
    SensorDiscovery.set_line, SensorDiscovery.resetLine.
  cbn [SensorDiscovery.line SensorDiscovery.inputBuf SensorDiscovery.fork
         SensorDiscovery.firstTime].
  cbv zeta. rewrite <- !app_assoc. reflexivity.
Qed.

Lemma sendBit_eq (b : bool) s :
  SensorDiscovery.sendBit (Z.b2z b) s =
  SensorDiscovery.set_line (SensorDiscovery.line s ++ SensorDiscovery.sendBitLine b) s.
Proof.
  destruct s as [ib fk ft ln].
  destruct b; unfold SensorDiscovery.sendBit, SensorDiscovery.pullBusLow,
    SensorDiscovery.releaseBus, SensorDiscovery.delay_us, SensorDiscovery.emit,
    SensorDiscovery.set_line, SensorDiscovery.sendBitLine;
  cbn [SensorDiscovery.line SensorDiscovery.inputBuf SensorDiscovery.fork
         SensorDiscovery.firstTime Z.b2z Z.eqb Pos.eqb];
  rewrite <- !app_assoc; reflexivity.
Qed.

(** ** The deepest fork point *)

Lemma lastForkBelow_spec n s :
  let d := SensorDiscovery.lastForkBelow n s in
  (d = -1 /\ forall j, 0 <= j < Z.of_nat n -> SensorDiscovery.isForkPoint j s = false) \/
  (0 <= d < Z.of_nat n /\ SensorDiscovery.isForkPoint d s = true /\
   forall j, d < j < Z.of_nat n -> SensorDiscovery.isForkPoint j s = false).
Proof.
  induction n as [|n IH]; cbn [SensorDiscovery.lastForkBelow].
  - left. split; [reflexivity | intros j Hj; lia].
  - destruct (SensorDiscovery.isForkPoint (Z.of_nat n) s) eqn:Hn.
    + right. split; [lia|]. split; [exact Hn|]. intros j Hj. lia.
    + destruct IH as [[Hd Hall] | (Hd & Hset & Hall)].
      * left. split; [exact Hd|]. intros j Hj.
        destruct (Z.eq_dec j (Z.of_nat n)) as [-> | Hne]; [exact Hn | apply Hall; lia].
      * right. split; [lia|]. split; [exact Hset|]. intros j Hj.
        destruct (Z.eq_dec j (Z.of_nat n)) as [-> | Hne]; [exact Hn | apply Hall; lia].
Qed.

Lemma unsetBitsFrom_spec n : forall from s,
  length (SensorDiscovery.inputBuf s) = 8%nat ->
  0 <= from -> from + Z.of_nat n <= 64 ->
  let s' := SensorDiscovery.unsetBitsFrom n from s in
  length (SensorDiscovery.inputBuf s') = 8%nat /\
  SensorDiscovery.fork s' = SensorDiscovery.fork s /\
  SensorDiscovery.firstTime s' = SensorDiscovery.firstTime s /\
  SensorDiscovery.line s' = SensorDiscovery.line s /\
  forall j, 0 <= j < 64 ->
    SensorDiscovery.isBitInID j s' =
    if (from <=? j) && (j <? from + Z.of_nat n) then false else SensorDiscovery.isBitInID j s.
Proof.
  induction n as [|n IH]; intros from s Hlen Hfrom Hto; cbn [SensorDiscovery.unsetBitsFrom].
  - repeat split; auto. intros j Hj.
    replace ((from <=? j) && (j <? from + Z.of_nat 0)) with false; [reflexivity|].
    symmetry. apply andb_false_iff. destruct (Z.leb_spec from j); [right | left; reflexivity].
    apply Z.ltb_ge. lia.
  - set (s1 := SensorDiscovery.unsetBitInID from s).
    assert (Hlen1 : length (SensorDiscovery.inputBuf s1) = 8%nat)
      by (unfold s1; simpl; now rewrite unsetBit_length).
    destruct (IH (from + 1) s1 Hlen1 ltac:(lia) ltac:(lia)) as (Hl & Hf & Hft & Hln & Hbits).
    repeat split; auto. intros j Hj. rewrite (Hbits j Hj).
    unfold SensorDiscovery.isBitInID, s1. simpl SensorDiscovery.inputBuf.
    rewrite isBit_unsetBit by (auto; lia).
    destruct (Z.eqb_spec j from) as [-> | Hne].
    + replace (from <=? from) with true by (symmetry; apply Z.leb_le; lia).
      replace (from <? from + Z.of_nat (S n)) with true by (symmetry; apply Z.ltb_lt; lia).
      destruct ((from + 1 <=? from) && (from <? from + 1 + Z.of_nat n)); reflexivity.
    + replace ((from + 1 <=? j) && (j <? from + 1 + Z.of_nat n))
        with ((from <=? j) && (j <? from + Z.of_nat (S n))); [reflexivity|].
      destruct (Z.leb_spec from j), (Z.leb_spec (from + 1) j),
        (Z.ltb_spec j (from + Z.of_nat (S n))), (Z.ltb_spec j (from + 1 + Z.of_nat n));
        simpl; try reflexivity; lia.
Qed.

Lemma backtrack_spec d s :
  length (SensorDiscovery.inputBuf s) = 8%nat ->
  length (SensorDiscovery.fork s) = 8%nat ->
  0 <= d < 64 ->
  let s' := SensorDiscovery.backtrack d s in
  length (SensorDiscovery.inputBuf s') = 8%nat /\
  length (SensorDiscovery.fork s') = 8%nat /\
  SensorDiscovery.firstTime s' = SensorDiscovery.firstTime s /\
  SensorDiscovery.line s' = SensorDiscovery.line s /\
  (forall j, 0 <= j < 64 ->
     SensorDiscovery.isBitInID j s' =
     if j <? d then SensorDiscovery.isBitInID j s else (j =? d)) /\
  (forall j, 0 <= j < 64 ->
     SensorDiscovery.isForkPoint j s' =
     if j =? d then false else SensorDiscovery.isForkPoint j s).
Proof.
  intros Hlen Hflen Hd. unfold SensorDiscovery.backtrack. cbv zeta.
  destruct (unsetBitsFrom_spec (Z.to_nat (64 - (d + 1))) (d + 1) s Hlen ltac:(lia) ltac:(lia))
    as (Hl & Hf & Hft & Hln & Hbits).
  set (s1 := SensorDiscovery.unsetBitsFrom _ _ s) in *.
  unfold SensorDiscovery.setBitInID, SensorDiscovery.unsetForkPoint,
    SensorDiscovery.isBitInID, SensorDiscovery.isForkPoint in *.
  simpl. rewrite setBit_length, unsetBit_length, Hf.
  repeat split; auto.
  - intros j Hj. rewrite isBit_setBit by (auto; lia).
    destruct (Z.eqb_spec j d) as [-> | Hne].
    + replace (d <? d) with false by (symmetry; apply Z.ltb_ge; lia). reflexivity.
    + rewrite (Hbits j Hj).
      destruct (Z.leb_spec (d + 1) j), (Z.ltb_spec j (d + 1 + Z.of_nat (Z.to_nat (64 - (d + 1))))),
        (Z.ltb_spec j d); simpl; try reflexivity; lia.
  - intros j Hj. now rewrite isBit_unsetBit by (auto; lia).
Qed.

(** ** Claims about [findNextDevice] *)

(** C3: on a call after the first, [frozenTreeDepth] is the deepest set
    fork point; with none set the call returns 1 ([Exhausted]) at once;
    otherwise the ID bits to the right of that depth are cleared, the fork
    bit there is cleared, the ID bit there is set, the depth is advanced by
    one, and [Reset] is issued: when the line reads high (no device) the
    call returns that reading as its result, and otherwise it goes on to the
    search command and the 64 rounds. *)
Theorem findNextDevice_backtracks (bus : list BusEvent -> bool)
        (s : SensorDiscovery.state) :
  SensorDiscovery.firstTime s = false ->
  length (SensorDiscovery.inputBuf s) = 8%nat ->
  length (SensorDiscovery.fork s) = 8%nat ->
  let d := SensorDiscovery.findLastForkPoint s in
  (d = -1 /\
   (forall j, 0 <= j < 64 -> SensorDiscovery.isForkPoint j s = false) /\
   SensorDiscovery.findNextDevice bus s = (SensorDiscovery.Exhausted, s)) \/
  (0 <= d < 64 /\
   SensorDiscovery.isForkPoint d s = true /\
   (forall j, d < j < 64 -> SensorDiscovery.isForkPoint j s = false) /\
   let s1 := SensorDiscovery.backtrack d s in
   (forall j, 0 <= j < 64 ->
      SensorDiscovery.isBitInID j s1 =
      if j <? d then SensorDiscovery.isBitInID j s else (j =? d)) /\
   (forall j, 0 <= j < 64 ->
      SensorDiscovery.isForkPoint j s1 =
      if j =? d then false else SensorDiscovery.isForkPoint j s) /\
   SensorDiscovery.findNextDevice bus s = SensorDiscovery.searchFrom bus (d + 1) s1 /\
   let presence :=
     bus (SensorDiscovery.line s ++ [PullLow; DelayUs 480; ReleaseBus; DelayUs 70]) in
   let s2 := SensorDiscovery.set_line
               (SensorDiscovery.line s ++ SensorDiscovery.resetLine presence) s1 in
   SensorDiscovery.Reset bus s1 = (Z.b2z presence, s2) /\
   SensorDiscovery.findNextDevice bus s =
   if presence then (1, s2)
   else SensorDiscovery.searchLoop bus 64 (d + 1) 0 42
          (SensorDiscovery.sendByte SensorDiscovery.SEARCHROM s2)).
Proof.
  intros Hft Hlen Hflen d.
  pose proof (lastForkBelow_spec 64 s) as Hspec. cbv zeta in Hspec.
  fold (SensorDiscovery.findLastForkPoint s) in Hspec. fold d in Hspec.
  change (Z.of_nat 64) with 64 in Hspec.
  unfold SensorDiscovery.findNextDevice. rewrite Hft. fold d.
  destruct Hspec as [[Hd Hall] | (Hd & Hset & Hall)].
  - left. split; [exact Hd|]. split; [exact Hall|].
    rewrite Hd. reflexivity.
  - right. split; [exact Hd|]. split; [exact Hset|]. split; [exact Hall|].
    destruct (backtrack_spec d s Hlen Hflen Hd) as (_ & _ & _ & Hln & Hid & Hfk).
    cbv zeta.
    replace (d <? 0) with false by (symmetry; apply Z.ltb_ge; lia).
    split; [exact Hid|]. split; [exact Hfk|]. split; [reflexivity|].
    unfold SensorDiscovery.searchFrom.
    rewrite Reset_eq. cbv zeta. rewrite Hln.
    split; [reflexivity|].
    destruct (bus _); reflexivity.
Qed.

Lemma findNextDevice_backtracks_witness :
  SensorDiscovery.firstTime SensorDiscovery.forkedState = false /\
  length (SensorDiscovery.inputBuf SensorDiscovery.forkedState) = 8%nat /\
  length (SensorDiscovery.fork SensorDiscovery.forkedState) = 8%nat /\
  SensorDiscovery.findLastForkPoint SensorDiscovery.forkedState = 9 /\
  SensorDiscovery.findNextDevice idleBus SensorDiscovery.forkedState =
  (1, SensorDiscovery.set_line (SensorDiscovery.resetLine true)
        (SensorDiscovery.backtrack 9 SensorDiscovery.forkedState)).
Proof.
  split; [reflexivity|]. split; [reflexivity|]. split; [reflexivity|].
  split; [reflexivity|].
  destruct (findNextDevice_backtracks idleBus SensorDiscovery.forkedState
              eq_refl eq_refl eq_refl) as [(Hd & _) | (_ & _ & _ & _ & _ & _ & _ & Hres)].
  - discriminate Hd.
  - exact Hres.
Defined.

(** C8: once the enumeration is exhausted -- a call has been made and no
    fork bit is set -- every further [findNextDevice] returns 1
    ([Exhausted]) and leaves the state, the caller's ID buffer included, as
    it was, however often it is called. *)
Theorem exhausted_is_idempotent (bus : list BusEvent -> bool)
        (s : SensorDiscovery.state) (n : nat) :
  SensorDiscovery.firstTime s = false ->
  (forall j, 0 <= j < 64 -> SensorDiscovery.isForkPoint j s = false) ->
  SensorDiscovery.findNextDevice bus s = (SensorDiscovery.Exhausted, s) /\
  Nat.iter n (fun s' => snd (SensorDiscovery.findNextDevice bus s')) s = s /\
  SensorDiscovery.inputBuf
    (Nat.iter n (fun s' => snd (SensorDiscovery.findNextDevice bus s')) s)
  = SensorDiscovery.inputBuf s.
Proof.
  intros Hft Hall.
  assert (Hcall : SensorDiscovery.findNextDevice bus s = (SensorDiscovery.Exhausted, s)).
  { unfold SensorDiscovery.findNextDevice. rewrite Hft.
    pose proof (lastForkBelow_spec 64 s) as Hspec. cbv zeta in Hspec.
    fold (SensorDiscovery.findLastForkPoint s) in Hspec.
    destruct Hspec as [[Hd _] | (Hd & Hset & _)].
    - rewrite Hd. reflexivity.
    - rewrite Hall in Hset by (change (Z.of_nat 64) with 64 in Hd; lia). discriminate. }
  assert (Hiter : Nat.iter n (fun s' => snd (SensorDiscovery.findNextDevice bus s')) s = s).
  { induction n as [|n IH]; simpl; [reflexivity|]. rewrite IH, Hcall. reflexivity. }
  split; [exact Hcall|]. split; [exact Hiter|]. now rewrite Hiter.
Qed.

Lemma exhausted_is_idempotent_witness :
  SensorDiscovery.firstTime SensorDiscovery.exhaustedState = false /\
  (forall j, 0 <= j < 64 ->
     SensorDiscovery.isForkPoint j SensorDiscovery.exhaustedState = false) /\
  SensorDiscovery.findNextDevice presentBus SensorDiscovery.exhaustedState
  = (SensorDiscovery.Exhausted, SensorDiscovery.exhaustedState) /\
  Nat.iter 4 (fun s' => snd (SensorDiscovery.findNextDevice presentBus s'))
           SensorDiscovery.exhaustedState = SensorDiscovery.exhaustedState.
Proof.
  assert (Hall : forall j, 0 <= j < 64 ->
            SensorDiscovery.isForkPoint j SensorDiscovery.exhaustedState = false).
  { intros j Hj. unfold SensorDiscovery.isForkPoint. rewrite isBit_testbit by lia.
    simpl SensorDiscovery.fork.
    destruct (Z.to_nat (j / 8)) as [|[|[|[|[|[|[|[|[|]]]]]]]]]; cbn [nth]; apply Z.bits_0. }
  split; [reflexivity|]. split; [exact Hall|].
  destruct (exhausted_is_idempotent presentBus SensorDiscovery.exhaustedState 4 eq_refl Hall)
    as (H1 & H2 & _).
  split; [exact H1 | exact H2].
Defined.

(** ** One round of the search *)

Lemma round_continues bus frozen d cr s (chosen forks : bool) l2 s1 :
  0 <= d < 64 ->
  length (SensorDiscovery.inputBuf s) = 8%nat ->
  length (SensorDiscovery.fork s) = 8%nat ->
  s1 = SensorDiscovery.set_line l2
         (if forks then SensorDiscovery.setForkPoint d s else s) ->
  SensorDiscovery.searchRound bus frozen d cr s =
    (if chosen
     then (None, 1, SensorDiscovery.sendBit 1 (SensorDiscovery.setBitInID d s1))
     else (None, 0, SensorDiscovery.sendBit 0 (SensorDiscovery.unsetBitInID d s1))) ->
  SensorDiscovery.roundChooses bus frozen d cr s l2 chosen forks.
Proof.
  intros Hd Hlen Hflen Hs1 Hround.
  exists (SensorDiscovery.sendBit (Z.b2z chosen)
            (if chosen then SensorDiscovery.setBitInID d s1
             else SensorDiscovery.unsetBitInID d s1)).
  assert (Hr : SensorDiscovery.searchRound bus frozen d cr s =
               (None, Z.b2z chosen,
                SensorDiscovery.sendBit (Z.b2z chosen)
                  (if chosen then SensorDiscovery.setBitInID d s1
                   else SensorDiscovery.unsetBitInID d s1)))
    by (rewrite Hround; destruct chosen; reflexivity).
  split; [exact Hr|].
  rewrite sendBit_eq. subst s1.
  destruct s as [ib fk ft ln]. simpl in Hlen, Hflen.
  unfold SensorDiscovery.isBitInID, SensorDiscovery.isForkPoint.
  repeat split.
  - destruct chosen, forks; reflexivity.
  - intros j Hj. destruct chosen, forks; simpl;
      rewrite ?isBit_setBit, ?isBit_unsetBit by (auto; lia); reflexivity.
  - destruct chosen, forks; reflexivity.
  - intros j Hj. destruct chosen, forks; simpl;
      rewrite ?isBit_setBit by (auto; lia); try reflexivity;
      destruct (j =? d); reflexivity.
  - destruct chosen, forks; reflexivity.
  - destruct chosen, forks; reflexivity.
  - intros n. cbn [SensorDiscovery.searchLoop]. rewrite Hr.
    rewrite sendBit_eq. reflexivity.
Qed.

(** C2: in a round of the search the two bits read decide: (1,0) chooses
    1; (0,1) chooses 0; (1,1) returns 2 ([ProtocolConflict]) from the call
    with the ID buffer and the fork map untouched and nothing sent; (0,0)
    follows the bit recorded in the ID buffer when
    [searchDepth <= frozenTreeDepth], and otherwise chooses 0 and sets the
    fork point at [searchDepth]; whenever the round goes on, the chosen bit
    is recorded in the ID buffer at [searchDepth] and then sent. *)
Theorem searchRound_cases (bus : list BusEvent -> bool)
        (frozenTreeDepth searchDepth chooseRight : Z) (s : SensorDiscovery.state) :
  0 <= searchDepth < 64 ->
  length (SensorDiscovery.inputBuf s) = 8%nat ->
  length (SensorDiscovery.fork s) = 8%nat ->
  let slot := [PullLow; DelayUs 6; ReleaseBus; DelayUs 9] in
  let b1 := bus (SensorDiscovery.line s ++ slot) in
  let l1 := SensorDiscovery.line s ++ SensorDiscovery.readBitLine b1 in
  let b0 := bus (l1 ++ slot) in
  let l2 := l1 ++ SensorDiscovery.readBitLine b0 in
  match b1, b0 with
  | true, false =>
      SensorDiscovery.roundChooses bus frozenTreeDepth searchDepth chooseRight s l2
                                   true false
  | false, true =>
      SensorDiscovery.roundChooses bus frozenTreeDepth searchDepth chooseRight s l2
                                   false false
  | true, true =>
      SensorDiscovery.searchRound bus frozenTreeDepth searchDepth chooseRight s
      = (Some SensorDiscovery.ProtocolConflict, chooseRight, SensorDiscovery.set_line l2 s) /\
      forall n, SensorDiscovery.searchLoop bus (S n) frozenTreeDepth searchDepth chooseRight s
                = (SensorDiscovery.ProtocolConflict, SensorDiscovery.set_line l2 s)
  | false, false =>
      if searchDepth <=? frozenTreeDepth
      then SensorDiscovery.roundChooses bus frozenTreeDepth searchDepth chooseRight s l2
                                        (SensorDiscovery.isBitInID searchDepth s) false
      else SensorDiscovery.roundChooses bus frozenTreeDepth searchDepth chooseRight s l2
                                        false true
  end.
Proof.
  intros Hd Hlen Hflen slot b1 l1 b0 l2.
  assert (Hround : SensorDiscovery.searchRound bus frozenTreeDepth searchDepth chooseRight s =
    let s2 := SensorDiscovery.set_line l2 s in
    let response := Z.lor (Z.shiftl (Z.b2z b1) 1) (Z.b2z b0) in
    let '(ret, cr, s3) :=
      if response =? 2 then (None, 1, s2)
      else if response =? 1 then (None, 0, s2)
      else if response =? 0 then
        if searchDepth <=? frozenTreeDepth
        then (None, Z.b2z (SensorDiscovery.isBitInID searchDepth s2), s2)
        else (None, 0, SensorDiscovery.setForkPoint searchDepth s2)
      else if response =? 3 then (Some 2, chooseRight, s2)
      else (None, chooseRight, s2) in
    match ret with
    | Some code => (Some code, cr, s3)
    | None =>
        if cr =? 1
        then (None, cr, SensorDiscovery.sendBit 1 (SensorDiscovery.setBitInID searchDepth s3))
        else (None, cr, SensorDiscovery.sendBit 0 (SensorDiscovery.unsetBitInID searchDepth s3))
    end).
  { unfold SensorDiscovery.searchRound. rewrite readBit_eq. cbv beta iota zeta.
    rewrite readBit_eq. cbv beta iota zeta.
    cbn [SensorDiscovery.line SensorDiscovery.set_line].
    destruct s as [ib fk ft ln]. reflexivity. }
  cbv zeta in Hround.
  destruct b1 eqn:Hb1, b0 eqn:Hb0; cbn [Z.b2z Z.shiftl Z.lor Pos.iter Z.mul Pos.mul
                                          Z.eqb Pos.eqb Pos.lor] in Hround.
  - (* 1,1 *)
    split; [exact Hround|]. intros n. cbn [SensorDiscovery.searchLoop].
    rewrite Hround. reflexivity.
  - (* 1,0 *)
    apply (round_continues bus _ _ _ s true false l2 (SensorDiscovery.set_line l2 s));
      auto.
  - (* 0,1 *)
    apply (round_continues bus _ _ _ s false false l2 (SensorDiscovery.set_line l2 s));
      auto.
  - (* 0,0 *)
    destruct (searchDepth <=? frozenTreeDepth).
    + apply (round_continues bus _ _ _ s _ false l2 (SensorDiscovery.set_line l2 s));
        auto.
      rewrite Hround.
      change (SensorDiscovery.isBitInID searchDepth (SensorDiscovery.set_line l2 s))
        with (SensorDiscovery.isBitInID searchDepth s).
      destruct (SensorDiscovery.isBitInID searchDepth s); reflexivity.
    + apply (round_continues bus _ _ _ s false true l2
               (SensorDiscovery.set_line l2 (SensorDiscovery.setForkPoint searchDepth s)));
        auto.
Qed.

Lemma searchRound_cases_witness :
  0 <= 5 < 64 /\
  length (SensorDiscovery.inputBuf SensorDiscovery.forkedState) = 8%nat /\
  length (SensorDiscovery.fork SensorDiscovery.forkedState) = 8%nat /\
  SensorDiscovery.searchRound idleBus 10 5 42 SensorDiscovery.forkedState
  = (Some SensorDiscovery.ProtocolConflict, 42,
     SensorDiscovery.set_line
       (SensorDiscovery.readBitLine true ++ SensorDiscovery.readBitLine true)
       SensorDiscovery.forkedState) /\
  SensorDiscovery.fork
    (snd (SensorDiscovery.searchRound idleBus 10 5 42 SensorDiscovery.forkedState))
  = SensorDiscovery.fork SensorDiscovery.forkedState.
Proof.
  split; [lia|]. split; [reflexivity|]. split; [reflexivity|].
  pose proof (searchRound_cases idleBus 10 5 42 SensorDiscovery.forkedState
                ltac:(lia) eq_refl eq_refl) as [Hround _].
  split; [exact Hround|]. rewrite Hround. reflexivity.
Defined.

(** * [ClearBusyStatus] ends the session *)

Lemma stillBusy_testbit r : stillBusy r = Z.testbit (status r) 0.
Proof.
  unfold stillBusy. change StillBusy with (Z.shiftl 1 0).
  rewrite land_pow2_testbit by lia. apply negb_involutive.
Qed.

Lemma istep_no_clear bus i r q r' :
  istep bus i r = Some (q, r') -> Forall (fun j => j <> IClearBusyStatus) q.
Proof.
  intros Hstep. destruct i; cbn [istep] in Hstep; cbv zeta in Hstep;
    split_bus bus Hstep; split_ifs Hstep; split_opts Hstep;
    try discriminate Hstep; injection Hstep as <- <-;
    repeat constructor; discriminate.
Qed.

Lemma istep_stillBusy bus i r q r' :
  istep bus i r = Some (q, r') -> i <> IClearBusyStatus ->
  stillBusy r' = stillBusy r.
Proof.
  intros Hstep Hne. rewrite !stillBusy_testbit.
  destruct i; try congruence; cbn [istep] in Hstep; cbv zeta in Hstep;
    split_bus bus Hstep; split_ifs Hstep; split_opts Hstep;
    try discriminate Hstep; injection Hstep as <- <-; try reflexivity.
  - (* WaitForBusRelease on a released line *)
    cbn [status set_status]. rewrite byte_testbit, Z.land_spec by lia.
    change (Z.testbit (Z.lnot DevicesAreBusy) 0) with true.
    now rewrite andb_true_r.
  - (* BusSample with no device *)
    cbn [status set_status set_ledAlert]. rewrite Z.lor_spec.
    change (Z.testbit NoDeviceOnBus 0) with false.
    now rewrite orb_false_r.
Qed.

Lemma session_doTimeslice bus n : forall p r,
  peakP (p ++ [IClearBusyStatus]) <= stackSize ->
  Forall (okI r) p ->
  Forall (fun i => i <> IClearBusyStatus) p ->
  0 <= idByteIndex r ->
  stillBusy r = true ->
  (passes (p ++ [IClearBusyStatus]) <= n)%nat ->
  exists t a',
    doTimeslice bus n (mkL (encode (p ++ [IClearBusyStatus])) r) = Some (t, a') /\
    (sessionOpen a' \/ sessionDone a').
Proof.
  induction n as [|n IH]; intros p r Hfit Hok Hnc Hidx Hbusy Hn.
  - destruct p as [|[] p]; simpl in Hn; lia.
  - destruct p as [|i p].
    + (* only ClearBusyStatus is left *)
      destruct n as [|n]; [simpl in Hn; lia|].
      exists 255. eexists. split.
      * cbn [app doTimeslice].
        rewrite (body_instr bus IClearBusyStatus [] r [] _ ltac:(fits) eq_refl).
        reflexivity.
      * right. split; [reflexivity|]. simpl lregs.
        rewrite stillBusy_testbit. apply clear_bit0.
    + cbn [app] in *.
      assert (Hfit1 : peak i + size (p ++ [IClearBusyStatus]) <= stackSize)
        by (cbn [peakP] in Hfit; lia).
      assert (Hfitp : peakP (p ++ [IClearBusyStatus]) <= stackSize)
        by (cbn [peakP] in Hfit; lia).
      inversion Hok as [|? ? Hi Hp]; subst.
      inversion Hnc as [|? ? Hni Hnp]; subst.
      destruct (istep_total bus i r Hi Hidx) as (q & r' & Hstep).
      pose proof (body_instr bus i _ r q r' Hfit1 Hstep) as Hbody.
      pose proof (istep_frame _ _ _ _ _ Hstep) as (Hlp & Hda & Hix).
      pose proof (passes_step bus i (p ++ [IClearBusyStatus]) r q r' Hstep) as Hdec.
      pose proof (istep_stillBusy _ _ _ _ _ Hstep Hni) as Hsb.
      pose proof (istep_no_clear _ _ _ _ _ Hstep) as Hqnc.
      cbn [doTimeslice]. rewrite Hbody.
      destruct i; try congruence;
        try (rewrite app_assoc; apply IH;
             [ rewrite <- app_assoc; eapply istep_fits; eassumption
             | apply Forall_app; split;
               [ eapply istep_ok; eassumption
               | eapply okI_all_ext; [exact Hlp | now rewrite Hda | exact Hp] ]
             | apply Forall_app; split; assumption
             | auto
             | congruence
             | rewrite <- app_assoc; cbv beta iota in Hdec; lia ]).
      exists tics. eexists. split; [reflexivity|].
      left. exists p. simpl. auto 10.
Qed.

Lemma session_step bus s fuel t s' :
  wf s ->
  sessionOpen (toList s) \/ sessionDone (toList s) ->
  doTimeslice bus fuel s = Some (t, s') ->
  wf s' /\ (sessionOpen (toList s') \/ sessionDone (toList s')).
Proof.
  intros Hwf [Hopen | Hdone] Hrun.
  - destruct Hopen as (p & Hst & Hfit & Hok & Hnc & Hidx & Hbusy).
    destruct (session_doTimeslice bus 23 p (regs s) Hfit Hok Hnc Hidx Hbusy
                (passes_le_23 _ Hfit)) as (t0 & a0 & Ha0 & Hres).
    pose proof (sim_doTimeslice bus fuel s _ (view_toList s Hwf)) as Hsim.
    rewrite Hrun in Hsim.
    destruct (doTimeslice bus fuel (toList s)) as [[u a1]|] eqn:Ha1; [|contradiction].
    destruct Hsim as [-> Hv].
    assert (Heq : Some (u, a1) = Some (t0, a0)).
    { rewrite <- (doTimeslice_fuel_mono bus fuel (Nat.max fuel 23) _ _ Ha1) by lia.
      unfold toList. simpl in Hst. rewrite Hst.
      rewrite <- (doTimeslice_fuel_mono bus 23 (Nat.max fuel 23) _ _ Ha0) by lia.
      reflexivity. }
    injection Heq as -> ->.
    split; [apply Hv|]. rewrite <- (view_inv_eq _ _ Hv). exact Hres.
  - destruct Hdone as [Hst Hclear]. simpl in Hst, Hclear.
    assert (Htop : topOfStack s = 0).
    { pose proof (stackOf_length s Hwf) as Hlen. rewrite Hst in Hlen. simpl in Hlen. lia. }
    destruct fuel as [|fuel]; [discriminate Hrun|].
    rewrite (idle_pass bus fuel s Htop) in Hrun.
    injection Hrun as <- <-.
    split; [exact Hwf|]. right. split; assumption.
Qed.

(** ** The session calls, from start to end *)

Lemma session_invariant bus s0 s' :
  wf s0 -> sessionOpen (toList s0) ->
  inSession bus s0 s' ->
  wf s' /\ (sessionOpen (toList s') \/ sessionDone (toList s')).
Proof.
  intros Hwf Hopen Hin. induction Hin as [|s fuel t s' _ IH Hrun].
  - auto.
  - destruct IH as [Hwfs Hs]. eapply session_step; eassumption.
Qed.

Lemma session_shape s :
  wf s -> sessionOpen (toList s) \/ sessionDone (toList s) ->
  ((exists above, stackOf s = above ++ [ClearBusyStatus]) /\ stillBusy (regs s) = true) \/
  (topOfStack s = 0 /\ stillBusy (regs s) = false).
Proof.
  intros Hwf [(p & Hst & _ & _ & _ & _ & Hbusy) | [Hst Hclear]]; simpl in *.
  - left. split; [|exact Hbusy]. exists (encode p).
    rewrite Hst, encode_app. reflexivity.
  - right. split; [|exact Hclear].
    pose proof (stackOf_length s Hwf) as Hlen. rewrite Hst in Hlen. simpl in Hlen. lia.
Qed.

Lemma session_opens (m : M machine unit) (m2 : M lmachine unit) s p r :
  simM m m2 -> wf s ->
  m2 (toList s) = Next tt (mkL (encode (p ++ [IClearBusyStatus])) r) ->
  peakP (p ++ [IClearBusyStatus]) <= stackSize ->
  Forall (okI r) p -> Forall (fun i => i <> IClearBusyStatus) p ->
  0 <= idByteIndex r -> stillBusy r = true ->
  wf (stateOf (m s)) /\ sessionOpen (toList (stateOf (m s))).
Proof.
  intros Hsim Hwf Hm2 Hfit Hok Hnc Hidx Hbusy.
  destruct (session_from_list m m2 s _ Hsim Hwf Hm2) as (s' & Hs & Hv).
  rewrite Hs. simpl. split; [apply Hv|].
  rewrite <- (view_inv_eq _ _ Hv). exists p. simpl. auto 10.
Qed.

(** C1 (as amended): [resetAsync], [readScratchpadAsync] and
    [doTestTimings] discard whatever the stack held, set the status to
    [StillBusy] and push [ClearBusyStatus] before the opcodes of the
    session, so that it lies at the bottom of the stack.  Through all the
    timeslices of such a session, whatever the line reads back, either
    [ClearBusyStatus] is still the bottom of the stack and [StillBusy] is
    set, or the stack is empty and [StillBusy] is clear: [ClearBusyStatus]
    runs last, and clears [StillBusy] as the stack drains.
    [convertAllTemperaturesAsync] discards the stack too, but sets the
    status to [DevicesAreBusy] and pushes [WaitForBusRelease] first: its
    stack holds no [ClearBusyStatus]. *)
Theorem session_calls_layout (bus : list BusEvent -> bool) (s : machine)
        (deviceAddress scratchPad : list Z) (repeats : Z) :
  wf s ->
  (exists s', resetAsync s = Next tt s' /\
              stackOf s' = [Reset; ClearBusyStatus] /\
              status (regs s') = StillBusy) /\
  (exists s', readScratchpadAsync deviceAddress scratchPad s = Next tt s' /\
              stackOf s' = [ReadScratchPad; ClearBusyStatus] /\
              status (regs s') = StillBusy) /\
  (exists s', doTestTimings repeats s = Next tt s' /\
              stackOf s' = [TestTimings; Z.land (uint16 repeats) 0xFF;
                            byte (Z.shiftr (uint16 repeats) 8);
                            BusRelease; ClearBusyStatus] /\
              status (regs s') = StillBusy) /\
  (exists s', convertAllTemperaturesAsync s = Next tt s' /\
              stackOf s' = [Reset; SendRemainingBits; 8; SKIPROMWILDCARD;
                            SendRemainingBits; 8; STARTCONVO; WaitForBusRelease] /\
              status (regs s') = DevicesAreBusy) /\
  (stackOf s = [ClearBusyStatus] ->
   exists s', doTimeslice bus 2 s = Some (255, s') /\
              topOfStack s' = 0 /\
              status (regs s') = byte (Z.land (status (regs s)) (Z.lnot StillBusy)) /\
              stillBusy (regs s') = false /\
              busLog (regs s') = busLog (regs s)) /\
  (0 <= idByteIndex (regs s) ->
   forall s0 s',
     s0 = stateOf (resetAsync s) \/
     (s0 = stateOf (readScratchpadAsync deviceAddress scratchPad s) /\
      length deviceAddress = 8%nat /\ length scratchPad = 9%nat) \/
     s0 = stateOf (doTestTimings repeats s) ->
     inSession bus s0 s' ->
     ((exists above, stackOf s' = above ++ [ClearBusyStatus]) /\
      stillBusy (regs s') = true) \/
     (topOfStack s' = 0 /\ stillBusy (regs s') = false)).
Proof.
  intros Hwf. repeat split.
  - destruct (session_from_list _ _ s _ sim_resetAsync Hwf (L_resetAsync _ _))
      as (s' & Hs & Hv).
    destruct (view_fields _ _ _ Hv) as [Hst Hr].
    exists s'. rewrite Hr. auto.
  - destruct (session_from_list _ _ s _ (sim_readScratchpadAsync deviceAddress scratchPad)
                Hwf (L_readScratchpadAsync _ _ _ _)) as (s' & Hs & Hv).
    destruct (view_fields _ _ _ Hv) as [Hst Hr].
    exists s'. rewrite Hr. auto.
  - destruct (session_from_list _ _ s _ (sim_doTestTimings repeats) Hwf
                (L_doTestTimings _ _ _)) as (s' & Hs & Hv).
    destruct (view_fields _ _ _ Hv) as [Hst Hr].
    exists s'. rewrite Hr. auto.
  - destruct (session_from_list _ _ s _ sim_convertAllTemperaturesAsync Hwf
                (L_convertAllTemperaturesAsync _ _)) as (s' & Hs & Hv).
    destruct (view_fields _ _ _ Hv) as [Hst Hr].
    exists s'. rewrite Hr. auto.
  - intros Hst.
    assert (Hv : view s (mkL (encode [IClearBusyStatus]) (regs s)))
      by (repeat split; auto; apply Hwf).
    pose proof (sim_doTimeslice bus 2 s _ Hv) as Hsim.
    assert (Ha : doTimeslice bus 2 (mkL (encode [IClearBusyStatus]) (regs s))
                 = Some (255, mkL [] (set_status
                                        (byte (Z.land (status (regs s)) (Z.lnot StillBusy)))
                                        (regs s)))).
    { cbn [doTimeslice].
      rewrite (body_instr bus IClearBusyStatus [] (regs s) [] _ ltac:(fits) eq_refl).
      reflexivity. }
    rewrite Ha in Hsim.
    destruct (doTimeslice bus 2 s) as [[t s']|]; [|contradiction].
    destruct Hsim as [-> Hv'].
    destruct (view_fields _ _ _ Hv') as [_ Hr'].
    exists s'. rewrite Hr'. repeat split; auto.
    + eapply view_empty_top; exact Hv'.
    + rewrite stillBusy_testbit. apply clear_bit0.
  - intros Hidx s0 s' Hs0 Hin.
    assert (Hstart : wf s0 /\ sessionOpen (toList s0)).
    { destruct Hs0 as [-> | [(-> & Ha & Hp) | ->]].
      - apply (session_opens _ _ s [IReset] _ sim_resetAsync Hwf (L_resetAsync _ _));
          auto; try fits; repeat constructor; discriminate.
      - apply (session_opens _ _ s [IReadScratchPad] _
                 (sim_readScratchpadAsync deviceAddress scratchPad) Hwf
                 (L_readScratchpadAsync _ _ _ _));
          auto; try fits; repeat constructor; auto; discriminate.
      - apply (session_opens _ _ s [ITestTimings _ _; IBusRelease] _
                 (sim_doTestTimings repeats) Hwf (L_doTestTimings _ _ _));
          auto; try fits; repeat constructor; discriminate. }
    destruct Hstart as [Hwf0 Hopen0].
    destruct (session_invariant bus s0 s' Hwf0 Hopen0 Hin) as [Hwf' Hs'].
    apply session_shape; assumption.
Qed.

Lemma session_calls_layout_witness :
  wf powerOn /\
  (exists s', convertAllTemperaturesAsync powerOn = Next tt s' /\
              stackOf s' = [Reset; SendRemainingBits; 8; SKIPROMWILDCARD;
                            SendRemainingBits; 8; STARTCONVO; WaitForBusRelease] /\
              status (regs s') = DevicesAreBusy) /\
  (forall s', inSession idleBus (stateOf (resetAsync powerOn)) s' ->
     ((exists above, stackOf s' = above ++ [ClearBusyStatus]) /\
      stillBusy (regs s') = true) \/
     (topOfStack s' = 0 /\ stillBusy (regs s') = false)).
Proof.
  assert (Hwf : wf powerOn) by (split; [reflexivity | simpl; unfold stackSize; lia]).
  destruct (session_calls_layout idleBus powerOn sampleAddress emptyPad 3 Hwf)
    as (_ & _ & _ & Hconvert & _ & Hsession).
  split; [exact Hwf|]. split; [exact Hconvert|].
  intros s' Hin.
  apply (Hsession ltac:(simpl; lia) (stateOf (resetAsync powerOn)) s');
    [left; reflexivity | exact Hin].
Defined.

(** C1, as stated, fails for [convertAllTemperaturesAsync]: it does not put
    [ClearBusyStatus] at the bottom of the stack. *)
Lemma convertAll_has_no_ClearBusyStatus :
  ~ (forall s, wf s ->
       exists above,
         stackOf (stateOf (convertAllTemperaturesAsync s)) = above ++ [ClearBusyStatus]).
Proof.
  intros H.
  assert (Hwf : wf powerOn) by (split; [reflexivity | simpl; unfold stackSize; lia]).
  destruct (H powerOn Hwf) as (above & Habove).
  assert (Hst : stackOf (stateOf (convertAllTemperaturesAsync powerOn))
                = [Reset; SendRemainingBits; 8; SKIPROMWILDCARD;
                   SendRemainingBits; 8; STARTCONVO] ++ [WaitForBusRelease])
    by (vm_compute; reflexivity).
  rewrite Hst in Habove. apply app_inj_tail in Habove as [_ Hlast].
  discriminate Hlast.
Qed.

(** * Invariants of the reachable states, in general *)

Section StackInvariant.

Variable bus : list BusEvent -> bool.
Variable bound : Z.
Variable Q : instr -> Prop.
Variable P : Regs -> Prop.

Hypothesis bound_le : bound <= stackSize.
Hypothesis step_closed :
  forall i r q r', Q i -> P r -> istep bus i r = Some (q, r') -> isYield i = false ->
                   Forall Q q /\ P r'.

Lemma invWith_inv a : invWith bound Q P a -> inv a.
Proof.
  intros (p & Hst & Hfit & Hok & Hidx & _ & _).
  exists p. repeat split; auto. lia.
Qed.

Lemma invWith_view s a : view s a -> invWith bound Q P a -> invWith bound Q P (toList s).
Proof. intros Hv Hinv. now rewrite <- (view_inv_eq _ _ Hv). Qed.

Lemma istep_fits_bound i p r q r' :
  istep bus i r = Some (q, r') ->
  peakP (i :: p) <= bound -> peakP (q ++ p) <= bound.
Proof.
  intros Hstep Hfit. pose proof (istep_peak _ _ _ _ _ Hstep) as Hq.
  rewrite peakP_app. cbn [peakP] in Hfit. lia.
Qed.

Lemma invWith_doTimeslice n : forall p r,
  peakP p <= bound -> Forall (okI r) p -> 0 <= idByteIndex r ->
  Forall Q p -> P r ->
  (passes p <= n)%nat ->
  exists t p' r',
    doTimeslice bus n (mkL (encode p) r) = Some (t, mkL (encode p') r') /\
    peakP p' <= bound /\ Forall (okI r') p' /\ 0 <= idByteIndex r' /\
    Forall Q p' /\ P r' /\ (t = 255 \/ Q (IYield t)).
Proof.
  induction n as [|n IH]; intros p r Hfit Hok Hidx HQ HP Hn.
  - destruct p as [|[] p]; simpl in Hn; lia.
  - destruct p as [|i p].
    + exists 255, [], r. simpl. repeat split; auto.
    + assert (Hfit1 : peak i + size p <= stackSize) by (cbn [peakP] in Hfit; lia).
      assert (Hfitp : peakP p <= bound) by (cbn [peakP] in Hfit; lia).
      inversion Hok as [|? ? Hi Hp]; subst.
      inversion HQ as [|? ? HQi HQp]; subst.
      destruct (istep_total bus i r Hi Hidx) as (q & r' & Hstep).
      pose proof (body_instr bus i p r q r' Hfit1 Hstep) as Hbody.
      pose proof (istep_frame _ _ _ _ _ Hstep) as (Hlp & Hda & Hix).
      pose proof (passes_step bus i p r q r' Hstep) as Hdec.
      cbn [doTimeslice]. rewrite Hbody.
      destruct (isYield i) eqn:Hy.
      * destruct i; try discriminate Hy.
        exists tics, p, r. repeat split; auto.
      * destruct (step_closed i r q r' HQi HP Hstep Hy) as [HQq HP'].
        destruct i; try discriminate Hy;
          (apply IH;
           [ eapply istep_fits_bound; eassumption
           | apply Forall_app; split;
             [ eapply istep_ok; eassumption
             | eapply okI_all_ext; [exact Hlp | now rewrite Hda | exact Hp] ]
           | auto
           | apply Forall_app; split; assumption
           | exact HP'
           | cbv beta iota in Hdec; lia ]).
Qed.

Lemma invWith_slice s fuel t s' :
  wf s -> invWith bound Q P (toList s) ->
  doTimeslice bus fuel s = Some (t, s') ->
  wf s' /\ invWith bound Q P (toList s') /\ (t = 255 \/ Q (IYield t)).
Proof.
  intros Hwf (p & Hst & Hfit & Hok & Hidx & HQ & HP) Hrun. simpl in *.
  pose proof (sim_doTimeslice bus fuel s _ (view_toList s Hwf)) as Hsim.
  rewrite Hrun in Hsim.
  destruct (doTimeslice bus fuel (toList s)) as [[u a1]|] eqn:Ha1; [|contradiction].
  destruct Hsim as [-> Hv].
  destruct (invWith_doTimeslice (passes p) p (regs s) Hfit Hok Hidx HQ HP (le_n _))
    as (t & p' & r' & Hrun' & Hfit' & Hok' & Hidx' & HQ' & HP' & Ht).
  assert (Heq : Some (u, a1) = Some (t, mkL (encode p') r')).
  { rewrite <- (doTimeslice_fuel_mono bus fuel (Nat.max fuel (passes p)) _ _ Ha1) by lia.
    unfold toList. rewrite Hst.
    rewrite <- (doTimeslice_fuel_mono bus (passes p) (Nat.max fuel (passes p)) _ _ Hrun')
      by lia.
    reflexivity. }
  injection Heq as -> ->.
  split; [apply Hv|]. split; [|exact Ht].
  rewrite <- (view_inv_eq _ _ Hv). exists p'. simpl. auto 10.
Qed.

Hypothesis bound_ge : 17 <= bound.
Hypothesis P_zero : P zeroRegs.
Hypothesis P_status :
  forall r, P r -> P (set_status StillBusy r) /\ P (set_status DevicesAreBusy r).
Hypothesis P_buffers :
  forall r addr pad, length addr = 8%nat -> length pad = 9%nat ->
                     P r -> P (set_sPad pad (set_deviceAddr addr r)).
Hypothesis P_timer : forall r tics, P r -> P (logEvent (TimerWait tics) r).
Hypothesis Q_sessions :
  forall repeats, Forall (Forall Q) (sessionPrograms repeats).

Lemma reachable_invWith s :
  reachable bus s -> wf s /\ invWith bound Q P (toList s).
Proof.
  induction 1 as [ | s _ [Hwf Hinv] | s _ [Hwf Hinv] | s addr pad _ [Hwf Hinv] Ha Hp
                 | s _ [Hwf Hinv] | s repeats _ [Hwf Hinv]
                 | s fuel tics s' _ [Hwf Hinv] Hrun | s fuel s' _ [Hwf Hinv] Hrun ].
  - split; [split; simpl; unfold stackSize; lia|].
    exists []. simpl. repeat split; auto; lia.
  - pose proof (view_flush s _ (view_toList s Hwf)) as Hv.
    split; [apply Hv|]. apply (invWith_view _ _ Hv).
    destruct Hinv as (p & _ & _ & _ & Hidx & _ & HP).
    exists []. simpl. repeat split; auto; lia.
  - destruct (session_from_list _ _ s _ sim_resetAsync Hwf (L_resetAsync _ _))
      as (s' & Hs & Hv).
    rewrite Hs. simpl. split; [apply Hv|]. apply (invWith_view _ _ Hv).
    destruct Hinv as (p & _ & _ & _ & Hidx & _ & HP).
    pose proof (Q_sessions 0) as HQ. apply Forall_cons in HQ as [HQ _].
    eexists. split; [reflexivity|]. simpl.
    repeat split; auto; try fits; [repeat constructor | now apply P_status].
  - destruct (session_from_list _ _ s _ (sim_readScratchpadAsync addr pad) Hwf
                (L_readScratchpadAsync _ _ _ _)) as (s' & Hs & Hv).
    rewrite Hs. simpl. split; [apply Hv|]. apply (invWith_view _ _ Hv).
    destruct Hinv as (p & _ & _ & _ & Hidx & _ & HP).
    pose proof (Q_sessions 0) as HQ.
    apply Forall_cons in HQ as [_ HQ]. apply Forall_cons in HQ as [HQ _].
    eexists. split; [reflexivity|]. simpl.
    repeat split; auto; try fits;
      [repeat constructor; simpl; auto | apply P_status; now apply P_buffers].
  - destruct (session_from_list _ _ s _ sim_convertAllTemperaturesAsync Hwf
                (L_convertAllTemperaturesAsync _ _)) as (s' & Hs & Hv).
    rewrite Hs. simpl. split; [apply Hv|]. apply (invWith_view _ _ Hv).
    destruct Hinv as (p & _ & _ & _ & Hidx & _ & HP).
    pose proof (Q_sessions 0) as HQ.
    apply Forall_cons in HQ as [_ HQ]. apply Forall_cons in HQ as [_ HQ].
    apply Forall_cons in HQ as [HQ _].
    eexists. split; [reflexivity|]. simpl.
    repeat split; auto; try fits; [repeat constructor | now apply P_status].
  - destruct (session_from_list _ _ s _ (sim_doTestTimings repeats) Hwf
                (L_doTestTimings _ _ _)) as (s' & Hs & Hv).
    rewrite Hs. simpl. split; [apply Hv|]. apply (invWith_view _ _ Hv).
    destruct Hinv as (p & _ & _ & _ & Hidx & _ & HP).
    pose proof (Q_sessions repeats) as HQ.
    apply Forall_cons in HQ as [_ HQ]. apply Forall_cons in HQ as [_ HQ].
    apply Forall_cons in HQ as [_ HQ]. apply Forall_cons in HQ as [HQ _].
    eexists. split; [reflexivity|]. simpl.
    repeat split; auto; try fits; [repeat constructor | now apply P_status].
  - destruct (invWith_slice s fuel tics s' Hwf Hinv Hrun) as (Hwf' & Hinv' & _).
    split; assumption.
  - unfold ISR in Hrun.
    destruct (doTimeslice bus fuel s) as [[u s1]|] eqn:Hs1; [|discriminate].
    injection Hrun as <-.
    destruct (invWith_slice s fuel u s1 Hwf Hinv Hs1) as (Hwf' & Hinv' & _).
    pose proof (view_withRegs (logEvent (TimerWait u) (regs s1)) _ _
                  (view_toList s1 Hwf')) as Hv2.
    split; [apply Hv2|]. apply (invWith_view _ _ Hv2).
    destruct Hinv' as (p & Hst & Hfit & Hok & Hidx & HQ & HP).
    exists p. simpl in *.
    repeat split; auto;
      try (eapply okI_all_ext; [| |exact Hok]; reflexivity).
Qed.

End StackInvariant.

Lemma reachable_oneInterrupt bus x :
  reachable bus x -> reachable bus (oneInterrupt bus x).
Proof.
  intros Hx. unfold oneInterrupt.
  destruct (ISR bus 23 x) as [x'|] eqn:HISR; [|exact Hx].
  eapply reach_ISR; eassumption.
Qed.

Lemma reachable_interrupts bus (k : nat) s :
  reachable bus s -> reachable bus (Nat.iter k (oneInterrupt bus) s).
Proof.
  intros Hs. induction k as [|k IH]; [exact Hs|].
  change (reachable bus (oneInterrupt bus (Nat.iter k (oneInterrupt bus) s))).
  now apply reachable_oneInterrupt.
Qed.

(** * What holds of every state the program reaches *)

Lemma istep_serial bus i r q r' :
  istep bus i r = Some (q, r') -> serial r' = serial r.
Proof.
  intros Hstep. destruct i; cbn [istep] in Hstep; cbv zeta in Hstep;
    split_bus bus Hstep; split_ifs Hstep; split_opts Hstep;
    try discriminate Hstep; injection Hstep as <- <-; reflexivity.
Qed.

Lemma istep_holdoffs bus i r q r' :
  istep bus i r = Some (q, r') -> Forall holdoffOK q.
Proof.
  intros Hstep. destruct i; cbn [istep] in Hstep; cbv zeta in Hstep;
    split_bus bus Hstep; split_ifs Hstep; split_opts Hstep;
    try discriminate Hstep; injection Hstep as <- <-;
    repeat first [ apply List.Forall_nil
                 | apply List.Forall_cons; [first [exact I | (cbv; tauto)] |] ].
Qed.

Lemma sampledReleased_app l1 : forall l2 d,
  sampledReleased d (l1 ++ l2)
  = sampledReleased d l1 && sampledReleased (drivingAfter d l1) l2.
Proof.
  induction l1 as [|e l1 IH]; intros l2 d; [reflexivity|].
  destruct e; simpl; rewrite ?IH; try reflexivity.
  now rewrite andb_assoc.
Qed.

Lemma sampledReleased_snoc_chunk l c :
  (forall d, sampledReleased d l = true) ->
  (forall d, sampledReleased d c = true) ->
  forall d, sampledReleased d (l ++ c) = true.
Proof. intros Hl Hc d. now rewrite sampledReleased_app, Hl, Hc. Qed.

Lemma istep_log bus i r q r' :
  istep bus i r = Some (q, r') ->
  exists c, busLog r' = busLog r ++ c /\ forall d, sampledReleased d c = true.
Proof.
  intros Hstep. destruct i; cbn [istep] in Hstep; cbv zeta in Hstep;
    split_bus bus Hstep; split_ifs Hstep; split_opts Hstep;
    try discriminate Hstep; injection Hstep as <- <-; regs_simpl;
    rewrite <- ?app_assoc;
    first [ (eexists; split; [reflexivity|]; intros []; reflexivity)
          | (exists []; split; [now rewrite app_nil_r|]; intros []; reflexivity) ].
Qed.

(** X1: in every state the program reaches, the stack holds at most 17 of
    its 20 bytes and nothing has been written to the serial line: the
    overflow branch of [push] has never been taken. *)
Theorem stack_never_overflows (bus : list BusEvent -> bool) (s : machine) :
  reachable bus s ->
  0 <= topOfStack s <= 17 /\
  serial (regs s) = [] /\
  forall b, exists s', ArrayStack.push b s = Next tt s' /\
                       stackOf s' = b :: stackOf s /\ regs s' = regs s.
Proof.
  intros Hreach.
  destruct (reachable_invWith bus 17 (fun _ => True) (fun r => serial r = []))
    with (s := s) as [Hwf (p & Hst & Hfit & _ & _ & _ & Hser)];
    try (unfold stackSize; lia); try reflexivity; auto.
  - intros i r q r' _ Hr Hstep _. split.
    + apply Forall_forall. auto.
    + rewrite (istep_serial _ _ _ _ _ Hstep). exact Hr.
  - intros repeats. repeat constructor.
  - simpl in *.
    assert (Htop : 0 <= topOfStack s <= 17).
    { rewrite <- (stackOf_length s Hwf), Hst.
      pose proof (peakP_ge_size p). unfold size in *. lia. }
    split; [exact Htop|]. split; [exact Hser|].
    intros b. destruct (push_spec b s Hwf) as (s' & Hpush & _ & Hst' & Hr').
    exists s'. split; [exact Hpush|].
    assert (Hlt : (stackSize <=? topOfStack s) = false)
      by (apply Z.leb_gt; unfold stackSize; lia).
    rewrite Hlt in Hst', Hr'. auto.
Qed.

Lemma stack_never_overflows_witness :
  reachable idleBus (stateOf (readScratchpadAsync sampleAddress emptyPad powerOn)) /\
  0 <= topOfStack (stateOf (readScratchpadAsync sampleAddress emptyPad powerOn)) <= 17.
Proof.
  assert (Hreach : reachable idleBus
                     (stateOf (readScratchpadAsync sampleAddress emptyPad powerOn)))
    by (apply reach_read; [apply reach_powerOn | reflexivity | reflexivity]).
  split; [exact Hreach|].
  apply (stack_never_overflows idleBus _ Hreach).
Defined.

(** X2: the holdoff a timeslice returns from a reachable state is always
    one of the timing constants 8, 10, 11, 96, 110 (the tics for 55, 60/64,
    70, 410 and 480 microseconds) or the idle holdoff 255. *)
Theorem holdoff_is_a_timing_constant (bus : list BusEvent -> bool) (s : machine)
        (fuel : nat) (tics : Z) (s' : machine) :
  reachable bus s ->
  doTimeslice bus fuel s = Some (tics, s') ->
  In tics [8; 10; 11; 96; 110; 255].
Proof.
  intros Hreach Hrun.
  assert (Hstep : forall i r q r', holdoffOK i -> True ->
                    istep bus i r = Some (q, r') -> isYield i = false ->
                    Forall holdoffOK q /\ True).
  { intros i r q r' _ _ Hi _. split; [|exact I]. eapply istep_holdoffs; eassumption. }
  destruct (reachable_invWith bus 17 holdoffOK (fun _ => True))
    with (s := s) as [Hwf Hinv];
    try (unfold stackSize; lia); auto.
  - intros repeats. repeat constructor.
  - destruct (invWith_slice bus 17 holdoffOK (fun _ => True)
                ltac:(unfold stackSize; lia) Hstep s fuel tics s' Hwf Hinv Hrun)
      as (_ & _ & [-> | Ht]).
    + cbv. tauto.
    + cbv in Ht. cbv. tauto.
Qed.

Lemma holdoff_is_a_timing_constant_witness :
  reachable presentBus (stateOf (resetAsync powerOn)) /\
  doTimeslice presentBus 4 (stateOf (resetAsync powerOn))
  = Some (Micros480, snd (default (0, powerOn)
                            (doTimeslice presentBus 4 (stateOf (resetAsync powerOn))))) /\
  In Micros480 [8; 10; 11; 96; 110; 255].
Proof.
  assert (Hreach : reachable presentBus (stateOf (resetAsync powerOn)))
    by (apply reach_reset, reach_powerOn).
  assert (Hrun : doTimeslice presentBus 4 (stateOf (resetAsync powerOn))
                 = Some (Micros480,
                         snd (default (0, powerOn)
                                (doTimeslice presentBus 4 (stateOf (resetAsync powerOn))))))
    by (vm_compute; reflexivity).
  split; [exact Hreach|]. split; [exact Hrun|].
  exact (holdoff_is_a_timing_constant presentBus _ 4 Micros480 _ Hreach Hrun).
Defined.

(** X3: in every state reached from power-on, the history of the line
    shows no sample taken while the master itself was driving the line
    low: before each [SampleBus] its last move was [ReleaseBus]. *)
Theorem line_sampled_only_when_released (bus : list BusEvent -> bool) (s : machine) :
  reachable bus s ->
  sampledReleased false (busLog (regs s)) = true.
Proof.
  intros Hreach.
  destruct (reachable_invWith bus 17 (fun _ => True)
              (fun r => forall d, sampledReleased d (busLog r) = true))
    with (s := s) as [_ (p & _ & _ & _ & _ & _ & Hlog)];
    try (unfold stackSize; lia); auto.
  - intros i r q r' _ Hr Hstep _. split.
    + apply Forall_forall. auto.
    + destruct (istep_log _ _ _ _ _ Hstep) as (c & -> & Hc).
      now apply sampledReleased_snoc_chunk.
  - intros r tics Hr. apply (sampledReleased_snoc_chunk _ [TimerWait tics] Hr).
    intros []; reflexivity.
  - intros repeats. repeat constructor.
Qed.

Lemma line_sampled_only_when_released_witness :
  reachable idleBus (Nat.iter 3 (oneInterrupt idleBus) (stateOf (resetAsync powerOn))) /\
  busLog (regs (Nat.iter 3 (oneInterrupt idleBus) (stateOf (resetAsync powerOn))))
  = [PullLow; TimerWait Micros480; ReleaseBus; DelayUs 10; TimerWait Micros70;
     ReleaseBus; SampleBus true; TimerWait Micros410] /\
  sampledReleased false
    (busLog (regs (Nat.iter 3 (oneInterrupt idleBus) (stateOf (resetAsync powerOn)))))
  = true.
Proof.
  assert (Hreach : reachable idleBus
                     (Nat.iter 3 (oneInterrupt idleBus) (stateOf (resetAsync powerOn))))
    by (apply reachable_interrupts, reach_reset, reach_powerOn).
  split; [exact Hreach|]. split; [vm_compute; reflexivity|].
  apply (line_sampled_only_when_released idleBus _ Hreach).
Defined.

(** * Sessions from the call to the idle stack *)

Lemma Run_machine bus p r n r' s0 F :
  view s0 (mkL (encode p) r) -> Run bus p r n r' ->
  peakP p <= stackSize -> (23 <= F)%nat ->
  exists s', runISR bus F (S n) s0 = Some s' /\ topOfStack s' = 0 /\
             regs s' = logEvent (TimerWait 255) r'.
Proof.
  intros Hv Hrun Hfit HF.
  pose proof (Run_sound bus _ _ _ _ Hrun Hfit F HF) as Hdrain.
  destruct (runISR_from_list bus F (S n) s0 _ _ Hv Hdrain) as (s' & Hs' & Hv').
  destruct (view_fields _ _ _ Hv') as [_ Hr'].
  exists s'. repeat split; auto. eapply view_empty_top; exact Hv'.
Qed.

Lemma Slices_machine bus p r n p' r' s0 F :
  view s0 (mkL (encode p) r) -> Slices bus p r n p' r' ->
  peakP p <= stackSize -> (23 <= F)%nat ->
  exists s', runISR bus F n s0 = Some s' /\ stackOf s' = encode p' /\ regs s' = r'.
Proof.
  intros Hv Hsl Hfit HF.
  pose proof (Slices_sound bus _ _ _ _ _ Hsl Hfit F HF) as Hrun.
  destruct (runISR_from_list bus F n s0 _ _ Hv Hrun) as (s' & Hs' & Hv').
  destruct (view_fields _ _ _ Hv') as [Hst' Hr'].
  exists s'. auto.
Qed.

Lemma Run_then_Slices bus p1 r n r1 :
  Run bus p1 r n r1 ->
  forall p2 m p' r', Slices bus p2 r1 (S m) p' r' ->
                     Slices bus (p1 ++ p2) r (n + S m) p' r'.
Proof.
  induction 1 as [r | tics p r n r' _ IH | i p r q r1 n r' Hy Hstep _ IH];
    intros p2 m p' r2 Hsl.
  - exact Hsl.
  - cbn [app]. change (S n + S m)%nat with (S (n + S m)).
    apply Slices_yield. now apply IH.
  - cbn [app]. replace (n + S m)%nat with (S (n + m)) by lia.
    eapply Slices_instr; [exact Hy | exact Hstep |].
    rewrite app_assoc. replace (S (n + m)) with (n + S m)%nat by lia.
    now apply IH.
Qed.

(** ** The reset, with nothing on the line *)

(** X4: when nothing answers the reset, [resetAsync] still runs to its end
    in four interrupts; the status then reads [NoDeviceOnBus], with
    [StillBusy] cleared, and the alert LED is on. *)
Theorem reset_without_device (bus : list BusEvent -> bool) (s : machine) :
  wf s ->
  bus (busLog (regs s) ++ [PullLow; TimerWait Micros480; ReleaseBus; DelayUs 10;
                           TimerWait Micros70; ReleaseBus]) = true ->
  exists s0,
    resetAsync s = Next tt s0 /\
    getStatus s0 = StillBusy /\
    forall fuel, (23 <= fuel)%nat ->
      exists s', runISR bus fuel 4 s0 = Some s' /\
                 topOfStack s' = 0 /\
                 getStatus s' = NoDeviceOnBus /\
                 ledAlert (regs s') = true /\
                 busLog (regs s') = busLog (regs s) ++ resetTrace true ++ [TimerWait 255].
Proof.
  intros Hwf Hbus.
  destruct (session_from_list _ _ s _ sim_resetAsync Hwf (L_resetAsync _ _))
    as (s0 & Hs0 & Hv0).
  exists s0. split; [exact Hs0|].
  destruct (view_fields _ _ _ Hv0) as [_ Hr0].
  split; [unfold getStatus; simpl; now rewrite Hr0|].
  intros fuel Hfuel.
  set (r0 := set_status StillBusy (regs s)) in *.
  pose proof (Run_reset bus r0 true Hbus) as Hreset. cbv iota in Hreset.
  pose proof (Run_app _ _ _ _ _ Hreset _ _ _ (Run_clearBusy bus _)) as Hrun.
  destruct (Run_machine bus _ _ _ _ s0 fuel Hv0 Hrun ltac:(fits) Hfuel)
    as (s' & Hs' & Htop & Hr').
  exists s'. unfold getStatus. simpl getRegs. rewrite Hr'.
  repeat split; auto.
  subst r0. unfold resetTrace. regs_simpl. now rewrite <- !app_assoc.
Qed.

Lemma reset_without_device_witness :
  wf powerOn /\
  exists s0,
    resetAsync powerOn = Next tt s0 /\
    getStatus s0 = StillBusy /\
    forall fuel, (23 <= fuel)%nat ->
      exists s', runISR idleBus fuel 4 s0 = Some s' /\
                 topOfStack s' = 0 /\
                 getStatus s' = NoDeviceOnBus /\
                 ledAlert (regs s') = true /\
                 busLog (regs s') = busLog (regs powerOn) ++ resetTrace true ++ [TimerWait 255].
Proof.
  assert (Hwf : wf powerOn) by (split; [reflexivity | simpl; unfold stackSize; lia]).
  split; [exact Hwf|].
  apply (reset_without_device idleBus powerOn Hwf eq_refl).
Defined.

(** ** The conversion, and the wait for the devices to finish *)

Section WaitLoop.

Variable bus : list BusEvent -> bool.
Variable T : nat.
Hypothesis bus_low_until : forall l, bus l = (T <? countSamples l)%nat.

Lemma istep_wait_low r :
  (countSamples (busLog r) <= T)%nat ->
  istep bus IWaitForBusRelease r
  = Some ([IYield 255; IWaitForBusRelease],
          logEvent (SampleBus false) (logEvent ReleaseBus r)).
Proof.
  intros Hc. cbn [istep]. cbv zeta. rewrite bus_low_until.
  replace (T <? _)%nat with false; [reflexivity|].
  symmetry. apply Nat.ltb_ge.
  unfold logEvent, set_busLog. simpl busLog. rewrite countSamples_app. simpl. lia.
Qed.

Lemma istep_wait_high r :
  (T < countSamples (busLog r))%nat ->
  istep bus IWaitForBusRelease r
  = Some ([], set_status (byte (Z.land (status r) (Z.lnot DevicesAreBusy)))
                (logEvent (SampleBus true) (logEvent ReleaseBus r))).
Proof.
  intros Hc. cbn [istep]. cbv zeta. rewrite bus_low_until.
  replace (T <? _)%nat with true; [reflexivity|].
  symmetry. apply Nat.ltb_lt.
  unfold logEvent, set_busLog. simpl busLog. rewrite countSamples_app. simpl. lia.
Qed.

Lemma Run_wait m : forall r,
  (countSamples (busLog r) + m = T + 1)%nat ->
  Run bus [IWaitForBusRelease] r m
      (set_status (byte (Z.land (status r) (Z.lnot DevicesAreBusy)))
         (appendLog (concat (replicate m busyPoll) ++ [ReleaseBus; SampleBus true]) r)).
Proof.
  induction m as [|m IH]; intros r Hc.
  - eapply Run_instr; [reflexivity | apply istep_wait_high; lia |].
    cbn [app replicate concat].
    match goal with |- Run _ _ ?r1 _ ?r2 => replace r2 with r1; [apply Run_nil|] end.
    regs_eq.
  - eapply Run_instr; [reflexivity | apply istep_wait_low; lia |].
    cbn [app]. apply Run_yield.
    match goal with |- Run _ _ ?r1 _ ?r2 =>
      replace r2 with
        (set_status (byte (Z.land (status r1) (Z.lnot DevicesAreBusy)))
           (appendLog (concat (replicate m busyPoll) ++ [ReleaseBus; SampleBus true]) r1))
    end.
    + apply IH. unfold logEvent, set_busLog. simpl busLog.
      rewrite !countSamples_app. simpl. lia.
    + cbn [replicate concat]. unfold busyPoll at 2. regs_eq.
Qed.

Lemma Slices_wait m : forall r,
  (countSamples (busLog r) + m <= T + 1)%nat ->
  Slices bus [IWaitForBusRelease] r m [IWaitForBusRelease]
         (appendLog (concat (replicate m busyPoll)) r).
Proof.
  induction m as [|m IH]; intros r Hc.
  - cbn [replicate concat]. rewrite appendLog_nil. apply Slices_done.
  - eapply Slices_instr; [reflexivity | apply istep_wait_low; lia |].
    cbn [app]. apply Slices_yield.
    match goal with |- Slices _ _ ?r1 _ _ ?r2 =>
      replace r2 with (appendLog (concat (replicate m busyPoll)) r1)
    end.
    + apply IH. unfold logEvent, set_busLog. simpl busLog.
      rewrite !countSamples_app. simpl. lia.
    + cbn [replicate concat]. unfold busyPoll at 2. regs_eq.
Qed.

End WaitLoop.

(** X5: [convertAllTemperaturesAsync] on a line whose devices answer the
    reset and then hold it low through [k] polls: the session resets the
    bus, sends 0xCC and 0x44, polls every 255 tics, and is over after
    [20 + k] interrupts with status 0.  One interrupt earlier, while the
    line is still held low, the status still reads [DevicesAreBusy]. *)
Theorem convert_session (k : nat) (s : machine) :
  wf s ->
  let bus := busyLine (countSamples (busLog (regs s))) k in
  exists s0,
    convertAllTemperaturesAsync s = Next tt s0 /\
    getStatus s0 = DevicesAreBusy /\
    forall fuel, (23 <= fuel)%nat ->
      (exists s', runISR bus fuel (20 + k) s0 = Some s' /\
                  topOfStack s' = 0 /\
                  getStatus s' = 0 /\
                  busLog (regs s') = busLog (regs s) ++ convertTrace k) /\
      ((1 <= k)%nat ->
       exists s1, runISR bus fuel (19 + k) s0 = Some s1 /\
                  stackOf s1 = [WaitForBusRelease] /\
                  getStatus s1 = DevicesAreBusy).
Proof.
  intros Hwf bus.
  destruct (session_from_list _ _ s _ sim_convertAllTemperaturesAsync Hwf
              (L_convertAllTemperaturesAsync _ _)) as (s0 & Hs0 & Hv0).
  exists s0. split; [exact Hs0|].
  destruct (view_fields _ _ _ Hv0) as [_ Hr0].
  split; [unfold getStatus; simpl; now rewrite Hr0|].
  intros fuel Hfuel.
  set (base := countSamples (busLog (regs s))) in *.
  set (r0 := set_status DevicesAreBusy (regs s)) in *.
  assert (Hbus : forall l, bus l = (base + k <? countSamples l)%nat) by reflexivity.
  set (r1 := appendLog (resetTrace false) r0).
  set (r2 := appendLog (sendBitsTrace 8 SKIPROMWILDCARD) r1).
  set (r3 := appendLog (sendBitsTrace 8 STARTCONVO) r2).
  assert (Hreset : Run bus [IReset] r0 3 r1).
  { apply (Run_reset bus r0 false). rewrite Hbus. apply Nat.ltb_ge.
    rewrite countSamples_app. subst r0 base. simpl. lia. }
  assert (Hc1 : Run bus [ISendRemainingBits 8 SKIPROMWILDCARD] r1 8 r2)
    by (apply (Run_sendBits bus 8); lia).
  assert (Hc2 : Run bus [ISendRemainingBits 8 STARTCONVO] r2 8 r3)
    by (apply (Run_sendBits bus 8); lia).
  assert (Hcount : countSamples (busLog r3) = (base + 1)%nat).
  { subst r3 r2 r1 r0 base. unfold appendLog, set_busLog, set_status. cbn [busLog].
    rewrite !countSamples_app, !countSamples_sendBits. simpl. lia. }
  assert (Hhead : Run bus ([IReset] ++ [ISendRemainingBits 8 SKIPROMWILDCARD]
                             ++ [ISendRemainingBits 8 STARTCONVO]) r0 (3 + (8 + 8)) r3).
  { eapply Run_app; [exact Hreset|]. eapply Run_app; [exact Hc1 | exact Hc2]. }
  split.
  - pose proof (Run_wait bus (base + k) Hbus k r3 ltac:(lia)) as Hwait.
    pose proof (Run_app _ _ _ _ _ Hhead _ _ _ Hwait) as Hrun.
    destruct (Run_machine bus _ _ _ _ s0 fuel Hv0 Hrun ltac:(fits) Hfuel)
      as (s' & Hs' & Htop & Hr').
    exists s'. unfold getStatus. simpl getRegs. rewrite Hr'.
    split; [exact Hs'|]. split; [exact Htop|]. split; [reflexivity|].
    subst r3 r2 r1 r0. unfold convertTrace, sendByteTrace. regs_simpl.
    now rewrite <- !app_assoc.
  - intros Hk. destruct k as [|k']; [lia|].
    pose proof (Slices_wait bus (base + S k') Hbus (S k') r3 ltac:(lia)) as Hwait.
    pose proof (Run_then_Slices _ _ _ _ _ Hhead _ _ _ _ Hwait) as Hsl.
    destruct (Slices_machine bus _ _ _ _ _ s0 fuel Hv0 Hsl ltac:(fits) Hfuel)
      as (s1 & Hs1 & Hst1 & Hr1).
    exists s1. unfold getStatus. simpl getRegs. rewrite Hr1.
    split; [exact Hs1|]. split; [exact Hst1 | reflexivity].
Qed.

Lemma convert_session_witness :
  wf powerOn /\
  exists s0,
    convertAllTemperaturesAsync powerOn = Next tt s0 /\
    getStatus s0 = DevicesAreBusy /\
    forall fuel, (23 <= fuel)%nat ->
      exists s', runISR (busyLine 0 3) fuel 23 s0 = Some s' /\
                 topOfStack s' = 0 /\
                 getStatus s' = 0 /\
                 busLog (regs s') = busLog (regs powerOn) ++ convertTrace 3.
Proof.
  assert (Hwf : wf powerOn) by (split; [reflexivity | simpl; unfold stackSize; lia]).
  split; [exact Hwf|].
  destruct (convert_session 3 powerOn Hwf) as (s0 & Hs0 & Hst & Hrun).
  exists s0. split; [exact Hs0|]. split; [exact Hst|].
  intros fuel Hfuel. exact (proj1 (Hrun fuel Hfuel)).
Defined.

(** ** The timing test *)

Lemma split_count v :
  0 <= v < 65536 ->
  Z.lor (uint16 (Z.shiftl (byte (Z.shiftr v 8)) 8)) (Z.land v 0xFF) = v.
Proof.
  intros Hv. unfold uint16, byte.
  change 65536 with (2 ^ 16). change 256 with (2 ^ 8). change 0xFF with (Z.ones 8).
  apply Z.bits_inj'. intros k Hk.
  rewrite Z.lor_spec, Z.land_spec, Z.testbit_ones_nonneg by lia.
  destruct (Z.ltb_spec k 16) as [H16|H16].
  - rewrite Z.mod_pow2_bits_low by lia.
    rewrite Z.shiftl_spec by lia.
    destruct (Z.ltb_spec k 8) as [H8|H8].
    + rewrite Z.testbit_neg_r by lia. simpl. now rewrite andb_true_r.
    + rewrite Z.mod_pow2_bits_low by lia.
      rewrite Z.shiftr_spec by lia.
      replace (k - 8 + 8) with k by lia. now rewrite andb_false_r, orb_false_r.
  - rewrite Z.mod_pow2_bits_high by lia.
    replace (k <? 8) with false by (symmetry; apply Z.ltb_ge; lia).
    rewrite andb_false_r. simpl.
    symmetry. rewrite <- (Z.mod_small v (2 ^ 16)) by (change (2 ^ 16) with 65536; lia).
    apply Z.mod_pow2_bits_high. lia.
Qed.

Lemma istep_testTimings bus lo hi r :
  let toGo := Z.lor (uint16 (Z.shiftl hi 8)) lo in
  let toGo' := if 1 <? toGo then toGo - 1 else toGo in
  exists r1,
    istep bus (ITestTimings lo hi) r
    = Some (IYield (timingTics toGo') ::
              (if 1 <? toGo
               then [ITestTimings (Z.land toGo' 0xFF) (byte (Z.shiftr toGo' 8))]
               else []),
            r1) /\
    busLog r1 = busLog r ++ [ReleaseBus; DelayUs 10; PullLow] /\
    status r1 = status r.
Proof.
  intros toGo toGo'. cbn [istep]. cbv zeta. fold toGo. fold toGo'. unfold timingTics.
  destruct (toGo' mod 5 =? 0); [|destruct (toGo' mod 5 =? 1);
    [|destruct (toGo' mod 5 =? 2); [|destruct (toGo' mod 5 =? 3)]]];
    (eexists; split; [reflexivity|]; split;
     [regs_simpl; now rewrite <- !app_assoc | reflexivity]).
Qed.

Lemma Run_testTimings bus m : forall r,
  Z.of_nat (S m) < 65536 ->
  exists r',
    Run bus [ITestTimings (Z.land (Z.of_nat (S m)) 0xFF)
                          (byte (Z.shiftr (Z.of_nat (S m)) 8))] r (S m) r' /\
    busLog r' = busLog r ++ timingTrace (S m) /\
    status r' = status r.
Proof.
  induction m as [|m IH]; intros r Hm.
  - destruct (istep_testTimings bus (Z.land 1 0xFF) (byte (Z.shiftr 1 8)) r)
      as (r1 & Hstep & Hlog & Hst).
    exists (logEvent (TimerWait Micros70) r1). split; [|split].
    + eapply Run_instr; [reflexivity | exact Hstep |]. apply Run_yield, Run_nil.
    + unfold logEvent, set_busLog. cbn [busLog]. rewrite Hlog.
      now rewrite <- app_assoc.
    + exact Hst.
  - set (v := Z.of_nat (S (S m))) in *.
    destruct (istep_testTimings bus (Z.land v 0xFF) (byte (Z.shiftr v 8)) r)
      as (r1 & Hstep & Hlog & Hst).
    rewrite split_count in Hstep by lia.
    assert (Hgt : (1 <? v) = true) by (apply Z.ltb_lt; lia).
    rewrite Hgt in Hstep.
    replace (v - 1) with (Z.of_nat (S m)) in Hstep by lia.
    destruct (IH (logEvent (TimerWait (timingTics (Z.of_nat (S m)))) r1) ltac:(lia))
      as (r' & Hrun & Hlog' & Hst').
    exists r'. split; [|split].
    + eapply Run_instr; [reflexivity | exact Hstep |].
      cbn [app]. apply Run_yield. exact Hrun.
    + rewrite Hlog'. unfold logEvent, set_busLog. cbn [busLog]. rewrite Hlog.
      change (timingTrace (S (S m))) with (timingPass v ++ timingTrace (S m)).
      unfold timingPass. rewrite Hgt.
      replace (v - 1) with (Z.of_nat (S m)) by lia.
      now rewrite <- !app_assoc.
    + rewrite Hst'. exact Hst.
Qed.

(** X6: [doTestTimings repeats] puts [max 1 repeats] low pulses on the
    line, whatever the line reads back: the holdoff of each is chosen by
    the count still to go modulo 5, and the last pulse of a count above 1
    repeats the choice for 1.  One interrupt later the line is released
    and the status reads 0. *)
Theorem testTimings_session (bus : list BusEvent -> bool) (repeats : Z) (s : machine) :
  wf s ->
  0 <= repeats < 65536 ->
  exists s0,
    doTestTimings repeats s = Next tt s0 /\
    getStatus s0 = StillBusy /\
    forall fuel, (23 <= fuel)%nat ->
      exists s', runISR bus fuel (S (Nat.max 1 (Z.to_nat repeats))) s0 = Some s' /\
                 topOfStack s' = 0 /\
                 getStatus s' = 0 /\
                 busLog (regs s') = busLog (regs s) ++ testTimingsTrace repeats.
Proof.
  intros Hwf Hrep.
  destruct (session_from_list _ _ s _ (sim_doTestTimings repeats) Hwf
              (L_doTestTimings _ _ _)) as (s0 & Hs0 & Hv0).
  exists s0. split; [exact Hs0|].
  destruct (view_fields _ _ _ Hv0) as [_ Hr0].
  split; [unfold getStatus; simpl; now rewrite Hr0|].
  intros fuel Hfuel.
  set (r0 := set_status StillBusy (regs s)) in *.
  assert (Hu : uint16 repeats = repeats) by (unfold uint16; apply Z.mod_small; lia).
  rewrite Hu in Hv0.
  assert (Hpulses : exists r1,
             Run bus [ITestTimings (Z.land repeats 0xFF) (byte (Z.shiftr repeats 8))]
                 r0 (Nat.max 1 (Z.to_nat repeats)) r1 /\
             busLog r1 ++ [ReleaseBus; DelayUs 10; TimerWait 255]
             = busLog (regs s) ++ testTimingsTrace repeats /\
             status r1 = StillBusy).
  { destruct (Z.eqb_spec repeats 0) as [->|Hne].
    - destruct (istep_testTimings bus (Z.land 0 0xFF) (byte (Z.shiftr 0 8)) r0)
        as (r1 & Hstep & Hlog & Hst).
      exists (logEvent (TimerWait Micros480) r1). split; [|split].
      + eapply Run_instr; [reflexivity | exact Hstep |]. apply Run_yield, Run_nil.
      + unfold logEvent, set_busLog. cbn [busLog]. rewrite Hlog.
        unfold testTimingsTrace. simpl. now rewrite <- !app_assoc.
      + exact Hst.
    - assert (Hn : exists m, Z.to_nat repeats = S m).
      { exists (Z.to_nat repeats - 1)%nat. lia. }
      destruct Hn as [m Hm].
      destruct (Run_testTimings bus m r0 ltac:(lia)) as (r1 & Hrun & Hlog & Hst).
      replace (Z.of_nat (S m)) with repeats in Hrun by lia.
      exists r1. rewrite Hm. split; [|split].
      + replace (Nat.max 1 (S m)) with (S m) by lia. exact Hrun.
      + rewrite Hlog. unfold testTimingsTrace.
        replace (repeats =? 0) with false by (symmetry; now apply Z.eqb_neq).
        rewrite Hm. now rewrite <- !app_assoc.
      + exact Hst. }
  destruct Hpulses as (r1 & Hrun1 & Hlog1 & Hst1).
  assert (Htail : Run bus [IBusRelease; IClearBusyStatus] r1 0
                      (set_status (byte (Z.land (status r1) (Z.lnot StillBusy)))
                         (logEvent (DelayUs 10) (logEvent ReleaseBus r1)))).
  { eapply Run_instr; [reflexivity | reflexivity |]. cbn [app].
    eapply Run_instr; [reflexivity | reflexivity |]. apply Run_nil. }
  pose proof (Run_app _ _ _ _ _ Hrun1 _ _ _ Htail) as Hrun.
  rewrite Nat.add_0_r in Hrun.
  destruct (Run_machine bus _ _ _ _ s0 fuel Hv0 Hrun ltac:(fits) Hfuel)
    as (s' & Hs' & Htop & Hr').
  exists s'. unfold getStatus. simpl getRegs. rewrite Hr'.
  split; [exact Hs'|]. split; [exact Htop|]. split.
  - cbn [status set_status logEvent set_busLog]. rewrite Hst1. reflexivity.
  - rewrite <- Hlog1. regs_simpl. now rewrite <- !app_assoc.
Qed.

Lemma testTimings_session_witness :
  wf powerOn /\ 0 <= 7 < 65536 /\
  exists s0,
    doTestTimings 7 powerOn = Next tt s0 /\
    getStatus s0 = StillBusy /\
    forall fuel, (23 <= fuel)%nat ->
      exists s', runISR presentBus fuel 8 s0 = Some s' /\
                 topOfStack s' = 0 /\
                 getStatus s' = 0 /\
                 busLog (regs s') = busLog (regs powerOn) ++ testTimingsTrace 7.
Proof.
  assert (Hwf : wf powerOn) by (split; [reflexivity | simpl; unfold stackSize; lia]).
  split; [exact Hwf|]. split; [lia|].
  apply (testTimings_session presentBus 7 powerOn Hwf ltac:(lia)).
Defined.

(** ** Reading a scratchpad that is not there *)

Lemma bitOf_ones j : (j < 72)%nat -> bitOf (replicate 9 255) j = true.
Proof.
  intros Hj. unfold bitOf.
  assert (Hq : (j / 8 < 9)%nat) by (apply Nat.Div0.div_lt_upper_bound; lia).
  assert (Hr : (j mod 8 < 8)%nat) by (apply Nat.mod_upper_bound; lia).
  replace (nth (j / 8) (replicate 9 255) 0) with 255.
  - change 255 with (Z.ones 8). rewrite Z.testbit_ones_nonneg by lia.
    apply Z.ltb_lt. lia.
  - symmetry. apply nth_lookup_Some with (d := 0).
    now apply lookup_replicate_2.
Qed.

Lemma Run_readNothing bus addr pad r :
  length addr = 8%nat -> length pad = 9%nat ->
  (forall l, bus l = true) ->
  exists r',
    Run bus [IReadScratchPad; IClearBusyStatus]
        (set_status StillBusy (set_sPad pad (set_deviceAddr addr r))) 158 r' /\
    sPad r' = replicate 9 255 /\ status r' = NoDeviceOnBus /\ ledAlert r' = true /\
    countSamples (busLog r') = (countSamples (busLog r) + 74)%nat.
Proof.
  intros Haddr Hpad Hbus.
  set (scratch := replicate 9 255).
  set (base := countSamples (busLog r)).
  set (r0 := set_status StillBusy (set_sPad pad (set_deviceAddr addr r))).
  set (ra := set_receiveRegister 0 r0).
  set (rb := set_ledAlert true
               (set_status (Z.lor (status ra) NoDeviceOnBus)
                  (appendLog (resetTrace true) ra))).
  set (rc := set_idByteIndex 8
               (appendLog (sendByteTrace SELECTDEVICE ++ concat (map sendByteTrace addr)) rb)).
  set (rd := appendLog (sendBitsTrace 8 READSCRATCH) rc).
  assert (Hscr : length scratch = 9%nat) by reflexivity.
  assert (Hbytes : Forall (fun v => 0 <= v < 256) scratch)
    by (repeat constructor; lia).
  assert (Hreset1 : Run bus [IReset] ra 3 rb) by (apply (Run_reset bus ra true), Hbus).
  assert (Hid : Run bus [IStartIDSend] rb 72 rc)
    by (apply Run_startID; [reflexivity | exact Haddr]).
  assert (Hcmd : Run bus [ISendRemainingBits 8 READSCRATCH] rc 8 rd)
    by (apply (Run_sendBits bus 8 READSCRATCH rc); lia).
  assert (Hcountd : countSamples (busLog rd) = (base + 1 + 0)%nat).
  { assert (Hlogd : busLog rd = busLog r ++ resetTrace true
                      ++ sendByteTrace SELECTDEVICE ++ concat (map sendByteTrace addr)
                      ++ sendByteTrace READSCRATCH).
    { subst rd rc rb ra r0. unfold appendLog, set_busLog, sendByteTrace. simpl busLog.
      rewrite <- !app_assoc. reflexivity. }
    rewrite Hlogd, !countSamples_app, countSamples_sendBytes.
    unfold sendByteTrace. rewrite !countSamples_sendBits. subst base. simpl. lia. }
  assert (Hbits : forall l, (base + 1 <= countSamples l < base + 1 + 72)%nat ->
                            bus l = bitOf scratch (countSamples l - (base + 1))).
  { intros l Hl. rewrite Hbus. symmetry. apply bitOf_ones. lia. }
  assert (Hrrd : receiveRegister rd
                 = nth (0 / 8) scratch 0 mod 2 ^ Z.of_nat (0 mod 8)) by reflexivity.
  assert (Hpadd : sPad rd = take (0 / 8) scratch ++ drop (0 / 8) pad) by reflexivity.
  destruct (Run_readBits bus scratch pad (base + 1) Hscr Hbytes Hpad Hbits
              72 0 rd eq_refl ltac:(lia) Hcountd Hrrd Hpadd)
    as (re & Hread & Hpade & Hrre & Hste & Hloge).
  set (rf := set_ledAlert true
               (set_status (Z.lor (status re) NoDeviceOnBus)
                  (appendLog (resetTrace true) re))).
  assert (Hreset2 : Run bus [IReset] re 3 rf) by (apply (Run_reset bus re true), Hbus).
  pose proof (Run_clearBusy bus rf) as Hclear.
  set (rg := set_status (byte (Z.land (status rf) (Z.lnot StillBusy))) rf) in *.
  exists rg. repeat split.
  - eapply Run_instr; [reflexivity | reflexivity |].
    change 158%nat with (3 + (72 + (8 + (72 + (3 + 0)))))%nat.
    change ([IReset; IStartIDSend; ISendRemainingBits 8 READSCRATCH;
             IReadRemainingBits 0; IReset] ++ [IClearBusyStatus])
      with ([IReset] ++ [IStartIDSend] ++ [ISendRemainingBits 8 READSCRATCH]
              ++ [IReadRemainingBits (Z.of_nat 0)] ++ [IReset] ++ [IClearBusyStatus]).
    eapply Run_app; [exact Hreset1|].
    eapply Run_app; [exact Hid|].
    eapply Run_app; [exact Hcmd|].
    eapply Run_app; [exact Hread|].
    eapply Run_app; [exact Hreset2|].
    exact Hclear.
  - exact Hpade.
  - change (status rg) with (byte (Z.land (Z.lor (status re) NoDeviceOnBus)
                                          (Z.lnot StillBusy))).
    rewrite Hste. reflexivity.
  - change (busLog rg) with (busLog re ++ resetTrace true).
    rewrite countSamples_app, Hloge, countSamples_app, Hcountd, countSamples_readBits,
      length_map, length_seq. subst base. simpl. lia.
Qed.

(** X7: [readScratchpadAsync] on a line where nothing ever pulls low, with
    an 8-byte address and a 9-byte buffer: the session is not cut short.
    It takes its 159 interrupts and 74 samples, fills the buffer with nine
    bytes 0xFF, and ends with status [NoDeviceOnBus] and the alert LED
    on. *)
Theorem readScratchpad_without_device (bus : list BusEvent -> bool)
        (addr pad : list Z) (s : machine) :
  wf s ->
  length addr = 8%nat -> length pad = 9%nat ->
  (forall l, bus l = true) ->
  exists s0,
    readScratchpadAsync addr pad s = Next tt s0 /\
    forall fuel, (23 <= fuel)%nat ->
      exists s', runISR bus fuel 159 s0 = Some s' /\
                 topOfStack s' = 0 /\
                 sPad (regs s') = replicate 9 255 /\
                 getStatus s' = NoDeviceOnBus /\
                 ledAlert (regs s') = true /\
                 countSamples (busLog (regs s'))
                 = (countSamples (busLog (regs s)) + 74)%nat.
Proof.
  intros Hwf Haddr Hpad Hbus.
  destruct (session_from_list _ _ s _ (sim_readScratchpadAsync addr pad) Hwf
              (L_readScratchpadAsync _ _ _ _)) as (s0 & Hs0 & Hv0).
  exists s0. split; [exact Hs0|]. intros fuel Hfuel.
  destruct (Run_readNothing bus addr pad (regs s) Haddr Hpad Hbus)
    as (r' & Hrun & Hp & Hst & Hled & Hcount).
  destruct (Run_machine bus _ _ _ _ s0 fuel Hv0 Hrun ltac:(fits) Hfuel)
    as (s' & Hs' & Htop & Hr').
  exists s'. unfold getStatus. simpl getRegs. rewrite Hr'.
  repeat split; auto.
  unfold logEvent, set_busLog. cbn [busLog]. rewrite countSamples_app, Hcount.
  simpl. lia.
Qed.

Lemma readScratchpad_without_device_witness :
  wf powerOn /\ length sampleAddress = 8%nat /\ length emptyPad = 9%nat /\
  (forall l, idleBus l = true) /\
  exists s0,
    readScratchpadAsync sampleAddress emptyPad powerOn = Next tt s0 /\
    forall fuel, (23 <= fuel)%nat ->
      exists s', runISR idleBus fuel 159 s0 = Some s' /\
                 topOfStack s' = 0 /\
                 sPad (regs s') = replicate 9 255 /\
                 getStatus s' = NoDeviceOnBus /\
                 ledAlert (regs s') = true /\
                 countSamples (busLog (regs s'))
                 = (countSamples (busLog (regs powerOn)) + 74)%nat.
Proof.
  assert (Hwf : wf powerOn) by (split; [reflexivity | simpl; unfold stackSize; lia]).
  split; [exact Hwf|]. split; [reflexivity|]. split; [reflexivity|].
  split; [reflexivity|].
  apply (readScratchpad_without_device idleBus sampleAddress emptyPad powerOn Hwf
           eq_refl eq_refl (fun l => eq_refl)).
Defined.

(** * Busy until the stack is empty *)

Lemma istep_not_last bus i r q r' :
  istep bus i r = Some (q, r') -> isLast i = false ->
  Forall (fun j => isLast j = false) q.
Proof.
  intros Hstep Hi. destruct i; try discriminate Hi;
    cbn [istep] in Hstep; cbv zeta in Hstep;
    split_bus bus Hstep; split_ifs Hstep; split_opts Hstep;
    try discriminate Hstep; injection Hstep as <- <-;
    repeat first [ apply List.Forall_nil | apply List.Forall_cons; [reflexivity|] ].
Qed.

Lemma istep_busy_bits bus i r q r' :
  istep bus i r = Some (q, r') -> isLast i = false ->
  Z.testbit (status r') 0 = Z.testbit (status r) 0 /\
  Z.testbit (status r') 2 = Z.testbit (status r) 2.
Proof.
  intros Hstep Hi. destruct i; try discriminate Hi;
    cbn [istep] in Hstep; cbv zeta in Hstep;
    split_bus bus Hstep; split_ifs Hstep; split_opts Hstep;
    try discriminate Hstep; injection Hstep as <- <-; try (split; reflexivity).
  cbn [status set_status set_ledAlert]. rewrite !Z.lor_spec.
  change (Z.testbit NoDeviceOnBus 0) with false.
  change (Z.testbit NoDeviceOnBus 2) with false.
  now rewrite !orb_false_r.
Qed.

Lemma busyBit_cases last :
  isLast last = true -> busyBit last = 0 \/ busyBit last = 2.
Proof. destruct last; try discriminate; simpl; auto. Qed.

Lemma pending_doTimeslice bus n : forall p last r,
  isLast last = true ->
  peakP (p ++ [last]) <= stackSize ->
  Forall (okI r) p ->
  Forall (fun i => isLast i = false) p ->
  0 <= idByteIndex r ->
  Z.testbit (status r) (busyBit last) = true ->
  (passes (p ++ [last]) <= n)%nat ->
  exists t a',
    doTimeslice bus n (mkL (encode (p ++ [last])) r) = Some (t, a') /\
    (pending a' \/ lstack a' = []).
Proof.
  induction n as [|n IH]; intros p last r Hlast Hfit Hok Hnl Hidx Hbusy Hn.
  - destruct p as [|[] p]; destruct last; simpl in Hn; lia.
  - destruct p as [|i p].
    + (* the last instruction itself *)
      cbn [app] in *.
      destruct last; try discriminate Hlast.
      * (* WaitForBusRelease *)
        destruct (bus (busLog r ++ [ReleaseBus])) eqn:Hb.
        -- destruct n as [|n]; [simpl in Hn; lia|].
           exists 255. eexists. split.
           ++ cbn [doTimeslice].
              rewrite (body_instr bus IWaitForBusRelease [] r [] _ ltac:(fits)
                         ltac:(cbn [istep]; cbv zeta;
                               change (busLog (logEvent ReleaseBus r))
                                 with (busLog r ++ [ReleaseBus]);
                               rewrite Hb; reflexivity)).
              reflexivity.
           ++ right. reflexivity.
        -- destruct n as [|n]; [simpl in Hn; lia|].
           exists 255. eexists. split.
           ++ cbn [doTimeslice].
              rewrite (body_instr bus IWaitForBusRelease [] r
                         [IYield 255; IWaitForBusRelease] _ ltac:(fits)
                         ltac:(cbn [istep]; cbv zeta;
                               change (busLog (logEvent ReleaseBus r))
                                 with (busLog r ++ [ReleaseBus]);
                               rewrite Hb; reflexivity)).
              cbn [app].
              rewrite (body_instr bus (IYield 255) [IWaitForBusRelease] _ [] _
                         ltac:(fits) eq_refl).
              reflexivity.
           ++ left. exists [], IWaitForBusRelease. cbn [app lstack lregs].
              repeat split; auto; try fits.
      * (* ClearBusyStatus *)
        destruct n as [|n]; [simpl in Hn; lia|].
        exists 255. eexists. split.
        -- cbn [doTimeslice].
           rewrite (body_instr bus IClearBusyStatus [] r [] _ ltac:(fits) eq_refl).
           reflexivity.
        -- right. reflexivity.
    + cbn [app] in *.
      assert (Hfit1 : peak i + size (p ++ [last]) <= stackSize)
        by (cbn [peakP] in Hfit; lia).
      assert (Hfitp : peakP (p ++ [last]) <= stackSize)
        by (cbn [peakP] in Hfit; lia).
      inversion Hok as [|? ? Hi Hp]; subst.
      inversion Hnl as [|? ? Hni Hnp]; subst.
      destruct (istep_total bus i r Hi Hidx) as (q & r' & Hstep).
      pose proof (body_instr bus i _ r q r' Hfit1 Hstep) as Hbody.
      pose proof (istep_frame _ _ _ _ _ Hstep) as (Hlp & Hda & Hix).
      pose proof (passes_step bus i (p ++ [last]) r q r' Hstep) as Hdec.
      pose proof (istep_busy_bits _ _ _ _ _ Hstep Hni) as [Hb0 Hb2].
      pose proof (istep_not_last _ _ _ _ _ Hstep Hni) as Hqnl.
      assert (Hbusy' : Z.testbit (status r') (busyBit last) = true).
      { destruct (busyBit_cases last Hlast) as [Hk | Hk]; rewrite Hk in *;
          [rewrite Hb0 | rewrite Hb2]; exact Hbusy. }
      cbn [doTimeslice]. rewrite Hbody.
      destruct i; try discriminate Hni;
        try (rewrite app_assoc; apply IH;
             [ exact Hlast
             | rewrite <- app_assoc; eapply istep_fits; eassumption
             | apply Forall_app; split;
               [ eapply istep_ok; eassumption
               | eapply okI_all_ext; [exact Hlp | now rewrite Hda | exact Hp] ]
             | apply Forall_app; split; assumption
             | auto
             | exact Hbusy'
             | rewrite <- app_assoc; cbv beta iota in Hdec; lia ]).
      exists tics. eexists. split; [reflexivity|].
      left. exists p, last. simpl. auto 10.
Qed.

Lemma pending_step bus s fuel t s' :
  wf s ->
  pending (toList s) \/ stackOf s = [] ->
  doTimeslice bus fuel s = Some (t, s') ->
  wf s' /\ (pending (toList s') \/ stackOf s' = []).
Proof.
  intros Hwf Hs Hrun.
  pose proof (sim_doTimeslice bus fuel s _ (view_toList s Hwf)) as Hsim.
  rewrite Hrun in Hsim.
  destruct (doTimeslice bus fuel (toList s)) as [[u a1]|] eqn:Ha1; [|contradiction].
  destruct Hsim as [-> Hv]. split; [apply Hv|].
  destruct Hs as [(p & last & Hst & Hlast & Hfit & Hok & Hnl & Hidx & Hbusy) | Hst].
  - simpl in *.
    destruct (pending_doTimeslice bus _ p last (regs s) Hlast Hfit Hok Hnl Hidx Hbusy
                (le_n _)) as (t & a' & Hrun' & Ha').
    assert (Heq : Some (u, a1) = Some (t, a')).
    { rewrite <- (doTimeslice_fuel_mono bus fuel
                    (Nat.max fuel (passes (p ++ [last]))) _ _ Ha1) by lia.
      unfold toList. rewrite Hst.
      rewrite <- (doTimeslice_fuel_mono bus (passes (p ++ [last]))
                    (Nat.max fuel (passes (p ++ [last]))) _ _ Hrun') by lia.
      reflexivity. }
    injection Heq as -> ->.
    rewrite <- (view_inv_eq _ _ Hv).
    destruct Ha' as [Hp | He]; [left; exact Hp | right].
    destruct Hv as (_ & Hst' & _). congruence.
  - right. destruct fuel as [|fuel]; [discriminate Hrun|].
    assert (Htop : topOfStack s = 0).
    { pose proof (stackOf_length s Hwf) as Hl. rewrite Hst in Hl. simpl in Hl. lia. }
    rewrite (idle_pass bus fuel s Htop) in Hrun. injection Hrun as _ <-. exact Hst.
Qed.

Lemma pending_opens (m : M machine unit) (m2 : M lmachine unit) s p last r :
  simM m m2 -> wf s ->
  m2 (toList s) = Next tt (mkL (encode (p ++ [last])) r) ->
  isLast last = true ->
  peakP (p ++ [last]) <= stackSize ->
  Forall (okI r) p -> Forall (fun i => isLast i = false) p ->
  0 <= idByteIndex r -> Z.testbit (status r) (busyBit last) = true ->
  wf (stateOf (m s)) /\ pending (toList (stateOf (m s))).
Proof.
  intros Hsim Hwf Hm2 Hlast Hfit Hok Hnl Hidx Hbusy.
  destruct (session_from_list m m2 s _ Hsim Hwf Hm2) as (s' & Hs & Hv).
  rewrite Hs. simpl. split; [apply Hv|].
  rewrite <- (view_inv_eq _ _ Hv). exists p, last. simpl. auto 10.
Qed.

Lemma reachable_pending bus s :
  reachable bus s -> wf s /\ (pending (toList s) \/ stackOf s = []).
Proof.
  intros Hreach.
  pose proof (reachable_inv bus s Hreach) as [Hwf0 _].
  split; [exact Hwf0|]. clear Hwf0.
  induction Hreach as [ | s Hr IH | s Hr IH | s addr pad Hr IH Ha Hp
                      | s Hr IH | s repeats Hr IH
                      | s fuel tics s' Hr IH Hrun | s fuel s' Hr IH Hrun ];
    try (pose proof (reachable_inv bus s Hr) as [Hwf (p0 & _ & _ & _ & Hidx)]).
  - right. reflexivity.
  - right. reflexivity.
  - left. apply (pending_opens _ _ s [IReset] IClearBusyStatus _ sim_resetAsync Hwf
                   (L_resetAsync _ _));
      auto; try (cbn [app]; fits); repeat constructor.
  - left. apply (pending_opens _ _ s [IReadScratchPad] IClearBusyStatus _
                   (sim_readScratchpadAsync addr pad) Hwf
                   (L_readScratchpadAsync _ _ _ _));
      auto; try (cbn [app]; fits); repeat constructor; auto.
  - left. apply (pending_opens _ _ s
                   [IReset; ISendRemainingBits 8 SKIPROMWILDCARD;
                    ISendRemainingBits 8 STARTCONVO] IWaitForBusRelease _
                   sim_convertAllTemperaturesAsync Hwf
                   (L_convertAllTemperaturesAsync _ _));
      auto; try (cbn [app]; fits); repeat constructor.
  - left. apply (pending_opens _ _ s [ITestTimings _ _; IBusRelease] IClearBusyStatus _
                   (sim_doTestTimings repeats) Hwf (L_doTestTimings _ _ _));
      auto; try (cbn [app]; fits); repeat constructor.
  - eapply pending_step; eassumption.
  - unfold ISR in Hrun.
    destruct (doTimeslice bus fuel s) as [[u s1]|] eqn:Hs1; [|discriminate].
    injection Hrun as <-.
    destruct (pending_step bus s fuel u s1 Hwf IH Hs1) as [Hwf1 H1].
    destruct H1 as [(p & last & Hst & Hlast & Hfit & Hok & Hnl & Hidx1 & Hbusy) | He].
    + left. exists p, last. simpl in *.
      repeat split; auto;
        try (eapply okI_all_ext; [| |exact Hok]; reflexivity).
    + right. exact He.
Qed.

Lemma not_busy_is_idle bus s :
  reachable bus s ->
  Z.land (status (regs s)) (Z.lor StillBusy DevicesAreBusy) = 0 ->
  topOfStack s = 0.
Proof.
  intros Hreach Hst.
  destruct (reachable_pending bus s Hreach) as [Hwf [Hp | He]].
  - exfalso. destruct Hp as (p & last & _ & Hlast & _ & _ & _ & _ & Hbusy).
    simpl in Hbusy.
    assert (Hbit : forall k, Z.testbit (Z.land (status (regs s))
                                          (Z.lor StillBusy DevicesAreBusy)) k = false)
      by (intros k; rewrite Hst; apply Z.bits_0).
    destruct (busyBit_cases last Hlast) as [Hk | Hk]; rewrite Hk in Hbusy.
    + specialize (Hbit 0). rewrite Z.land_spec, Hbusy in Hbit. discriminate Hbit.
    + specialize (Hbit 2). rewrite Z.land_spec, Hbusy in Hbit. discriminate Hbit.
  - pose proof (stackOf_length s Hwf) as Hl. rewrite He in Hl. simpl in Hl. lia.
Qed.

(** X8: in every state the program reaches, a status without [StillBusy]
    and without [DevicesAreBusy] means the stack is empty: the session is
    over, and a timeslice leaves that state as it is (the scratchpad buffer
    is no longer written). *)
Theorem idle_when_not_busy (bus : list BusEvent -> bool) (s : machine) (fuel : nat) :
  reachable bus s ->
  Z.land (getStatus s) (Z.lor StillBusy DevicesAreBusy) = 0 ->
  topOfStack s = 0 /\ doTimeslice bus (S fuel) s = Some (255, s).
Proof.
  intros Hreach Hst.
  assert (Htop : topOfStack s = 0) by (apply (not_busy_is_idle bus s Hreach), Hst).
  split; [exact Htop | now apply idle_pass].
Qed.

Lemma idle_when_not_busy_witness :
  reachable presentBus
            (Nat.iter 4 (oneInterrupt presentBus) (stateOf (resetAsync powerOn))) /\
  countSamples
    (busLog (regs (Nat.iter 4 (oneInterrupt presentBus) (stateOf (resetAsync powerOn)))))
  = 1%nat /\
  Z.land (getStatus (Nat.iter 4 (oneInterrupt presentBus) (stateOf (resetAsync powerOn))))
         (Z.lor StillBusy DevicesAreBusy) = 0 /\
  topOfStack (Nat.iter 4 (oneInterrupt presentBus) (stateOf (resetAsync powerOn))) = 0 /\
  doTimeslice presentBus 1
              (Nat.iter 4 (oneInterrupt presentBus) (stateOf (resetAsync powerOn)))
  = Some (255, Nat.iter 4 (oneInterrupt presentBus) (stateOf (resetAsync powerOn))).
Proof.
  assert (Hreach : reachable presentBus
                     (Nat.iter 4 (oneInterrupt presentBus) (stateOf (resetAsync powerOn))))
    by (apply reachable_interrupts, reach_reset, reach_powerOn).
  assert (Hst : Z.land (getStatus (Nat.iter 4 (oneInterrupt presentBus)
                                            (stateOf (resetAsync powerOn))))
                       (Z.lor StillBusy DevicesAreBusy) = 0)
    by (vm_compute; reflexivity).
  split; [exact Hreach|]. split; [vm_compute; reflexivity|]. split; [exact Hst|].
  exact (idle_when_not_busy presentBus _ 0 Hreach Hst).
Defined.

(** * The stack as an array: round trip, diagnostics, stray bytes *)

Lemma push_exact b s :
  wf s -> topOfStack s < stackSize ->
  exists s',
    ArrayStack.push b s = Next tt s' /\
    theCode s' = <[Z.to_nat (topOfStack s) := b]> (theCode s) /\
    topOfStack s' = topOfStack s + 1 /\
    stackHighTide s' = Z.max (stackHighTide s) (topOfStack s + 1) /\
    regs s' = regs s.
Proof.
  intros [Hl Ht] Hlt. unfold ArrayStack.push.
  replace (stackSize <=? topOfStack s) with false by (symmetry; apply Z.leb_gt; lia).
  unfold writeAt, inBounds.
  replace (0 <=? topOfStack s) with true by (symmetry; apply Z.leb_le; lia).
  replace (topOfStack s <? Z.of_nat (length (theCode s))) with true
    by (symmetry; apply Z.ltb_lt; rewrite Hl; unfold stackSize in *; lia).
  simpl.
  assert (Hb : byte (topOfStack s + 1) = topOfStack s + 1).
  { unfold byte. apply Z.mod_small. unfold stackSize in *. lia. }
  rewrite Hb.
  set (s1 := mkMachine (<[Z.to_nat (topOfStack s):=b]> (theCode s)) (topOfStack s + 1)
                        (stackHighTide s) (stackSnapshot s) (regs s)).
  change (set_topOfStack (topOfStack s + 1)
            (set_theCode (<[Z.to_nat (topOfStack s):=b]> (theCode s)) s)) with s1.
  change (stackHighTide s1 <=? topOfStack s1) with (stackHighTide s <=? topOfStack s + 1).
  assert (Hwf1 : wf (set_stackHighTide (topOfStack s1) s1)).
  { unfold wf, s1. simpl. rewrite length_insert. unfold stackSize in *. lia. }
  destruct (Z.leb_spec (stackHighTide s) (topOfStack s + 1)).
  - rewrite snapshot_ok by exact Hwf1.
    eexists. split; [reflexivity|]. simpl. repeat split; auto. lia.
  - exists s1. simpl. repeat split; auto. lia.
Qed.

(** X9: on a stack that is not full, [push] stores the byte at the top
    index and [pop] gives it back: the top index, the live part of the
    stack and the registers are as before, the byte is still in the array
    above the top, and the high tide is at least the depth reached. *)
Theorem push_then_pop (b : Z) (s : machine) :
  wf s ->
  topOfStack s < stackSize ->
  exists s1 s2,
    ArrayStack.push b s = Next tt s1 /\
    ArrayStack.pop s1 = Next b s2 /\
    topOfStack s2 = topOfStack s /\
    stackOf s2 = stackOf s /\
    regs s2 = regs s /\
    theCode s2 !! Z.to_nat (topOfStack s) = Some b /\
    stackHighTide s2 = Z.max (stackHighTide s) (topOfStack s + 1).
Proof.
  intros Hwf Hlt.
  destruct (push_exact b s Hwf Hlt) as (s1 & Hpush & Hcode & Htop & Htide & Hregs).
  destruct (push_spec b s Hwf) as (s1' & Hpush' & Hwf1 & Hst1 & _).
  rewrite Hpush in Hpush'. injection Hpush' as <-.
  replace (stackSize <=? topOfStack s) with false in Hst1
    by (symmetry; apply Z.leb_gt; lia).
  destruct (pop_spec s1 b (stackOf s) Hwf1 Hst1) as (Hpop & _ & Hst2).
  exists s1, (set_topOfStack (topOfStack s1 - 1) s1).
  split; [exact Hpush|]. split; [exact Hpop|]. simpl.
  repeat split; auto; try lia.
  rewrite Hcode. apply list_lookup_insert_eq.
  destruct Hwf as [Hl Ht]. rewrite Hl. unfold stackSize in *. lia.
Qed.

Lemma push_then_pop_witness :
  wf powerOn /\ topOfStack powerOn < stackSize /\
  exists s1 s2,
    ArrayStack.push Reset powerOn = Next tt s1 /\
    ArrayStack.pop s1 = Next Reset s2 /\
    topOfStack s2 = topOfStack powerOn /\
    stackOf s2 = stackOf powerOn /\
    regs s2 = regs powerOn /\
    theCode s2 !! Z.to_nat (topOfStack powerOn) = Some Reset /\
    stackHighTide s2 = Z.max (stackHighTide powerOn) (topOfStack powerOn + 1).
Proof.
  assert (Hwf : wf powerOn) by (split; [reflexivity | simpl; unfold stackSize; lia]).
  assert (Hlt : topOfStack powerOn < stackSize) by (simpl; unfold stackSize; lia).
  split; [exact Hwf|]. split; [exact Hlt|].
  apply (push_then_pop Reset powerOn Hwf Hlt).
Defined.

(** ** Bytes that are no opcode *)

Lemma L_unknown_opcode bus v rest r :
  ~ (1 <= v <= 13) ->
  doTimesliceBody bus (mkL (v :: rest) r) = Next tt (mkL rest r).
Proof.
  intros Hv. unfold doTimesliceBody.
  change (stackEmpty (mkL (v :: rest) r)) with false. cbv iota.
  unfold mbind, M_bind. rewrite bindL_pop.
  unfold BusLow, BusRelease, SendRemainingBits, ClearBusyStatus, ReadScratchPad,
    ReadRemainingBits, StartIDSend, SendRemainingIDBytes, Reset, Yield, BusSample,
    WaitForBusRelease, TestTimings.
  repeat match goal with
         | |- context [v =? ?k] =>
             replace (v =? k) with false by (symmetry; apply Z.eqb_neq; lia)
         end.
  reflexivity.
Qed.

(** X10: the [switch] of [doTimeslice] has no default case: a byte on top
    of the stack that is none of the opcodes 1..13 is popped and nothing
    else happens; the loop goes on with what lies beneath it. *)
Theorem unknown_opcode_is_skipped (bus : list BusEvent -> bool) (s : machine)
        (v : Z) (rest : list Z) :
  wf s ->
  stackOf s = v :: rest ->
  ~ (1 <= v <= 13) ->
  exists s',
    doTimesliceBody bus s = Next tt s' /\
    stackOf s' = rest /\
    topOfStack s' = topOfStack s - 1 /\
    regs s' = regs s /\
    forall fuel, doTimeslice bus (S fuel) s = doTimeslice bus fuel s'.
Proof.
  intros Hwf Hst Hv.
  assert (Hview : view s (mkL (v :: rest) (regs s))) by (repeat split; auto; apply Hwf).
  pose proof (sim_doTimesliceBody bus s _ Hview) as Hsim.
  rewrite (L_unknown_opcode bus v rest (regs s) Hv) in Hsim.
  destruct (doTimesliceBody bus s) as [[] s'| |] eqn:Hbody; try contradiction.
  destruct Hsim as [_ Hv'].
  destruct (view_fields _ _ _ Hv') as [Hst' Hr'].
  exists s'. repeat split; auto.
  - pose proof (stackOf_length s Hwf) as Hl. rewrite Hst in Hl.
    destruct Hv' as (Hwf' & _).
    pose proof (stackOf_length s' Hwf') as Hl'. rewrite Hst' in Hl'.
    simpl in Hl. lia.
  - intros fuel. cbn [doTimeslice]. now rewrite Hbody.
Qed.

Lemma unknown_opcode_is_skipped_witness :
  wf (stateOf (ArrayStack.push 0 powerOn)) /\
  stackOf (stateOf (ArrayStack.push 0 powerOn)) = [0] /\
  ~ (1 <= 0 <= 13) /\
  exists s',
    doTimesliceBody idleBus (stateOf (ArrayStack.push 0 powerOn)) = Next tt s' /\
    stackOf s' = [] /\
    topOfStack s' = topOfStack (stateOf (ArrayStack.push 0 powerOn)) - 1 /\
    regs s' = regs (stateOf (ArrayStack.push 0 powerOn)) /\
    forall fuel, doTimeslice idleBus (S fuel) (stateOf (ArrayStack.push 0 powerOn))
                 = doTimeslice idleBus fuel s'.
Proof.
  assert (Hwf : wf (stateOf (ArrayStack.push 0 powerOn)))
    by (split; [reflexivity | split; vm_compute; discriminate]).
  assert (Hne : ~ (1 <= 0 <= 13)) by lia.
  split; [exact Hwf|]. split; [reflexivity|]. split; [exact Hne|].
  apply (unknown_opcode_is_skipped idleBus _ 0 [] Hwf eq_refl Hne).
Defined.

(** ** The high tide *)

Lemma keepsTide_ret {A} (x : A) : keepsTide (ret x).
Proof. intros s Hs. simpl. split; [exact Hs | lia]. Qed.

Lemma keepsTide_exit {A} t : keepsTide (@exit machine A t).
Proof. intros s Hs. simpl. split; [exact Hs | lia]. Qed.

Lemma keepsTide_bind {A B} (m : M machine A) (k : A -> M machine B) :
  keepsTide m -> (forall x, keepsTide (k x)) -> keepsTide (bind m k).
Proof.
  intros Hm Hk s Hs. unfold bind. specialize (Hm s Hs).
  destruct (m s) as [x s1|t s1|s1]; auto.
  destruct Hm as [Hs1 Hle]. specialize (Hk x s1 Hs1).
  destruct (k x s1); auto; destruct Hk as [Hs2 Hle2]; split; auto; lia.
Qed.

Lemma keepsTide_when c (m : M machine unit) : keepsTide m -> keepsTide (when c m).
Proof. destruct c; simpl; auto. intros _. apply keepsTide_ret. Qed.

Lemma keepsTide_if {A} (c : bool) (m n : M machine A) :
  keepsTide m -> keepsTide n -> keepsTide (if c then m else n).
Proof. destruct c; auto. Qed.

Lemma keepsTide_regs {A} (f : machine -> A) (g : machine -> Regs) :
  keepsTide (fun s => Next (f s) (set_regs (g s) s)).
Proof. intros s Hs. split; [exact Hs | simpl; lia]. Qed.

Lemma keepsTide_onRegs f : keepsTide (onRegs f).
Proof. apply (keepsTide_regs (fun _ => tt) (fun s => f (regs s))). Qed.

Lemma keepsTide_readRegs {A} (f : Regs -> A) : keepsTide (readRegs f).
Proof. intros s Hs. split; [exact Hs | simpl; lia]. Qed.

Lemma keepsTide_sampleBus bus : keepsTide (sampleBus bus).
Proof.
  apply (keepsTide_regs (fun s => Z.b2z (bus (busLog (regs s))))
           (fun s => logEvent (SampleBus (bus (busLog (regs s)))) (regs s))).
Qed.

Lemma keepsTide_storeSPad i v : keepsTide (storeSPad i v).
Proof.
  intros s Hs. unfold storeSPad. simpl.
  destruct (writeAt i v (sPad (regs s))); [|exact I].
  split; [exact Hs | simpl; lia].
Qed.

Lemma keepsTide_loadDeviceAddr i : keepsTide (loadDeviceAddr i).
Proof.
  intros s Hs. unfold loadDeviceAddr. simpl.
  destruct (readAt i (deviceAddr (regs s))); [|exact I].
  split; [exact Hs | lia].
Qed.

Lemma keepsTide_flushStack : keepsTide (fun s => Next tt (flushStack s)).
Proof.
  intros s [[Hl Ht] Htide]. simpl. unfold tideOK, wf. simpl.
  unfold stackSize in *. lia.
Qed.

Lemma keepsTide_push b : keepsTide (ArrayStack.push b).
Proof.
  intros s [Hwf Htide].
  destruct (Z.eq_dec (topOfStack s) stackSize) as [Hfull | Hnot].
  - destruct (push_full b s Hwf Hfull) as (s' & -> & Hc & Ht & Hh & _).
    unfold tideOK, wf. rewrite Hc, Ht, Hh. destruct Hwf. repeat split; auto; lia.
  - assert (Hlt : topOfStack s < stackSize) by (destruct Hwf; lia).
    destruct (push_exact b s Hwf Hlt) as (s' & -> & Hc & Ht & Hh & _).
    unfold tideOK, wf. rewrite Hc, Ht, Hh, length_insert. destruct Hwf.
    repeat split; auto; lia.
Qed.

Lemma keepsTide_pop : keepsTide ArrayStack.pop.
Proof.
  intros s [[Hl Ht] Htide]. unfold ArrayStack.pop. cbv zeta.
  destruct (Z.eq_dec (topOfStack s) 0) as [Hz | Hnz].
  - rewrite Hz. unfold readAt, inBounds. simpl. rewrite Hl. reflexivity.
  - assert (Hb : byte (topOfStack s - 1) = topOfStack s - 1).
    { unfold byte. apply Z.mod_small. unfold stackSize in *. lia. }
    destruct (readAt _ _); [|exact I].
    unfold tideOK, wf. simpl. rewrite Hb. repeat split; auto; lia.
Qed.

Ltac tide_step :=
  first
    [ apply keepsTide_bind; [| intros ?]
    | apply keepsTide_if
    | apply keepsTide_when
    | apply keepsTide_ret
    | apply keepsTide_exit
    | apply keepsTide_push
    | apply keepsTide_pop
    | apply keepsTide_onRegs
    | apply keepsTide_readRegs
    | apply keepsTide_sampleBus
    | apply keepsTide_storeSPad
    | apply keepsTide_loadDeviceAddr
    | apply keepsTide_flushStack ].

Ltac tide :=
  unfold YieldFor, pushSendOneByte, pullBusLow, releaseBus, delay_us, alertOn,
    writeDebugPin, toggleDebugLine, skip;
  unfold mbind, M_bind;
  repeat tide_step.

Lemma keepsTide_doTimesliceBody bus : keepsTide (doTimesliceBody bus).
Proof.
  intros s Hs. unfold doTimesliceBody.
  destruct (stackEmpty s).
  - split; [exact Hs | lia].
  - match goal with
    | |- match ?m s with _ => _ end =>
        cut (keepsTide m); [intros Hk; exact (Hk s Hs) | clear]
    end.
    tide.
Qed.

Lemma keepsTide_doTimeslice bus fuel : forall s t s',
  tideOK s -> doTimeslice bus fuel s = Some (t, s') ->
  tideOK s' /\ stackHighTide s <= stackHighTide s'.
Proof.
  induction fuel as [|fuel IH]; intros s t s' Hs Hrun; [discriminate Hrun|].
  cbn [doTimeslice] in Hrun.
  pose proof (keepsTide_doTimesliceBody bus s Hs) as Hb.
  destruct (doTimesliceBody bus s) as [[] s1|u s1|s1]; try discriminate Hrun.
  - destruct Hb as [Hs1 Hle]. destruct (IH s1 t s' Hs1 Hrun) as [Hs' Hle'].
    split; [exact Hs' | lia].
  - injection Hrun as <- <-. exact Hb.
Qed.

Lemma keepsTide_sessions addr pad repeats :
  keepsTide resetAsync /\ keepsTide (readScratchpadAsync addr pad) /\
  keepsTide convertAllTemperaturesAsync /\ keepsTide (doTestTimings repeats).
Proof.
  unfold resetAsync, readScratchpadAsync, convertAllTemperaturesAsync, doTestTimings.
  repeat split; tide.
Qed.

Lemma keepsTide_stateOf {A} (m : M machine A) s s' :
  keepsTide m -> tideOK s -> (exists x, m s = Next x s') ->
  tideOK s' /\ stackHighTide s <= stackHighTide s'.
Proof. intros Hk Hs [x Hm]. specialize (Hk s Hs). now rewrite Hm in Hk. Qed.

Lemma session_returns (m : M machine unit) (m2 : M lmachine unit) s a' :
  simM m m2 -> wf s -> m2 (toList s) = Next tt a' ->
  exists x, m s = Next x (stateOf (m s)).
Proof.
  intros Hsim Hwf Hm2.
  destruct (session_from_list m m2 s _ Hsim Hwf Hm2) as (s' & Hs & _).
  exists tt. now rewrite Hs.
Qed.

Lemma reachable_tideOK bus s : reachable bus s -> tideOK s.
Proof.
  induction 1 as [ | s _ IH | s _ IH | s addr pad _ IH Ha Hp
                 | s _ IH | s repeats _ IH
                 | s fuel tics s' _ IH Hrun | s fuel s' _ IH Hrun ].
  - unfold tideOK, wf. simpl. unfold stackSize. lia.
  - apply (keepsTide_flushStack s IH).
  - destruct (keepsTide_sessions [] [] 0) as (Hk & _).
    apply (keepsTide_stateOf _ s _ Hk IH).
    apply (session_returns _ _ s _ sim_resetAsync (proj1 IH) (L_resetAsync _ _)).
  - destruct (keepsTide_sessions addr pad 0) as (_ & Hk & _).
    apply (keepsTide_stateOf _ s _ Hk IH).
    apply (session_returns _ _ s _ (sim_readScratchpadAsync addr pad) (proj1 IH)
             (L_readScratchpadAsync _ _ _ _)).
  - destruct (keepsTide_sessions [] [] 0) as (_ & _ & Hk & _).
    apply (keepsTide_stateOf _ s _ Hk IH).
    apply (session_returns _ _ s _ sim_convertAllTemperaturesAsync (proj1 IH)
             (L_convertAllTemperaturesAsync _ _)).
  - destruct (keepsTide_sessions [] [] repeats) as (_ & _ & _ & Hk).
    apply (keepsTide_stateOf _ s _ Hk IH).
    apply (session_returns _ _ s _ (sim_doTestTimings repeats) (proj1 IH)
             (L_doTestTimings _ _ _)).
  - apply (keepsTide_doTimeslice bus fuel s tics s' IH Hrun).
  - unfold ISR in Hrun.
    destruct (doTimeslice bus fuel s) as [[u s1]|] eqn:Hs1; [|discriminate].
    injection Hrun as <-.
    destruct (keepsTide_doTimeslice bus fuel s u s1 IH Hs1) as [Hs' _].
    exact Hs'.
Qed.

(** X11: the diagnostic [stackHighTide] bounds the depth of the stack in
    every state the program reaches, and stays within the 20 bytes; no
    timeslice and no session call ever lowers it. *)
Theorem high_tide_bounds_depth (bus : list BusEvent -> bool) (s : machine) :
  reachable bus s ->
  topOfStack s <= stackHighTide s <= stackSize /\
  (forall fuel tics s', doTimeslice bus fuel s = Some (tics, s') ->
                        stackHighTide s <= stackHighTide s') /\
  stackHighTide s <= stackHighTide (stateOf (resetAsync s)) /\
  stackHighTide s <= stackHighTide (stateOf (convertAllTemperaturesAsync s)) /\
  (forall addr pad,
      stackHighTide s <= stackHighTide (stateOf (readScratchpadAsync addr pad s))) /\
  (forall repeats, stackHighTide s <= stackHighTide (stateOf (doTestTimings repeats s))).
Proof.
  intros Hreach. pose proof (reachable_tideOK bus s Hreach) as Hs.
  split; [apply Hs|]. split; [|repeat split].
  - intros fuel tics s' Hrun.
    apply (keepsTide_doTimeslice bus fuel s tics s' Hs Hrun).
  - destruct (keepsTide_sessions [] [] 0) as (Hk & _).
    apply (keepsTide_stateOf _ s _ Hk Hs).
    apply (session_returns _ _ s _ sim_resetAsync (proj1 Hs) (L_resetAsync _ _)).
  - destruct (keepsTide_sessions [] [] 0) as (_ & _ & Hk & _).
    apply (keepsTide_stateOf _ s _ Hk Hs).
    apply (session_returns _ _ s _ sim_convertAllTemperaturesAsync (proj1 Hs)
             (L_convertAllTemperaturesAsync _ _)).
  - intros addr pad. destruct (keepsTide_sessions addr pad 0) as (_ & Hk & _).
    apply (keepsTide_stateOf _ s _ Hk Hs).
    apply (session_returns _ _ s _ (sim_readScratchpadAsync addr pad) (proj1 Hs)
             (L_readScratchpadAsync _ _ _ _)).
  - intros repeats. destruct (keepsTide_sessions [] [] repeats) as (_ & _ & _ & Hk).
    apply (keepsTide_stateOf _ s _ Hk Hs).
    apply (session_returns _ _ s _ (sim_doTestTimings repeats) (proj1 Hs)
             (L_doTestTimings _ _ _)).
Qed.

Lemma high_tide_bounds_depth_witness :
  reachable idleBus (stateOf (resetAsync powerOn)) /\
  topOfStack (stateOf (resetAsync powerOn))
  <= stackHighTide (stateOf (resetAsync powerOn)) <= stackSize.
Proof.
  assert (Hreach : reachable idleBus (stateOf (resetAsync powerOn)))
    by apply reach_reset, reach_powerOn.
  split; [exact Hreach|].
  apply (high_tide_bounds_depth idleBus _ Hreach).
Defined.

(** * Interpreting the scratchpad *)

Lemma pair_cases (P : Z -> Z -> bool) :
  forallb (fun a => forallb (P a) (map Z.of_nat (seq 0 256))) (map Z.of_nat (seq 0 256))
  = true ->
  forall a b, 0 <= a < 256 -> 0 <= b < 256 -> P a b = true.
Proof.
  intros H a b Ha Hb.
  pose proof (byte_cases (fun a => forallb (P a) (map Z.of_nat (seq 0 256))) H a Ha) as Hrow.
  exact (byte_cases (P a) Hrow b Hb).
Qed.

Lemma readAt_nat {A} (a : list A) i v :
  a !! i = Some v -> readAt (Z.of_nat i) a = Some v.
Proof.
  intros H. pose proof (lookup_lt_Some _ _ _ H) as Hlt.
  unfold readAt, inBounds.
  replace (0 <=? Z.of_nat i) with true by (symmetry; apply Z.leb_le; lia).
  replace (Z.of_nat i <? Z.of_nat (length a)) with true by (symmetry; apply Z.ltb_lt; lia).
  simpl. now rewrite Nat2Z.id.
Qed.

Lemma getRaw_reads (linearRemap : Z -> Z) addr pad family lsb msb :
  addr !! 0%nat = Some family ->
  pad !! 0%nat = Some lsb -> pad !! 1%nat = Some msb ->
  (8 <= length pad)%nat ->
  exists b6 b7,
    getRaw linearRemap addr pad =
    if family =? 0x28 then
      Some (int16 (Z.lor (int16 (Z.shiftl msb 11)) (int16 (Z.shiftl lsb 3))))
    else if family =? 0x10 then
      Some (linearRemap
              (int16 (Z.shiftl
                        (int16 (int16 (Z.shiftl
                                         (int16 (Z.lor (int16 (Z.shiftl msb 8))
                                                       (Z.land lsb 0xFE))) 3)
                                + (b7 - b6))) 3)))
    else Some (int16 0xFFFF).
Proof.
  intros Haddr Hl0 Hl1 Hlen.
  destruct (lookup_lt_is_Some_2 pad 6 ltac:(lia)) as [b6 H6].
  destruct (lookup_lt_is_Some_2 pad 7 ltac:(lia)) as [b7 H7].
  exists b6, b7. unfold getRaw.
  pose proof (readAt_nat pad 0 lsb Hl0) as R0. change (Z.of_nat 0) with 0 in R0.
  pose proof (readAt_nat pad 1 msb Hl1) as R1. change (Z.of_nat 1) with 1 in R1.
  pose proof (readAt_nat pad 6 b6 H6) as R6. change (Z.of_nat 6) with 6 in R6.
  pose proof (readAt_nat pad 7 b7 H7) as R7. change (Z.of_nat 7) with 7 in R7.
  pose proof (readAt_nat addr 0 family Haddr) as Ra. change (Z.of_nat 0) with 0 in Ra.
  rewrite R0, R1, R6, R7, Ra. reflexivity.
Qed.

Lemma raw28_is_8_readings msb lsb :
  0 <= msb < 256 -> 0 <= lsb < 256 ->
  int16 (Z.lor (int16 (Z.shiftl msb 11)) (int16 (Z.shiftl lsb 3)))
  = int16 (8 * (256 * msb + lsb)) /\
  (-4096 <= reading lsb msb < 4096 ->
   int16 (8 * (256 * msb + lsb)) = 8 * reading lsb msb).
Proof.
  intros Hm Hl.
  pose proof (pair_cases
                (fun m l =>
                   (int16 (Z.lor (int16 (Z.shiftl m 11)) (int16 (Z.shiftl l 3)))
                    =? int16 (8 * (256 * m + l)))
                   && (negb ((-4096 <=? reading l m) && (reading l m <? 4096))
                       || (int16 (8 * (256 * m + l)) =? 8 * reading l m)))
                ltac:(vm_compute; reflexivity) msb lsb Hm Hl) as H.
  apply andb_true_iff in H as [H1 H2]. apply Z.eqb_eq in H1.
  split; [exact H1|]. intros Hr.
  apply orb_true_iff in H2 as [H2 | H2].
  - apply negb_true_iff, andb_false_iff in H2 as [H2 | H2].
    + apply Z.leb_gt in H2. lia.
    + apply Z.ltb_ge in H2. lia.
  - now apply Z.eqb_eq.
Qed.

(** X12: for a device of family 0x28, [getRaw] is the 16-bit reading of
    the first two scratchpad bytes times 8, wrapped to 16 bits; for a
    reading of 12 bits and sign, as the DS18B20 gives it in sixteenths of a
    degree, that is 8 times the reading, and [getTempC] is the reading
    divided by 16.  The answer does not depend on the rest of the
    scratchpad. *)
Theorem getRaw_ds18b20 (linearRemap : Z -> Z) (addr pad : list Z) (lsb msb : Z) :
  addr !! 0%nat = Some 0x28 ->
  pad !! 0%nat = Some lsb -> pad !! 1%nat = Some msb ->
  (8 <= length pad)%nat ->
  0 <= lsb < 256 -> 0 <= msb < 256 ->
  getRaw linearRemap addr pad = Some (int16 (8 * (256 * msb + lsb))) /\
  (-4096 <= reading lsb msb < 4096 ->
   getRaw linearRemap addr pad = Some (8 * reading lsb msb) /\
   exists q, getTempC linearRemap addr pad = Some q /\
             (q == inject_Z (reading lsb msb) / 16)%Q).
Proof.
  intros Haddr Hl0 Hl1 Hlen Hlsb Hmsb.
  destruct (raw28_is_8_readings msb lsb Hmsb Hlsb) as [Hraw Hsmall].
  assert (Hget : getRaw linearRemap addr pad = Some (int16 (8 * (256 * msb + lsb)))).
  { destruct (getRaw_reads linearRemap addr pad _ lsb msb Haddr Hl0 Hl1 Hlen)
      as (b6 & b7 & ->).
    change (40 =? 40) with true. cbv iota. now rewrite Hraw. }
  split; [exact Hget|]. intros Hr.
  rewrite (Hsmall Hr) in Hget. split; [exact Hget|].
  unfold getTempC. rewrite Hget. simpl.
  eexists. split; [reflexivity|].
  unfold Qeq, Qdiv, Qmult, Qinv, inject_Z. simpl. lia.
Qed.

Lemma getRaw_ds18b20_witness :
  sampleAddress !! 0%nat = Some 0x28 /\
  (8 <= length sampleScratch)%nat /\
  reading 0x50 0x05 = 1360 /\
  getRaw (fun x => x) sampleAddress sampleScratch = Some (8 * reading 0x50 0x05) /\
  exists q, getTempC (fun x => x) sampleAddress sampleScratch = Some q /\
            (q == inject_Z (reading 0x50 0x05) / 16)%Q.
Proof.
  assert (Hlen : (8 <= length sampleScratch)%nat) by (simpl; lia).
  assert (Hr : -4096 <= reading 0x50 0x05 < 4096) by (change (reading 0x50 0x05) with 1360; lia).
  split; [reflexivity|]. split; [exact Hlen|]. split; [reflexivity|].
  apply (getRaw_ds18b20 (fun x => x) sampleAddress sampleScratch 0x50 0x05
           eq_refl eq_refl eq_refl Hlen ltac:(lia) ltac:(lia)); exact Hr.
Defined.

(** X13: for a device whose family byte is neither 0x28 nor 0x10,
    [getRaw] answers 0xFFFF as an [int], which is -1, whatever the
    scratchpad holds; [getTempC] then reads -1/128 of a degree. *)
Theorem getRaw_unknown_family (linearRemap : Z -> Z) (addr pad : list Z) (family : Z) :
  addr !! 0%nat = Some family ->
  family <> 0x28 -> family <> 0x10 ->
  (8 <= length pad)%nat ->
  getRaw linearRemap addr pad = Some (-1) /\
  exists q, getTempC linearRemap addr pad = Some q /\ (q == -1 # 128)%Q.
Proof.
  intros Haddr H28 H10 Hlen.
  assert (Hget : getRaw linearRemap addr pad = Some (-1)).
  { destruct (lookup_lt_is_Some_2 pad 0 ltac:(lia)) as [lsb Hl0].
    destruct (lookup_lt_is_Some_2 pad 1 ltac:(lia)) as [msb Hl1].
    destruct (getRaw_reads linearRemap addr pad _ lsb msb Haddr Hl0 Hl1 Hlen)
      as (b6 & b7 & ->).
    replace (family =? 40) with false by (symmetry; now apply Z.eqb_neq).
    replace (family =? 16) with false by (symmetry; now apply Z.eqb_neq).
    reflexivity. }
  split; [exact Hget|].
  unfold getTempC. rewrite Hget. simpl.
  eexists. split; [reflexivity|]. reflexivity.
Qed.

Lemma getRaw_unknown_family_witness :
  [0x22; 0; 0; 0; 0; 0; 0; 0] !! 0%nat = Some 0x22 /\
  getRaw (fun x => x) [0x22; 0; 0; 0; 0; 0; 0; 0] sampleScratch = Some (-1).
Proof.
  split; [reflexivity|].
  apply (getRaw_unknown_family (fun x => x) [0x22; 0; 0; 0; 0; 0; 0; 0] sampleScratch 0x22
           eq_refl ltac:(lia) ltac:(lia) ltac:(simpl; lia)).
Defined.

(** * Waiting for the status to clear *)

Lemma int16_small x : -32768 <= x < 32768 -> int16 x = x.
Proof. intros Hx. unfold int16. rewrite Z.mod_small; lia. Qed.

Lemma busyWaitLoop_spec elapse msg T : forall n c s fuel,
  0 <= c -> T <= 32767 ->
  Z.of_nat n = Z.max 1 (T - c) ->
  c = 0 \/ c < T ->
  (n <= fuel)%nat ->
  (exists k, (k < n)%nat /\
             (forall j, (j < k)%nat -> getStatus (Nat.iter j elapse s) <> 0) /\
             getStatus (Nat.iter k elapse s) = 0 /\
             busyWaitLoop elapse fuel msg T c s = Some (0, Nat.iter k elapse s)) \/
  ((forall j, (j < n)%nat -> getStatus (Nat.iter j elapse s) <> 0) /\
   busyWaitLoop elapse fuel msg T c s
   = Some (getStatus (Nat.iter (n - 1) elapse s),
           reportTimeout msg (getStatus (Nat.iter (n - 1) elapse s)) T
                         (Nat.iter (n - 1) elapse s))).
Proof.
  induction n as [|n IH]; intros c s fuel Hc HT Hn Hcase Hfuel; [lia|].
  destruct fuel as [|fuel]; [lia|].
  cbn [busyWaitLoop]. cbv zeta.
  destruct (Z.eqb_spec (getStatus s) 0) as [Hz | Hnz].
  - left. exists 0%nat. split; [lia|]. split; [intros j Hj; lia|].
    split; [exact Hz|]. now rewrite Hz.
  - rewrite int16_small by lia.
    destruct (Z.leb_spec T (c + 1)) as [Hlast | Hmore].
    + right. assert (n = 0%nat) by lia. subst n. split.
      * intros j Hj. assert (j = 0%nat) by lia. subst j. exact Hnz.
      * reflexivity.
    + destruct (IH (c + 1) (elapse s) fuel ltac:(lia) HT ltac:(lia) ltac:(lia)
                  ltac:(lia)) as [(k & Hk & Hbefore & Hzero & Hres) | (Hall & Hres)].
      * left. exists (S k). rewrite Nat.iter_succ_r. repeat split; auto; try lia.
        intros j Hj. destruct j as [|j]; [exact Hnz|].
        rewrite Nat.iter_succ_r. apply Hbefore. lia.
      * right. split.
        -- intros j Hj. destruct j as [|j]; [exact Hnz|].
           rewrite Nat.iter_succ_r. apply Hall. lia.
        -- replace (S n - 1)%nat with (S (n - 1)) by lia.
           rewrite Nat.iter_succ_r. exact Hres.
Qed.

(** X14: [busyWaitForZeroStatus] polls the status at most
    [max 1 millisTimeout] times, one millisecond apart.  It returns 0, and
    prints nothing, at the first poll that finds the status 0; if none
    does, it returns the status of the last poll after writing its message
    to the serial line.  A timeout of 0 or less still polls once. *)
Theorem busyWait_polls (elapse : machine -> machine) (msg : string)
        (millisTimeout : Z) (s : machine) (fuel : nat) :
  -32768 <= millisTimeout < 32768 ->
  let polls := Z.to_nat (Z.max 1 millisTimeout) in
  (polls <= fuel)%nat ->
  (exists k, (k < polls)%nat /\
             (forall j, (j < k)%nat -> getStatus (Nat.iter j elapse s) <> 0) /\
             getStatus (Nat.iter k elapse s) = 0 /\
             busyWaitForZeroStatus elapse fuel msg millisTimeout s
             = Some (0, Nat.iter k elapse s)) \/
  ((forall j, (j < polls)%nat -> getStatus (Nat.iter j elapse s) <> 0) /\
   let last := Nat.iter (polls - 1) elapse s in
   busyWaitForZeroStatus elapse fuel msg millisTimeout s
   = Some (getStatus last, reportTimeout msg (getStatus last) millisTimeout last)).
Proof.
  intros HT polls Hfuel. unfold busyWaitForZeroStatus.
  apply busyWaitLoop_spec; auto; lia.
Qed.

Lemma busyWait_polls_witness :
  -32768 <= 3 < 32768 /\
  busyWaitForZeroStatus (oneInterrupt presentBus) 3 "reset"%string 3
                        (stateOf (resetAsync powerOn))
  = Some (StillBusy,
          reportTimeout "reset"%string StillBusy 3
            (Nat.iter 2 (oneInterrupt presentBus) (stateOf (resetAsync powerOn)))).
Proof.
  assert (HT : -32768 <= 3 < 32768) by lia.
  split; [exact HT|].
  destruct (busyWait_polls (oneInterrupt presentBus) "reset"%string 3
              (stateOf (resetAsync powerOn)) 3 HT (le_n 3))
    as [(k & Hk & _ & Hzero & _) | (_ & Hres)].
  - exfalso.
    assert (H0 : getStatus (Nat.iter 0 (oneInterrupt presentBus)
                              (stateOf (resetAsync powerOn))) = StillBusy)
      by (vm_compute; reflexivity).
    assert (H1 : getStatus (Nat.iter 1 (oneInterrupt presentBus)
                              (stateOf (resetAsync powerOn))) = StillBusy)
      by (vm_compute; reflexivity).
    assert (H2 : getStatus (Nat.iter 2 (oneInterrupt presentBus)
                              (stateOf (resetAsync powerOn))) = StillBusy)
      by (vm_compute; reflexivity).
    destruct k as [|[|[|k]]].
    + rewrite H0 in Hzero. discriminate Hzero.
    + rewrite H1 in Hzero. discriminate Hzero.
    + rewrite H2 in Hzero. discriminate Hzero.
    + apply (Nat.nlt_0_r k). do 3 apply Nat.succ_lt_mono. exact Hk.
  - exact Hres.
Defined.

Lemma busyWaitLoop_zero bus elapse msg T :
  (forall x, reachable bus x -> reachable bus (elapse x)) ->
  forall fuel c s s',
    reachable bus s ->
    busyWaitLoop elapse fuel msg T c s = Some (0, s') ->
    reachable bus s' /\ getStatus s' = 0 /\ topOfStack s' = 0 /\
    serial (regs s') = serial (regs s) /\ exists k, s' = Nat.iter k elapse s.
Proof.
  intros Hel. induction fuel as [|fuel IH]; intros c s s' Hreach Hres;
    [discriminate Hres|].
  cbn [busyWaitLoop] in Hres. cbv zeta in Hres.
  destruct (Z.eqb_spec (getStatus s) 0) as [Hz | Hnz].
  - injection Hres as _ <-.
    split; [exact Hreach|]. split; [exact Hz|]. split; [|split; [reflexivity|]].
    + apply (not_busy_is_idle bus s Hreach). unfold getStatus in Hz. simpl in Hz.
      now rewrite Hz.
    + exists 0%nat. reflexivity.
  - destruct (T <=? int16 (c + 1)).
    + injection Hres as Hr _. congruence.
    + destruct (IH _ _ _ (Hel s Hreach) Hres) as (Hr' & Hz' & Htop & _ & k & Hk).
      split; [exact Hr'|]. split; [exact Hz'|]. split; [exact Htop|]. split.
      * pose proof (reachable_invWith bus 17 (fun _ => True) (fun r => serial r = []))
          as Hser.
        assert (Hs : forall x, reachable bus x -> serial (regs x) = []).
        { intros x Hx.
          destruct (Hser ltac:(unfold stackSize; lia)) with (s := x)
            as [_ (p & _ & _ & _ & _ & _ & Hp)]; auto; try lia.
          - intros i r q r' _ Hr0 Hstep _. split.
            + apply Forall_forall. auto.
            + rewrite (istep_serial _ _ _ _ _ Hstep). exact Hr0.
          - intros repeats. repeat constructor. }
        rewrite (Hs s' Hr'), (Hs s Hreach). reflexivity.
      * exists (S k). rewrite Nat.iter_succ_r. exact Hk.
Qed.

(** X15: when [busyWaitForZeroStatus] returns 0 for a session started
    from a reachable state, whatever the interrupts did in the meantime,
    the instruction stack is empty: the session is over and nothing more
    will be written to the caller's buffer.  Nothing was printed. *)
Theorem busyWait_zero_means_idle (bus : list BusEvent -> bool)
        (elapse : machine -> machine) (msg : string) (millisTimeout : Z)
        (s s' : machine) (fuel : nat) :
  reachable bus s ->
  (forall x, reachable bus x -> reachable bus (elapse x)) ->
  busyWaitForZeroStatus elapse fuel msg millisTimeout s = Some (0, s') ->
  topOfStack s' = 0 /\
  getStatus s' = 0 /\
  serial (regs s') = serial (regs s) /\
  (forall F, doTimeslice bus (S F) s' = Some (255, s')) /\
  exists k, s' = Nat.iter k elapse s.
Proof.
  intros Hreach Hel Hres.
  destruct (busyWaitLoop_zero bus elapse msg millisTimeout Hel fuel 0 s s' Hreach Hres)
    as (_ & Hz & Htop & Hser & Hk).
  repeat split; auto. intros F. now apply idle_pass.
Qed.

Lemma busyWait_zero_means_idle_witness :
  reachable presentBus (stateOf (resetAsync powerOn)) /\
  busyWaitForZeroStatus (oneInterrupt presentBus) 5 "reset"%string 5
                        (stateOf (resetAsync powerOn))
  = Some (0, Nat.iter 4 (oneInterrupt presentBus) (stateOf (resetAsync powerOn))) /\
  topOfStack (Nat.iter 4 (oneInterrupt presentBus) (stateOf (resetAsync powerOn))) = 0.
Proof.
  assert (Hreach : reachable presentBus (stateOf (resetAsync powerOn)))
    by apply reach_reset, reach_powerOn.
  assert (Hres : busyWaitForZeroStatus (oneInterrupt presentBus) 5 "reset"%string 5
                   (stateOf (resetAsync powerOn))
                 = Some (0, Nat.iter 4 (oneInterrupt presentBus)
                              (stateOf (resetAsync powerOn))))
    by (vm_compute; reflexivity).
  split; [exact Hreach|]. split; [exact Hres|].
  apply (busyWait_zero_means_idle presentBus (oneInterrupt presentBus) "reset"%string 5
           _ _ 5 Hreach (reachable_oneInterrupt presentBus) Hres).
Defined.

(** * The device search: bits, fork points, write slots *)

Lemma setBit_range a i :
  Forall (fun v => 0 <= v < 256) a ->
  Forall (fun v => 0 <= v < 256) (SensorDiscovery.setBit a i).
Proof. intros Ha. unfold SensorDiscovery.setBit. apply Forall_insert; [exact Ha | apply byte_range]. Qed.

Lemma unsetBit_range a i :
  Forall (fun v => 0 <= v < 256) a ->
  Forall (fun v => 0 <= v < 256) (SensorDiscovery.unsetBit a i).
Proof. intros Ha. unfold SensorDiscovery.unsetBit. apply Forall_insert; [exact Ha | apply byte_range]. Qed.

(** X16: the bit macros on an 8-byte array: setting or clearing bit [i]
    makes bit [i] read back set or clear, leaves each of the other 63 bits
    as it was, and keeps the array eight bytes, each within a byte. *)
Theorem id_bit_macros (a : list Z) (i j : Z) :
  length a = 8%nat -> 0 <= i < 64 -> 0 <= j < 64 ->
  SensorDiscovery.isBit (SensorDiscovery.setBit a i) j
  = (if j =? i then true else SensorDiscovery.isBit a j) /\
  SensorDiscovery.isBit (SensorDiscovery.unsetBit a i) j
  = (if j =? i then false else SensorDiscovery.isBit a j) /\
  length (SensorDiscovery.setBit a i) = 8%nat /\
  length (SensorDiscovery.unsetBit a i) = 8%nat /\
  (Forall (fun v => 0 <= v < 256) a ->
   Forall (fun v => 0 <= v < 256) (SensorDiscovery.setBit a i) /\
   Forall (fun v => 0 <= v < 256) (SensorDiscovery.unsetBit a i)).
Proof.
  intros Hlen Hi Hj.
  split; [now apply isBit_setBit|]. split; [now apply isBit_unsetBit|].
  split; [now rewrite setBit_length|]. split; [now rewrite unsetBit_length|].
  intros Ha. split; [now apply setBit_range | now apply unsetBit_range].
Qed.

Lemma id_bit_macros_witness :
  length sampleAddress = 8%nat /\ 0 <= 9 < 64 /\ 0 <= 9 < 64 /\
  SensorDiscovery.isBit (SensorDiscovery.unsetBit sampleAddress 9) 9 = false /\
  SensorDiscovery.isBit (SensorDiscovery.setBit (SensorDiscovery.unsetBit sampleAddress 9) 9) 9
  = true.
Proof.
  split; [reflexivity|]. split; [lia|]. split; [lia|].
  split.
  - apply (id_bit_macros sampleAddress 9 9 eq_refl ltac:(lia) ltac:(lia)).
  - reflexivity.
Defined.

(** X17: [findLastForkPoint] answers -1 exactly when none of the 64 fork
    bits is set, and otherwise the greatest index whose fork bit is
    set. *)
Theorem findLastForkPoint_greatest (s : SensorDiscovery.state) :
  let d := SensorDiscovery.findLastForkPoint s in
  -1 <= d < 64 /\
  (d = -1 <-> forall j, 0 <= j < 64 -> SensorDiscovery.isForkPoint j s = false) /\
  (0 <= d ->
   SensorDiscovery.isForkPoint d s = true /\
   forall j, d < j < 64 -> SensorDiscovery.isForkPoint j s = false).
Proof.
  intros d. pose proof (lastForkBelow_spec 64 s) as Hspec. cbv zeta in Hspec.
  fold (SensorDiscovery.findLastForkPoint s) in Hspec. fold d in Hspec.
  change (Z.of_nat 64) with 64 in Hspec.
  destruct Hspec as [[Hd Hall] | (Hd & Hset & Habove)].
  - split; [lia|]. split; [tauto|]. intros Hpos. lia.
  - split; [lia|]. split.
    + split; [lia|]. intros Hall. rewrite Hall in Hset by lia. discriminate.
    + auto.
Qed.

Lemma land_1_b2z b : Z.land b 1 = Z.b2z (Z.odd b).
Proof.
  apply Z.bits_inj'. intros k Hk. rewrite Z.land_spec.
  destruct (Z.eq_dec k 0) as [-> | Hne].
  - rewrite Z.bit0_odd. change (Z.testbit 1 0) with true. rewrite andb_true_r.
    destruct (Z.odd b); reflexivity.
  - change 1 with (2 ^ 0) at 1. rewrite Z.pow2_bits_false by lia.
    rewrite andb_false_r. destruct (Z.odd b); simpl.
    + change 1 with (2 ^ 0). now rewrite Z.pow2_bits_false by lia.
    + now rewrite Z.bits_0.
Qed.

Lemma sendBits_line n : forall b s,
  SensorDiscovery.sendBits n b s
  = SensorDiscovery.set_line (SensorDiscovery.line s ++ sendBitsLine n b) s.
Proof.
  induction n as [|n IH]; intros b s.
  - simpl. rewrite app_nil_r. now destruct s.
  - cbn [SensorDiscovery.sendBits sendBitsLine].
    change 0x01 with 1. rewrite land_1_b2z, sendBit_eq, IH.
    destruct s. simpl. now rewrite <- app_assoc.
Qed.

Lemma countSamples_sendBitsLine n : forall v, countSamples (sendBitsLine n v) = 0%nat.
Proof.
  induction n as [|n IH]; intros v; [reflexivity|].
  cbn [sendBitsLine]. rewrite countSamples_app, IH.
  destruct (Z.odd v); reflexivity.
Qed.

Lemma length_sendBitsLine n : forall v, length (sendBitsLine n v) = (4 * n)%nat.
Proof.
  induction n as [|n IH]; intros v; [reflexivity|].
  cbn [sendBitsLine]. rewrite length_app, IH.
  destruct (Z.odd v); simpl; lia.
Qed.

(** X18: [sendByte] puts eight write slots on the line, for the bits of
    the byte from the least significant on (a 1 as 6 microseconds low, a 0
    as 60), takes no sample, and leaves the ID buffer, the fork map and the
    first-call flag alone. *)
Theorem sendByte_lsb_first (b : Z) (s : SensorDiscovery.state) :
  SensorDiscovery.sendByte b s
  = SensorDiscovery.set_line (SensorDiscovery.line s ++ sendBitsLine 8 b) s /\
  sendBitsLine 8 b
  = concat (map (fun k => SensorDiscovery.sendBitLine (Z.testbit b (Z.of_nat k))) (seq 0 8)) /\
  length (sendBitsLine 8 b) = 32%nat /\
  countSamples (sendBitsLine 8 b) = 0%nat.
Proof.
  split; [apply sendBits_line|]. split; [|split].
  - cbn [sendBitsLine seq map concat].
    rewrite !Z.shiftr_shiftr by lia. simpl Z.add.
    rewrite <- !Z.bit0_odd, !Z.shiftr_spec by lia. reflexivity.
  - apply length_sendBitsLine.
  - apply countSamples_sendBitsLine.
Qed.

(** X19: a search begun on a line where nothing answers the reset: the
    first call returns 1 after the reset alone, the first eight bytes of
    the buffer stay zero, and from then on every call returns 1 without
    touching the line, whatever is on it by then, until [begin] is called
    again. *)
Theorem search_finds_nothing (bus : list BusEvent -> bool) (deviceID : list Z)
        (s : SensorDiscovery.state) :
  bus (SensorDiscovery.line s ++ [PullLow; DelayUs 480; ReleaseBus; DelayUs 70]) = true ->
  exists s1,
    SensorDiscovery.findNextDevice bus (SensorDiscovery.begin deviceID s) = (1, s1) /\
    take 8 (SensorDiscovery.inputBuf s1) = replicate 8 0 /\
    SensorDiscovery.line s1 = SensorDiscovery.line s ++ SensorDiscovery.resetLine true /\
    forall bus' n,
      SensorDiscovery.findNextDevice bus' s1 = (1, s1) /\
      Nat.iter n (fun x => snd (SensorDiscovery.findNextDevice bus' x)) s1 = s1.
Proof.
  intros Hbus.
  set (s0 := SensorDiscovery.begin deviceID s).
  set (s1 := SensorDiscovery.set_line
               (SensorDiscovery.line s ++ SensorDiscovery.resetLine true)
               (SensorDiscovery.set_firstTime false s0)).
  assert (Hcall : SensorDiscovery.findNextDevice bus s0 = (1, s1)).
  { unfold SensorDiscovery.findNextDevice. change (SensorDiscovery.firstTime s0) with true.
    cbv iota. unfold SensorDiscovery.searchFrom. rewrite Reset_eq. cbv zeta.
    change (SensorDiscovery.line (SensorDiscovery.set_firstTime false s0))
      with (SensorDiscovery.line s).
    rewrite Hbus. reflexivity. }
  assert (Hdead : forall bus', SensorDiscovery.findNextDevice bus' s1 = (1, s1)).
  { intros bus'. unfold SensorDiscovery.findNextDevice.
    change (SensorDiscovery.firstTime s1) with false. cbv iota.
    change (SensorDiscovery.findLastForkPoint s1) with (-1). reflexivity. }
  exists s1. split; [exact Hcall|]. split; [reflexivity|]. split; [reflexivity|].
  intros bus' n. split; [apply Hdead|].
  induction n as [|n IH]; simpl; [reflexivity|]. rewrite IH, Hdead. reflexivity.
Qed.

Lemma search_finds_nothing_witness :
  idleBus (SensorDiscovery.line SensorDiscovery.exhaustedState
           ++ [PullLow; DelayUs 480; ReleaseBus; DelayUs 70]) = true /\
  exists s1,
    SensorDiscovery.findNextDevice idleBus
      (SensorDiscovery.begin sampleAddress SensorDiscovery.exhaustedState) = (1, s1) /\
    take 8 (SensorDiscovery.inputBuf s1) = replicate 8 0.
Proof.
  split; [reflexivity|].
  destruct (search_finds_nothing idleBus sampleAddress SensorDiscovery.exhaustedState eq_refl)
    as (s1 & Hcall & Hbuf & _).
  exists s1. split; [exact Hcall | exact Hbuf].
Defined.

(** * The device search with devices on the line *)

Lemma feed_app D st l1 l2 : feed D st (l1 ++ l2) = feed D (feed D st l1) l2.
Proof. apply fold_left_app. Qed.

Lemma feed_reset D st b :
  feed D st (SensorDiscovery.resetLine b) = mkDev (DevCmd 0 0) false (isNil D).
Proof. reflexivity. Qed.

Lemma level_reset D st :
  level (feed D st [PullLow; DelayUs 480; ReleaseBus; DelayUs 70]) = isNil D.
Proof. reflexivity. Qed.

Lemma feed_searchrom D lv :
  feed D (mkDev (DevCmd 0 0) false lv) (sendBitsLine 8 SensorDiscovery.SEARCHROM)
  = mkDev (DevSearch D 0 ReadBit) false true.
Proof. reflexivity. Qed.

Lemma level_readBit D C d lv :
  level (feed D (mkDev (DevSearch C d ReadBit) false lv)
              [PullLow; DelayUs 6; ReleaseBus; DelayUs 9])
  = forallb (fun id => idBit id d) C.
Proof. reflexivity. Qed.

Lemma feed_readBit D C d lv b :
  feed D (mkDev (DevSearch C d ReadBit) false lv) (SensorDiscovery.readBitLine b)
  = mkDev (DevSearch C d ReadComplement) false (forallb (fun id => idBit id d) C).
Proof. reflexivity. Qed.

Lemma level_readComplement D C d lv :
  level (feed D (mkDev (DevSearch C d ReadComplement) false lv)
              [PullLow; DelayUs 6; ReleaseBus; DelayUs 9])
  = forallb (fun id => negb (idBit id d)) C.
Proof. reflexivity. Qed.

Lemma feed_readComplement D C d lv b :
  feed D (mkDev (DevSearch C d ReadComplement) false lv) (SensorDiscovery.readBitLine b)
  = mkDev (DevSearch C d WriteBit) false (forallb (fun id => negb (idBit id d)) C).
Proof. reflexivity. Qed.

Lemma feed_sendBit D C d lv ch :
  feed D (mkDev (DevSearch C d WriteBit) false lv) (SensorDiscovery.sendBitLine ch)
  = mkDev (if (d =? 63)%nat then DevIdle
           else DevSearch (List.filter (fun id => Bool.eqb (idBit id d) ch) C) (S d) ReadBit)
          false true.
Proof. destruct ch; reflexivity. Qed.

Lemma Reset_devices D s :
  SensorDiscovery.Reset (devices D) s
  = (Z.b2z (isNil D),
     SensorDiscovery.set_line
       (SensorDiscovery.line s ++ SensorDiscovery.resetLine (isNil D)) s).
Proof.
  rewrite Reset_eq. cbv zeta. unfold devices. rewrite feed_app, level_reset. reflexivity.
Qed.

Lemma forallb_false_witness {A} (f : A -> bool) l :
  forallb f l = false -> exists x, In x l /\ f x = false.
Proof.
  induction l as [|x l IH]; simpl; [discriminate|].
  destruct (f x) eqn:Hx; simpl.
  - intros H. destruct (IH H) as (y & Hy & Hfy). exists y. auto.
  - intros _. exists x. auto.
Qed.

Lemma filter_nonempty {A} (f : A -> bool) l x :
  In x l -> f x = true -> List.filter f l <> [].
Proof.
  intros Hin Hx Hnil.
  assert (Hf : In x (List.filter f l)) by (apply filter_In; auto).
  rewrite Hnil in Hf. destruct Hf.
Qed.

Lemma choice_has_contender frozen C d buf :
  C <> [] ->
  List.filter (fun id => Bool.eqb (idBit id d) (choice frozen C d buf)) C <> [] /\
  (forallb (fun id => idBit id d) C && forallb (fun id => negb (idBit id d)) C = false).
Proof.
  intros HC. unfold choice.
  destruct C as [|c C]; [congruence|].
  destruct (forallb (fun id => idBit id d) (c :: C)) eqn:H1.
  - split.
    + apply (filter_nonempty _ _ c); [left; reflexivity|].
      simpl in H1. apply andb_true_iff in H1 as [-> _]. reflexivity.
    + simpl in H1 |- *. apply andb_true_iff in H1 as [-> _]. reflexivity.
  - split; [|reflexivity].
    destruct (forallb (fun id => negb (idBit id d)) (c :: C)) eqn:H0.
    + apply (filter_nonempty _ _ c); [left; reflexivity|].
      simpl in H0. apply andb_true_iff in H0 as [Hc _].
      apply negb_true_iff in Hc. rewrite Hc. reflexivity.
    + destruct (forallb_false_witness _ _ H1) as (x1 & Hin1 & Hx1).
      destruct (forallb_false_witness _ _ H0) as (x0 & Hin0 & Hx0).
      apply negb_false_iff in Hx0.
      destruct (if Z.of_nat d <=? frozen then idBit buf d else false).
      * apply (filter_nonempty _ _ x0); [exact Hin0 | now rewrite Hx0].
      * apply (filter_nonempty _ _ x1); [exact Hin1 | now rewrite Hx1].
Qed.

Lemma searchRound_reads bus frozen d cr s :
  let slot := [PullLow; DelayUs 6; ReleaseBus; DelayUs 9] in
  let b1 := bus (SensorDiscovery.line s ++ slot) in
  let l1 := SensorDiscovery.line s ++ SensorDiscovery.readBitLine b1 in
  let b0 := bus (l1 ++ slot) in
  let l2 := l1 ++ SensorDiscovery.readBitLine b0 in
  SensorDiscovery.searchRound bus frozen d cr s =
    let s2 := SensorDiscovery.set_line l2 s in
    let response := Z.lor (Z.shiftl (Z.b2z b1) 1) (Z.b2z b0) in
    let '(ret, cr', s3) :=
      if response =? 2 then (None, 1, s2)
      else if response =? 1 then (None, 0, s2)
      else if response =? 0 then
        if d <=? frozen
        then (None, Z.b2z (SensorDiscovery.isBitInID d s2), s2)
        else (None, 0, SensorDiscovery.setForkPoint d s2)
      else if response =? 3 then (Some 2, cr, s2)
      else (None, cr, s2) in
    match ret with
    | Some code => (Some code, cr', s3)
    | None =>
        if cr' =? 1
        then (None, cr', SensorDiscovery.sendBit 1 (SensorDiscovery.setBitInID d s3))
        else (None, cr', SensorDiscovery.sendBit 0 (SensorDiscovery.unsetBitInID d s3))
    end.
Proof.
  intros slot b1 l1 b0 l2.
  unfold SensorDiscovery.searchRound. rewrite readBit_eq. cbv beta iota zeta.
  rewrite readBit_eq. cbv beta iota zeta.
  cbn [SensorDiscovery.line SensorDiscovery.set_line].
  destruct s as [ib fk ft ln]. reflexivity.
Qed.

Lemma dev_round D frozen d cr s C lv :
  (d < 64)%nat ->
  length (SensorDiscovery.inputBuf s) = 8%nat ->
  length (SensorDiscovery.fork s) = 8%nat ->
  feed D devInit (SensorDiscovery.line s) = mkDev (DevSearch C d ReadBit) false lv ->
  C <> [] ->
  let ch := choice frozen C d (SensorDiscovery.inputBuf s) in
  let fk := forksAt frozen C d in
  exists s',
    (forall n, SensorDiscovery.searchLoop (devices D) (S n) frozen (Z.of_nat d) cr s
               = SensorDiscovery.searchLoop (devices D) n frozen (Z.of_nat d + 1)
                                            (Z.b2z ch) s') /\
    length (SensorDiscovery.inputBuf s') = 8%nat /\
    length (SensorDiscovery.fork s') = 8%nat /\
    (Forall (fun v => 0 <= v < 256) (SensorDiscovery.inputBuf s) ->
     Forall (fun v => 0 <= v < 256) (SensorDiscovery.inputBuf s')) /\
    SensorDiscovery.firstTime s' = SensorDiscovery.firstTime s /\
    (forall j, (j < 64)%nat ->
       idBit (SensorDiscovery.inputBuf s') j
       = if (j =? d)%nat then ch else idBit (SensorDiscovery.inputBuf s) j) /\
    (forall j, (j < 64)%nat ->
       idBit (SensorDiscovery.fork s') j
       = (fk && (j =? d)%nat) || idBit (SensorDiscovery.fork s) j) /\
    feed D devInit (SensorDiscovery.line s')
    = mkDev (if (d =? 63)%nat then DevIdle
             else DevSearch (List.filter (fun id => Bool.eqb (idBit id d) ch) C)
                            (S d) ReadBit)
            false true.
Proof.
  intros Hd Hlen Hflen Hfeed HC ch fk.
  pose proof (searchRound_reads (devices D) frozen (Z.of_nat d) cr s) as Hround.
  cbv zeta in Hround.
  set (slot := [PullLow; DelayUs 6; ReleaseBus; DelayUs 9]) in *.
  assert (Hb1 : devices D (SensorDiscovery.line s ++ slot)
                = forallb (fun id => idBit id d) C).
  { unfold devices. rewrite feed_app, Hfeed. apply level_readBit. }
  rewrite Hb1 in Hround.
  set (all1 := forallb (fun id => idBit id d) C) in *.
  set (l1 := SensorDiscovery.line s ++ SensorDiscovery.readBitLine all1) in *.
  assert (Hb0 : devices D (l1 ++ slot) = forallb (fun id => negb (idBit id d)) C).
  { unfold devices, l1. rewrite !feed_app, Hfeed, feed_readBit.
    apply level_readComplement. }
  rewrite Hb0 in Hround.
  set (all0 := forallb (fun id => negb (idBit id d)) C) in *.
  set (l2 := l1 ++ SensorDiscovery.readBitLine all0) in *.
  assert (Hfeed2 : forall c,
             feed D devInit (l2 ++ SensorDiscovery.sendBitLine c)
             = mkDev (if (d =? 63)%nat then DevIdle
                      else DevSearch (List.filter (fun id => Bool.eqb (idBit id d) c) C)
                                     (S d) ReadBit) false true).
  { intros c. unfold l2, l1.
    rewrite !feed_app, Hfeed, feed_readBit, feed_readComplement. apply feed_sendBit. }
  destruct (choice_has_contender frozen C d (SensorDiscovery.inputBuf s) HC) as [_ Hboth].
  fold all1 all0 in Hboth.
  assert (Hdz : 0 <= Z.of_nat d < 64) by lia.
  assert (Hcases :
            SensorDiscovery.roundChooses (devices D) frozen (Z.of_nat d) cr s l2 ch fk).
  { unfold ch, fk, choice, forksAt. fold all1 all0.
    destruct all1, all0; try discriminate Hboth;
      cbn [Z.b2z Z.shiftl Z.lor Pos.iter Z.mul Pos.mul Z.eqb Pos.eqb Pos.lor] in Hround;
      cbn [negb andb].
    - apply (round_continues _ _ _ _ s true false l2 (SensorDiscovery.set_line l2 s));
        auto.
    - apply (round_continues _ _ _ _ s false false l2 (SensorDiscovery.set_line l2 s));
        auto.
    - destruct (Z.of_nat d <=? frozen); cbn [negb].
      + apply (round_continues _ _ _ _ s _ false l2 (SensorDiscovery.set_line l2 s));
          auto.
        rewrite Hround.
        change (SensorDiscovery.isBitInID (Z.of_nat d) (SensorDiscovery.set_line l2 s))
          with (idBit (SensorDiscovery.inputBuf s) d).
        destruct (idBit (SensorDiscovery.inputBuf s) d); reflexivity.
      + apply (round_continues _ _ _ _ s false true l2
                 (SensorDiscovery.set_line l2
                    (SensorDiscovery.setForkPoint (Z.of_nat d) s)));
          auto. }
  destruct Hcases as (s' & _ & Hbuf & Hbits & Hfork & Hforks & Hline & Hft & Hloop).
  exists s'. split; [exact Hloop|].
  split; [rewrite Hbuf; destruct ch; now rewrite ?setBit_length, ?unsetBit_length|].
  split; [rewrite Hfork; destruct fk; now rewrite ?setBit_length|].
  split.
  { intros Hr. rewrite Hbuf. destruct ch; [now apply setBit_range | now apply unsetBit_range]. }
  split; [exact Hft|]. split; [|split].
  - intros j Hj. unfold idBit.
    change (SensorDiscovery.isBit (SensorDiscovery.inputBuf s') (Z.of_nat j))
      with (SensorDiscovery.isBitInID (Z.of_nat j) s').
    rewrite Hbits by lia.
    destruct (Nat.eqb_spec j d) as [-> | Hne].
    + now rewrite Z.eqb_refl.
    + replace (Z.of_nat j =? Z.of_nat d) with false by (symmetry; apply Z.eqb_neq; lia).
      reflexivity.
  - intros j Hj. unfold idBit.
    change (SensorDiscovery.isBit (SensorDiscovery.fork s') (Z.of_nat j))
      with (SensorDiscovery.isForkPoint (Z.of_nat j) s').
    rewrite Hforks by lia.
    destruct (Nat.eqb_spec j d) as [-> | Hne].
    + rewrite Z.eqb_refl. destruct fk; reflexivity.
    + replace (Z.of_nat j =? Z.of_nat d) with false by (symmetry; apply Z.eqb_neq; lia).
      rewrite !andb_false_r. reflexivity.
  - rewrite Hline. apply Hfeed2.
Qed.

Lemma agrees_S buf id lo m :
  agrees buf id lo (S m)
  = Bool.eqb (idBit id lo) (idBit buf lo) && agrees buf id (S lo) m.
Proof. reflexivity. Qed.

Lemma agrees_ext buf buf' id lo n :
  (forall i, (lo <= i < lo + n)%nat -> idBit buf i = idBit buf' i) ->
  agrees buf id lo n = agrees buf' id lo n.
Proof.
  revert lo. induction n as [|n IH]; intros lo H; [reflexivity|].
  rewrite !agrees_S, (H lo) by lia. f_equal. apply IH. intros i Hi. apply H. lia.
Qed.

Lemma agrees_spec buf id lo n :
  agrees buf id lo n = true <->
  forall i, (lo <= i < lo + n)%nat -> idBit id i = idBit buf i.
Proof.
  unfold agrees. rewrite forallb_forall. split.
  - intros H i Hi. apply eqb_prop, H, in_seq. lia.
  - intros H i Hi. apply in_seq in Hi. rewrite (H i) by lia. apply eqb_reflx.
Qed.

Lemma filter_filter {A} (f g : A -> bool) l :
  List.filter g (List.filter f l) = List.filter (fun x => f x && g x) l.
Proof.
  induction l as [|x l IH]; [reflexivity|]. simpl.
  destruct (f x); simpl; [destruct (g x)|]; now rewrite IH.
Qed.

Lemma filter_true {A} (l : list A) : List.filter (fun _ => true) l = l.
Proof. induction l as [|x l IH]; [reflexivity|]. simpl. now rewrite IH. Qed.

Lemma choice_ext frozen C d buf buf' :
  idBit buf d = idBit buf' d -> choice frozen C d buf = choice frozen C d buf'.
Proof. intros H. unfold choice. now rewrite H. Qed.

(** The rounds from depth [d] on, with the contenders [C] left on the
    line: 64 is reached, and at each depth the bit taken and the fork
    point marked are those of [choice] and [forksAt] for the contenders
    that have the bits taken so far. *)
Lemma searchLoop_devices D frozen : forall n d cr s C lv,
  (d + n = 64)%nat ->
  length (SensorDiscovery.inputBuf s) = 8%nat ->
  length (SensorDiscovery.fork s) = 8%nat ->
  ((d < 64)%nat ->
   feed D devInit (SensorDiscovery.line s) = mkDev (DevSearch C d ReadBit) false lv) ->
  C <> [] ->
  exists s',
    SensorDiscovery.searchLoop (devices D) n frozen (Z.of_nat d) cr s = (0, s') /\
    length (SensorDiscovery.inputBuf s') = 8%nat /\
    length (SensorDiscovery.fork s') = 8%nat /\
    (Forall (fun v => 0 <= v < 256) (SensorDiscovery.inputBuf s) ->
     Forall (fun v => 0 <= v < 256) (SensorDiscovery.inputBuf s')) /\
    SensorDiscovery.firstTime s' = SensorDiscovery.firstTime s /\
    (forall j, (j < d)%nat ->
       idBit (SensorDiscovery.inputBuf s') j = idBit (SensorDiscovery.inputBuf s) j /\
       idBit (SensorDiscovery.fork s') j = idBit (SensorDiscovery.fork s) j) /\
    (forall j, (d <= j < 64)%nat ->
       let Cj := List.filter
                   (fun id => agrees (SensorDiscovery.inputBuf s') id d (j - d)) C in
       Cj <> [] /\
       idBit (SensorDiscovery.inputBuf s') j
       = choice frozen Cj j (SensorDiscovery.inputBuf s) /\
       idBit (SensorDiscovery.fork s') j
       = forksAt frozen Cj j || idBit (SensorDiscovery.fork s) j) /\
    List.filter (fun id => agrees (SensorDiscovery.inputBuf s') id d (64 - d)) C <> [].
Proof.
  induction n as [|n IH]; intros d cr s C lv Hdn Hlen Hflen Hfeed HC.
  - exists s. assert (d = 64%nat) by lia. subst d.
    repeat split; auto; try lia.
    replace (64 - 64)%nat with 0%nat by lia.
    change (fun id => agrees (SensorDiscovery.inputBuf s) id 64 0)
      with (fun _ : list Z => true).
    now rewrite filter_true.
  - assert (Hd : (d < 64)%nat) by lia.
    destruct (dev_round D frozen d cr s C lv Hd Hlen Hflen (Hfeed Hd) HC)
      as (s1 & Hloop & Hlen1 & Hflen1 & Hrange1 & Hft1 & Hbits1 & Hforks1 & Hfeed1).
    set (ch := choice frozen C d (SensorDiscovery.inputBuf s)) in *.
    set (C1 := List.filter (fun id => Bool.eqb (idBit id d) ch) C) in *.
    assert (HC1 : C1 <> [])
      by apply (choice_has_contender frozen C d (SensorDiscovery.inputBuf s) HC).
    destruct (IH (S d) (Z.b2z ch) s1 C1 true ltac:(lia) Hlen1 Hflen1) as
        (s' & Hrun & Hlen' & Hflen' & Hrange' & Hft' & Hlow & Hhigh & Hlast); auto.
    { intros HSd. rewrite Hfeed1.
      replace (d =? 63)%nat with false by (symmetry; apply Nat.eqb_neq; lia).
      reflexivity. }
    assert (Hbitd : idBit (SensorDiscovery.inputBuf s') d = ch).
    { destruct (Hlow d ltac:(lia)) as [-> _]. rewrite Hbits1 by lia.
      now rewrite Nat.eqb_refl. }
    assert (Hfilter : forall m,
               List.filter (fun id => agrees (SensorDiscovery.inputBuf s') id (S d) m) C1
               = List.filter
                   (fun id => agrees (SensorDiscovery.inputBuf s') id d (S m)) C).
    { intros m. unfold C1. rewrite filter_filter. apply List.filter_ext.
      intros id. now rewrite agrees_S, Hbitd. }
    exists s'. split.
    { rewrite Hloop. replace (Z.of_nat d + 1) with (Z.of_nat (S d)) by lia. exact Hrun. }
    split; [exact Hlen'|]. split; [exact Hflen'|]. split; [auto|].
    split; [congruence|]. split; [|split].
    + intros j Hj. destruct (Hlow j ltac:(lia)) as [-> ->].
      rewrite Hbits1, Hforks1 by lia.
      replace (j =? d)%nat with false by (symmetry; apply Nat.eqb_neq; lia).
      rewrite andb_false_r. auto.
    + intros j Hj. cbv zeta.
      destruct (Nat.eq_dec j d) as [-> | Hne].
      * replace (d - d)%nat with 0%nat by lia.
        change (fun id => agrees (SensorDiscovery.inputBuf s') id d 0)
          with (fun _ : list Z => true).
        rewrite filter_true. split; [exact HC|]. split; [exact Hbitd|].
        destruct (Hlow d ltac:(lia)) as [_ ->]. rewrite Hforks1 by lia.
        now rewrite Nat.eqb_refl, andb_true_r.
      * specialize (Hhigh j ltac:(lia)). cbv zeta in Hhigh.
        replace (j - d)%nat with (S (j - S d)) by lia.
        rewrite <- Hfilter.
        destruct Hhigh as (Hne' & Hb & Hf).
        split; [exact Hne'|]. split.
        -- rewrite Hb. apply choice_ext. rewrite Hbits1 by lia.
           replace (j =? d)%nat with false by (symmetry; apply Nat.eqb_neq; lia).
           reflexivity.
        -- rewrite Hf, Hforks1 by lia.
           replace (j =? d)%nat with false by (symmetry; apply Nat.eqb_neq; lia).
           now rewrite andb_false_r.
    + replace (64 - d)%nat with (S (64 - S d)) by lia. rewrite <- Hfilter. exact Hlast.
Qed.

Lemma searchFrom_devices D frozen s :
  length (SensorDiscovery.inputBuf s) = 8%nat ->
  length (SensorDiscovery.fork s) = 8%nat ->
  D <> [] ->
  exists s',
    SensorDiscovery.searchFrom (devices D) frozen s = (0, s') /\
    length (SensorDiscovery.inputBuf s') = 8%nat /\
    length (SensorDiscovery.fork s') = 8%nat /\
    (Forall (fun v => 0 <= v < 256) (SensorDiscovery.inputBuf s) ->
     Forall (fun v => 0 <= v < 256) (SensorDiscovery.inputBuf s')) /\
    SensorDiscovery.firstTime s' = SensorDiscovery.firstTime s /\
    (forall j, (j < 64)%nat ->
       let Cj := List.filter
                   (fun id => agrees (SensorDiscovery.inputBuf s') id 0 j) D in
       Cj <> [] /\
       idBit (SensorDiscovery.inputBuf s') j
       = choice frozen Cj j (SensorDiscovery.inputBuf s) /\
       idBit (SensorDiscovery.fork s') j
       = forksAt frozen Cj j || idBit (SensorDiscovery.fork s) j) /\
    List.filter (fun id => agrees (SensorDiscovery.inputBuf s') id 0 64) D <> [].
Proof.
  intros Hlen Hflen HD.
  unfold SensorDiscovery.searchFrom. rewrite Reset_devices.
  assert (Hnil : isNil D = false) by (destruct D; [congruence | reflexivity]).
  rewrite Hnil. cbn [Z.b2z Z.eqb negb]. unfold SensorDiscovery.sendByte.
  rewrite sendBits_line.
  set (s1 := SensorDiscovery.set_line _ _).
  destruct (searchLoop_devices D frozen 64 0 42 s1 D true eq_refl Hlen Hflen) as
      (s' & Hrun & Hlen' & Hflen' & Hrange' & Hft' & _ & Hhigh & Hlast); auto.
  { intros _. unfold s1. cbn [SensorDiscovery.line SensorDiscovery.set_line].
    rewrite !feed_app, feed_reset. apply feed_searchrom. }
  exists s'. split; [exact Hrun|]. repeat split; auto.
  - specialize (Hhigh j ltac:(lia)). rewrite Nat.sub_0_r in Hhigh. apply Hhigh.
  - specialize (Hhigh j ltac:(lia)). rewrite Nat.sub_0_r in Hhigh. apply Hhigh.
  - specialize (Hhigh j ltac:(lia)). rewrite Nat.sub_0_r in Hhigh. apply Hhigh.
Qed.

Lemma searchFrom_no_devices frozen s :
  SensorDiscovery.searchFrom (devices []) frozen s
  = (1, SensorDiscovery.set_line
          (SensorDiscovery.line s ++ SensorDiscovery.resetLine true) s).
Proof. unfold SensorDiscovery.searchFrom. rewrite Reset_devices. reflexivity. Qed.

(** * What the search finds *)

Lemma idBit_testbit a i k :
  (i < 8)%nat -> (k < 8)%nat ->
  idBit a (8 * i + k) = Z.testbit (nth i a 0) (Z.of_nat k).
Proof.
  intros Hi Hk. unfold idBit. rewrite isBit_testbit by lia.
  replace (Z.of_nat (8 * i + k) / 8) with (Z.of_nat i)
    by (apply (Z.div_unique _ 8 _ (Z.of_nat k)); lia).
  replace (Z.of_nat (8 * i + k) mod 8) with (Z.of_nat k)
    by (apply (Z.mod_unique _ 8 (Z.of_nat i)); lia).
  now rewrite Nat2Z.id.
Qed.

Lemma bytes_ext a b :
  isID a -> isID b ->
  (forall j, (j < 64)%nat -> idBit a j = idBit b j) -> a = b.
Proof.
  intros [Hla Hra] [Hlb Hrb] Hbits.
  apply (list_eq_same_length a b 8 Hlb Hla). intros i x y Hi Hx Hy.
  assert (Hxr : 0 <= x < 256) by (eapply (proj1 (Forall_lookup _ _) Hra); eassumption).
  assert (Hyr : 0 <= y < 256) by (eapply (proj1 (Forall_lookup _ _) Hrb); eassumption).
  apply Z.bits_inj'. intros k Hk.
  destruct (Z.ltb_spec k 8) as [Hlt | Hge].
  - specialize (Hbits (8 * i + Z.to_nat k)%nat ltac:(lia)).
    rewrite !idBit_testbit in Hbits by lia.
    rewrite (nth_lookup_Some a i 0 x Hx), (nth_lookup_Some b i 0 y Hy) in Hbits.
    now rewrite Z2Nat.id in Hbits by lia.
  - rewrite <- (Z.mod_small x (2 ^ 8)), <- (Z.mod_small y (2 ^ 8))
      by (change (2 ^ 8) with 256; lia).
    now rewrite !Z.mod_pow2_bits_high by lia.
Qed.

Lemma first_difference a b n :
  (forall j, (j < n)%nat -> idBit a j = idBit b j) \/
  exists d, (d < n)%nat /\ (forall j, (j < d)%nat -> idBit a j = idBit b j) /\
            idBit a d <> idBit b d.
Proof.
  induction n as [|n IH]; [left; intros j Hj; lia|].
  destruct IH as [Hall | (d & Hd & Hpre & Hne)].
  - destruct (Bool.bool_dec (idBit a n) (idBit b n)) as [Heq | Hne].
    + left. intros j Hj. destruct (Nat.eq_dec j n) as [-> | Hjn]; [exact Heq|].
      apply Hall. lia.
    + right. exists n. split; [lia|]. split; [exact Hall | exact Hne].
  - right. exists d. split; [lia|]. split; [exact Hpre | exact Hne].
Qed.

Lemma differ_somewhere a b :
  isID a -> isID b -> a <> b ->
  exists d, (d < 64)%nat /\ (forall j, (j < d)%nat -> idBit a j = idBit b j) /\
            idBit a d <> idBit b d.
Proof.
  intros Ha Hb Hne. destruct (first_difference a b 64) as [Hall | H]; [|exact H].
  exfalso. apply Hne. now apply bytes_ext.
Qed.

Lemma choice_unanimous frozen C d buf v :
  C <> [] -> (forall c, In c C -> idBit c d = v) ->
  choice frozen C d buf = v /\ forksAt frozen C d = false.
Proof.
  intros HC Hall. unfold choice, forksAt. destruct v.
  - replace (forallb (fun id => idBit id d) C) with true
      by (symmetry; apply forallb_forall; auto).
    auto.
  - replace (forallb (fun id => negb (idBit id d)) C) with true
      by (symmetry; apply forallb_forall; intros c Hc; now rewrite (Hall c Hc)).
    destruct C as [|c C]; [congruence|].
    replace (forallb (fun id => idBit id d) (c :: C)) with false.
    + auto.
    + symmetry. simpl. rewrite (Hall c) by (left; reflexivity). reflexivity.
Qed.

Lemma choice_conflict frozen C d buf c0 c1 :
  In c0 C -> idBit c0 d = false -> In c1 C -> idBit c1 d = true ->
  choice frozen C d buf = (if Z.of_nat d <=? frozen then idBit buf d else false) /\
  forksAt frozen C d = negb (Z.of_nat d <=? frozen).
Proof.
  intros Hin0 H0 Hin1 H1. unfold choice, forksAt.
  assert (Ha1 : forallb (fun id => idBit id d) C = false).
  { destruct (forallb (fun id => idBit id d) C) eqn:E; [|reflexivity].
    rewrite forallb_forall in E. rewrite (E c0 Hin0) in H0. discriminate. }
  assert (Ha0 : forallb (fun id => negb (idBit id d)) C = false).
  { destruct (forallb (fun id => negb (idBit id d)) C) eqn:E; [|reflexivity].
    rewrite forallb_forall in E. specialize (E c1 Hin1). rewrite H1 in E. discriminate. }
  rewrite Ha1, Ha0. auto.
Qed.

Lemma in_contenders buf D lo n c :
  In c (List.filter (fun id => agrees buf id lo n) D) <->
  In c D /\ forall i, (lo <= i < lo + n)%nat -> idBit c i = idBit buf i.
Proof. rewrite filter_In, agrees_spec. reflexivity. Qed.

Lemma nonempty_has_member {A} (l : list A) : l <> [] -> exists x, In x l.
Proof. destruct l as [|x l]; [congruence|]. intros _. exists x. left. reflexivity. Qed.

Lemma unsetBitsFrom_range n : forall from s,
  Forall (fun v => 0 <= v < 256) (SensorDiscovery.inputBuf s) ->
  Forall (fun v => 0 <= v < 256)
         (SensorDiscovery.inputBuf (SensorDiscovery.unsetBitsFrom n from s)).
Proof.
  induction n as [|n IH]; intros from s Hs; [exact Hs|].
  cbn [SensorDiscovery.unsetBitsFrom]. apply IH. simpl. now apply unsetBit_range.
Qed.

Lemma backtrack_range d s :
  Forall (fun v => 0 <= v < 256) (SensorDiscovery.inputBuf s) ->
  Forall (fun v => 0 <= v < 256)
         (SensorDiscovery.inputBuf (SensorDiscovery.backtrack d s)).
Proof.
  intros Hs. unfold SensorDiscovery.backtrack. cbv zeta. simpl.
  apply setBit_range. now apply unsetBitsFrom_range.
Qed.

Lemma found_is_a_device D frozen s :
  Forall isID D -> isID (SensorDiscovery.inputBuf s) ->
  length (SensorDiscovery.fork s) = 8%nat ->
  D <> [] ->
  exists s', SensorDiscovery.searchFrom (devices D) frozen s = (0, s') /\
             In (SensorDiscovery.inputBuf s') D.
Proof.
  intros HD [Hlen Hrange] Hflen Hne.
  destruct (searchFrom_devices D frozen s Hlen Hflen Hne)
    as (s' & Hrun & Hlen' & _ & Hrange' & _ & _ & Hlast).
  exists s'. split; [exact Hrun|].
  destruct (nonempty_has_member _ Hlast) as (c & Hc).
  apply in_contenders in Hc as [Hin Hbits].
  replace (SensorDiscovery.inputBuf s') with c; [exact Hin|].
  apply bytes_ext.
  - eapply (proj1 (Forall_forall _ _) HD). now apply list_elem_of_In.
  - split; auto.
  - intros j Hj. apply Hbits. lia.
Qed.

(** X20: with the devices [D] on the line, whatever the state of the
    search, [findNextDevice] returns 0 or 1, never the code 2 of the
    reading 11.  When it returns 0 the buffer holds the ROM ID of one of
    the devices.  With no device on the line it returns 1. *)
Theorem search_reports_a_device (D : list (list Z)) (s s' : SensorDiscovery.state)
        (code : Z) :
  Forall isID D ->
  isID (SensorDiscovery.inputBuf s) ->
  length (SensorDiscovery.fork s) = 8%nat ->
  SensorDiscovery.findNextDevice (devices D) s = (code, s') ->
  (code = SensorDiscovery.Found \/ code = SensorDiscovery.Exhausted) /\
  (code = SensorDiscovery.Found -> In (SensorDiscovery.inputBuf s') D) /\
  (D = [] -> code = SensorDiscovery.Exhausted).
Proof.
  intros HD Hid Hflen Hcall.
  unfold SensorDiscovery.findNextDevice in Hcall.
  assert (Hsearch : forall frozen s0,
             isID (SensorDiscovery.inputBuf s0) ->
             length (SensorDiscovery.fork s0) = 8%nat ->
             SensorDiscovery.searchFrom (devices D) frozen s0 = (code, s') ->
             (code = 0 \/ code = 1) /\
             (code = 0 -> In (SensorDiscovery.inputBuf s') D) /\ (D = [] -> code = 1)).
  { intros frozen s0 Hid0 Hfl0 Hrun. destruct D as [|c D].
    - rewrite searchFrom_no_devices in Hrun. injection Hrun as <- _.
      repeat split; auto. discriminate.
    - destruct (found_is_a_device (c :: D) frozen s0 HD Hid0 Hfl0 ltac:(discriminate))
        as (s1 & Hrun1 & Hin).
      rewrite Hrun1 in Hrun. injection Hrun as <- <-.
      repeat split; auto. discriminate. }
  destruct (SensorDiscovery.firstTime s).
  - apply (Hsearch _ (SensorDiscovery.set_firstTime false s) Hid Hflen Hcall).
  - pose proof (lastForkBelow_spec 64 s) as Hspec. cbv zeta in Hspec.
    fold (SensorDiscovery.findLastForkPoint s) in Hspec.
    change (Z.of_nat 64) with 64 in Hspec.
    destruct Hspec as [[Hd _] | (Hd & _)].
    + rewrite Hd in Hcall. injection Hcall as <- _.
      repeat split; auto. discriminate.
    + replace (SensorDiscovery.findLastForkPoint s <? 0) with false in Hcall
        by (symmetry; apply Z.ltb_ge; lia).
      destruct Hid as [Hlen Hrange].
      destruct (backtrack_spec _ s Hlen Hflen Hd) as (Hl & Hf & _).
      apply (Hsearch _ _ (conj Hl (backtrack_range _ s Hrange)) Hf Hcall).
Qed.

Lemma search_reports_a_device_witness :
  Forall isID [sampleAddress] /\
  isID (SensorDiscovery.inputBuf SensorDiscovery.forkedState) /\
  length (SensorDiscovery.fork SensorDiscovery.forkedState) = 8%nat /\
  SensorDiscovery.findNextDevice (devices [sampleAddress]) SensorDiscovery.forkedState
  = (0, snd (SensorDiscovery.findNextDevice (devices [sampleAddress])
               SensorDiscovery.forkedState)) /\
  In (SensorDiscovery.inputBuf
        (snd (SensorDiscovery.findNextDevice (devices [sampleAddress])
                SensorDiscovery.forkedState))) [sampleAddress].
Proof.
  assert (Hid : isID sampleAddress) by (split; [reflexivity | repeat constructor; lia]).
  assert (HD : Forall isID [sampleAddress])
    by (apply List.Forall_cons; [exact Hid | apply List.Forall_nil]).
  assert (Hcall : SensorDiscovery.findNextDevice (devices [sampleAddress])
                    SensorDiscovery.forkedState
                  = (0, snd (SensorDiscovery.findNextDevice (devices [sampleAddress])
                               SensorDiscovery.forkedState)))
    by (vm_compute; reflexivity).
  split; [exact HD|]. split; [exact Hid|]. split; [reflexivity|]. split; [exact Hcall|].
  apply (search_reports_a_device [sampleAddress] SensorDiscovery.forkedState _ 0
           HD Hid eq_refl Hcall).
  reflexivity.
Defined.

Lemma idBit_zero j : idBit (replicate 8 0) j = false.
Proof.
  unfold idBit, SensorDiscovery.isBit.
  replace (nth (Z.to_nat (Z.of_nat j / 8)) (replicate 8 0) 0) with 0.
  - reflexivity.
  - generalize (Z.to_nat (Z.of_nat j / 8)). intros k.
    do 9 (destruct k as [|k]; [reflexivity|]). reflexivity.
Qed.

Lemma first_search D buf s :
  D <> [] -> Forall isID D -> length buf = 8%nat ->
  exists s1,
    SensorDiscovery.findNextDevice (devices D) (SensorDiscovery.begin buf s) = (0, s1) /\
    SensorDiscovery.firstTime s1 = false /\
    isID (SensorDiscovery.inputBuf s1) /\
    length (SensorDiscovery.fork s1) = 8%nat /\
    In (SensorDiscovery.inputBuf s1) D /\
    forall j, (j < 64)%nat ->
      let Cj := List.filter (fun id => agrees (SensorDiscovery.inputBuf s1) id 0 j) D in
      Cj <> [] /\
      idBit (SensorDiscovery.inputBuf s1) j = forallb (fun id => idBit id j) Cj /\
      idBit (SensorDiscovery.fork s1) j
      = negb (forallb (fun id => idBit id j) Cj)
        && negb (forallb (fun id => negb (idBit id j)) Cj).
Proof.
  intros HD HID Hbuf.
  set (s0 := SensorDiscovery.set_firstTime false (SensorDiscovery.begin buf s)).
  assert (Hib : SensorDiscovery.inputBuf s0 = replicate 8 0).
  { unfold s0. simpl. rewrite drop_ge by lia. reflexivity. }
  assert (Hlen : length (SensorDiscovery.inputBuf s0) = 8%nat) by (now rewrite Hib).
  assert (Hrange : Forall (fun v => 0 <= v < 256) (SensorDiscovery.inputBuf s0)).
  { rewrite Hib. repeat (apply List.Forall_cons; [lia|]). apply List.Forall_nil. }
  destruct (searchFrom_devices D (-1) s0 Hlen eq_refl HD)
    as (s1 & Hrun & Hlen1 & Hflen1 & Hrange1 & Hft1 & Hhigh & Hlast).
  exists s1. split; [exact Hrun|]. split; [exact Hft1|].
  split; [split; auto|]. split; [exact Hflen1|]. split.
  - destruct (nonempty_has_member _ Hlast) as (c & Hc).
    apply in_contenders in Hc as [Hin Hbits].
    replace (SensorDiscovery.inputBuf s1) with c; [exact Hin|].
    apply bytes_ext.
    + eapply (proj1 (Forall_forall _ _) HID). now apply list_elem_of_In.
    + split; auto.
    + intros j Hj. apply Hbits. lia.
  - intros j Hj. destruct (Hhigh j Hj) as (Hne & Hb & Hf). cbv zeta.
    split; [exact Hne|]. split.
    + rewrite Hb. unfold choice.
      replace (Z.of_nat j <=? -1) with false by (symmetry; apply Z.leb_gt; lia).
      destruct (forallb _ _); [reflexivity|]. destruct (forallb _ _); reflexivity.
    + rewrite Hf. unfold forksAt.
      replace (Z.of_nat j <=? -1) with false by (symmetry; apply Z.leb_gt; lia).
      change (SensorDiscovery.fork s0) with (replicate 8 0).
      now rewrite idBit_zero, orb_false_r, andb_true_r.
Qed.

Lemma first_search_least D buf s :
  D <> [] -> Forall isID D -> length buf = 8%nat ->
  exists s1,
    SensorDiscovery.findNextDevice (devices D) (SensorDiscovery.begin buf s) = (0, s1) /\
    SensorDiscovery.firstTime s1 = false /\
    isID (SensorDiscovery.inputBuf s1) /\
    length (SensorDiscovery.fork s1) = 8%nat /\
    In (SensorDiscovery.inputBuf s1) D /\
    (forall y, In y D -> y <> SensorDiscovery.inputBuf s1 ->
       exists d, (d < 64)%nat /\
                 (forall j, (j < d)%nat -> idBit y j = idBit (SensorDiscovery.inputBuf s1) j) /\
                 idBit (SensorDiscovery.inputBuf s1) d = false /\ idBit y d = true) /\
    (forall d, (d < 64)%nat ->
       (idBit (SensorDiscovery.fork s1) d = true <->
        idBit (SensorDiscovery.inputBuf s1) d = false /\
        exists y, In y D /\
                  (forall j, (j < d)%nat ->
                             idBit y j = idBit (SensorDiscovery.inputBuf s1) j) /\
                  idBit y d = true)).
Proof.
  intros HD HID Hbuf.
  destruct (first_search D buf s HD HID Hbuf)
    as (s1 & Hrun & Hft & Hid1 & Hflen & Hin & Hbits).
  exists s1. split; [exact Hrun|]. split; [exact Hft|]. split; [exact Hid1|].
  split; [exact Hflen|]. split; [exact Hin|]. split.
  - intros y Hy Hne.
    assert (HyID : isID y)
      by (eapply (proj1 (Forall_forall _ _) HID); now apply list_elem_of_In).
    destruct (differ_somewhere y _ HyID Hid1 Hne) as (d & Hd & Hpre & Hdiff).
    exists d. split; [exact Hd|]. split; [exact Hpre|].
    destruct (Hbits d Hd) as (_ & Hb & _).
    assert (HyC : In y (List.filter
                          (fun id => agrees (SensorDiscovery.inputBuf s1) id 0 d) D)).
    { apply in_contenders. split; [exact Hy|]. intros i Hi. apply Hpre. lia. }
    destruct (idBit (SensorDiscovery.inputBuf s1) d) eqn:Hx.
    + exfalso. symmetry in Hb. rewrite forallb_forall in Hb.
      apply Hdiff. now rewrite (Hb y HyC).
    + split; [reflexivity|]. destruct (idBit y d); [reflexivity | congruence].
  - intros d Hd. destruct (Hbits d Hd) as (_ & Hb & Hf). rewrite Hf.
    rewrite andb_true_iff, !negb_true_iff. split.
    + intros [H1 H0]. split; [now rewrite Hb|].
      destruct (forallb_false_witness _ _ H0) as (y & Hy & Hyd).
      apply negb_false_iff in Hyd. apply in_contenders in Hy as [HyD Hpre].
      exists y. split; [exact HyD|]. split; [|exact Hyd].
      intros j Hj. apply Hpre. lia.
    + intros [Hx (y & HyD & Hpre & Hyd)]. split; [now rewrite <- Hb|].
      destruct (forallb (fun id => negb (idBit id d)) _) eqn:E; [|reflexivity].
      rewrite forallb_forall in E.
      assert (HyC : In y (List.filter
                            (fun id => agrees (SensorDiscovery.inputBuf s1) id 0 d) D)).
      { apply in_contenders. split; [exact HyD|]. intros i Hi. apply Hpre. lia. }
      specialize (E y HyC). rewrite Hyd in E. discriminate.
Qed.

(** X21: the first call after [begin], with the devices [D] on the line:
    it returns 0 with the ROM ID of a device in the buffer, the one that
    comes first when IDs are compared bit by bit from bit 0 on, a 0 before
    a 1.  The fork map then marks exactly the depths at which the search
    took a 0 while a device with the same bits so far has a 1. *)
Theorem first_search_finds_least (D : list (list Z)) (buf : list Z)
        (s : SensorDiscovery.state) :
  D <> [] -> Forall isID D -> length buf = 8%nat ->
  exists s1,
    SensorDiscovery.findNextDevice (devices D) (SensorDiscovery.begin buf s)
    = (SensorDiscovery.Found, s1) /\
    In (SensorDiscovery.inputBuf s1) D /\
    (forall y, In y D -> y <> SensorDiscovery.inputBuf s1 ->
       exists d, (d < 64)%nat /\
                 (forall j, (j < d)%nat -> idBit y j = idBit (SensorDiscovery.inputBuf s1) j) /\
                 idBit (SensorDiscovery.inputBuf s1) d = false /\ idBit y d = true) /\
    (forall d, (d < 64)%nat ->
       (SensorDiscovery.isForkPoint (Z.of_nat d) s1 = true <->
        idBit (SensorDiscovery.inputBuf s1) d = false /\
        exists y, In y D /\
                  (forall j, (j < d)%nat ->
                             idBit y j = idBit (SensorDiscovery.inputBuf s1) j) /\
                  idBit y d = true)).
Proof.
  intros HD HID Hbuf.
  destruct (first_search_least D buf s HD HID Hbuf)
    as (s1 & Hrun & _ & _ & _ & Hin & Hmin & Hforks).
  exists s1. auto.
Qed.

Lemma first_search_finds_least_witness :
  [sampleAddress; [0x10; 0; 0; 0; 0; 0; 0; 0x5A]] <> [] /\
  exists s1,
    SensorDiscovery.findNextDevice
      (devices [sampleAddress; [0x10; 0; 0; 0; 0; 0; 0; 0x5A]])
      (SensorDiscovery.begin sampleAddress SensorDiscovery.exhaustedState)
    = (SensorDiscovery.Found, s1) /\
    In (SensorDiscovery.inputBuf s1) [sampleAddress; [0x10; 0; 0; 0; 0; 0; 0; 0x5A]].
Proof.
  assert (Hne : [sampleAddress; [0x10; 0; 0; 0; 0; 0; 0; 0x5A]] <> []) by discriminate.
  assert (Hid : isID sampleAddress)
    by (split; [reflexivity | repeat (apply List.Forall_cons; [lia|]); apply List.Forall_nil]).
  assert (Hid2 : isID [0x10; 0; 0; 0; 0; 0; 0; 0x5A])
    by (split; [reflexivity | repeat (apply List.Forall_cons; [lia|]); apply List.Forall_nil]).
  assert (HD : Forall isID [sampleAddress; [0x10; 0; 0; 0; 0; 0; 0; 0x5A]])
    by (apply List.Forall_cons; [exact Hid |
        apply List.Forall_cons; [exact Hid2 | apply List.Forall_nil]]).
  split; [exact Hne|].
  destruct (first_search_finds_least _ sampleAddress SensorDiscovery.exhaustedState
              Hne HD eq_refl) as (s1 & Hrun & Hin & _).
  exists s1. split; [exact Hrun | exact Hin].
Defined.

(** * The search resumed at a fork point *)

Lemma exhausted_call bus s :
  SensorDiscovery.firstTime s = false ->
  (forall j, (j < 64)%nat -> idBit (SensorDiscovery.fork s) j = false) ->
  SensorDiscovery.findNextDevice bus s = (1, s).
Proof.
  intros Hft Hall. unfold SensorDiscovery.findNextDevice. rewrite Hft.
  pose proof (lastForkBelow_spec 64 s) as Hspec. cbv zeta in Hspec.
  fold (SensorDiscovery.findLastForkPoint s) in Hspec.
  change (Z.of_nat 64) with 64 in Hspec.
  destruct Hspec as [[Hd _] | (Hd & Hset & _)].
  - rewrite Hd. reflexivity.
  - specialize (Hall (Z.to_nat (SensorDiscovery.findLastForkPoint s)) ltac:(lia)).
    unfold idBit in Hall. rewrite Z2Nat.id in Hall by lia.
    unfold SensorDiscovery.isForkPoint in Hset. congruence.
Qed.

Lemma last_fork_is s F :
  (F < 64)%nat ->
  idBit (SensorDiscovery.fork s) F = true ->
  (forall j, (F < j < 64)%nat -> idBit (SensorDiscovery.fork s) j = false) ->
  SensorDiscovery.findLastForkPoint s = Z.of_nat F.
Proof.
  intros HF Hset Habove.
  pose proof (lastForkBelow_spec 64 s) as Hspec. cbv zeta in Hspec.
  fold (SensorDiscovery.findLastForkPoint s) in Hspec.
  change (Z.of_nat 64) with 64 in Hspec.
  unfold idBit in *. unfold SensorDiscovery.isForkPoint in Hspec.
  destruct Hspec as [[_ Hall] | (Hd & Hdset & Hdabove)].
  - rewrite Hall in Hset by lia. discriminate.
  - set (d := SensorDiscovery.findLastForkPoint s) in *.
    destruct (Z.lt_trichotomy d (Z.of_nat F)) as [Hlt | [Heq | Hgt]]; [|exact Heq|].
    + rewrite (Hdabove (Z.of_nat F)) in Hset by lia. discriminate.
    + specialize (Habove (Z.to_nat d) ltac:(lia)).
      rewrite Z2Nat.id in Habove by lia. congruence.
Qed.

(** A call that picks the search up at the fork point [F]. *)
Lemma resumed_search D s1 F :
  D <> [] ->
  isID (SensorDiscovery.inputBuf s1) ->
  length (SensorDiscovery.fork s1) = 8%nat ->
  SensorDiscovery.firstTime s1 = false ->
  (F < 64)%nat ->
  idBit (SensorDiscovery.fork s1) F = true ->
  (forall j, (F < j < 64)%nat -> idBit (SensorDiscovery.fork s1) j = false) ->
  exists s2 bt,
    SensorDiscovery.findNextDevice (devices D) s1 = (0, s2) /\
    SensorDiscovery.firstTime s2 = false /\
    isID (SensorDiscovery.inputBuf s2) /\
    length (SensorDiscovery.fork s2) = 8%nat /\
    (forall j, (j < 64)%nat ->
       idBit bt j = if (j <? F)%nat then idBit (SensorDiscovery.inputBuf s1) j
                    else (j =? F)%nat) /\
    forall j, (j < 64)%nat ->
      let Cj := List.filter (fun id => agrees (SensorDiscovery.inputBuf s2) id 0 j) D in
      Cj <> [] /\
      idBit (SensorDiscovery.inputBuf s2) j = choice (Z.of_nat F + 1) Cj j bt /\
      idBit (SensorDiscovery.fork s2) j
      = forksAt (Z.of_nat F + 1) Cj j
        || (idBit (SensorDiscovery.fork s1) j && negb (j =? F)%nat).
Proof.
  intros HD [Hlen Hrange] Hflen Hft HF Hset Habove.
  pose proof (last_fork_is s1 F HF Hset Habove) as Hlast.
  destruct (backtrack_spec (Z.of_nat F) s1 Hlen Hflen ltac:(lia))
    as (Hl & Hf & Hftb & _ & Hbits & Hforks).
  set (sb := SensorDiscovery.backtrack (Z.of_nat F) s1) in *.
  destruct (searchFrom_devices D (Z.of_nat F + 1) sb Hl Hf HD)
    as (s2 & Hrun & Hlen2 & Hflen2 & Hrange2 & Hft2 & Hhigh & _).
  exists s2, (SensorDiscovery.inputBuf sb).
  split.
  { unfold SensorDiscovery.findNextDevice. rewrite Hft, Hlast.
    replace (Z.of_nat F <? 0) with false by (symmetry; apply Z.ltb_ge; lia).
    exact Hrun. }
  split; [congruence|].
  split; [split; [exact Hlen2 | apply Hrange2, backtrack_range, Hrange]|].
  split; [exact Hflen2|]. split.
  - intros j Hj. unfold idBit.
    change (SensorDiscovery.isBit (SensorDiscovery.inputBuf sb) (Z.of_nat j))
      with (SensorDiscovery.isBitInID (Z.of_nat j) sb).
    rewrite Hbits by lia.
    destruct (Nat.ltb_spec j F), (Z.ltb_spec (Z.of_nat j) (Z.of_nat F)); try lia;
      [reflexivity|].
    destruct (Nat.eqb_spec j F), (Z.eqb_spec (Z.of_nat j) (Z.of_nat F)); try lia;
      reflexivity.
  - intros j Hj. destruct (Hhigh j Hj) as (Hne & Hb & Hfk). cbv zeta.
    split; [exact Hne|]. split; [exact Hb|]. rewrite Hfk. f_equal.
    unfold idBit.
    change (SensorDiscovery.isBit (SensorDiscovery.fork sb) (Z.of_nat j))
      with (SensorDiscovery.isForkPoint (Z.of_nat j) sb).
    rewrite Hforks by lia.
    destruct (Nat.eqb_spec j F), (Z.eqb_spec (Z.of_nat j) (Z.of_nat F)); try lia;
      cbn [negb]; rewrite ?andb_false_r, ?andb_true_r; reflexivity.
Qed.

(** ** Two devices *)

Section TwoDevices.

Variable D : list (list Z).
Variables lo hi : list Z.
Variable d0 : nat.

Hypothesis D_members : forall y, In y D <-> y = lo \/ y = hi.
Hypothesis lo_ID : isID lo.
Hypothesis hi_ID : isID hi.
Hypothesis d0_bound : (d0 < 64)%nat.
Hypothesis same_below : forall j, (j < d0)%nat -> idBit lo j = idBit hi j.
Hypothesis lo_bit : idBit lo d0 = false.
Hypothesis hi_bit : idBit hi d0 = true.

Lemma two_nonempty : D <> [].
Proof.
  intros HD. assert (Hin : In lo D) by (apply D_members; auto).
  rewrite HD in Hin. destruct Hin.
Qed.

Lemma two_IDs : Forall isID D.
Proof.
  apply Forall_forall. intros y Hy. apply list_elem_of_In in Hy.
  apply D_members in Hy as [-> | ->]; assumption.
Qed.

Lemma two_first s1 :
  In (SensorDiscovery.inputBuf s1) D ->
  (forall y, In y D -> y <> SensorDiscovery.inputBuf s1 ->
     exists d, (d < 64)%nat /\
               (forall j, (j < d)%nat -> idBit y j = idBit (SensorDiscovery.inputBuf s1) j) /\
               idBit (SensorDiscovery.inputBuf s1) d = false /\ idBit y d = true) ->
  SensorDiscovery.inputBuf s1 = lo.
Proof.
  intros Hin Hmin. apply D_members in Hin as [Hx | Hx]; [exact Hx|]. exfalso.
  assert (Hne : lo <> SensorDiscovery.inputBuf s1).
  { rewrite Hx. intros Heq. rewrite Heq in lo_bit. congruence. }
  destruct (Hmin lo ltac:(apply D_members; auto) Hne) as (d & Hd & Hpre & Hxd & Hld).
  rewrite Hx in Hpre, Hxd.
  destruct (Nat.lt_trichotomy d d0) as [Hlt | [-> | Hgt]].
  - rewrite (same_below d Hlt) in Hld. congruence.
  - congruence.
  - rewrite (Hpre d0 Hgt) in lo_bit. congruence.
Qed.

Lemma two_forks s1 :
  SensorDiscovery.inputBuf s1 = lo ->
  (forall d, (d < 64)%nat ->
     (idBit (SensorDiscovery.fork s1) d = true <->
      idBit (SensorDiscovery.inputBuf s1) d = false /\
      exists y, In y D /\
                (forall j, (j < d)%nat -> idBit y j = idBit (SensorDiscovery.inputBuf s1) j) /\
                idBit y d = true)) ->
  forall d, (d < 64)%nat -> idBit (SensorDiscovery.fork s1) d = (d =? d0)%nat.
Proof.
  intros Hx Hforks d Hd. rewrite Hx in Hforks.
  destruct (Nat.eqb_spec d d0) as [-> | Hne].
  - apply Hforks; [exact Hd|]. split; [exact lo_bit|].
    exists hi. split; [apply D_members; auto|]. split; [|exact hi_bit].
    intros j Hj. symmetry. now apply same_below.
  - destruct (idBit (SensorDiscovery.fork s1) d) eqn:E; [|reflexivity]. exfalso.
    apply (Hforks d Hd) in E as (Hld & y & Hy & Hpre & Hyd).
    apply D_members in Hy as [-> | ->]; [congruence|].
    destruct (Nat.lt_trichotomy d d0) as [Hlt | [Heq | Hgt]]; [|lia|].
    + rewrite (same_below d Hlt) in Hld. congruence.
    + rewrite (Hpre d0 Hgt) in hi_bit. congruence.
Qed.

Lemma two_second s2 bt :
  (forall j, (j < 64)%nat -> idBit bt j = if (j <? d0)%nat then idBit lo j else (j =? d0)%nat) ->
  (forall j, (j < 64)%nat ->
     let Cj := List.filter (fun id => agrees (SensorDiscovery.inputBuf s2) id 0 j) D in
     Cj <> [] /\
     idBit (SensorDiscovery.inputBuf s2) j = choice (Z.of_nat d0 + 1) Cj j bt /\
     idBit (SensorDiscovery.fork s2) j
     = forksAt (Z.of_nat d0 + 1) Cj j || false) ->
  forall n, (n <= 64)%nat ->
    forall j, (j < n)%nat ->
      idBit (SensorDiscovery.inputBuf s2) j = idBit hi j /\
      idBit (SensorDiscovery.fork s2) j = false.
Proof.
  intros Hbt Hfacts. induction n as [|n IH]; intros Hn j Hj; [lia|].
  destruct (Nat.eq_dec j n) as [-> | Hjn]; [|apply IH; lia].
  destruct (Hfacts n ltac:(lia)) as (Hne & Hb & Hf). cbv zeta in Hne, Hb, Hf.
  set (Cn := List.filter (fun id => agrees (SensorDiscovery.inputBuf s2) id 0 n) D) in *.
  assert (Hhi : In hi Cn).
  { apply in_contenders. split; [apply D_members; auto|].
    intros i Hi. symmetry. apply IH; lia. }
  rewrite Hb, Hf, orb_false_r.
  destruct (Nat.lt_trichotomy n d0) as [Hlt | [-> | Hgt]].
  - apply (choice_unanimous _ _ _ _ (idBit hi n) Hne).
    intros c Hc. apply in_contenders in Hc as [Hc _].
    apply D_members in Hc as [-> | ->]; [now apply same_below | reflexivity].
  - assert (Hlo : In lo Cn).
    { apply in_contenders. split; [apply D_members; auto|].
      intros i Hi. rewrite same_below by lia. symmetry. apply IH; lia. }
    destruct (choice_conflict (Z.of_nat d0 + 1) Cn d0 bt lo hi Hlo lo_bit Hhi hi_bit)
      as [-> ->].
    replace (Z.of_nat d0 <=? Z.of_nat d0 + 1) with true by (symmetry; apply Z.leb_le; lia).
    rewrite Hbt by lia. rewrite Nat.ltb_irrefl, Nat.eqb_refl, hi_bit. auto.
  - apply (choice_unanimous _ _ _ _ (idBit hi n) Hne).
    intros c Hc. apply in_contenders in Hc as [Hc Hagree].
    apply D_members in Hc as [-> | ->]; [|reflexivity].
    exfalso. specialize (Hagree d0 ltac:(lia)).
    destruct (IH ltac:(lia) d0 Hgt) as [Hx _]. congruence.
Qed.

Lemma two_devices_found buf s :
  length buf = 8%nat ->
  exists s1 s2,
    SensorDiscovery.findNextDevice (devices D) (SensorDiscovery.begin buf s) = (0, s1) /\
    SensorDiscovery.inputBuf s1 = lo /\
    SensorDiscovery.findNextDevice (devices D) s1 = (0, s2) /\
    SensorDiscovery.inputBuf s2 = hi /\
    forall bus, SensorDiscovery.findNextDevice bus s2 = (1, s2).
Proof.
  intros Hbuf.
  destruct (first_search_least D buf s two_nonempty two_IDs Hbuf)
    as (s1 & Hrun1 & Hft1 & Hid1 & Hflen1 & Hin1 & Hmin1 & Hforks1).
  pose proof (two_first s1 Hin1 Hmin1) as Hx1.
  pose proof (two_forks s1 Hx1 Hforks1) as Hf1.
  destruct (resumed_search D s1 d0 two_nonempty Hid1 Hflen1 Hft1 d0_bound)
    as (s2 & bt & Hrun2 & Hft2 & Hid2 & Hflen2 & Hbt & Hfacts).
  { rewrite Hf1 by exact d0_bound. apply Nat.eqb_refl. }
  { intros j Hj. rewrite Hf1 by lia. apply Nat.eqb_neq. lia. }
  assert (Hall : forall j, (j < 64)%nat ->
                   idBit (SensorDiscovery.inputBuf s2) j = idBit hi j /\
                   idBit (SensorDiscovery.fork s2) j = false).
  { apply (two_second s2 bt) with (n := 64%nat); [|  | lia].
    - intros j Hj. rewrite Hbt by exact Hj. now rewrite Hx1.
    - intros j Hj. destruct (Hfacts j Hj) as (Hne & Hb & Hf). cbv zeta.
      split; [exact Hne|]. split; [exact Hb|]. rewrite Hf. f_equal.
      rewrite Hf1 by exact Hj. destruct (j =? d0)%nat; reflexivity. }
  exists s1, s2. split; [exact Hrun1|]. split; [exact Hx1|]. split; [exact Hrun2|].
  split.
  - apply bytes_ext; [exact Hid2 | exact hi_ID |]. intros j Hj. now apply Hall.
  - intros bus. apply exhausted_call; [exact Hft2|]. intros j Hj. now apply Hall.
Qed.

End TwoDevices.

(** X22: with exactly two devices on the line, the search finds both: the
    first call after [begin] returns 0 with the ID of the one, the second
    call returns 0 with the ID of the other, and every call after that
    returns 1 and leaves the buffer alone. *)
Theorem two_devices_are_both_found (a b buf : list Z) (s : SensorDiscovery.state) :
  isID a -> isID b -> a <> b -> length buf = 8%nat ->
  exists s1 s2,
    SensorDiscovery.findNextDevice (devices [a; b]) (SensorDiscovery.begin buf s)
    = (SensorDiscovery.Found, s1) /\
    SensorDiscovery.findNextDevice (devices [a; b]) s1 = (SensorDiscovery.Found, s2) /\
    ((SensorDiscovery.inputBuf s1 = a /\ SensorDiscovery.inputBuf s2 = b) \/
     (SensorDiscovery.inputBuf s1 = b /\ SensorDiscovery.inputBuf s2 = a)) /\
    forall bus, SensorDiscovery.findNextDevice bus s2 = (SensorDiscovery.Exhausted, s2).
Proof.
  intros Ha Hb Hne Hbuf.
  destruct (differ_somewhere a b Ha Hb Hne) as (d0 & Hd0 & Hpre & Hdiff).
  destruct (idBit a d0) eqn:Hbit.
  - assert (Hbb : idBit b d0 = false) by (destruct (idBit b d0); congruence).
    destruct (two_devices_found [a; b] b a d0) with (buf := buf) (s := s)
      as (s1 & s2 & H1 & Hx1 & H2 & Hx2 & H3); auto.
    + intros y. simpl. split; [intros [<- | [<- | []]]; auto | intros [-> | ->]; auto].
    + intros j Hj. symmetry. now apply Hpre.
    + exists s1, s2. split; [exact H1|]. split; [exact H2|].
      split; [right; auto | exact H3].
  - assert (Hbb : idBit b d0 = true) by (destruct (idBit b d0); congruence).
    destruct (two_devices_found [a; b] a b d0) with (buf := buf) (s := s)
      as (s1 & s2 & H1 & Hx1 & H2 & Hx2 & H3); auto.
    + intros y. simpl. split; [intros [<- | [<- | []]]; auto | intros [-> | ->]; auto].
    + exists s1, s2. split; [exact H1|]. split; [exact H2|].
      split; [left; auto | exact H3].
Qed.

Lemma two_devices_are_both_found_witness :
  isID sampleAddress /\ isID [0x10; 0; 0; 0; 0; 0; 0; 0x5A] /\
  sampleAddress <> [0x10; 0; 0; 0; 0; 0; 0; 0x5A] /\
  exists s1 s2,
    SensorDiscovery.findNextDevice (devices [sampleAddress; [0x10; 0; 0; 0; 0; 0; 0; 0x5A]])
      (SensorDiscovery.begin sampleAddress SensorDiscovery.exhaustedState)
    = (SensorDiscovery.Found, s1) /\
    SensorDiscovery.findNextDevice (devices [sampleAddress; [0x10; 0; 0; 0; 0; 0; 0; 0x5A]]) s1
    = (SensorDiscovery.Found, s2) /\
    ((SensorDiscovery.inputBuf s1 = sampleAddress /\
      SensorDiscovery.inputBuf s2 = [0x10; 0; 0; 0; 0; 0; 0; 0x5A]) \/
     (SensorDiscovery.inputBuf s1 = [0x10; 0; 0; 0; 0; 0; 0; 0x5A] /\
      SensorDiscovery.inputBuf s2 = sampleAddress)).
Proof.
  assert (Hid : isID sampleAddress)
    by (split; [reflexivity | repeat (apply List.Forall_cons; [lia|]); apply List.Forall_nil]).
  assert (Hid2 : isID [0x10; 0; 0; 0; 0; 0; 0; 0x5A])
    by (split; [reflexivity | repeat (apply List.Forall_cons; [lia|]); apply List.Forall_nil]).
  assert (Hne : sampleAddress <> [0x10; 0; 0; 0; 0; 0; 0; 0x5A]) by discriminate.
  split; [exact Hid|]. split; [exact Hid2|]. split; [exact Hne|].
  destruct (two_devices_are_both_found sampleAddress [0x10; 0; 0; 0; 0; 0; 0; 0x5A]
              sampleAddress SensorDiscovery.exhaustedState Hid Hid2 Hne eq_refl)
    as (s1 & s2 & H1 & H2 & Hx & _).
  exists s1, s2. auto.
Defined.

(** ** Three devices, two of them parting right after the fork point *)

Section ThreeDevices.

Variable D : list (list Z).
Variables a b c : list Z.
Variable d0 : nat.

Hypothesis D_members : forall y, In y D <-> y = a \/ y = b \/ y = c.
Hypothesis a_ID : isID a.
Hypothesis b_ID : isID b.
Hypothesis c_ID : isID c.
Hypothesis d0_bound : (S d0 < 64)%nat.
Hypothesis same_below_ab : forall j, (j < d0)%nat -> idBit a j = idBit b j.
Hypothesis same_below_cb : forall j, (j < d0)%nat -> idBit c j = idBit b j.
Hypothesis a_bit : idBit a d0 = false.
Hypothesis b_bit : idBit b d0 = true.
Hypothesis c_bit : idBit c d0 = true.
Hypothesis b_next : idBit b (S d0) = false.
Hypothesis c_next : idBit c (S d0) = true.

Lemma three_nonempty : D <> [].
Proof.
  intros HD. assert (Hin : In a D) by (apply D_members; auto).
  rewrite HD in Hin. destruct Hin.
Qed.

Lemma three_IDs : Forall isID D.
Proof.
  apply Forall_forall. intros y Hy. apply list_elem_of_In in Hy.
  apply D_members in Hy as [-> | [-> | ->]]; assumption.
Qed.

Lemma three_first s1 :
  In (SensorDiscovery.inputBuf s1) D ->
  (forall y, In y D -> y <> SensorDiscovery.inputBuf s1 ->
     exists d, (d < 64)%nat /\
               (forall j, (j < d)%nat -> idBit y j = idBit (SensorDiscovery.inputBuf s1) j) /\
               idBit (SensorDiscovery.inputBuf s1) d = false /\ idBit y d = true) ->
  SensorDiscovery.inputBuf s1 = a.
Proof.
  intros Hin Hmin.
  assert (Hother : forall x, idBit x d0 = true ->
                             (forall j, (j < d0)%nat -> idBit a j = idBit x j) ->
                             SensorDiscovery.inputBuf s1 = x -> False).
  { intros x Hxbit Hxpre Hx.
    assert (Hne : a <> SensorDiscovery.inputBuf s1).
    { rewrite Hx. intros Heq. rewrite Heq in a_bit. congruence. }
    destruct (Hmin a ltac:(apply D_members; auto) Hne) as (d & Hd & Hpre & Hxd & Had).
    rewrite Hx in Hpre, Hxd.
    destruct (Nat.lt_trichotomy d d0) as [Hlt | [-> | Hgt]].
    - rewrite (Hxpre d Hlt) in Had. congruence.
    - congruence.
    - rewrite (Hpre d0 Hgt) in a_bit. congruence. }
  apply D_members in Hin as [Hx | [Hx | Hx]]; [exact Hx | exfalso | exfalso].
  - apply (Hother b b_bit same_below_ab Hx).
  - apply (Hother c c_bit); [|exact Hx].
    intros j Hj. rewrite same_below_ab, same_below_cb by exact Hj. reflexivity.
Qed.

Lemma three_forks s1 :
  SensorDiscovery.inputBuf s1 = a ->
  (forall d, (d < 64)%nat ->
     (idBit (SensorDiscovery.fork s1) d = true <->
      idBit (SensorDiscovery.inputBuf s1) d = false /\
      exists y, In y D /\
                (forall j, (j < d)%nat -> idBit y j = idBit (SensorDiscovery.inputBuf s1) j) /\
                idBit y d = true)) ->
  forall d, (d < 64)%nat -> idBit (SensorDiscovery.fork s1) d = (d =? d0)%nat.
Proof.
  intros Hx Hforks d Hd. rewrite Hx in Hforks.
  destruct (Nat.eqb_spec d d0) as [-> | Hne].
  - apply Hforks; [exact Hd|]. split; [exact a_bit|].
    exists b. split; [apply D_members; auto|]. split; [|exact b_bit].
    intros j Hj. symmetry. now apply same_below_ab.
  - destruct (idBit (SensorDiscovery.fork s1) d) eqn:E; [|reflexivity]. exfalso.
    apply (Hforks d Hd) in E as (Had & y & Hy & Hpre & Hyd).
    destruct (Nat.lt_trichotomy d d0) as [Hlt | [Heq | Hgt]]; [|lia|].
    + apply D_members in Hy as [-> | [-> | ->]]; [congruence| |].
      * rewrite <- (same_below_ab d Hlt) in Hyd. congruence.
      * rewrite (same_below_cb d Hlt), <- (same_below_ab d Hlt) in Hyd. congruence.
    + specialize (Hpre d0 Hgt).
      apply D_members in Hy as [-> | [-> | ->]]; congruence.
Qed.

Lemma three_second s2 bt :
  (forall j, (j < 64)%nat -> idBit bt j = if (j <? d0)%nat then idBit a j else (j =? d0)%nat) ->
  (forall j, (j < 64)%nat ->
     let Cj := List.filter (fun id => agrees (SensorDiscovery.inputBuf s2) id 0 j) D in
     Cj <> [] /\
     idBit (SensorDiscovery.inputBuf s2) j = choice (Z.of_nat d0 + 1) Cj j bt /\
     idBit (SensorDiscovery.fork s2) j
     = forksAt (Z.of_nat d0 + 1) Cj j || false) ->
  forall n, (n <= 64)%nat ->
    forall j, (j < n)%nat ->
      idBit (SensorDiscovery.inputBuf s2) j = idBit b j /\
      idBit (SensorDiscovery.fork s2) j = false.
Proof.
  intros Hbt Hfacts. induction n as [|n IH]; intros Hn j Hj; [lia|].
  destruct (Nat.eq_dec j n) as [-> | Hjn]; [|apply IH; lia].
  destruct (Hfacts n ltac:(lia)) as (Hne & Hb & Hf). cbv zeta in Hne, Hb, Hf.
  set (Cn := List.filter (fun id => agrees (SensorDiscovery.inputBuf s2) id 0 n) D) in *.
  assert (Hbin : In b Cn).
  { apply in_contenders. split; [apply D_members; auto|].
    intros i Hi. symmetry. apply IH; lia. }
  rewrite Hb, Hf, orb_false_r.
  destruct (Nat.lt_trichotomy n d0) as [Hlt | [-> | Hgt]].
  - (* above the fork point all three go the same way *)
    apply (choice_unanimous _ _ _ _ (idBit b n) Hne).
    intros x Hx. apply in_contenders in Hx as [Hx _].
    apply D_members in Hx as [-> | [-> | ->]];
      [now apply same_below_ab | reflexivity | now apply same_below_cb].
  - (* at the fork point the ID bit set by the backtracking decides *)
    assert (Hain : In a Cn).
    { apply in_contenders. split; [apply D_members; auto|].
      intros i Hi. rewrite same_below_ab by lia. symmetry. apply IH; lia. }
    destruct (choice_conflict (Z.of_nat d0 + 1) Cn d0 bt a b Hain a_bit Hbin b_bit)
      as [-> ->].
    replace (Z.of_nat d0 <=? Z.of_nat d0 + 1) with true by (symmetry; apply Z.leb_le; lia).
    rewrite Hbt by lia. rewrite Nat.ltb_irrefl, Nat.eqb_refl, b_bit. auto.
  - destruct (Nat.eq_dec n (S d0)) as [-> | Hfar].
    + (* one deeper: a conflict again, and the cleared ID bit decides *)
      assert (Hcin : In c Cn).
      { apply in_contenders. split; [apply D_members; auto|].
        intros i Hi. destruct (IH ltac:(lia) i ltac:(lia)) as [-> _].
        destruct (Nat.eq_dec i d0) as [-> | Hid]; [congruence|].
        apply same_below_cb. lia. }
      destruct (choice_conflict (Z.of_nat d0 + 1) Cn (S d0) bt b c Hbin b_next Hcin c_next)
        as [-> ->].
      replace (Z.of_nat (S d0) <=? Z.of_nat d0 + 1) with true
        by (symmetry; apply Z.leb_le; lia).
      rewrite Hbt by lia.
      replace (S d0 <? d0)%nat with false by (symmetry; apply Nat.ltb_ge; lia).
      replace (S d0 =? d0)%nat with false by (symmetry; apply Nat.eqb_neq; lia).
      rewrite b_next. auto.
    + (* below: only b is left *)
      apply (choice_unanimous _ _ _ _ (idBit b n) Hne).
      intros x Hx. apply in_contenders in Hx as [Hx Hagree].
      apply D_members in Hx as [-> | [-> | ->]]; [exfalso | reflexivity | exfalso].
      * specialize (Hagree d0 ltac:(lia)).
        destruct (IH ltac:(lia) d0 ltac:(lia)) as [Hx2 _]. congruence.
      * specialize (Hagree (S d0) ltac:(lia)).
        destruct (IH ltac:(lia) (S d0) ltac:(lia)) as [Hx2 _]. congruence.
Qed.

Lemma three_devices_found buf s :
  length buf = 8%nat ->
  exists s1 s2,
    SensorDiscovery.findNextDevice (devices D) (SensorDiscovery.begin buf s) = (0, s1) /\
    SensorDiscovery.inputBuf s1 = a /\
    SensorDiscovery.findNextDevice (devices D) s1 = (0, s2) /\
    SensorDiscovery.inputBuf s2 = b /\
    forall bus, SensorDiscovery.findNextDevice bus s2 = (1, s2).
Proof.
  intros Hbuf.
  destruct (first_search_least D buf s three_nonempty three_IDs Hbuf)
    as (s1 & Hrun1 & Hft1 & Hid1 & Hflen1 & Hin1 & Hmin1 & Hforks1).
  pose proof (three_first s1 Hin1 Hmin1) as Hx1.
  pose proof (three_forks s1 Hx1 Hforks1) as Hf1.
  destruct (resumed_search D s1 d0 three_nonempty Hid1 Hflen1 Hft1 ltac:(lia))
    as (s2 & bt & Hrun2 & Hft2 & Hid2 & Hflen2 & Hbt & Hfacts).
  { rewrite Hf1 by lia. apply Nat.eqb_refl. }
  { intros j Hj. rewrite Hf1 by lia. apply Nat.eqb_neq. lia. }
  assert (Hall : forall j, (j < 64)%nat ->
                   idBit (SensorDiscovery.inputBuf s2) j = idBit b j /\
                   idBit (SensorDiscovery.fork s2) j = false).
  { apply (three_second s2 bt) with (n := 64%nat); [|  | lia].
    - intros j Hj. rewrite Hbt by exact Hj. now rewrite Hx1.
    - intros j Hj. destruct (Hfacts j Hj) as (Hne & Hb & Hf). cbv zeta.
      split; [exact Hne|]. split; [exact Hb|]. rewrite Hf. f_equal.
      rewrite Hf1 by exact Hj. destruct (j =? d0)%nat; reflexivity. }
  exists s1, s2. split; [exact Hrun1|]. split; [exact Hx1|]. split; [exact Hrun2|].
  split.
  - apply bytes_ext; [exact Hid2 | exact b_ID |]. intros j Hj. now apply Hall.
  - intros bus. apply exhausted_call; [exact Hft2|]. intros j Hj. now apply Hall.
Qed.

End ThreeDevices.

(** X23: three devices [a], [b] and [c] whose IDs have the same bits
    below depth [d0], where [a] has a 0 and [b] and [c] a 1, and where [b]
    and [c] part at the very next depth: the search reports [a], then [b],
    and from the third call on it returns 1.  The call that resumes at the
    fork point [d0] follows the cleared ID bit at depth [d0 + 1] without
    marking a fork point there, so [c] is not reported. *)
Theorem third_device_is_not_reported (a b c buf : list Z) (d0 : nat)
        (s : SensorDiscovery.state) :
  isID a -> isID b -> isID c ->
  (S d0 < 64)%nat ->
  (forall j, (j < d0)%nat -> idBit a j = idBit b j /\ idBit c j = idBit b j) ->
  idBit a d0 = false -> idBit b d0 = true -> idBit c d0 = true ->
  idBit b (S d0) = false -> idBit c (S d0) = true ->
  length buf = 8%nat ->
  exists s1 s2,
    SensorDiscovery.findNextDevice (devices [a; b; c]) (SensorDiscovery.begin buf s)
    = (SensorDiscovery.Found, s1) /\
    SensorDiscovery.inputBuf s1 = a /\
    SensorDiscovery.findNextDevice (devices [a; b; c]) s1 = (SensorDiscovery.Found, s2) /\
    SensorDiscovery.inputBuf s2 = b /\
    (forall bus, SensorDiscovery.findNextDevice bus s2 = (SensorDiscovery.Exhausted, s2)) /\
    c <> a /\ c <> b.
Proof.
  intros Ha Hb Hc Hd0 Hpre Ha0 Hb0 Hc0 Hb1 Hc1 Hbuf.
  destruct (three_devices_found [a; b; c] a b c d0) with (buf := buf) (s := s)
    as (s1 & s2 & H1 & Hx1 & H2 & Hx2 & H3); auto.
  - intros y. simpl.
    split; [intros [<- | [<- | [<- | []]]]; auto | intros [-> | [-> | ->]]; auto].
  - intros j Hj. apply Hpre, Hj.
  - intros j Hj. apply Hpre, Hj.
  - exists s1, s2. repeat split; auto.
    + intros Heq. rewrite Heq in Hc0. congruence.
    + intros Heq. rewrite Heq in Hc1. congruence.
Qed.

Lemma third_device_is_not_reported_witness :
  isID [0x28; 1; 2; 3; 4; 5; 6; 7] /\
  isID [0x01; 1; 2; 3; 4; 5; 6; 9] /\
  isID [0x03; 1; 2; 3; 4; 5; 6; 9] /\
  exists s1 s2,
    SensorDiscovery.findNextDevice
      (devices [[0x28; 1; 2; 3; 4; 5; 6; 7]; [0x01; 1; 2; 3; 4; 5; 6; 9];
                [0x03; 1; 2; 3; 4; 5; 6; 9]])
      (SensorDiscovery.begin sampleAddress SensorDiscovery.exhaustedState)
    = (SensorDiscovery.Found, s1) /\
    SensorDiscovery.inputBuf s1 = [0x28; 1; 2; 3; 4; 5; 6; 7] /\
    SensorDiscovery.findNextDevice
      (devices [[0x28; 1; 2; 3; 4; 5; 6; 7]; [0x01; 1; 2; 3; 4; 5; 6; 9];
                [0x03; 1; 2; 3; 4; 5; 6; 9]]) s1
    = (SensorDiscovery.Found, s2) /\
    SensorDiscovery.inputBuf s2 = [0x01; 1; 2; 3; 4; 5; 6; 9] /\
    forall bus, SensorDiscovery.findNextDevice bus s2 = (SensorDiscovery.Exhausted, s2).
Proof.
  assert (Ha : isID [0x28; 1; 2; 3; 4; 5; 6; 7])
    by (split; [reflexivity | repeat (apply List.Forall_cons; [lia|]); apply List.Forall_nil]).
  assert (Hb : isID [0x01; 1; 2; 3; 4; 5; 6; 9])
    by (split; [reflexivity | repeat (apply List.Forall_cons; [lia|]); apply List.Forall_nil]).
  assert (Hc : isID [0x03; 1; 2; 3; 4; 5; 6; 9])
    by (split; [reflexivity | repeat (apply List.Forall_cons; [lia|]); apply List.Forall_nil]).
  split; [exact Ha|]. split; [exact Hb|]. split; [exact Hc|].
  destruct (third_device_is_not_reported
              [0x28; 1; 2; 3; 4; 5; 6; 7] [0x01; 1; 2; 3; 4; 5; 6; 9]
              [0x03; 1; 2; 3; 4; 5; 6; 9] sampleAddress 0 SensorDiscovery.exhaustedState
              Ha Hb Hc ltac:(lia) ltac:(intros j Hj; lia)
              eq_refl eq_refl eq_refl eq_refl eq_refl eq_refl)
    as (s1 & s2 & H1 & Hx1 & H2 & Hx2 & H3 & _).
  exists s1, s2. auto.
Defined.

(** * Flags that stay *)

Lemma istep_sticky bus i r q r' :
  istep bus i r = Some (q, r') ->
  (Z.testbit (status r) 1 = true -> Z.testbit (status r') 1 = true) /\
  (ledAlert r = true -> ledAlert r' = true).
Proof.
  intros Hstep. destruct i; cbn [istep] in Hstep; cbv zeta in Hstep;
    split_bus bus Hstep; split_ifs Hstep; split_opts Hstep;
    try discriminate Hstep; injection Hstep as <- <-;
    try (split; intros H; exact H).
  - (* WaitForBusRelease on a released line *)
    split; [|intros H; exact H]. intros H.
    cbn [status set_status]. rewrite byte_testbit, Z.land_spec by lia.
    change (status (logEvent (SampleBus true) (logEvent ReleaseBus r))) with (status r).
    rewrite H. reflexivity.
  - (* ClearBusyStatus *)
    split; [|intros H; exact H]. intros H.
    cbn [status set_status]. rewrite byte_testbit, Z.land_spec by lia.
    rewrite H. reflexivity.
  - (* BusSample with no device *)
    split; [|reflexivity]. intros _.
    cbn [status set_status set_ledAlert]. rewrite Z.lor_spec.
    change (Z.testbit NoDeviceOnBus 1) with true. apply orb_true_r.
Qed.

Lemma reachable_plain bus s :
  reachable bus s ->
  wf s /\ invWith 17 (fun _ => True) (fun _ => True) (toList s).
Proof.
  intros Hreach.
  apply (reachable_invWith bus 17 (fun _ => True) (fun _ => True));
    try (unfold stackSize; lia); auto.
  - intros i r q r' _ _ _ _. split; [apply Forall_forall|]; auto.
  - intros repeats. repeat constructor.
Qed.

Lemma slice_keeps bus (P : Regs -> Prop) s fuel t s' :
  (forall i r q r', P r -> istep bus i r = Some (q, r') -> P r') ->
  reachable bus s -> P (regs s) ->
  doTimeslice bus fuel s = Some (t, s') -> P (regs s').
Proof.
  intros Hstep Hreach HP Hrun.
  destruct (reachable_plain bus s Hreach) as [Hwf (p & Hst & Hfit & Hok & Hidx & _ & _)].
  assert (Hinv : invWith 17 (fun _ => True) P (toList s)).
  { exists p. repeat split; auto. apply Forall_forall. auto. }
  destruct (invWith_slice bus 17 (fun _ => True) P ltac:(unfold stackSize; lia)
              ltac:(intros i r q r' _ Hr Hi _; split;
                    [apply Forall_forall; auto | eapply Hstep; eassumption])
              s fuel t s' Hwf Hinv Hrun)
    as (_ & (p' & _ & _ & _ & _ & _ & HP') & _).
  exact HP'.
Qed.

Lemma session_regs (m : M machine unit) (m2 : M lmachine unit) s l r :
  simM m m2 -> wf s -> m2 (toList s) = Next tt (mkL l r) ->
  regs (stateOf (m s)) = r.
Proof.
  intros Hsim Hwf Hm2.
  destruct (session_from_list m m2 s _ Hsim Hwf Hm2) as (s' & Hs & Hv).
  rewrite Hs. simpl. now destruct (view_fields _ _ _ Hv).
Qed.

(** X24: no timeslice takes [NoDeviceOnBus] out of the status once a
    reset has put it there, and nothing the class does ever switches the
    alert LED off again: not a timeslice, and not a session call, which
    starts the status afresh but leaves the LED as it is. *)
Theorem alerts_stay (bus : list BusEvent -> bool) (s : machine) :
  reachable bus s ->
  (forall fuel tics s',
      doTimeslice bus fuel s = Some (tics, s') ->
      (Z.testbit (getStatus s) 1 = true -> Z.testbit (getStatus s') 1 = true) /\
      (ledAlert (regs s) = true -> ledAlert (regs s') = true)) /\
  ledAlert (regs (stateOf (resetAsync s))) = ledAlert (regs s) /\
  ledAlert (regs (stateOf (convertAllTemperaturesAsync s))) = ledAlert (regs s) /\
  (forall addr pad,
      ledAlert (regs (stateOf (readScratchpadAsync addr pad s))) = ledAlert (regs s)) /\
  (forall repeats,
      ledAlert (regs (stateOf (doTestTimings repeats s))) = ledAlert (regs s)) /\
  getStatus (stateOf (resetAsync s)) = StillBusy /\
  getStatus (stateOf (convertAllTemperaturesAsync s)) = DevicesAreBusy.
Proof.
  intros Hreach. destruct (reachable_plain bus s Hreach) as [Hwf _].
  split; [|repeat split].
  - intros fuel tics s' Hrun. split; intros H.
    + apply (slice_keeps bus (fun r => Z.testbit (status r) 1 = true) s fuel tics s');
        auto.
      intros i r q r' Hr Hstep. now apply (istep_sticky _ _ _ _ _ Hstep).
    + apply (slice_keeps bus (fun r => ledAlert r = true) s fuel tics s'); auto.
      intros i r q r' Hr Hstep. now apply (istep_sticky _ _ _ _ _ Hstep).
  - now rewrite (session_regs _ _ s _ _ sim_resetAsync Hwf (L_resetAsync _ _)).
  - now rewrite (session_regs _ _ s _ _ sim_convertAllTemperaturesAsync Hwf
                   (L_convertAllTemperaturesAsync _ _)).
  - intros addr pad.
    now rewrite (session_regs _ _ s _ _ (sim_readScratchpadAsync addr pad) Hwf
                   (L_readScratchpadAsync _ _ _ _)).
  - intros repeats.
    now rewrite (session_regs _ _ s _ _ (sim_doTestTimings repeats) Hwf
                   (L_doTestTimings _ _ _)).
  - unfold getStatus. simpl getRegs.
    now rewrite (session_regs _ _ s _ _ sim_resetAsync Hwf (L_resetAsync _ _)).
  - unfold getStatus. simpl getRegs.
    now rewrite (session_regs _ _ s _ _ sim_convertAllTemperaturesAsync Hwf
                   (L_convertAllTemperaturesAsync _ _)).
Qed.

Lemma alerts_stay_witness :
  reachable idleBus (Nat.iter 3 (oneInterrupt idleBus) (stateOf (resetAsync powerOn))) /\
  getStatus (Nat.iter 3 (oneInterrupt idleBus) (stateOf (resetAsync powerOn)))
  = Z.lor StillBusy NoDeviceOnBus /\
  ledAlert (regs (Nat.iter 3 (oneInterrupt idleBus) (stateOf (resetAsync powerOn))))
  = true /\
  doTimeslice idleBus 23 (Nat.iter 3 (oneInterrupt idleBus) (stateOf (resetAsync powerOn)))
  = Some (255, snd (default (0, powerOn)
                      (doTimeslice idleBus 23
                         (Nat.iter 3 (oneInterrupt idleBus)
                                   (stateOf (resetAsync powerOn)))))) /\
  Z.testbit (getStatus
               (snd (default (0, powerOn)
                       (doTimeslice idleBus 23
                          (Nat.iter 3 (oneInterrupt idleBus)
                                    (stateOf (resetAsync powerOn))))))) 1 = true /\
  ledAlert (regs (snd (default (0, powerOn)
                         (doTimeslice idleBus 23
                            (Nat.iter 3 (oneInterrupt idleBus)
                                      (stateOf (resetAsync powerOn))))))) = true.
Proof.
  assert (Hreach : reachable idleBus
                     (Nat.iter 3 (oneInterrupt idleBus) (stateOf (resetAsync powerOn))))
    by (apply reachable_interrupts, reach_reset, reach_powerOn).
  assert (Hst : getStatus (Nat.iter 3 (oneInterrupt idleBus) (stateOf (resetAsync powerOn)))
                = Z.lor StillBusy NoDeviceOnBus)
    by (vm_compute; reflexivity).
  assert (Hled : ledAlert (regs (Nat.iter 3 (oneInterrupt idleBus)
                                          (stateOf (resetAsync powerOn)))) = true)
    by (vm_compute; reflexivity).
  assert (Hrun : doTimeslice idleBus 23
                   (Nat.iter 3 (oneInterrupt idleBus) (stateOf (resetAsync powerOn)))
                 = Some (255, snd (default (0, powerOn)
                                     (doTimeslice idleBus 23
                                        (Nat.iter 3 (oneInterrupt idleBus)
                                                  (stateOf (resetAsync powerOn)))))))
    by (vm_compute; reflexivity).
  assert (Hbit : Z.testbit (getStatus (Nat.iter 3 (oneInterrupt idleBus)
                                                (stateOf (resetAsync powerOn)))) 1 = true)
    by (rewrite Hst; reflexivity).
  split; [exact Hreach|]. split; [exact Hst|]. split; [exact Hled|].
  split; [exact Hrun|].
  destruct (alerts_stay idleBus _ Hreach) as (Hslice & _).
  destruct (Hslice 23%nat 255 _ Hrun) as (Hkeep & Hledkeep).
  split; [exact (Hkeep Hbit) | exact (Hledkeep Hled)].
Defined.

(** * What a search puts on the line *)

Lemma totalDelay_app l1 l2 : totalDelay (l1 ++ l2) = totalDelay l1 + totalDelay l2.
Proof.
  induction l1 as [|e l1 IH]; [reflexivity|].
  destruct e; simpl; rewrite IH; lia.
Qed.

Lemma round_line bus frozen d cr s cr' s' :
  SensorDiscovery.searchRound bus frozen d cr s = (None, cr', s') ->
  exists r, roundOK r = true /\
            SensorDiscovery.line s' = SensorDiscovery.line s ++ roundLine r.
Proof.
  rewrite searchRound_reads. cbv zeta.
  set (slot := [PullLow; DelayUs 6; ReleaseBus; DelayUs 9]).
  set (b1 := bus (SensorDiscovery.line s ++ slot)).
  set (l1 := SensorDiscovery.line s ++ SensorDiscovery.readBitLine b1).
  set (b0 := bus (l1 ++ slot)).
  intros Hround.
  assert (Hline : exists ch : bool,
             roundOK (b1, b0, ch) = true /\
             SensorDiscovery.line s'
             = (l1 ++ SensorDiscovery.readBitLine b0) ++ SensorDiscovery.sendBitLine ch).
  { destruct b1, b0;
      cbn [Z.b2z Z.shiftl Z.lor Pos.iter Z.mul Pos.mul Z.eqb Pos.eqb Pos.lor] in Hround.
    - discriminate Hround.
    - injection Hround as _ <-. exists true. now rewrite (sendBit_eq true).
    - injection Hround as _ <-. exists false. now rewrite (sendBit_eq false).
    - destruct (d <=? frozen).
      + destruct (SensorDiscovery.isBitInID d _);
          cbn [Z.b2z Z.eqb Pos.eqb] in Hround; injection Hround as _ <-.
        * exists true. now rewrite (sendBit_eq true).
        * exists false. now rewrite (sendBit_eq false).
      + cbn [Z.eqb] in Hround. injection Hround as _ <-.
        exists false. now rewrite (sendBit_eq false). }
  destruct Hline as (ch & Hok & Hline).
  exists (b1, b0, ch). split; [exact Hok|].
  rewrite Hline. unfold l1, roundLine. now rewrite <- !app_assoc.
Qed.

Lemma roundLine_cost r :
  totalDelay (roundLine r) = 220 /\ countSamples (roundLine r) = 2%nat /\
  forall drv, sampledReleased drv (roundLine r) = true /\
              drivingAfter drv (roundLine r) = false.
Proof.
  destruct r as [[b1 b0] ch].
  destruct b1, b0, ch; repeat split; try reflexivity; destruct drv; reflexivity.
Qed.

Lemma rounds_cost rs :
  totalDelay (concat (map roundLine rs)) = 220 * Z.of_nat (length rs) /\
  countSamples (concat (map roundLine rs)) = (2 * length rs)%nat /\
  forall drv, sampledReleased drv (concat (map roundLine rs)) = true.
Proof.
  induction rs as [|r rs (IHd & IHc & IHs)]; [repeat split; reflexivity|].
  destruct (roundLine_cost r) as (Hd & Hc & Hs).
  cbn [map concat length].
  rewrite totalDelay_app, countSamples_app, Hd, Hc, IHd, IHc.
  repeat split; try lia.
  intros drv. rewrite sampledReleased_app.
  destruct (Hs drv) as [-> _]. apply IHs.
Qed.

Lemma round_code bus frozen d cr s code cr' s' :
  SensorDiscovery.searchRound bus frozen d cr s = (Some code, cr', s') -> code = 2.
Proof.
  rewrite searchRound_reads. cbv zeta.
  destruct (bus _), (bus _);
    cbn [Z.b2z Z.shiftl Z.lor Pos.iter Z.mul Pos.mul Z.eqb Pos.eqb Pos.lor];
    try destruct (d <=? frozen); try destruct (SensorDiscovery.isBitInID d _);
    cbn [Z.b2z Z.eqb Pos.eqb]; intros Hround;
    try discriminate Hround.
  all: injection Hround as <- _ _; reflexivity.
Qed.

Lemma loop_line bus frozen : forall n d cr s s',
  SensorDiscovery.searchLoop bus n frozen d cr s = (0, s') ->
  exists rs, length rs = n /\ forallb roundOK rs = true /\
             SensorDiscovery.line s'
             = SensorDiscovery.line s ++ concat (map roundLine rs).
Proof.
  induction n as [|n IH]; intros d cr s s' Hrun.
  - injection Hrun as <-. exists []. rewrite app_nil_r. repeat split; reflexivity.
  - cbn [SensorDiscovery.searchLoop] in Hrun.
    destruct (SensorDiscovery.searchRound bus frozen d cr s) as [[[code|] cr1] s1] eqn:Hround.
    + injection Hrun as Hcode _.
      rewrite (round_code _ _ _ _ _ _ _ _ Hround) in Hcode. discriminate Hcode.
    + destruct (round_line _ _ _ _ _ _ _ Hround) as (r & Hok & Hl1).
      destruct (IH _ _ _ _ Hrun) as (rs & Hlen & Hoks & Hl2).
      exists (r :: rs). cbn [length forallb map concat].
      rewrite Hlen, Hok, Hoks, Hl2, Hl1, <- app_assoc. repeat split.
Qed.

Lemma unsetBitsFrom_line (n : nat) : forall from s,
  SensorDiscovery.line (SensorDiscovery.unsetBitsFrom n from s) = SensorDiscovery.line s.
Proof.
  induction n as [|n IH]; intros from s; [reflexivity|].
  cbn [SensorDiscovery.unsetBitsFrom]. now rewrite IH.
Qed.

(** X25: what a call of [findNextDevice] that returns 0 has put on the
    line, whatever the line read back on the way: exactly the reset with
    its presence sample low, the eight write slots of the command 0xF0 and
    64 rounds, each of two read slots and the write slot of the bit sent.
    No round read 11, and where the two readings of a round differ the bit
    sent is the first of them.  That is 129 samples, each taken with the
    line released, and 15600 microseconds spent in delays. *)
Theorem successful_search_on_the_line (bus : list BusEvent -> bool)
        (s s' : SensorDiscovery.state) :
  SensorDiscovery.findNextDevice bus s = (SensorDiscovery.Found, s') ->
  exists rounds : list (bool * bool * bool),
    length rounds = 64%nat /\
    forallb roundOK rounds = true /\
    SensorDiscovery.line s' = SensorDiscovery.line s ++ searchLine rounds /\
    countSamples (searchLine rounds) = 129%nat /\
    totalDelay (searchLine rounds) = 15600 /\
    forall drv, sampledReleased drv (searchLine rounds) = true.
Proof.
  intros Hcall.
  assert (Hsearch : forall frozen s0,
             SensorDiscovery.line s0 = SensorDiscovery.line s ->
             SensorDiscovery.searchFrom bus frozen s0 = (0, s') ->
             exists rounds,
               length rounds = 64%nat /\ forallb roundOK rounds = true /\
               SensorDiscovery.line s' = SensorDiscovery.line s ++ searchLine rounds).
  { intros frozen s0 Hl0 Hrun. unfold SensorDiscovery.searchFrom in Hrun.
    rewrite Reset_eq in Hrun. cbv zeta in Hrun.
    destruct (bus _); cbn [Z.b2z Z.eqb negb] in Hrun; [discriminate Hrun|].
    unfold SensorDiscovery.sendByte in Hrun. rewrite sendBits_line in Hrun.
    destruct (loop_line _ _ _ _ _ _ _ Hrun) as (rs & Hlen & Hoks & Hl).
    exists rs. cbn [SensorDiscovery.line SensorDiscovery.set_line] in Hl.
    unfold searchLine. rewrite Hl, Hl0, <- !app_assoc. repeat split; auto. }
  assert (Hrounds : exists rounds,
             length rounds = 64%nat /\ forallb roundOK rounds = true /\
             SensorDiscovery.line s' = SensorDiscovery.line s ++ searchLine rounds).
  { unfold SensorDiscovery.findNextDevice in Hcall.
    destruct (SensorDiscovery.firstTime s).
    - apply (Hsearch _ (SensorDiscovery.set_firstTime false s) eq_refl Hcall).
    - destruct (SensorDiscovery.findLastForkPoint s <? 0) eqn:Hneg;
        [discriminate Hcall|].
      eapply Hsearch; [|exact Hcall].
      unfold SensorDiscovery.backtrack. cbv zeta.
      cbn [SensorDiscovery.line SensorDiscovery.setBitInID SensorDiscovery.unsetForkPoint
             SensorDiscovery.set_inputBuf SensorDiscovery.set_fork].
      apply unsetBitsFrom_line. }
  destruct Hrounds as (rounds & Hlen & Hoks & Hl).
  destruct (rounds_cost rounds) as (Hd & Hc & Hs).
  exists rounds. split; [exact Hlen|]. split; [exact Hoks|]. split; [exact Hl|].
  unfold searchLine.
  rewrite !countSamples_app, !totalDelay_app, Hd, Hc, Hlen. repeat split.
  intros drv. rewrite !sampledReleased_app.
  destruct drv; simpl; apply Hs.
Qed.

Lemma successful_search_on_the_line_witness :
  SensorDiscovery.findNextDevice (devices [sampleAddress]) SensorDiscovery.forkedState
  = (SensorDiscovery.Found,
     snd (SensorDiscovery.findNextDevice (devices [sampleAddress])
            SensorDiscovery.forkedState)) /\
  exists rounds : list (bool * bool * bool),
    length rounds = 64%nat /\
    SensorDiscovery.line
      (snd (SensorDiscovery.findNextDevice (devices [sampleAddress])
              SensorDiscovery.forkedState))
    = SensorDiscovery.line SensorDiscovery.forkedState ++ searchLine rounds /\
    countSamples (searchLine rounds) = 129%nat /\
    totalDelay (searchLine rounds) = 15600.
Proof.
  assert (Hcall : SensorDiscovery.findNextDevice (devices [sampleAddress])
                    SensorDiscovery.forkedState
                  = (SensorDiscovery.Found,
                     snd (SensorDiscovery.findNextDevice (devices [sampleAddress])
                            SensorDiscovery.forkedState)))
    by (vm_compute; reflexivity).
  split; [exact Hcall|].
  destruct (successful_search_on_the_line _ _ _ Hcall) as (rounds & Hlen & _ & Hl & Hc & Hd & _).
  exists rounds. repeat split; assumption.
Defined.
